(* ===== verification/_CoqProject ===== *)
-Q . S2P
Prelude.v
Evm.v
Erc721.v
NFTCollection.v
MarketStorage.v
Marketplace.v
Search.v
Chain.v
Trace.v
ChainFacts.v
EnvLaws.v
MarketFacts.v
Steps.v
Invariants.v
Money.v
Purchases.v
Safety.v
Sales.v
Supply.v
Ledger.v
Custody.v
Minting.v
Words.v
Spec.v
Refine.v
Realise.v
Numbers.v
Js.v
ErrorMiddleware.v
Validation.v
Models.v
CollectionService.v
NftService.v
Config.v
Email.v
Blockchain.v
Nonces.v
App.v
Requests.v
Scripts.v
ScriptFacts.v
Archive.v
ArchiveFacts.v
ArchiveSafety.v
ArchiveHistory.v
ArchiveEscrow.v
House.v
HouseRefine.v
ArchiveOffers.v
HouseRealise.v
