(* ===== verification/Prelude.v ===== *)
(** * OpenBeach NFT marketplace back end: verification library

    ** The program

    The repository is the back end of an NFT marketplace.  Its parts:

    - two Solidity contracts, contracts/NFTMarketplace.sol (registry of
      collections, listings, sales, auctions, offers, search) and
      contracts/NFTCollection.sol (one ERC721 contract per collection, deployed
      by the marketplace, on OpenZeppelin's ERC721 and Ownable);
    - an Express application, src/: routes, controllers and middlewares, which
      call services (collections, NFTs, IPFS and Pinata, mail, chain access),
      which call mongoose models, ethers, web3 and nodemailer;
    - hardhat scripts that deploy the contracts and drive them, scripts/,
      deploy/ and utils/;
    - kept as comments below the three services src/services/nft.service.js,
      blockchain.service.js and collection.service.js: an older auction
      contract, the one those services were written against; and, as comments,
      all of src/services/ipfs.service.js.

    The services call the contracts through ethers; the marketplace deploys the
    collections and moves their tokens; a mint of a collection calls back into
    the marketplace to record the new supply; the receiver of a minted token
    may be a contract that calls anything.

    ** How the code is modelled

    Solidity code runs in [M evm_error S] (this file and Evm): it reads and
    writes a state and either returns or reverts, and a revert carries no
    state.  Words are integers, additions checked against 2^256 - 1 as Solidity
    0.8 checks them, OpenZeppelin's unchecked balances modulo 2^256; mappings
    are finite maps that answer zero for a key never written ([m.[k]]); array
    accesses out of range are [PanicBounds].

    JavaScript runs in [js] (Js): it returns or throws, and keeps the history of
    its outside calls either way.  What the outside answers (database, chain,
    logger, mailer) is one oracle, a function of the history and the call, over
    which the theorems quantify.  Values are dynamic: property access on
    undefined throws, truthiness and [||] are JavaScript's.

    ** Files

    Contracts.
    - Evm: words, revert reasons, messages, arrays, sums of amounts.
    - Erc721: OpenZeppelin's ERC721 with token URIs, from the compiler input in
      deployment/localhost/solcInputs.  NFTCollection: contracts/NFTCollection.sol.
    - MarketStorage: structs and storage of contracts/NFTMarketplace.sol, and the
      class [ChainEnv] (with its laws [ChainEnvLaws]), which is what the
      marketplace uses of the rest of the chain.  Marketplace: its functions, in
      the order of the file.  Search: its search.
    - Chain: both contracts and all balances in one [World]; [exec] dispatches a
      transaction; [evolves] and [reachable] are the steps of the chain, with
      arbitrary code as the receiver's callback.  Trace: transactions in
      sequence, and the concrete deployment [demo] the witnesses use.
    - ChainFacts and EnvLaws: the collections stay well-formed, and [Env_laws]
      discharges [ChainEnvLaws] for the concrete chain.  MarketFacts: the effect
      of each successful call, by inversion.  Steps: a transaction with its
      callbacks is a sequence of atomic steps, so an invariant is proved once
      per atomic step ([evolves_invariant]).
    - Invariants (registry, escrow), Money (backing), Purchases (the page of
      purchased items), Supply (recorded supply), Ledger (the tokens of a
      collection and who owns how many), Custody (a token at rest stays with its
      owner): the invariants.  Safety puts the first together from the deployment
      on.  Sales and Minting: the calls go through, with their exact outcome.
      Words: the types of the stored data, and the bounds of the refund counters.
    - Spec: the market as its users understand it, with no escrow and no storage
      layout, as executable labelled steps ([spec_exec]) up to equality of what
      everybody has; Refine: the contracts implement it, announced by the same
      events, and what Spec promises transported to them; Realise: the trades
      Spec allows go through.

    Back end.
    - Numbers: doubles, how strings are read as numbers and numbers written.
      Js: values, strings, histories, counting of outside calls ([spends],
      [at_most]), what a block throws ([throws]).
    - ErrorMiddleware, Validation, Models, CollectionService, NftService, Config,
      Email, Blockchain, App: the files under src/ each names in its head.
      The classes and exports of the modules are records of their functions
      ([EmailService], [blockchain_module], ...).  Requests: a request through all
      the layers of App, with packages that answer, refuse or pass on
      ([conduct]).  Nonces: two mints of Blockchain interleaved against one node
      with its pending transactions.
    - Scripts: the hardhat scripts, run against [World]; ScriptFacts: what they
      do to it.

    Archived contract.
    - Archive: the contract in the comments; ArchiveFacts: effects, accounting
      ([owed]) and invariant; ArchiveSafety: refunds, pages, what goes wrong;
      ArchiveHistory: the life of one item, from its creation to its sale, and
      what its price history tells; ArchiveEscrow: with token contracts that obey
      [ArchiveEnvLaws], the tokens of unsold items are there to be delivered.
    - House: the auction house the archived contract promises (lots, credits, what
      each action pays), as executable labelled steps ([house_exec]); HouseRefine:
      the contract implements it, call by call, and what House promises
      transported to it.  ArchiveOffers: when an offer can be accepted.
      HouseRealise: what the house allows, the contract does.

    ** What is proved

    - Marketplace, in every reachable state: tokens on sale are in escrow; the
      balance covers fees, offers, refunds and bids; the three indexes of the
      registry agree; the recorded supply is the collection's; the tokens of a
      collection are 1 to its supply and the balances count them; nobody takes
      a token from an account that gave nobody power over it; the list pages
      return exactly what they should.  Collections, mints, listings, sales and
      bids go through under their conditions, with all their effects.  The byte
      search is substring search without letter case, the two-pass search is a
      filter, the floor price is the minimum.
    - The contracts implement the abstract market: every evolution is a run of
      it between the two markets the states stand for, with the same trades in
      the same order; conversely each trade it allows goes through when asked
      for, under the conditions it does not speak of.  So the events tell who
      sells what at which price, and a fixed-price listing ends only in an
      announced sale.  Every stored number is a word, and a bid that beats the
      standing one is never refused.
    - What the marketplace lacks, as theorems: no ether ever leaves it beyond
      the price of a sale, auctions never end, a sold item can be auctioned by
      its former seller, a second listing of a token breaks a buyer's page.
    - Back end: unexpected errors stay hidden in production and known ones are
      answered as intended, one response at most; the creation of a collection
      makes exactly the intended outside calls and fails as intended; every
      request of the application is answered exactly once, by a package, a
      handler or the error middleware, and a refused collection costs no outside
      call; minting records the token it minted, but cannot succeed with the
      upload module as it is; two mints that both read the transaction count
      before either is mined never both succeed; retries are bounded; passwords
      as long as the schema asks round-trip through the hash, and shorter ones are
      not stored.
    - Scripts: the supply check never fails; one script stops before it mints;
      the back end's categories are none of the contract's.
    - Archived contract, in every history whose sales name created items: outbid
      bidders are always paid, the pages are exact, an item is sold once and
      keeps its terms, and its price history is exactly its listing, its direct
      sale or its bids, in order of time.  When the sales also name the item's
      own collection the tokens of unsold items are in escrow, so sales go
      through and auctions settle.  When, besides, offers are for created items,
      the contract implements the auction house of House, payment for payment
      and token for token, and offers all of it: an auction goes to the last bid,
      and every bid is still in the contract, spent on a lot the bidder won, or
      paid back; an offer can be accepted exactly when all whom that pays take ether.
      A sale of an item nobody created breaks the contract, a bid on an auction
      whose seller accepts an offer is lost, and so are the offers on an item
      sold otherwise.

    ** Fuel and bounds

    - Search: the loops of [_containsIgnoreCase] take as fuel the exact number
      of their turns; [containsIgnoreCase_correct] says they always finish.
    - Blockchain: [send_loop] takes fuel for the while loop;
      [sendTransaction_retries] shows that one turn more than the tries
      RETRY_ATTEMPTS allows is enough, for every RETRY_ATTEMPTS but Infinity,
      with which the loop of the code need not end.
    - Numbers: [decimal_digits] has fuel by the size of the number, and
      [half_while_even] by the exponent; a double has at most 17 significant
      digits and is not below 10^-324, the fuel of [shortest] and [magnitude].
      App: [load] has the number of modules of the repository and more.
    All other recursion is structural.

    ** Not modelled

    - Gas; events are kept as data.  The 2300 gas of [transfer] are the
      assumption that the receiver cannot call back, and accounts that refuse
      ether are the parameter [accepts_ether].
    - Libraries: Express's matching is the class [Express], and a middleware from
      a package is any handler with the [conduct] Express documents; the documents
      and [save] of mongoose are the class [Mongoose] with the laws
      [MongooseLaws]; Joi's validation, dotenv, bcrypt, SHA-256, tokens and the
      random sources are parameters, with what the code relies on as hypotheses;
      the other calls of mongoose, and ethers, web3, nodemailer, handlebars,
      Pinata and multer are outside calls.  The schemas and options the code
      hands them are data of the model.
    - The Ethereum node is one more outside oracle; only Nonces assumes something
      of it ([node_step]), which is what Ethereum documents of nonces.
    - Numbers: the two zeros of JavaScript are one; an integer is written out in
      full up to 10^21 only.
    - The collection factory (NFTCollectionFactory) and the ABI the services
      load are not in the repository; its calls are outside calls, and in
      Archive the operations of [ArchiveEnv], with ERC721's behaviour as the laws
      [ArchiveEnvLaws] where a theorem needs it.
    - Archive: a call the archived contract makes cannot change its storage;
      every function that does is nonReentrant, the two of Ownable apart.
    - Interleavings of asynchronous JavaScript beyond those of Nonces: what
      other requests do is seen by a handler only through the answers of the
      outside, over which the theorems quantify.
    - Tests, API documentation, deployment records, package manifests. *)

From stdpp Require Import base list gmap strings numbers.
From Stdlib Require Import ZArith Lia.

(** ** Results of fallible code *)

(** A computation either returns a value or stops with an error: a Solidity
    revert (the whole call is undone) or a JavaScript exception. *)
Inductive result (X A : Type) : Type :=
| Ok (a : A)
| Err (e : X).
Arguments Ok {_ _} _.
Arguments Err {_ _} _.

#[export] Instance result_ret {X} : MRet (result X) := fun A a => Ok a.
#[export] Instance result_bind {X} : MBind (result X) := fun A B f m =>
  match m with Ok a => f a | Err e => Err e end.
#[export] Instance result_fmap {X} : FMap (result X) := fun A B f m =>
  match m with Ok a => Ok (f a) | Err e => Err e end.

Definition is_ok {X A} (r : result X A) : bool :=
  match r with Ok _ => true | Err _ => false end.

(** ** State-and-error computations *)

(** [M X S A]: code that reads and writes a state [S] and may fail.  A failure
    carries no state: the caller's state is the one before the call. *)
Definition M (X S A : Type) : Type := S → result X (A * S).

#[export] Instance M_ret {X S} : MRet (M X S) := fun A a s => Ok (a, s).
#[export] Instance M_bind {X S} : MBind (M X S) := fun A B f m s =>
  match m s with Ok (a, s') => f a s' | Err e => Err e end.

Definition get {X S} : M X S S := fun s => Ok (s, s).
Definition gets {X S A} (f : S → A) : M X S A := fun s => Ok (f s, s).
Definition modify {X S} (f : S → S) : M X S unit := fun s => Ok (tt, f s).
Definition throw {X S A} (e : X) : M X S A := fun _ => Err e.
Definition lift {X S A} (r : result X A) : M X S A :=
  fun s => match r with Ok a => Ok (a, s) | Err e => Err e end.
Definition ensure {X S} (b : bool) (e : X) : M X S unit :=
  if b then mret tt else throw e.

(** ** Inversion of successful runs *)

Lemma bind_Ok {X S A B} (m : M X S A) (f : A → M X S B) s b s'' :
  (m ≫= f) s = Ok (b, s'') ↔ ∃ a s', m s = Ok (a, s') ∧ f a s' = Ok (b, s'').
Proof.
  unfold mbind, M_bind. destruct (m s) as [[a s']|e].
  - split; [eauto | intros (? & ? & [= <- <-] & ?); done].
  - split; [done | intros (? & ? & ? & ?); done].
Qed.

Lemma ensure_Ok {X S} b (e : X) (s : S) u s' :
  ensure b e s = Ok (u, s') ↔ b = true ∧ s' = s.
Proof.
  destruct b, u; cbn; unfold throw, mret, M_ret;
    (split; [intros [=]; subst; done | intros [? ->]; done]).
Qed.

Lemma result_bind_Ok {X A B} (m : result X A) (f : A → result X B) b :
  (m ≫= f) = Ok b ↔ ∃ a, m = Ok a ∧ f a = Ok b.
Proof.
  destruct m as [a|e]; cbn.
  - split; [eauto | intros (? & [=] & ?); by subst].
  - split; [done | by intros (? & ? & ?)].
Qed.

Lemma lift_Ok {X S A} (r : result X A) (s : S) a s' :
  lift r s = Ok (a, s') ↔ r = Ok a ∧ s' = s.
Proof.
  destruct r; cbn; (split; [intros [=]; subst; done | intros [[=] ->]; subst; done]).
Qed.

(** [inv_run H] opens a hypothesis saying that a block of monadic code
    succeeded, one statement after the other. *)
Ltac inv_run_step :=
  match goal with
  | H : (_ ≫= _) _ = Ok (_, _) |- _ =>
      apply bind_Ok in H; destruct H as (? & ? & ? & H)
  | H : (_ ≫= _) = Ok _ |- _ =>
      apply result_bind_Ok in H; destruct H as (? & ? & H)
  | H : ensure _ _ _ = Ok (_, _) |- _ =>
      apply ensure_Ok in H; destruct H as [H ->]
  | H : lift _ _ = Ok (_, _) |- _ =>
      apply lift_Ok in H; destruct H as [H ->]
  | H : modify _ _ = Ok (_, _) |- _ => unfold modify in H; simplify_eq
  | H : gets _ _ = Ok (_, _) |- _ => unfold gets in H; simplify_eq
  | H : get _ = Ok (_, _) |- _ => unfold get in H; simplify_eq
  | H : mret _ _ = Ok (_, _) |- _ => unfold mret, M_ret in H; simplify_eq
  | H : mret _ = Ok _ |- _ => unfold mret, result_ret in H; simplify_eq
  | H : throw _ _ = Ok _ |- _ => discriminate H
  | H : Ok _ = Ok _ |- _ => simplify_eq H
  | H : Err _ = Ok _ |- _ => discriminate H
  | H : Ok _ = Err _ |- _ => discriminate H
  end.
Ltac inv_run := repeat (inv_run_step; simplify_eq).

(** [run_block] evaluates a block of monadic code on a given state. *)
Ltac run_block :=
  unfold get, gets, modify, ensure, throw, lift, mbind, M_bind, mret, M_ret; cbn.

(** Boolean conditions of the code turned into propositions. *)
Ltac bool_to_prop :=
  repeat match goal with
  | H : andb _ _ = true |- _ => apply andb_true_iff in H; destruct H
  | H : negb _ = true |- _ => apply negb_true_iff in H
  | H : bool_decide _ = true |- _ => apply bool_decide_eq_true in H
  | H : bool_decide _ = false |- _ => apply bool_decide_eq_false in H
  | H : (_ <? _)%Z = true |- _ => apply Z.ltb_lt in H
  | H : (_ <? _)%Z = false |- _ => apply Z.ltb_ge in H
  | H : (_ <=? _)%Z = true |- _ => apply Z.leb_le in H
  | H : (_ <=? _)%Z = false |- _ => apply Z.leb_gt in H
  | H : (_ =? _)%Z = true |- _ => apply Z.eqb_eq in H
  | H : (_ =? _)%Z = false |- _ => apply Z.eqb_neq in H
  end.

(** Opens conjunctions and existentials in the hypotheses. *)
Ltac split_hyps :=
  repeat match goal with
  | H : _ ∧ _ |- _ => destruct H
  | H : ∃ _, _ |- _ => destruct H
  end.

(** ** Total mappings *)

(** A Solidity [mapping] answers the zero value of its type for a key that was
    never written. *)
Class SolZero (A : Type) := sol_zero : A.
#[export] Instance sol_zero_Z : SolZero Z := 0%Z.
#[export] Instance sol_zero_N : SolZero N := 0%N.
#[export] Instance sol_zero_bool : SolZero bool := false.
#[export] Instance sol_zero_string : SolZero string := ""%string.
#[export] Instance sol_zero_list {A} : SolZero (list A) := [].
#[export] Instance sol_zero_gmap `{Countable K} {A} : SolZero (gmap K A) := (∅ : gmap K A).

Definition mget `{Countable K} `{SolZero A} (m : gmap K A) (k : K) : A :=
  default sol_zero (m !! k).
Declare Scope sol_scope.
Delimit Scope sol_scope with sol.
Notation "m .[ k ]" := (mget m k) (at level 1, left associativity, format "m .[ k ]") : sol_scope.
Open Scope sol_scope.

Section mapping.
  Context `{Countable K} `{SolZero A}.
  Implicit Types (m : gmap K A) (k : K) (v : A).

Lemma mget_insert_eq m k v : (<[k:=v]> m).[k] = v.
  Proof. unfold mget. by rewrite lookup_insert_eq. Qed.
Lemma mget_insert_ne m k k' v : k ≠ k' → (<[k:=v]> m).[k'] = m.[k'].
  Proof. intros. unfold mget. by rewrite lookup_insert_ne. Qed.
Lemma mget_insert m k k' v :
    (<[k:=v]> m).[k'] = if decide (k = k') then v else m.[k'].
  Proof.
    case_decide as Hk; [subst; apply mget_insert_eq | by apply mget_insert_ne].
  Qed.
Lemma mget_empty k : (∅ : gmap K A).[k] = sol_zero.
  Proof. unfold mget. by rewrite lookup_empty. Qed.
End mapping.

Create Rewrite HintDb sol.
Create HintDb sol discriminated.
#[export] Hint Rewrite @mget_insert_eq @mget_empty : sol.

(** ** Lists *)
Lemma filter_ext_elem {A} (P Q : A → Prop) `{∀ x, Decision (P x), ∀ x, Decision (Q x)} (l : list A) :
  (∀ x, x ∈ l → P x ↔ Q x) → filter P l = filter Q l.
Proof.
  induction l as [|x l IH]; intros Heq; [done|]. rewrite !filter_cons.
  assert (P x ↔ Q x) by (apply Heq; by left).
  rewrite IH by (intros; apply Heq; by right). repeat case_decide; naive_solver.
Qed.

Lemma filter_snoc {A} (P : A → Prop) `{∀ x, Decision (P x)} (l : list A) a :
  filter P (l ++ [a]) = filter P l ++ (if decide (P a) then [a] else []).
Proof. by rewrite list.filter_app. Qed.

Lemma NoDup_snoc {A} (l : list A) a : NoDup l → a ∉ l → NoDup (l ++ [a]).
Proof.
  intros Hl Ha. apply list.NoDup_app. split_and!; [done| |apply NoDup_singleton].
  intros x Hx ->%list_elem_of_singleton. done.
Qed.

Lemma elem_of_snoc {A} (l : list A) a x : x ∈ l ++ [a] ↔ x ∈ l ∨ x = a.
Proof. rewrite elem_of_app, list_elem_of_singleton. done. Qed.
