(* ===== verification/Evm.v ===== *)
(** * The Solidity/EVM layer the two contracts run on

    Words, addresses, revert reasons, the message context, checked arithmetic
    of Solidity 0.8 and the re-entrancy guard.  Nothing here is specific to
    the marketplace. *)

From S2P Require Import Prelude.
From stdpp Require Import base list gmap strings numbers.
From Stdlib Require Import ZArith Lia.

(** An account; [0] is [address(0)]. *)
Abbreviation address := N.

(** ** Revert reasons *)
Inductive evm_error :=
| Revert (reason : string)                     (* require(cond, reason) *)
| PanicOverflow                                (* Panic(0x11) *)
| PanicBounds                                  (* Panic(0x32) *)
| NotPayable                                   (* value sent to a non-payable function *)
| InsufficientFunds                            (* the sender cannot pay msg.value *)
| SendFailed (to : address)                    (* the 2300-gas transfer was refused *)
| NoCode (at_ : address)                       (* call to an account without code *)
| CreateCollision (at_ : address)
| ReentrancyGuardReentrantCall
| OwnableUnauthorizedAccount (account : address)
| OwnableInvalidOwner (owner : address)
| ERC721InvalidOwner (owner : address)
| ERC721InvalidReceiver (to : address)
| ERC721InvalidSender (from : address)
| ERC721IncorrectOwner (from : address) (tokenId : Z) (owner : address)
| ERC721NonexistentToken (tokenId : Z)
| ERC721InsufficientApproval (spender : address) (tokenId : Z)
| ERC721InvalidApprover (approver : address)
| ERC721InvalidOperator (operator : address).

(** ** Words *)
Definition uint256_max : Z := 2 ^ 256 - 1.
Definition is_uint256 (v : Z) : Prop := (0 ≤ v ≤ uint256_max)%Z.

(** Checked addition of Solidity 0.8 ([a + b] reverts with Panic(0x11)). *)
Definition checked_add {S} (a b : Z) : M evm_error S Z :=
  if (a + b <=? uint256_max)%Z then mret (a + b)%Z else throw PanicOverflow.

(** Checked subtraction. *)
Definition checked_sub {S} (a b : Z) : M evm_error S Z :=
  if (b <=? a)%Z then mret (a - b)%Z else throw PanicOverflow.

Lemma checked_add_Ok {S} a b (s : S) r s' :
  checked_add a b s = Ok (r, s') ↔
  (a + b ≤ uint256_max)%Z ∧ r = (a + b)%Z ∧ s' = s.
Proof.
  unfold checked_add. destruct (Z.leb_spec (a + b) uint256_max); cbn.
  - unfold mret, M_ret. split; [intros [= <- <-]; done | by intros (_ & -> & ->)].
  - split; [done | intros (? & _); lia].
Qed.

Lemma checked_sub_Ok {S} a b (s : S) r s' :
  checked_sub a b s = Ok (r, s') ↔ (b ≤ a)%Z ∧ r = (a - b)%Z ∧ s' = s.
Proof.
  unfold checked_sub. destruct (Z.leb_spec b a); cbn.
  - unfold mret, M_ret. split; [intros [= <- <-]; done | by intros (_ & -> & ->)].
  - split; [done | intros (? & _); lia].
Qed.

Lemma checked_add_uint256 {S} a b (s : S) r s' :
  is_uint256 a → is_uint256 b →
  checked_add a b s = Ok (r, s') → is_uint256 r.
Proof. rewrite checked_add_Ok. unfold is_uint256. lia. Qed.

(** ** The message of a call *)
Record msg := Msg {
  msg_sender : address;
  msg_value : Z;
  block_timestamp : Z
}.

(** ** Arrays written by index *)

(** [array[i] = v] on a memory array: out of range is Panic(0x32). *)
Definition array_set {A} (l : list A) (i : nat) (v : A) : result evm_error (list A) :=
  if decide (i < length l) then Ok (<[i := v]> l) else Err PanicBounds.

(** [array[i]]: out of range is Panic(0x32). *)
Definition array_get {A} (l : list A) (i : nat) : result evm_error A :=
  match l !! i with Some v => Ok v | None => Err PanicBounds end.

(** [mapM] for results: the body of a [for] loop that fills [details[i]]. *)
Fixpoint result_mapM {X A B} (f : A → result X B) (l : list A) : result X (list B) :=
  match l with
  | [] => Ok []
  | a :: l => b ← f a; bs ← result_mapM f l; mret (b :: bs)
  end.

Lemma result_mapM_Ok {X A B} (f : A → result X B) l bs :
  result_mapM f l = Ok bs ↔ Forall2 (λ a b, f a = Ok b) l bs.
Proof.
  revert bs. induction l as [|a l IH]; intros bs; cbn.
  - split; [intros [= <-]; constructor | by inversion 1].
  - split.
    + intros H. inv_run. constructor; [done | by apply IH].
    + inversion 1 as [|? b ? bs' Hf Hl]; subst. rewrite Hf. cbn.
      apply IH in Hl. by rewrite Hl.
Qed.

Lemma result_mapM_ext {X A B} (f f' : A → result X B) l :
  (∀ a, a ∈ l → f' a = f a) → result_mapM f' l = result_mapM f l.
Proof.
  induction l as [|a l IH]; intros Hf; cbn; [done|].
  rewrite Hf by (by left). by rewrite IH by (intros; apply Hf; by right).
Qed.

(** One more element at the end. *)
Lemma result_mapM_snoc {X A B} (f f' : A → result X B) l a bs b :
  result_mapM f l = Ok bs → (∀ a, a ∈ l → f' a = f a) → f' a = Ok b →
  result_mapM f' (l ++ [a]) = Ok (bs ++ [b]).
Proof.
  intros Hl Hf Ha. rewrite <- (result_mapM_ext f f' l Hf) in Hl.
  apply result_mapM_Ok in Hl. apply result_mapM_Ok, Forall2_app; [done|by constructor].
Qed.

Lemma result_mapM_total {X A B} (f : A → result X B) (g : A → B) l :
  (∀ a, a ∈ l → f a = Ok (g a)) → result_mapM f l = Ok (g <$> l).
Proof.
  intros Hf. apply result_mapM_Ok. induction l as [|a l IH]; constructor.
  - apply Hf. by left.
  - apply IH. intros. apply Hf. by right.
Qed.

(** ** Running totals of the ether moved by the calls *)
Definition sum_Z {A} (f : A → Z) (l : list A) : Z := foldr (λ a acc, (f a + acc)%Z) 0%Z l.

Section sum.
  Context {A : Type} (f : A → Z).
Lemma sum_Z_app l k : sum_Z f (l ++ k) = (sum_Z f l + sum_Z f k)%Z.
  Proof. induction l as [|a l IH]; cbn; [done|]. unfold sum_Z in *. lia. Qed.
Lemma sum_Z_snoc l a : sum_Z f (l ++ [a]) = (sum_Z f l + f a)%Z.
  Proof. rewrite sum_Z_app. cbn. lia. Qed.
Lemma sum_Z_nil : sum_Z f [] = 0%Z.
  Proof. reflexivity. Qed.
Lemma sum_Z_cons a l : sum_Z f (a :: l) = (f a + sum_Z f l)%Z.
  Proof. reflexivity. Qed.
Lemma sum_Z_nonneg l : (∀ a, a ∈ l → 0 ≤ f a)%Z → (0 ≤ sum_Z f l)%Z.
  Proof.
    induction l as [|a l IH]; cbn; intros H; [done|].
    assert (0 ≤ f a)%Z by (apply H; by left).
    assert (0 ≤ sum_Z f l)%Z by (apply IH; intros; apply H; by right).
    unfold sum_Z in *. lia.
  Qed.
End sum.

(** The total of a finite map of amounts. *)
Definition map_sum `{Countable K} {A} (f : A → Z) (m : gmap K A) : Z :=
  map_fold (λ _ a acc, (f a + acc)%Z) 0%Z m.

Section map_sum.
  Context `{Countable K} {A : Type} (f : A → Z).
  Implicit Types (m : gmap K A).

Lemma map_sum_empty : map_sum f (∅ : gmap K A) = 0%Z.
  Proof. apply map_fold_empty. Qed.
Lemma map_sum_insert_None m k v :
    m !! k = None → map_sum f (<[k:=v]> m) = (f v + map_sum f m)%Z.
  Proof. intros. unfold map_sum. rewrite map_fold_insert_L; [done|lia|done]. Qed.
Lemma map_sum_delete m k v :
    m !! k = Some v → map_sum f m = (f v + map_sum f (delete k m))%Z.
  Proof. intros. unfold map_sum. by rewrite (map_fold_delete_L _ _ k v m); [|lia|]. Qed.
Lemma map_sum_insert m k v :
    map_sum f (<[k:=v]> m) = (map_sum f m + f v - default 0 (f <$> m !! k))%Z.
  Proof.
    destruct (m !! k) as [w|] eqn:Hk; cbn.
    - rewrite <- insert_delete_eq, map_sum_insert_None by apply lookup_delete_eq.
      rewrite (map_sum_delete m k w Hk). lia.
    - rewrite map_sum_insert_None by done. lia.
  Qed.
Lemma map_sum_insert_mget `{!SolZero A} m k v :
  f sol_zero = 0%Z → map_sum f (<[k:=v]> m) = (map_sum f m + f v - f (m.[k]))%Z.
Proof.
  intros H0. rewrite map_sum_insert. unfold mget. by destruct (m !! k); cbn; rewrite ?H0.
Qed.
Lemma map_sum_nonneg m : (∀ k v, m !! k = Some v → 0 ≤ f v)%Z → (0 ≤ map_sum f m)%Z.
Proof.
  induction m as [|k v m Hk IH] using map_ind; intros Hm; [by rewrite map_sum_empty|].
  rewrite map_sum_insert_None by done.
  assert (0 ≤ f v)%Z by (eapply Hm, lookup_insert_eq).
  assert (0 ≤ map_sum f m)%Z; [|lia].
  apply IH. intros k' v' Hk'. eapply Hm. rewrite lookup_insert_ne; [done|congruence].
Qed.
(** One amount is at most the total. *)
Lemma map_sum_mget `{!SolZero A} m k :
  f sol_zero = 0%Z → (∀ k v, m !! k = Some v → 0 ≤ f v)%Z → (f (m.[k]) ≤ map_sum f m)%Z.
Proof.
  intros H0 Hm. unfold mget. destruct (m !! k) as [v|] eqn:E; cbn.
  - rewrite (map_sum_delete m k v E). assert (0 ≤ map_sum f (delete k m))%Z; [|lia].
    apply map_sum_nonneg. intros k' v' [_ Hk]%lookup_delete_Some. by eapply Hm.
  - rewrite H0. by apply map_sum_nonneg.
Qed.
End map_sum.

Lemma seqZ_snoc a n : (0 ≤ n)%Z → seqZ a (n + 1) = seqZ a n ++ [(a + n)%Z].
Proof. intros Hn. by rewrite (seqZ_app a n 1). Qed.

Lemma sum_Z_ext {A} (f g : A → Z) l : (∀ a, a ∈ l → f a = g a) → sum_Z f l = sum_Z g l.
Proof.
  induction l as [|a l IH]; intros H; [done|]. rewrite !sum_Z_cons.
  rewrite (H a), IH; [done| |by left]. intros b Hb. apply H. by right.
Qed.

(** Two summands that agree except at one index. *)
Lemma sum_seqZ_change (f g : Z → Z) n id :
  (0 ≤ id < n)%Z → (∀ k, k ≠ id → f k = g k) →
  sum_Z g (seqZ 0 n) = (sum_Z f (seqZ 0 n) + g id - f id)%Z.
Proof.
  intros Hid Hfg.
  assert (seqZ 0 n = seqZ 0 id ++ id :: seqZ (id + 1) (n - id - 1)) as ->.
  { replace n with (id + (n - id))%Z at 1 by lia. rewrite seqZ_app by lia.
    rewrite (seqZ_cons (0 + id)) by lia. do 2 f_equal; lia. }
  rewrite !sum_Z_app, !sum_Z_cons.
  rewrite (sum_Z_ext g f (seqZ 0 id)), (sum_Z_ext g f (seqZ (id + 1) _)); [lia|..];
    intros k Hk%elem_of_seqZ; symmetry; apply Hfg; lia.
Qed.

Lemma map_sum_zero `{Countable K} {A} (f : A → Z) (m : gmap K A) :
  (∀ k v, m !! k = Some v → f v = 0%Z) → map_sum f m = 0%Z.
Proof.
  induction m as [|k v m Hk IH] using map_ind; intros Hm; [by rewrite map_sum_empty|].
  rewrite map_sum_insert_None, (Hm k v), IH; [done| |apply lookup_insert_eq|done].
  intros k' v' Hk'. apply (Hm k'). rewrite lookup_insert_ne; congruence.
Qed.

(** A mapping written on a range of keys only, summed key by key. *)
Lemma map_sum_range {A} `{!SolZero A} (f : A → Z) (m : gmap Z A) (a : Z) (n : nat) :
  f sol_zero = 0%Z → (∀ k, ¬ (a ≤ k < a + Z.of_nat n)%Z → m.[k] = sol_zero) →
  map_sum f m = sum_Z (λ k, f (m.[k])) (seqZ a (Z.of_nat n)).
Proof.
  intros H0. revert m. induction n as [|n IH]; intros m Hm.
  - apply map_sum_zero. intros k v Hk. specialize (Hm k ltac:(lia)). unfold mget in Hm.
    rewrite Hk in Hm. cbn in Hm. by subst.
  - assert (∀ k, (delete (a + Z.of_nat n)%Z m).[k] =
              if decide (a + Z.of_nat n = k)%Z then sol_zero else m.[k]) as Hd.
    { intros k. unfold mget. rewrite lookup_delete. by case_decide. }
    replace (Z.of_nat (S n)) with (Z.of_nat n + 1)%Z by lia.
    rewrite seqZ_snoc, sum_Z_snoc by lia.
    rewrite (sum_Z_ext _ (λ k, f ((delete (a + Z.of_nat n)%Z m).[k]))).
    2: { intros k Hk%elem_of_seqZ. rewrite Hd. by rewrite decide_False by lia. }
    rewrite <- IH.
    2: { intros k Hk. rewrite Hd. case_decide; [done|]. apply Hm. lia. }
    unfold mget. destruct (m !! (a + Z.of_nat n)%Z) as [v|] eqn:Hk; cbn.
    + rewrite (map_sum_delete f m _ v Hk). lia.
    + rewrite H0, delete_id by done. lia.
Qed.

(** Indicator sums count. *)
Lemma sum_Z_count {A} (P : A → Prop) `{!∀ a, Decision (P a)} l :
  sum_Z (λ a, if decide (P a) then 1 else 0)%Z l = Z.of_nat (length (filter P l)).
Proof.
  induction l as [|a l IH]; [done|]. rewrite sum_Z_cons, filter_cons, IH.
  case_decide; cbn; lia.
Qed.
