(* ===== verification/Erc721.v ===== *)
(** * OpenZeppelin ERC721 with URI storage

    The token contract [NFTCollection] inherits from, as compiled into the
    deployment (contract sources carried by deployment/localhost/solcInputs):
    ownership, approvals, minting and token URIs. *)

From S2P Require Import Prelude Evm.
From stdpp Require Import base list gmap strings numbers.
From Stdlib Require Import ZArith Lia.

Inductive erc721_event :=
| Transfer (from to : address) (tokenId : Z)
| Approval (owner approved : address) (tokenId : Z)
| ApprovalForAll (owner operator : address) (approved : bool)
| MetadataUpdate (tokenId : Z).

(** Storage of ERC721 and ERC721URIStorage, with the events emitted so far. *)
Record Erc721Storage := {
  _name : string;
  _symbol : string;
  _owners : gmap Z address;
  _balances : gmap address Z;
  _tokenApprovals : gmap Z address;
  _operatorApprovals : gmap (address * address) bool;
  _tokenURIs : gmap Z string;
  _events : list erc721_event
}.

Definition erc721_constructor (name symbol : string) : Erc721Storage :=
  {| _name := name; _symbol := symbol; _owners := ∅; _balances := ∅;
     _tokenApprovals := ∅; _operatorApprovals := ∅; _tokenURIs := ∅; _events := [] |}.

Definition with_owners (f : gmap Z address → gmap Z address) (s : Erc721Storage) :=
  {| _name := _name s; _symbol := _symbol s; _owners := f (_owners s);
     _balances := _balances s; _tokenApprovals := _tokenApprovals s;
     _operatorApprovals := _operatorApprovals s; _tokenURIs := _tokenURIs s;
     _events := _events s |}.
Definition with_balances (f : gmap address Z → gmap address Z) (s : Erc721Storage) :=
  {| _name := _name s; _symbol := _symbol s; _owners := _owners s;
     _balances := f (_balances s); _tokenApprovals := _tokenApprovals s;
     _operatorApprovals := _operatorApprovals s; _tokenURIs := _tokenURIs s;
     _events := _events s |}.
Definition with_tokenApprovals (f : gmap Z address → gmap Z address) (s : Erc721Storage) :=
  {| _name := _name s; _symbol := _symbol s; _owners := _owners s;
     _balances := _balances s; _tokenApprovals := f (_tokenApprovals s);
     _operatorApprovals := _operatorApprovals s; _tokenURIs := _tokenURIs s;
     _events := _events s |}.
Definition with_operatorApprovals
    (f : gmap (address * address) bool → gmap (address * address) bool) (s : Erc721Storage) :=
  {| _name := _name s; _symbol := _symbol s; _owners := _owners s;
     _balances := _balances s; _tokenApprovals := _tokenApprovals s;
     _operatorApprovals := f (_operatorApprovals s); _tokenURIs := _tokenURIs s;
     _events := _events s |}.
Definition with_tokenURIs (f : gmap Z string → gmap Z string) (s : Erc721Storage) :=
  {| _name := _name s; _symbol := _symbol s; _owners := _owners s;
     _balances := _balances s; _tokenApprovals := _tokenApprovals s;
     _operatorApprovals := _operatorApprovals s; _tokenURIs := f (_tokenURIs s);
     _events := _events s |}.
Definition emit_erc721 (e : erc721_event) (s : Erc721Storage) :=
  {| _name := _name s; _symbol := _symbol s; _owners := _owners s;
     _balances := _balances s; _tokenApprovals := _tokenApprovals s;
     _operatorApprovals := _operatorApprovals s; _tokenURIs := _tokenURIs s;
     _events := _events s ++ [e] |}.

(** ** Views *)
Definition _ownerOf (s : Erc721Storage) (tokenId : Z) : address := (_owners s).[tokenId].

Definition _requireOwned (s : Erc721Storage) (tokenId : Z) : result evm_error address :=
  let owner := _ownerOf s tokenId in
  if decide (owner = 0%N) then Err (ERC721NonexistentToken tokenId) else Ok owner.

Definition ownerOf (s : Erc721Storage) (tokenId : Z) : result evm_error address :=
  _requireOwned s tokenId.

Definition balanceOf (s : Erc721Storage) (owner : address) : result evm_error Z :=
  if decide (owner = 0%N) then Err (ERC721InvalidOwner 0%N) else Ok ((_balances s).[owner]).

Definition _getApproved (s : Erc721Storage) (tokenId : Z) : address :=
  (_tokenApprovals s).[tokenId].

Definition getApproved (s : Erc721Storage) (tokenId : Z) : result evm_error address :=
  _ ← _requireOwned s tokenId; mret (_getApproved s tokenId).

Definition isApprovedForAll (s : Erc721Storage) (owner operator : address) : bool :=
  (_operatorApprovals s).[(owner, operator)].

(** [NFTCollection] does not override [_baseURI], so the base is [""] and the
    stored URI is returned as it is. *)
Definition tokenURI (s : Erc721Storage) (tokenId : Z) : result evm_error string :=
  _ ← _requireOwned s tokenId; mret (_tokenURIs s).[tokenId].

Definition _isAuthorized (s : Erc721Storage) (owner spender : address) (tokenId : Z) : bool :=
  bool_decide (spender ≠ 0%N) &&
  (bool_decide (owner = spender) || isApprovedForAll s owner spender
   || bool_decide (_getApproved s tokenId = spender)).

(** ** State changes *)
Definition _checkAuthorized (owner spender : address) (tokenId : Z)
    : M evm_error Erc721Storage unit :=
  s ← get;
  ensure (_isAuthorized s owner spender tokenId)
    (if decide (owner = 0%N) then ERC721NonexistentToken tokenId
     else ERC721InsufficientApproval spender tokenId).

Definition _approve (to : address) (tokenId : Z) (auth : address) (emitEvent : bool)
    : M evm_error Erc721Storage unit :=
  (if emitEvent || bool_decide (auth ≠ 0%N) then
     s ← get;
     owner ← lift (_requireOwned s tokenId);
     ensure (negb (bool_decide (auth ≠ 0%N) && bool_decide (owner ≠ auth)
                     && negb (isApprovedForAll s owner auth)))
       (ERC721InvalidApprover auth);;
     (if emitEvent then modify (emit_erc721 (Approval owner to tokenId)) else mret tt)
   else mret tt);;
  modify (with_tokenApprovals <[tokenId := to]>).

(** Balances move in [unchecked] blocks: arithmetic modulo 2^256. *)
Definition wrap (v : Z) : Z := (v mod 2 ^ 256)%Z.

Definition _update (to : address) (tokenId : Z) (auth : address)
    : M evm_error Erc721Storage address :=
  s ← get;
  let from := _ownerOf s tokenId in
  (if decide (auth ≠ 0%N) then _checkAuthorized from auth tokenId else mret tt);;
  (if decide (from ≠ 0%N) then
     _approve 0%N tokenId 0%N false;;
     modify (with_balances (λ b, <[from := wrap (b.[from] - 1)]> b))
   else mret tt);;
  (if decide (to ≠ 0%N) then
     modify (with_balances (λ b, <[to := wrap (b.[to] + 1)]> b))
   else mret tt);;
  modify (with_owners <[tokenId := to]>);;
  modify (emit_erc721 (Transfer from to tokenId));;
  mret from.

Definition transferFrom (caller from to : address) (tokenId : Z)
    : M evm_error Erc721Storage unit :=
  ensure (bool_decide (to ≠ 0%N)) (ERC721InvalidReceiver 0%N);;
  previousOwner ← _update to tokenId caller;
  ensure (bool_decide (previousOwner = from))
    (ERC721IncorrectOwner from tokenId previousOwner).

Definition _mint (to : address) (tokenId : Z) : M evm_error Erc721Storage unit :=
  ensure (bool_decide (to ≠ 0%N)) (ERC721InvalidReceiver 0%N);;
  previousOwner ← _update to tokenId 0%N;
  ensure (bool_decide (previousOwner = 0%N)) (ERC721InvalidSender 0%N).

Definition approve (caller to : address) (tokenId : Z) : M evm_error Erc721Storage unit :=
  _approve to tokenId caller true.

Definition setApprovalForAll (caller operator : address) (approved : bool)
    : M evm_error Erc721Storage unit :=
  ensure (bool_decide (operator ≠ 0%N)) (ERC721InvalidOperator operator);;
  modify (with_operatorApprovals <[(caller, operator) := approved]>);;
  modify (emit_erc721 (ApprovalForAll caller operator approved)).

Definition _setTokenURI (tokenId : Z) (uri : string) : M evm_error Erc721Storage unit :=
  modify (with_tokenURIs <[tokenId := uri]>);;
  modify (emit_erc721 (MetadataUpdate tokenId)).

(** ** What the operations do *)

(** The state after [tokenId] went from its owner to [to]. *)
Definition moved (to : address) (tokenId : Z) (s : Erc721Storage) : Erc721Storage :=
  let from := _ownerOf s tokenId in
  emit_erc721 (Transfer from to tokenId)
    (with_owners <[tokenId := to]>
      (with_balances (λ b, <[to := wrap (b.[to] + 1)]> b)
        (if decide (from = 0%N) then s else
         with_balances (λ b, <[from := wrap (b.[from] - 1)]> b)
           (with_tokenApprovals <[tokenId := 0%N]> s)))).

(** [_update] towards a non-zero account: the check, then [moved]. *)
Lemma _update_run to tokenId auth s :
  to ≠ 0%N →
  _update to tokenId auth s =
    if bool_decide (auth = 0%N) || _isAuthorized s (_ownerOf s tokenId) auth tokenId
    then Ok (_ownerOf s tokenId, moved to tokenId s)
    else Err (if decide (_ownerOf s tokenId = 0%N) then ERC721NonexistentToken tokenId
              else ERC721InsufficientApproval auth tokenId).
Proof.
  intros Hto. unfold _update, _checkAuthorized, _approve, moved.
  rewrite (decide_True (P := to ≠ 0%N)) by done.
  destruct (decide (auth ≠ 0%N)) as [Hauth|Hauth%dec_stable]; [|subst auth].
  2: rewrite (bool_decide_true (0%N = 0%N)) by done; run_block.
  all: rewrite ?(bool_decide_false (auth = 0%N)) by done; run_block.
  all: try destruct (_isAuthorized s (_ownerOf s tokenId) auth tokenId); try done.
  all: destruct (decide (_ownerOf s tokenId = 0%N)) as [E|E];
      destruct (decide (_ownerOf s tokenId ≠ 0%N)); try done; by rewrite ?E.
Qed.

(** A token that has no owner has no approved account, and nobody operates for
    the zero account: what keeps unminted tokens out of reach of transfers. *)
Record erc721_wf (s : Erc721Storage) : Prop := {
  wf_approvals : ∀ tokenId, _ownerOf s tokenId = 0%N → _getApproved s tokenId = 0%N;
  wf_operators : ∀ operator, isApprovedForAll s 0%N operator = false
}.

Lemma unminted_not_authorized s spender tokenId :
  erc721_wf s → _ownerOf s tokenId = 0%N →
  _isAuthorized s (_ownerOf s tokenId) spender tokenId = false.
Proof.
  intros [Ha Ho] H0. unfold _isAuthorized. rewrite (Ha _ H0), H0, Ho.
  destruct (decide (spender = 0%N)) as [->|Hs]; [reflexivity|].
  rewrite (bool_decide_false (0%N = spender)) by done. by rewrite andb_false_r.
Qed.

Lemma transferFrom_run caller from to tokenId s :
  caller ≠ 0%N →
  transferFrom caller from to tokenId s =
    if decide (to = 0%N) then Err (ERC721InvalidReceiver 0%N) else
    if _isAuthorized s (_ownerOf s tokenId) caller tokenId then
      if decide (_ownerOf s tokenId = from) then Ok (tt, moved to tokenId s)
      else Err (ERC721IncorrectOwner from tokenId (_ownerOf s tokenId))
    else Err (if decide (_ownerOf s tokenId = 0%N) then ERC721NonexistentToken tokenId
              else ERC721InsufficientApproval caller tokenId).
Proof.
  intros Hc. unfold transferFrom.
  destruct (decide (to = 0%N)) as [->|Hto]; [done|].
  rewrite bool_decide_true by done. run_block.
  rewrite _update_run by done. rewrite bool_decide_false by done. cbn.
  destruct (_isAuthorized _ _ _ _); [|done].
  by destruct (decide (_ownerOf s tokenId = from)) as [E|E];
    [rewrite bool_decide_true | rewrite bool_decide_false].
Qed.

Lemma _mint_run to tokenId s :
  _mint to tokenId s =
    if decide (to = 0%N) then Err (ERC721InvalidReceiver 0%N) else
    if decide (_ownerOf s tokenId = 0%N) then Ok (tt, moved to tokenId s)
    else Err (ERC721InvalidSender 0%N).
Proof.
  unfold _mint. destruct (decide (to = 0%N)) as [->|Hto]; [done|].
  rewrite bool_decide_true by done. run_block.
  rewrite _update_run by done. rewrite bool_decide_true by done. cbn.
  by destruct (decide (_ownerOf s tokenId = 0%N)) as [E|E];
    [rewrite bool_decide_true | rewrite bool_decide_false].
Qed.

(** *** Reading the state after a move *)
Lemma moved_ownerOf to tokenId s tokenId' :
  _ownerOf (moved to tokenId s) tokenId' =
    if decide (tokenId = tokenId') then to else _ownerOf s tokenId'.
Proof. unfold moved, _ownerOf. case_match; cbn; apply mget_insert. Qed.

Lemma moved_approved to tokenId s tokenId' :
  _getApproved (moved to tokenId s) tokenId' =
    if decide (tokenId = tokenId' ∧ _ownerOf s tokenId ≠ 0%N) then 0%N
    else _getApproved s tokenId'.
Proof.
  unfold moved, _getApproved. case_match; cbn.
  - rewrite decide_False by naive_solver. done.
  - rewrite mget_insert. repeat case_decide; naive_solver.
Qed.

Lemma moved_operators to tokenId s owner operator :
  isApprovedForAll (moved to tokenId s) owner operator = isApprovedForAll s owner operator.
Proof. unfold moved, isApprovedForAll. by case_match. Qed.

Lemma moved_tokenURIs to tokenId s : _tokenURIs (moved to tokenId s) = _tokenURIs s.
Proof. unfold moved. by case_match. Qed.

Lemma moved_balances to tokenId s :
  _ownerOf s tokenId ≠ 0%N →
  _balances (moved to tokenId s) =
    let b := <[_ownerOf s tokenId := wrap ((_balances s).[_ownerOf s tokenId] - 1)]> (_balances s)
    in <[to := wrap (b.[to] + 1)]> b.
Proof. intros. unfold moved. by rewrite decide_False. Qed.

Lemma moved_wf to tokenId s : to ≠ 0%N → erc721_wf s → erc721_wf (moved to tokenId s).
Proof.
  intros Hto [Ha Ho]. split.
  - intros id. rewrite moved_ownerOf, moved_approved.
    repeat case_decide; naive_solver.
  - intros op. by rewrite moved_operators.
Qed.

#[export] Hint Resolve moved_wf : sol.

(** *** Approvals *)
Lemma approve_Ok caller to tokenId s u s' :
  caller ≠ 0%N →
  approve caller to tokenId s = Ok (u, s') →
  _ownerOf s tokenId ≠ 0%N ∧
  (_ownerOf s tokenId = caller ∨ isApprovedForAll s (_ownerOf s tokenId) caller = true) ∧
  s' = with_tokenApprovals <[tokenId := to]>
         (emit_erc721 (Approval (_ownerOf s tokenId) to tokenId) s).
Proof.
  intros Hc. unfold approve, _approve, _requireOwned. cbn -[decide]. run_block.
  destruct (decide (_ownerOf s tokenId = 0%N)) as [|Hown]; [done|]. cbn.
  rewrite (bool_decide_true (caller ≠ 0%N)) by done. cbn.
  destruct (decide (_ownerOf s tokenId = caller)) as [E|E].
  - rewrite (bool_decide_false (_ownerOf s tokenId ≠ caller)) by (intros H; by apply H).
    cbn. intros [= <-]. auto.
  - rewrite (bool_decide_true (_ownerOf s tokenId ≠ caller)) by done. cbn.
    destruct (isApprovedForAll s (_ownerOf s tokenId) caller); cbn; [|done].
    intros [= <-]. auto.
Qed.

Lemma setApprovalForAll_Ok caller operator approved s u s' :
  setApprovalForAll caller operator approved s = Ok (u, s') →
  operator ≠ 0%N ∧
  s' = emit_erc721 (ApprovalForAll caller operator approved)
         (with_operatorApprovals <[(caller, operator) := approved]> s).
Proof.
  unfold setApprovalForAll. run_block.
  destruct (decide (operator = 0%N)) as [->|Hop]; [done|].
  rewrite bool_decide_true by done. by intros [= <-].
Qed.

Lemma _setTokenURI_Ok tokenId uri s u s' :
  _setTokenURI tokenId uri s = Ok (u, s') →
  s' = emit_erc721 (MetadataUpdate tokenId) (with_tokenURIs <[tokenId := uri]> s).
Proof. unfold _setTokenURI. run_block. by intros [= <-]. Qed.

Lemma transferFrom_Ok caller from to tokenId s u s' :
  caller ≠ 0%N →
  transferFrom caller from to tokenId s = Ok (u, s') →
  to ≠ 0%N ∧ _ownerOf s tokenId = from ∧
  _isAuthorized s from caller tokenId = true ∧ s' = moved to tokenId s.
Proof.
  intros Hc. rewrite transferFrom_run by done.
  destruct (decide (to = 0%N)); [done|].
  destruct (_isAuthorized _ _ _ _) eqn:Ha; [|done].
  destruct (decide _) as [<-|]; [|done]. by intros [= <-].
Qed.

Lemma _mint_Ok to tokenId s u s' :
  _mint to tokenId s = Ok (u, s') →
  to ≠ 0%N ∧ _ownerOf s tokenId = 0%N ∧ s' = moved to tokenId s.
Proof.
  rewrite _mint_run. destruct (decide (to = 0%N)); [done|].
  destruct (decide _); [|done]. by intros [= <-].
Qed.

(** *** Balances count tokens

    [balanceOf] is the number of tokens an account owns, modulo 2^256. *)
Definition tokens_of (s : Erc721Storage) (a : address) : Z :=
  map_sum (λ o, if decide (o = a) then 1 else 0)%Z (_owners s).

Definition balances_count (s : Erc721Storage) : Prop :=
  ∀ a, a ≠ 0%N → (_balances s).[a] = wrap (tokens_of s a).

Lemma wrap_add_l a b : wrap (wrap a + b) = wrap (a + b).
Proof. unfold wrap. by rewrite Zplus_mod_idemp_l. Qed.
Lemma wrap_sub_l a b : wrap (wrap a - b) = wrap (a - b).
Proof. unfold wrap. by rewrite Zminus_mod_idemp_l. Qed.

Lemma moved_tokens_of to tokenId s a :
  a ≠ 0%N →
  tokens_of (moved to tokenId s) a =
    (tokens_of s a + (if decide (to = a) then 1 else 0)
     - (if decide (_ownerOf s tokenId = a) then 1 else 0))%Z.
Proof.
  intros Ha. unfold tokens_of.
  assert (_owners (moved to tokenId s) = <[tokenId := to]> (_owners s)) as ->
    by (unfold moved; by case_match).
  rewrite map_sum_insert. unfold _ownerOf, mget.
  destruct (_owners s !! tokenId) as [o|]; cbn; [done|].
  rewrite (decide_False (P := sol_zero = a)); [lia|]. intros <-. by apply Ha.
Qed.

Lemma moved_balances_count to tokenId s :
  to ≠ 0%N → balances_count s → balances_count (moved to tokenId s).
Proof.
  intros Hto Hb a Ha. rewrite moved_tokens_of by done.
  unfold moved. destruct (decide (_ownerOf s tokenId = 0%N)) as [E|E]; cbn.
  - rewrite E, (decide_False (P := 0%N = a)) by congruence.
    rewrite mget_insert. case_decide as Hd; [subst a|].
    + rewrite (Hb to) by done. rewrite wrap_add_l. f_equal. lia.
    + rewrite (Hb a) by done. f_equal. lia.
  - rewrite !mget_insert.
    repeat case_decide; subst; try congruence;
      rewrite ?(Hb a), ?(Hb to), ?(Hb (_ownerOf s tokenId)) by done;
      rewrite ?wrap_sub_l, ?wrap_add_l; f_equal; lia.
Qed.
