(* ===== verification/NFTCollection.v ===== *)
(** * contracts/NFTCollection.sol

    The token contract the marketplace deploys for every collection: ERC721
    storage, an owner, and a counter of minted tokens.  [mint] and
    [safeTransferFrom] call out (to the receiver of the token, and to the
    marketplace); the calls they make are parameters of the section, and
    Chain.v passes the real ones. *)

From stdpp Require Import base list gmap strings numbers.
From Stdlib Require Import ZArith Lia.
From S2P Require Import Prelude Evm Erc721.

(** Storage: ERC721URIStorage, Ownable and the contract's own variables. *)
Record NFTCollection := {
  erc721 : Erc721Storage;
  _owner : address;
  _tokenIds : Z;
  nft_baseURI : string;
  marketplaceAddress : address;
  nft_category : string
}.

Definition set_erc721 (e : Erc721Storage) (c : NFTCollection) : NFTCollection :=
  {| erc721 := e; _owner := _owner c; _tokenIds := _tokenIds c;
     nft_baseURI := nft_baseURI c; marketplaceAddress := marketplaceAddress c;
     nft_category := nft_category c |}.
Definition set_owner (o : address) (c : NFTCollection) : NFTCollection :=
  {| erc721 := erc721 c; _owner := o; _tokenIds := _tokenIds c;
     nft_baseURI := nft_baseURI c; marketplaceAddress := marketplaceAddress c;
     nft_category := nft_category c |}.
Definition set_tokenIds (n : Z) (c : NFTCollection) : NFTCollection :=
  {| erc721 := erc721 c; _owner := _owner c; _tokenIds := n;
     nft_baseURI := nft_baseURI c; marketplaceAddress := marketplaceAddress c;
     nft_category := nft_category c |}.

Definition nft_constructor (name symbol baseURI : string) (marketplace : address)
    (category : string) (initialOwner : address) : result evm_error NFTCollection :=
  if decide (initialOwner = 0%N) then Err (OwnableInvalidOwner 0%N) else
  Ok {| erc721 := erc721_constructor name symbol; _owner := initialOwner; _tokenIds := 0;
        nft_baseURI := baseURI; marketplaceAddress := marketplace;
        nft_category := category |}.

Definition totalSupply (c : NFTCollection) : Z := _tokenIds c.

(** Running an ERC721 operation on the inherited storage. *)
Definition on_erc721 {A} (m : M evm_error Erc721Storage A) : M evm_error NFTCollection A :=
  λ c, match m (erc721 c) with
       | Ok (a, e) => Ok (a, set_erc721 e c)
       | Err x => Err x
       end.

(** [onlyOwner] of Ownable. *)
Definition _checkOwner (caller : address) : M evm_error NFTCollection unit :=
  o ← gets _owner;
  ensure (bool_decide (o = caller)) (OwnableUnauthorizedAccount caller).

Definition transferOwnership (caller newOwner : address) : M evm_error NFTCollection unit :=
  _checkOwner caller;;
  ensure (bool_decide (newOwner ≠ 0%N)) (OwnableInvalidOwner 0%N);;
  modify (set_owner newOwner).

Definition renounceOwnership (caller : address) : M evm_error NFTCollection unit :=
  _checkOwner caller;;
  modify (set_owner 0%N).

(** [_tokenIds++; uint256 newTokenId = _tokenIds;] *)
Definition next_tokenId : M evm_error NFTCollection Z :=
  n ← gets _tokenIds;
  n' ← checked_add n 1;
  modify (set_tokenIds n');;
  mret n'.

Section calls_out.
  Context {W : Type}.
  (** Running code on this contract's storage inside the whole chain. *)
  Variable with_self : ∀ {A}, M evm_error NFTCollection A → M evm_error W A.
  (** ERC721Utils.checkOnERC721Received: operator, from, to, tokenId. *)
  Variable checkOnERC721Received : address → address → address → Z → M evm_error W unit.
  (** IMarketplace(marketplaceAddress).updateCollectionTotalSupply(address(this)). *)
  Variable updateCollectionTotalSupply : M evm_error W unit.

Definition _safeMint (caller to : address) (tokenId : Z) : M evm_error W unit :=
    with_self (on_erc721 (_mint to tokenId));;
    checkOnERC721Received caller 0%N to tokenId.

Definition mint (caller to : address) (uri : string) : M evm_error W Z :=
    with_self (_checkOwner caller);;
    newTokenId ← with_self next_tokenId;
    _safeMint caller to newTokenId;;
    with_self (on_erc721 (_setTokenURI newTokenId uri));;
    updateCollectionTotalSupply;;
    mret newTokenId.

Definition safeTransferFrom (caller from to : address) (tokenId : Z) : M evm_error W unit :=
    with_self (on_erc721 (transferFrom caller from to tokenId));;
    checkOnERC721Received caller from to tokenId.
End calls_out.

(** ** Facts *)

Lemma on_erc721_Ok {A} (m : M evm_error Erc721Storage A) c a c' :
  on_erc721 m c = Ok (a, c') ↔
  ∃ e, m (erc721 c) = Ok (a, e) ∧ c' = set_erc721 e c.
Proof.
  unfold on_erc721. destruct (m (erc721 c)) as [[x e]|]; split.
  - intros [= <- <-]. eauto.
  - by intros (? & [= -> ->] & ->).
  - done.
  - by intros (? & ? & ?).
Qed.

Lemma next_tokenId_Ok c n c' :
  next_tokenId c = Ok (n, c') ↔
  n = (_tokenIds c + 1)%Z ∧ (n ≤ uint256_max)%Z ∧ c' = set_tokenIds n c.
Proof.
  unfold next_tokenId, checked_add. run_block.
  destruct (Z.leb_spec (_tokenIds c + 1) uint256_max); cbn; split.
  - by intros [= <- <-].
  - by intros (-> & ? & ->).
  - done.
  - intros (-> & ? & _). lia.
Qed.

Lemma _checkOwner_Ok caller c u c' :
  _checkOwner caller c = Ok (u, c') ↔ _owner c = caller ∧ c' = c.
Proof.
  destruct u. unfold _checkOwner. run_block.
  destruct (decide (_owner c = caller)) as [E|E].
  - rewrite bool_decide_true by done. split; [by intros [= <-] | by intros [? ->]].
  - rewrite bool_decide_false by done. split; [done | by intros []].
Qed.

Lemma transferOwnership_Ok caller o c u c' :
  transferOwnership caller o c = Ok (u, c') →
  _owner c = caller ∧ o ≠ 0%N ∧ c' = set_owner o c.
Proof.
  unfold transferOwnership. intros (? & c1 & H1 & H)%bind_Ok.
  apply _checkOwner_Ok in H1 as [Ho ->].
  apply bind_Ok in H as (? & c1 & H1 & H). apply ensure_Ok in H1 as [Hz ->].
  bool_to_prop. by injection H as _ <-.
Qed.

Lemma renounceOwnership_Ok caller c u c' :
  renounceOwnership caller c = Ok (u, c') → _owner c = caller ∧ c' = set_owner 0%N c.
Proof.
  unfold renounceOwnership. intros (? & c1 & H1 & H)%bind_Ok.
  apply _checkOwner_Ok in H1 as [Ho ->]. by injection H as _ <-.
Qed.

(** ** Tokens exist in the order they were minted

    The tokens that have an owner are those with an id between 1 and the
    counter: the next id is always fresh, and no token is ever burned. *)
Record nft_wf (c : NFTCollection) : Prop := {
  wf_erc721 : erc721_wf (erc721 c);
  wf_minted : ∀ id, _ownerOf (erc721 c) id ≠ 0%N ↔ (1 ≤ id ≤ _tokenIds c)%Z;
  wf_count : is_uint256 (_tokenIds c)
}.

Lemma nft_constructor_wf name symbol uri mkt cat owner c :
  nft_constructor name symbol uri mkt cat owner = Ok c → nft_wf c.
Proof.
  unfold nft_constructor. case_decide; [done|]. intros [= <-]. split; cbn; [| |done].
  - split; intros; unfold _getApproved, isApprovedForAll; cbn; apply mget_empty.
  - intros id. unfold _ownerOf. cbn. rewrite mget_empty. split; [done|lia].
Qed.

Lemma next_tokenId_fresh c : nft_wf c → _ownerOf (erc721 c) (_tokenIds c + 1) = 0%N.
Proof.
  intros [_ Hm _]. destruct (decide (_ownerOf (erc721 c) (_tokenIds c + 1) = 0%N)) as [|Hne];
    [done|]. apply Hm in Hne. lia.
Qed.
