(* ===== verification/MarketStorage.v ===== *)
(** * contracts/NFTMarketplace.sol: storage

    The structs and the storage variables of the marketplace, with one update
    function per variable, and what the marketplace expects of the rest of the
    chain ([ChainEnv]). *)

From stdpp Require Import base list gmap strings numbers.
From Stdlib Require Import ZArith Lia.
From S2P Require Import Prelude Evm.

(** ** Structs *)
Record Collection := {
  c_collectionAddress : address;
  c_name : string;
  c_symbol : string;
  c_category : string;
  c_owner : address;
  c_isActive : bool;
  c_createdAt : Z;
  c_baseURI : string;
  c_totalSupply : Z
}.

Record CollectionDetails := {
  d_basic : Collection;
  d_floorPrice : Z;
  d_totalVolume : Z;
  d_ownerCount : Z
}.

Record MarketItem := {
  i_tokenId : Z;
  i_nftContract : address;
  i_seller : address;
  i_owner : address;
  i_price : Z;
  i_isOnSale : bool;
  i_auctionEndTime : Z;
  i_highestBidder : address;
  i_highestBid : Z;
  i_isAuction : bool;
  i_tokenURI : string
}.

Record Offer := {
  o_buyer : address;
  o_price : Z;
  o_timestamp : Z
}.

Record SearchResult := {
  r_collectionAddress : address;
  r_name : string;
  r_symbol : string;
  r_category : string;
  r_totalSupply : Z;
  r_floorPrice : Z;
  r_isActive : bool
}.

(** The structs a mapping holds before anything is written. *)
#[export] Instance Collection_zero : SolZero Collection :=
  {| c_collectionAddress := 0; c_name := ""; c_symbol := ""; c_category := "";
     c_owner := 0; c_isActive := false; c_createdAt := 0; c_baseURI := "";
     c_totalSupply := 0 |}.
#[export] Instance MarketItem_zero : SolZero MarketItem :=
  {| i_tokenId := 0; i_nftContract := 0; i_seller := 0; i_owner := 0; i_price := 0;
     i_isOnSale := false; i_auctionEndTime := 0; i_highestBidder := 0;
     i_highestBid := 0; i_isAuction := false; i_tokenURI := "" |}.

(** ** Storage variables *)
Record MarketStorage := {
  _paused : bool;
  _status_entered : bool;
  market_owner : address;
  listingFee : Z;
  categories : list string;
  categoryExists : gmap string bool;
  collections : gmap address Collection;
  collectionAddresses : list address;
  categoryToCollections : gmap string (list address);
  collectionToMarketItems : gmap (address * Z) MarketItem;
  collectionTokenIds : gmap address (list Z);
  pendingReturns : gmap (address * Z * address) Z;
  itemOffers : gmap (address * Z) (list Offer);
  userCreatedCollections : gmap address (list address);
  userPurchases : gmap (address * address * Z) bool;
  userPurchaseCount : gmap address Z
}.

Definition market_storage_init (deployer : address) : MarketStorage :=
  {| _paused := false; _status_entered := false; market_owner := deployer;
     listingFee := 5 * 10 ^ 14;
     categories := []; categoryExists := ∅; collections := ∅;
     collectionAddresses := []; categoryToCollections := ∅;
     collectionToMarketItems := ∅; collectionTokenIds := ∅; pendingReturns := ∅;
     itemOffers := ∅; userCreatedCollections := ∅; userPurchases := ∅;
     userPurchaseCount := ∅ |}.

Definition upd__status_entered (f : bool → bool) (s : MarketStorage) : MarketStorage :=
  {|
     _paused := _paused s; _status_entered := f (_status_entered s);
     market_owner := market_owner s; listingFee := listingFee s;
     categories := categories s; categoryExists := categoryExists s;
     collections := collections s; collectionAddresses := collectionAddresses s;
     categoryToCollections := categoryToCollections s;
     collectionToMarketItems := collectionToMarketItems s;
     collectionTokenIds := collectionTokenIds s; pendingReturns := pendingReturns s;
     itemOffers := itemOffers s; userCreatedCollections := userCreatedCollections s;
     userPurchases := userPurchases s; userPurchaseCount := userPurchaseCount s
  |}.
Definition upd_market_owner (f : address → address) (s : MarketStorage) : MarketStorage :=
  {|
     _paused := _paused s; _status_entered := _status_entered s;
     market_owner := f (market_owner s); listingFee := listingFee s;
     categories := categories s; categoryExists := categoryExists s;
     collections := collections s; collectionAddresses := collectionAddresses s;
     categoryToCollections := categoryToCollections s;
     collectionToMarketItems := collectionToMarketItems s;
     collectionTokenIds := collectionTokenIds s; pendingReturns := pendingReturns s;
     itemOffers := itemOffers s; userCreatedCollections := userCreatedCollections s;
     userPurchases := userPurchases s; userPurchaseCount := userPurchaseCount s
  |}.
Definition upd_categories (f : list string → list string) (s : MarketStorage) : MarketStorage :=
  {|
     _paused := _paused s; _status_entered := _status_entered s;
     market_owner := market_owner s; listingFee := listingFee s;
     categories := f (categories s); categoryExists := categoryExists s;
     collections := collections s; collectionAddresses := collectionAddresses s;
     categoryToCollections := categoryToCollections s;
     collectionToMarketItems := collectionToMarketItems s;
     collectionTokenIds := collectionTokenIds s; pendingReturns := pendingReturns s;
     itemOffers := itemOffers s; userCreatedCollections := userCreatedCollections s;
     userPurchases := userPurchases s; userPurchaseCount := userPurchaseCount s
  |}.
Definition upd_categoryExists (f : gmap string bool → gmap string bool) (s : MarketStorage) : MarketStorage :=
  {|
     _paused := _paused s; _status_entered := _status_entered s;
     market_owner := market_owner s; listingFee := listingFee s;
     categories := categories s; categoryExists := f (categoryExists s);
     collections := collections s; collectionAddresses := collectionAddresses s;
     categoryToCollections := categoryToCollections s;
     collectionToMarketItems := collectionToMarketItems s;
     collectionTokenIds := collectionTokenIds s; pendingReturns := pendingReturns s;
     itemOffers := itemOffers s; userCreatedCollections := userCreatedCollections s;
     userPurchases := userPurchases s; userPurchaseCount := userPurchaseCount s
  |}.
Definition upd_collections (f : gmap address Collection → gmap address Collection) (s : MarketStorage) : MarketStorage :=
  {|
     _paused := _paused s; _status_entered := _status_entered s;
     market_owner := market_owner s; listingFee := listingFee s;
     categories := categories s; categoryExists := categoryExists s;
     collections := f (collections s); collectionAddresses := collectionAddresses s;
     categoryToCollections := categoryToCollections s;
     collectionToMarketItems := collectionToMarketItems s;
     collectionTokenIds := collectionTokenIds s; pendingReturns := pendingReturns s;
     itemOffers := itemOffers s; userCreatedCollections := userCreatedCollections s;
     userPurchases := userPurchases s; userPurchaseCount := userPurchaseCount s
  |}.
Definition upd_collectionAddresses (f : list address → list address) (s : MarketStorage) : MarketStorage :=
  {|
     _paused := _paused s; _status_entered := _status_entered s;
     market_owner := market_owner s; listingFee := listingFee s;
     categories := categories s; categoryExists := categoryExists s;
     collections := collections s; collectionAddresses := f (collectionAddresses s);
     categoryToCollections := categoryToCollections s;
     collectionToMarketItems := collectionToMarketItems s;
     collectionTokenIds := collectionTokenIds s; pendingReturns := pendingReturns s;
     itemOffers := itemOffers s; userCreatedCollections := userCreatedCollections s;
     userPurchases := userPurchases s; userPurchaseCount := userPurchaseCount s
  |}.
Definition upd_categoryToCollections (f : gmap string (list address) → gmap string (list address)) (s : MarketStorage) : MarketStorage :=
  {|
     _paused := _paused s; _status_entered := _status_entered s;
     market_owner := market_owner s; listingFee := listingFee s;
     categories := categories s; categoryExists := categoryExists s;
     collections := collections s; collectionAddresses := collectionAddresses s;
     categoryToCollections := f (categoryToCollections s);
     collectionToMarketItems := collectionToMarketItems s;
     collectionTokenIds := collectionTokenIds s; pendingReturns := pendingReturns s;
     itemOffers := itemOffers s; userCreatedCollections := userCreatedCollections s;
     userPurchases := userPurchases s; userPurchaseCount := userPurchaseCount s
  |}.
Definition upd_collectionToMarketItems (f : gmap (address * Z) MarketItem → gmap (address * Z) MarketItem) (s : MarketStorage) : MarketStorage :=
  {|
     _paused := _paused s; _status_entered := _status_entered s;
     market_owner := market_owner s; listingFee := listingFee s;
     categories := categories s; categoryExists := categoryExists s;
     collections := collections s; collectionAddresses := collectionAddresses s;
     categoryToCollections := categoryToCollections s;
     collectionToMarketItems := f (collectionToMarketItems s);
     collectionTokenIds := collectionTokenIds s; pendingReturns := pendingReturns s;
     itemOffers := itemOffers s; userCreatedCollections := userCreatedCollections s;
     userPurchases := userPurchases s; userPurchaseCount := userPurchaseCount s
  |}.
Definition upd_collectionTokenIds (f : gmap address (list Z) → gmap address (list Z)) (s : MarketStorage) : MarketStorage :=
  {|
     _paused := _paused s; _status_entered := _status_entered s;
     market_owner := market_owner s; listingFee := listingFee s;
     categories := categories s; categoryExists := categoryExists s;
     collections := collections s; collectionAddresses := collectionAddresses s;
     categoryToCollections := categoryToCollections s;
     collectionToMarketItems := collectionToMarketItems s;
     collectionTokenIds := f (collectionTokenIds s); pendingReturns := pendingReturns s;
     itemOffers := itemOffers s; userCreatedCollections := userCreatedCollections s;
     userPurchases := userPurchases s; userPurchaseCount := userPurchaseCount s
  |}.
Definition upd_pendingReturns (f : gmap (address * Z * address) Z → gmap (address * Z * address) Z) (s : MarketStorage) : MarketStorage :=
  {|
     _paused := _paused s; _status_entered := _status_entered s;
     market_owner := market_owner s; listingFee := listingFee s;
     categories := categories s; categoryExists := categoryExists s;
     collections := collections s; collectionAddresses := collectionAddresses s;
     categoryToCollections := categoryToCollections s;
     collectionToMarketItems := collectionToMarketItems s;
     collectionTokenIds := collectionTokenIds s; pendingReturns := f (pendingReturns s);
     itemOffers := itemOffers s; userCreatedCollections := userCreatedCollections s;
     userPurchases := userPurchases s; userPurchaseCount := userPurchaseCount s
  |}.
Definition upd_itemOffers (f : gmap (address * Z) (list Offer) → gmap (address * Z) (list Offer)) (s : MarketStorage) : MarketStorage :=
  {|
     _paused := _paused s; _status_entered := _status_entered s;
     market_owner := market_owner s; listingFee := listingFee s;
     categories := categories s; categoryExists := categoryExists s;
     collections := collections s; collectionAddresses := collectionAddresses s;
     categoryToCollections := categoryToCollections s;
     collectionToMarketItems := collectionToMarketItems s;
     collectionTokenIds := collectionTokenIds s; pendingReturns := pendingReturns s;
     itemOffers := f (itemOffers s); userCreatedCollections := userCreatedCollections s;
     userPurchases := userPurchases s; userPurchaseCount := userPurchaseCount s
  |}.
Definition upd_userCreatedCollections (f : gmap address (list address) → gmap address (list address)) (s : MarketStorage) : MarketStorage :=
  {|
     _paused := _paused s; _status_entered := _status_entered s;
     market_owner := market_owner s; listingFee := listingFee s;
     categories := categories s; categoryExists := categoryExists s;
     collections := collections s; collectionAddresses := collectionAddresses s;
     categoryToCollections := categoryToCollections s;
     collectionToMarketItems := collectionToMarketItems s;
     collectionTokenIds := collectionTokenIds s; pendingReturns := pendingReturns s;
     itemOffers := itemOffers s; userCreatedCollections := f (userCreatedCollections s);
     userPurchases := userPurchases s; userPurchaseCount := userPurchaseCount s
  |}.
Definition upd_userPurchases (f : gmap (address * address * Z) bool → gmap (address * address * Z) bool) (s : MarketStorage) : MarketStorage :=
  {|
     _paused := _paused s; _status_entered := _status_entered s;
     market_owner := market_owner s; listingFee := listingFee s;
     categories := categories s; categoryExists := categoryExists s;
     collections := collections s; collectionAddresses := collectionAddresses s;
     categoryToCollections := categoryToCollections s;
     collectionToMarketItems := collectionToMarketItems s;
     collectionTokenIds := collectionTokenIds s; pendingReturns := pendingReturns s;
     itemOffers := itemOffers s; userCreatedCollections := userCreatedCollections s;
     userPurchases := f (userPurchases s); userPurchaseCount := userPurchaseCount s
  |}.
Definition upd_userPurchaseCount (f : gmap address Z → gmap address Z) (s : MarketStorage) : MarketStorage :=
  {|
     _paused := _paused s; _status_entered := _status_entered s;
     market_owner := market_owner s; listingFee := listingFee s;
     categories := categories s; categoryExists := categoryExists s;
     collections := collections s; collectionAddresses := collectionAddresses s;
     categoryToCollections := categoryToCollections s;
     collectionToMarketItems := collectionToMarketItems s;
     collectionTokenIds := collectionTokenIds s; pendingReturns := pendingReturns s;
     itemOffers := itemOffers s; userCreatedCollections := userCreatedCollections s;
     userPurchases := userPurchases s; userPurchaseCount := f (userPurchaseCount s)
  |}.

(** Appending to an array held in a mapping: [m[k].push(v)]. *)
Definition push_at `{Countable K} {A} (k : K) (v : A) (m : gmap K (list A)) : gmap K (list A) :=
  <[k := m.[k] ++ [v]]> m.
Arguments push_at : simpl never.

Lemma push_at_lookup `{Countable K} {A} (k k' : K) (v : A) (m : gmap K (list A)) :
  (push_at k v m).[k'] = if decide (k = k') then m.[k'] ++ [v] else m.[k'].
Proof. unfold push_at. rewrite mget_insert. by case_decide; subst. Qed.

(** ** Events *)
Inductive market_event :=
| CategoryAdded (category : string)
| CollectionCreated (collectionAddress : address) (name symbol category : string)
    (owner : address)
| MarketItemCreated (collectionAddress : address) (tokenId : Z) (seller owner : address)
    (price : Z)
| MarketItemSold (collectionAddress : address) (tokenId : Z) (seller owner : address)
    (price : Z)
| OfferCreated (collectionAddress buyer : address) (price : Z).

(** ** What the marketplace uses of the rest of the chain

    The token contracts it deploys and calls, and ether transfers. *)
Class ChainEnv (E : Type) := {
  has_code : E → address → bool;
  nft_ownerOf : E → address → Z → address;
  nft_tokenURI : E → address → Z → result evm_error string;
  nft_totalSupply : E → address → result evm_error Z;
  nft_transferFrom (caller coll from to : address) (tokenId : Z) : M evm_error E unit;
  new_NFTCollection (name symbol baseURI : string) (marketplace : address)
    (category : string) (initialOwner : address) : M evm_error E address;
  ether : E → address → Z;
  pay (from to : address) (amount : Z) : M evm_error E unit
}.

(** The promises the proofs about the marketplace, deployed at [this], rest on. *)
Class ChainEnvLaws (this : address) (E : Type) `{ChainEnv E} := {
  env_wf : E → Prop;
  transferFrom_law e caller coll from to tokenId u e' :
    env_wf e → caller ≠ 0%N → from ≠ 0%N →
    nft_transferFrom caller coll from to tokenId e = Ok (u, e') →
    env_wf e' ∧ nft_ownerOf e coll tokenId = from ∧ to ≠ 0%N ∧
    (∀ coll' id', nft_ownerOf e' coll' id' =
       if decide (coll = coll' ∧ tokenId = id') then to else nft_ownerOf e coll' id') ∧
    (∀ a, ether e' a = ether e a) ∧
    (∀ a, nft_totalSupply e' a = nft_totalSupply e a) ∧
    (∀ a, has_code e' a = has_code e a);
  transferFrom_by_owner e coll from to tokenId :
    env_wf e → from ≠ 0%N → to ≠ 0%N → nft_ownerOf e coll tokenId = from →
    ∃ e', nft_transferFrom from coll from to tokenId e = Ok (tt, e');
  new_NFTCollection_law e name symbol baseURI category owner a e' :
    env_wf e →
    new_NFTCollection name symbol baseURI this category owner e = Ok (a, e') →
    env_wf e' ∧ has_code e a = false ∧ owner ≠ 0%N ∧
    (∀ b, has_code e' b = if decide (a = b) then true else has_code e b) ∧
    (∀ coll id, nft_ownerOf e' coll id = nft_ownerOf e coll id) ∧
    nft_totalSupply e' a = Ok 0%Z ∧
    (∀ b, a ≠ b → nft_totalSupply e' b = nft_totalSupply e b) ∧
    (∀ b, ether e' b = ether e b);
  pay_law e from to amount u e' :
    env_wf e → pay from to amount e = Ok (u, e') →
    env_wf e' ∧ (amount ≤ ether e from)%Z ∧
    (∀ a, ether e' a = ether e a + (if decide (a = to) then amount else 0)
                       - (if decide (a = from) then amount else 0))%Z ∧
    (∀ coll id, nft_ownerOf e' coll id = nft_ownerOf e coll id) ∧
    (∀ a, nft_totalSupply e' a = nft_totalSupply e a) ∧
    (∀ a, has_code e' a = has_code e a)
}.
