(* ===== verification/Marketplace.v ===== *)
(** * contracts/NFTMarketplace.sol: operations

    Every function of the contract, in the order of the file.  State-changing
    functions run in [M evm_error MState]: the storage of the marketplace, the
    rest of the chain and the events emitted.  Views are functions of the
    storage. *)

From stdpp Require Import base list gmap strings numbers.
From Stdlib Require Import ZArith Lia.
From S2P Require Import Prelude Evm MarketStorage.

Record MState (E : Type) := {
  m_store : MarketStorage;
  m_env : E;
  m_logs : list market_event
}.
Arguments m_store {_} _.
Arguments m_env {_} _.
Arguments m_logs {_} _.
Arguments Build_MState {_} _ _ _.

Section operations.
Context {E : Type} `{!ChainEnv E}.
(** The address the marketplace is deployed at. *)
Variable this : address.

Definition MM := M evm_error (MState E).

Definition store {A} (f : MarketStorage → A) : MM A := gets (λ s, f (m_store s)).
Definition update (f : MarketStorage → MarketStorage) : MM unit :=
  modify (λ s, {| m_store := f (m_store s); m_env := m_env s; m_logs := m_logs s |}).
Definition emit (e : market_event) : MM unit :=
  modify (λ s, {| m_store := m_store s; m_env := m_env s; m_logs := m_logs s ++ [e] |}).
(** A call that leaves the marketplace. *)
Definition external {A} (m : M evm_error E A) : MM A := λ s,
  match m (m_env s) with
  | Ok (a, e) => Ok (a, {| m_store := m_store s; m_env := e; m_logs := m_logs s |})
  | Err x => Err x
  end.
(** A read of another contract. *)
Definition external_view {A} (f : E → result evm_error A) : MM A := λ s,
  match f (m_env s) with Ok a => Ok (a, s) | Err x => Err x end.

Definition nonReentrant {A} (body : MM A) : MM A :=
  entered ← store _status_entered;
  ensure (negb entered) ReentrancyGuardReentrantCall;;
  update (upd__status_entered (λ _, true));;
  r ← body;
  update (upd__status_entered (λ _, false));;
  mret r.

Definition onlyOwner (m : msg) : MM unit :=
  o ← store market_owner;
  ensure (bool_decide (o = msg_sender m)) (OwnableUnauthorizedAccount (msg_sender m)).

(** Ownable's two external functions. *)
Definition market_transferOwnership (m : msg) (newOwner : address) : MM unit :=
  onlyOwner m;;
  ensure (bool_decide (newOwner ≠ 0%N)) (OwnableInvalidOwner 0%N);;
  update (upd_market_owner (λ _, newOwner)).
Definition market_renounceOwnership (m : msg) : MM unit :=
  onlyOwner m;;
  update (upd_market_owner (λ _, 0%N)).

Definition addCategory (m : msg) (category : string) : MM unit :=
  onlyOwner m;;
  exists_ ← store (λ s, (categoryExists s).[category]);
  ensure (negb exists_) (Revert "Category already exists");;
  update (upd_categories (λ l, l ++ [category]));;
  update (upd_categoryExists <[category := true]>);;
  emit (CategoryAdded category).

(** The body of [constructor() Ownable(msg.sender)]. *)
Definition constructor (m : msg) : MM unit :=
  addCategory m "Art";;
  addCategory m "Gaming";;
  addCategory m "Memberships";;
  addCategory m "Music";;
  addCategory m "PFPs";;
  addCategory m "Photography".

Definition createCollection (m : msg) (name symbol baseURI category : string)
    : MM address :=
  known ← store (λ s, (categoryExists s).[category]);
  ensure known (Revert "Invalid category");;
  let collectionOwner := msg_sender m in
  collectionAddress ← external
    (new_NFTCollection name symbol baseURI this category collectionOwner);
  update (upd_collections <[collectionAddress :=
    {| c_collectionAddress := collectionAddress; c_name := name; c_symbol := symbol;
       c_category := category; c_owner := collectionOwner; c_isActive := true;
       c_createdAt := block_timestamp m; c_baseURI := baseURI; c_totalSupply := 0 |}]>);;
  update (upd_collectionAddresses (λ l, l ++ [collectionAddress]));;
  update (upd_categoryToCollections (push_at category collectionAddress));;
  emit (CollectionCreated collectionAddress name symbol category collectionOwner);;
  update (upd_userCreatedCollections (push_at (msg_sender m) collectionAddress));;
  mret collectionAddress.

Definition createMarketItem (m : msg) (collectionAddress : address) (tokenId price : Z)
    : MM unit :=
  nonReentrant (
    active ← store (λ s, c_isActive (collections s).[collectionAddress]);
    ensure active (Revert "Collection does not exist");;
    ensure (0 <? price)%Z (Revert "Price must be greater than zero");;
    fee ← store listingFee;
    ensure (msg_value m =? fee)%Z (Revert "Must pay listing fee");;
    tokenURI ← external_view (λ e, nft_tokenURI e collectionAddress tokenId);
    update (upd_collectionToMarketItems <[(collectionAddress, tokenId) :=
      {| i_tokenId := tokenId; i_nftContract := collectionAddress;
         i_seller := msg_sender m; i_owner := 0; i_price := price; i_isOnSale := true;
         i_auctionEndTime := 0; i_highestBidder := 0; i_highestBid := 0;
         i_isAuction := false; i_tokenURI := tokenURI |}]>);;
    update (upd_collectionTokenIds (push_at collectionAddress tokenId));;
    external (nft_transferFrom this collectionAddress (msg_sender m) this tokenId);;
    emit (MarketItemCreated collectionAddress tokenId (msg_sender m) 0%N price)).

(** *** Views used by the listing pages *)

Definition item_at (s : MarketStorage) (collectionAddress : address) (tokenId : Z)
    : MarketItem := (collectionToMarketItems s).[(collectionAddress, tokenId)].

Definition getCategories (s : MarketStorage) : list string := categories s.

(** One turn of the loop of [_getFloorPrice]. *)
Definition floor_step (s : MarketStorage) (collectionAddress : address)
    (lowestPrice : Z) (tokenId : Z) : Z :=
  let item := item_at s collectionAddress tokenId in
  if i_isOnSale item && (i_price item <? lowestPrice)%Z then i_price item else lowestPrice.

Definition _getFloorPrice (s : MarketStorage) (collectionAddress : address) : Z :=
  let tokenIds := (collectionTokenIds s).[collectionAddress] in
  let lowestPrice := foldl (floor_step s collectionAddress) uint256_max tokenIds in
  if (lowestPrice =? uint256_max)%Z then 0%Z else lowestPrice.

Definition _getTotalVolume (s : MarketStorage) (collectionAddress : address) : Z := 0.
Definition _getUniqueOwnerCount (s : MarketStorage) (collectionAddress : address) : Z := 0.

Definition getCollectionDetails (s : MarketStorage) (collectionAddress : address)
    : result evm_error Collection :=
  if c_isActive (collections s).[collectionAddress]
  then Ok (collections s).[collectionAddress]
  else Err (Revert "Collection does not exist").

Definition fetchCollectionDetails (s : MarketStorage) (collectionAddress : address)
    : result evm_error CollectionDetails :=
  if c_isActive (collections s).[collectionAddress] then
    Ok {| d_basic := (collections s).[collectionAddress];
          d_floorPrice := _getFloorPrice s collectionAddress;
          d_totalVolume := _getTotalVolume s collectionAddress;
          d_ownerCount := _getUniqueOwnerCount s collectionAddress |}
  else Err (Revert "Collection does not exist").

Definition fetchCollections (s : MarketStorage) : result evm_error (list CollectionDetails) :=
  result_mapM (fetchCollectionDetails s) (collectionAddresses s).

Definition fetchUserCreatedCollections (s : MarketStorage) (user : address)
    : result evm_error (list CollectionDetails) :=
  result_mapM (fetchCollectionDetails s) (userCreatedCollections s).[user].

Definition fetchCollectionItems (s : MarketStorage) (collectionAddress : address)
    : result evm_error (list MarketItem) :=
  if c_isActive (collections s).[collectionAddress] then
    Ok (item_at s collectionAddress <$> (collectionTokenIds s).[collectionAddress])
  else Err (Revert "Collection does not exist").

Definition fetchCollectionsByCategory (s : MarketStorage) (category : string)
    : result evm_error (list Collection) :=
  if (categoryExists s).[category] then
    Ok ((λ a, (collections s).[a]) <$> (categoryToCollections s).[category])
  else Err (Revert "Category does not exist").

(** The two nested loops of [fetchUserPurchasedItems]: the result array has
    [userPurchaseCount[user]] entries and is written at [currentIndex]. *)
Fixpoint purchased_tokens (s : MarketStorage) (user collectionAddress : address)
    (tokenIds : list Z) (acc : list MarketItem * nat)
    : result evm_error (list MarketItem * nat) :=
  match tokenIds with
  | [] => Ok acc
  | tokenId :: tokenIds =>
      if (userPurchases s).[(user, collectionAddress, tokenId)] then
        items ← array_set acc.1 acc.2 (item_at s collectionAddress tokenId);
        purchased_tokens s user collectionAddress tokenIds (items, S acc.2)
      else purchased_tokens s user collectionAddress tokenIds acc
  end.

Fixpoint purchased_collections (s : MarketStorage) (user : address)
    (addresses : list address) (acc : list MarketItem * nat)
    : result evm_error (list MarketItem * nat) :=
  match addresses with
  | [] => Ok acc
  | collectionAddress :: addresses =>
      acc ← purchased_tokens s user collectionAddress
              (collectionTokenIds s).[collectionAddress] acc;
      purchased_collections s user addresses acc
  end.

Definition fetchUserPurchasedItems (s : MarketStorage) (user : address)
    : result evm_error (list MarketItem) :=
  let totalItemCount := Z.to_nat (userPurchaseCount s).[user] in
  acc ← purchased_collections s user (collectionAddresses s)
          (replicate totalItemCount sol_zero, 0);
  mret acc.1.

(** *** Sales, auctions, bids and offers *)

Definition with_item (collectionAddress : address) (tokenId : Z)
    (f : MarketItem → MarketItem) : MM unit :=
  update (upd_collectionToMarketItems (λ items,
    <[(collectionAddress, tokenId) := f (items.[(collectionAddress, tokenId)])]> items)).

(** [item.isOnSale = false; item.owner = buyer;] *)
Definition item_sold (buyer : address) (i : MarketItem) : MarketItem :=
  {| i_tokenId := i_tokenId i; i_nftContract := i_nftContract i; i_seller := i_seller i;
     i_owner := buyer; i_price := i_price i; i_isOnSale := false;
     i_auctionEndTime := i_auctionEndTime i; i_highestBidder := i_highestBidder i;
     i_highestBid := i_highestBid i; i_isAuction := i_isAuction i;
     i_tokenURI := i_tokenURI i |}.

(** [item.isAuction = true; item.price = p; item.auctionEndTime = t;] *)
Definition item_auctioned (p t : Z) (i : MarketItem) : MarketItem :=
  {| i_tokenId := i_tokenId i; i_nftContract := i_nftContract i; i_seller := i_seller i;
     i_owner := i_owner i; i_price := p; i_isOnSale := i_isOnSale i;
     i_auctionEndTime := t; i_highestBidder := i_highestBidder i;
     i_highestBid := i_highestBid i; i_isAuction := true;
     i_tokenURI := i_tokenURI i |}.

(** [item.highestBidder = bidder; item.highestBid = bid;] *)
Definition item_bid (bidder : address) (bid : Z) (i : MarketItem) : MarketItem :=
  {| i_tokenId := i_tokenId i; i_nftContract := i_nftContract i; i_seller := i_seller i;
     i_owner := i_owner i; i_price := i_price i; i_isOnSale := i_isOnSale i;
     i_auctionEndTime := i_auctionEndTime i; i_highestBidder := bidder;
     i_highestBid := bid; i_isAuction := i_isAuction i;
     i_tokenURI := i_tokenURI i |}.

Definition createMarketSale (m : msg) (collectionAddress : address) (tokenId : Z) : MM unit :=
  nonReentrant (
    item ← store (λ s, item_at s collectionAddress tokenId);
    ensure (i_isOnSale item) (Revert "Item is not on sale");;
    ensure (negb (i_isAuction item)) (Revert "Item is on auction");;
    ensure (msg_value m =? i_price item)%Z (Revert "Please submit the asking price");;
    with_item collectionAddress tokenId (item_sold (msg_sender m));;
    external (pay this (i_seller item) (msg_value m));;
    external (nft_transferFrom this collectionAddress this (msg_sender m) tokenId);;
    update (upd_userPurchases <[(msg_sender m, collectionAddress, tokenId) := true]>);;
    count ← store (λ s, (userPurchaseCount s).[msg_sender m]);
    count' ← checked_add count 1;
    update (upd_userPurchaseCount <[msg_sender m := count']>);;
    emit (MarketItemSold collectionAddress tokenId (i_seller item) (msg_sender m)
            (msg_value m))).

Definition createAuction (m : msg) (collectionAddress : address)
    (tokenId startingPrice duration : Z) : MM unit :=
  nonReentrant (
    item ← store (λ s, item_at s collectionAddress tokenId);
    ensure (bool_decide (i_seller item = msg_sender m))
      (Revert "Only seller can start auction");;
    ensure (negb (i_isAuction item)) (Revert "Already on auction");;
    auctionEndTime ← checked_add (block_timestamp m) duration;
    with_item collectionAddress tokenId (item_auctioned startingPrice auctionEndTime)).

Definition placeBid (m : msg) (collectionAddress : address) (tokenId : Z) : MM unit :=
  nonReentrant (
    item ← store (λ s, item_at s collectionAddress tokenId);
    ensure (i_isAuction item) (Revert "Not an auction");;
    ensure (block_timestamp m <? i_auctionEndTime item)%Z (Revert "Auction ended");;
    ensure (i_highestBid item <? msg_value m)%Z (Revert "Bid too low");;
    (if decide (i_highestBidder item ≠ 0%N) then
       let key := (collectionAddress, tokenId, i_highestBidder item) in
       owed ← store (λ s, (pendingReturns s).[key]);
       owed' ← checked_add owed (i_highestBid item);
       update (upd_pendingReturns <[key := owed']>)
     else mret tt);;
    with_item collectionAddress tokenId (item_bid (msg_sender m) (msg_value m))).

Definition makeOffer (m : msg) (collectionAddress : address) (tokenId : Z) : MM unit :=
  nonReentrant (
    item ← store (λ s, item_at s collectionAddress tokenId);
    ensure (i_isOnSale item) (Revert "Item not on sale");;
    ensure (negb (i_isAuction item)) (Revert "Item is on auction");;
    ensure (0 <? msg_value m)%Z (Revert "Offer must be greater than zero");;
    update (upd_itemOffers (push_at (collectionAddress, tokenId)
      {| o_buyer := msg_sender m; o_price := msg_value m;
         o_timestamp := block_timestamp m |}));;
    emit (OfferCreated collectionAddress (msg_sender m) (msg_value m))).

Definition updateCollectionTotalSupply (m : msg) (collectionAddress : address) : MM unit :=
  col ← store (λ s, (collections s).[collectionAddress]);
  ensure (c_isActive col) (Revert "Collection does not exist");;
  ensure (bool_decide (msg_sender m = collectionAddress))
    (Revert "Only collection contract can update its supply");;
  newTotalSupply ← external_view (λ e, nft_totalSupply e collectionAddress);
  update (upd_collections (λ cs,
    let c := cs.[collectionAddress] in
    <[collectionAddress :=
      {| c_collectionAddress := c_collectionAddress c; c_name := c_name c;
         c_symbol := c_symbol c; c_category := c_category c; c_owner := c_owner c;
         c_isActive := c_isActive c; c_createdAt := c_createdAt c;
         c_baseURI := c_baseURI c; c_totalSupply := newTotalSupply |}]> cs)).

End operations.
