(* ===== verification/Search.v ===== *)
(** * contracts/NFTMarketplace.sol: collection search

    The case-insensitive substring test with its two loops over bytes, the
    filter predicate, and the two-pass search (count, then fill an array of
    that size), with the reference definitions they are proved equal to. *)

From stdpp Require Import base list gmap strings numbers.
From Stdlib Require Import ZArith Lia.
From S2P Require Import Prelude Evm MarketStorage Marketplace.

(** [bytes(s)]: the bytes of a string, as numbers 0..255. *)
Fixpoint bytes_of (s : string) : list Z :=
  match s with
  | EmptyString => []
  | String a s => Z.of_N (Ascii.N_of_ascii a) :: bytes_of s
  end.

(** [if (b >= 0x41 && b <= 0x5A) b |= 0x20;] *)
Definition lower_byte (b : Z) : Z :=
  if (65 <=? b)%Z && (b <=? 90)%Z then Z.lor b 32 else b.

(** The inner loop: compares [search] with [base] from position [i].  [fuel]
    counts the turns left, [search.length - j]. *)
Fixpoint match_at (base search : list Z) (i j fuel : nat) : result evm_error bool :=
  match fuel with
  | 0 => Ok true
  | S fuel =>
      b ← array_get base (i + j);
      s ← array_get search j;
      if (lower_byte b =? lower_byte s)%Z then match_at base search i (S j) fuel
      else Ok false
  end.

(** The outer loop: positions [i .. base.length - search.length]. *)
Fixpoint find_from (base search : list Z) (i fuel : nat) : result evm_error bool :=
  match fuel with
  | 0 => Ok false
  | S fuel =>
      found ← match_at base search i 0 (length search);
      if found : bool then Ok true else find_from base search (S i) fuel
  end.

Definition _containsIgnoreCase (_base _search : string) : result evm_error bool :=
  let base := bytes_of _base in
  let search := bytes_of _search in
  if decide (length search = 0) then Ok true else
  if decide (length base < length search) then Ok false else
  find_from base search 0 (length base - length search + 1).

(** [a || b], where [b] is evaluated only when [a] is false. *)
Definition sol_or (a b : result evm_error bool) : result evm_error bool :=
  x ← a; if x : bool then Ok true else b.

Definition _matchesSearchCriteria (col : Collection) (searchTerm category : string)
    (floorPrice minFloorPrice maxFloorPrice : Z) : result evm_error bool :=
  matchesSearch ←
    sol_or (Ok (bool_decide (length (bytes_of searchTerm) = 0)))
      (sol_or (_containsIgnoreCase (c_name col) searchTerm)
              (_containsIgnoreCase (c_symbol col) searchTerm));
  matchesCategory ←
    sol_or (Ok (bool_decide (length (bytes_of category) = 0)))
      (_containsIgnoreCase (c_category col) category);
  let matchesPrice :=
    ((minFloorPrice =? 0)%Z || (minFloorPrice <=? floorPrice)%Z) &&
    ((maxFloorPrice =? 0)%Z || (floorPrice <=? maxFloorPrice)%Z) in
  mret (matchesSearch && matchesCategory && matchesPrice).

Section search.
Variables (s : MarketStorage) (searchTerm category : string).
Variables (minFloorPrice maxFloorPrice : Z).

Definition search_hit (a : address) : result evm_error bool :=
  let col := (collections s).[a] in
  if negb (c_isActive col) then Ok false else
  _matchesSearchCriteria col searchTerm category (_getFloorPrice s a)
    minFloorPrice maxFloorPrice.

Definition search_result (a : address) : SearchResult :=
  let col := (collections s).[a] in
  {| r_collectionAddress := c_collectionAddress col; r_name := c_name col;
     r_symbol := c_symbol col; r_category := c_category col;
     r_totalSupply := c_totalSupply col; r_floorPrice := _getFloorPrice s a;
     r_isActive := true |}.

(** First pass: [resultCount]. *)
Fixpoint search_count (addrs : list address) (resultCount : nat) : result evm_error nat :=
  match addrs with
  | [] => Ok resultCount
  | a :: addrs =>
      hit ← search_hit a;
      search_count addrs (if hit : bool then S resultCount else resultCount)
  end.

(** Second pass: fills [results] while [currentIndex < resultCount]. *)
Fixpoint search_fill (resultCount : nat) (addrs : list address)
    (results : list SearchResult) (currentIndex : nat)
    : result evm_error (list SearchResult) :=
  match addrs with
  | [] => Ok results
  | a :: addrs =>
      if decide (currentIndex < resultCount) then
        hit ← search_hit a;
        if hit : bool then
          results ← array_set results currentIndex (search_result a);
          search_fill resultCount addrs results (S currentIndex)
        else search_fill resultCount addrs results currentIndex
      else Ok results
  end.
End search.

(** A fresh [SearchResult] of a memory array. *)
#[export] Instance SearchResult_zero : SolZero SearchResult :=
  {| r_collectionAddress := 0; r_name := ""; r_symbol := ""; r_category := "";
     r_totalSupply := 0; r_floorPrice := 0; r_isActive := false |}.

Definition _searchWithFilters (s : MarketStorage) (searchTerm category : string)
    (minFloorPrice maxFloorPrice : Z) : result evm_error (list SearchResult) :=
  resultCount ← search_count s searchTerm category minFloorPrice maxFloorPrice
                  (collectionAddresses s) 0;
  search_fill s searchTerm category minFloorPrice maxFloorPrice resultCount
    (collectionAddresses s) (replicate resultCount sol_zero) 0.

Definition searchCollections (s : MarketStorage) (searchTerm : string)
    : result evm_error (list SearchResult) :=
  _searchWithFilters s searchTerm "" 0 0.

Definition searchCollectionsWithFilters (s : MarketStorage) (searchTerm category : string)
    (minFloorPrice maxFloorPrice : Z) : result evm_error (list SearchResult) :=
  _searchWithFilters s searchTerm category minFloorPrice maxFloorPrice.

(** ** Reference definitions *)

(** [search] occurs in [base], letters compared without case. *)
Definition occurs_ignoring_case (base search : list Z) : Prop :=
  ∃ pre mid post, base = pre ++ mid ++ post ∧ lower_byte <$> mid = lower_byte <$> search.

Definition slice_eqb (base search : list Z) (i : nat) : bool :=
  bool_decide (lower_byte <$> take (length search) (drop i base) = lower_byte <$> search).

Definition contains_spec (_base _search : string) : bool :=
  existsb (slice_eqb (bytes_of _base) (bytes_of _search))
    (seq 0 (length (bytes_of _base) - length (bytes_of _search) + 1)).

Definition matches_spec (col : Collection) (searchTerm category : string)
    (floorPrice minFloorPrice maxFloorPrice : Z) : bool :=
  (contains_spec (c_name col) searchTerm || contains_spec (c_symbol col) searchTerm) &&
  contains_spec (c_category col) category &&
  (((minFloorPrice =? 0)%Z || (minFloorPrice <=? floorPrice)%Z) &&
   ((maxFloorPrice =? 0)%Z || (floorPrice <=? maxFloorPrice)%Z)).

Definition hit_spec (s : MarketStorage) (searchTerm category : string)
    (minFloorPrice maxFloorPrice : Z) (a : address) : bool :=
  c_isActive (collections s).[a] &&
  matches_spec (collections s).[a] searchTerm category (_getFloorPrice s a)
    minFloorPrice maxFloorPrice.

Definition search_spec (s : MarketStorage) (searchTerm category : string)
    (minFloorPrice maxFloorPrice : Z) : list SearchResult :=
  search_result s <$>
    List.filter (hit_spec s searchTerm category minFloorPrice maxFloorPrice)
      (collectionAddresses s).

(** ** The substring test *)

Lemma match_at_run base search i j fuel :
  j + fuel = length search → i + length search ≤ length base →
  match_at base search i j fuel =
    Ok (bool_decide (lower_byte <$> take fuel (drop (i + j) base)
                     = lower_byte <$> drop j search)).
Proof.
  revert j. induction fuel as [|fuel IH]; intros j Hj Hi; cbn.
  - rewrite (drop_ge search j) by lia. by rewrite bool_decide_true.
  - destruct (lookup_lt_is_Some_2 base (i + j)) as [b Hb]; [lia|].
    destruct (lookup_lt_is_Some_2 search j) as [c Hc]; [lia|].
    unfold array_get. rewrite Hb, Hc. cbn.
    rewrite (drop_S base b (i + j)), (drop_S search c j) by done. cbn.
    destruct (Z.eqb_spec (lower_byte b) (lower_byte c)) as [E|E].
    + rewrite IH by lia. replace (i + S j) with (S (i + j)) by lia.
      f_equal. apply bool_decide_ext. rewrite E.
      split; [by intros -> | by intros [= ->]].
    + rewrite bool_decide_false; [done|]. by intros [= ? ?].
Qed.

Lemma find_from_run base search i fuel :
  i + fuel + length search ≤ S (length base) →
  find_from base search i fuel = Ok (existsb (slice_eqb base search) (seq i fuel)).
Proof.
  revert i. induction fuel as [|fuel IH]; intros i Hi; cbn; [done|].
  rewrite match_at_run by lia. cbn.
  replace (i + 0) with i by lia.
  change (bool_decide _) with (slice_eqb base search i).
  destruct (slice_eqb base search i); cbn; [done|]. apply IH. lia.
Qed.

Lemma slice_eqb_short base search i :
  length base < i + length search → 0 < length search → slice_eqb base search i = false.
Proof.
  intros Hl H0. unfold slice_eqb. apply bool_decide_eq_false. intros E.
  apply (f_equal length) in E. rewrite !length_fmap, length_take, length_drop in E. lia.
Qed.

Lemma _containsIgnoreCase_run _base _search :
  _containsIgnoreCase _base _search = Ok (contains_spec _base _search).
Proof.
  unfold _containsIgnoreCase, contains_spec.
  set (base := bytes_of _base). set (search := bytes_of _search).
  case_decide as H0.
  - f_equal. symmetry. apply existsb_exists. exists 0. split; [apply in_seq; lia|].
    unfold slice_eqb. apply nil_length_inv in H0. rewrite H0. done.
  - case_decide as Hlt.
    + replace (length base - length search + 1) with 1 by lia. cbn.
      by rewrite slice_eqb_short by lia.
    + apply find_from_run. lia.
Qed.

Lemma slice_eqb_true base search i :
  slice_eqb base search i = true → occurs_ignoring_case base search.
Proof.
  unfold slice_eqb. rewrite bool_decide_eq_true. intros E.
  exists (take i base), (take (length search) (drop i base)),
    (drop (length search) (drop i base)).
  by rewrite !take_drop.
Qed.

Lemma contains_spec_true _base _search :
  contains_spec _base _search = true ↔
  occurs_ignoring_case (bytes_of _base) (bytes_of _search).
Proof.
  unfold contains_spec. rewrite existsb_exists. split.
  - intros (i & _ & Hi). by eapply slice_eqb_true.
  - intros (pre & mid & post & -> & E).
    assert (Hl : length mid = length (bytes_of _search)).
    { apply (f_equal length) in E. by rewrite !length_fmap in E. }
    exists (length pre). split.
    + apply in_seq. rewrite !length_app. lia.
    + unfold slice_eqb. rewrite bool_decide_eq_true.
      rewrite drop_app_length, <- Hl, take_app_length. done.
Qed.

(** ** The filters *)

Lemma contains_spec_empty _base _search :
  length (bytes_of _search) = 0 → contains_spec _base _search = true.
Proof.
  intros H. apply contains_spec_true. apply nil_length_inv in H. rewrite H.
  by exists [], [], (bytes_of _base).
Qed.

Lemma _matchesSearchCriteria_run col searchTerm category floorPrice mn mx :
  _matchesSearchCriteria col searchTerm category floorPrice mn mx =
    Ok (matches_spec col searchTerm category floorPrice mn mx).
Proof.
  unfold _matchesSearchCriteria, matches_spec, sol_or.
  rewrite !_containsIgnoreCase_run.
  assert (Hor : ∀ x y : bool, (r ← Ok (X := evm_error) x; if r : bool then Ok true else Ok y)
                = Ok (x || y)) by (by intros [] []).
  rewrite !Hor.
  assert (Hempty : ∀ b t, bool_decide (length (bytes_of t) = 0) || contains_spec b t
                          = contains_spec b t).
  { intros b t. case_bool_decide as Ht; [by rewrite contains_spec_empty | done]. }
  rewrite orb_assoc. rewrite !Hempty. cbn. done.
Qed.

Lemma search_hit_run s searchTerm category mn mx a :
  search_hit s searchTerm category mn mx a = Ok (hit_spec s searchTerm category mn mx a).
Proof.
  unfold search_hit, hit_spec. destruct (c_isActive _); cbn; [|done].
  apply _matchesSearchCriteria_run.
Qed.

(** ** The two passes *)
Section two_passes.
Variables (s : MarketStorage) (searchTerm category : string) (mn mx : Z).
Abbreviation hits addrs := (List.filter (hit_spec s searchTerm category mn mx) addrs).

Lemma search_count_run addrs n :
  search_count s searchTerm category mn mx addrs n = Ok (n + length (hits addrs)).
Proof.
  revert n. induction addrs as [|a addrs IH]; intros n; cbn; [by rewrite Nat.add_0_r|].
  rewrite search_hit_run. cbn. destruct (hit_spec _ _ _ _ _ a); rewrite IH; cbn; [|done].
  f_equal. lia.
Qed.

Lemma array_set_app {A} (pre suf : list A) x v :
  array_set (pre ++ x :: suf) (length pre) v = Ok ((pre ++ [v]) ++ suf).
Proof.
  unfold array_set. rewrite decide_True by (rewrite length_app; cbn; lia).
  by rewrite insert_app_r_alt, Nat.sub_diag, <- app_assoc by lia.
Qed.

Lemma search_fill_run addrs pre rc :
  rc = length pre + length (hits addrs) →
  search_fill s searchTerm category mn mx rc addrs
    (pre ++ replicate (length (hits addrs)) sol_zero) (length pre)
  = Ok (pre ++ (search_result s <$> hits addrs)).
Proof.
  revert pre. induction addrs as [|a addrs IH]; intros pre Hrc; cbn in *;
    [by rewrite app_nil_r|].
  case_decide as Hlt.
  - rewrite search_hit_run. cbn.
    destruct (hit_spec _ _ _ _ _ a) eqn:Hhit; cbn in *.
    + rewrite array_set_app. cbn.
      replace (S (length pre)) with (length (pre ++ [search_result s a]))
        by (rewrite length_app; cbn; lia).
      rewrite IH by (rewrite length_app; cbn; lia). by rewrite <- app_assoc.
    + by rewrite IH.
  - destruct (hit_spec _ _ _ _ _ a); cbn in *; [lia|].
    assert (hits addrs = []) as -> by (apply nil_length_inv; lia). done.
Qed.

Lemma _searchWithFilters_run :
  _searchWithFilters s searchTerm category mn mx = Ok (search_spec s searchTerm category mn mx).
Proof.
  unfold _searchWithFilters, search_spec. rewrite search_count_run. cbn.
  by apply (search_fill_run (collectionAddresses s) []).
Qed.
End two_passes.

(** ** Properties *)


(** C19: the two-pass search (count the hits, then fill an array of that size)
    never reverts and returns, in creation order, one result for every active
    collection that passes the text, category and price filters. *)
Theorem search_two_passes_correct (s : MarketStorage) (searchTerm category : string)
    (minFloorPrice maxFloorPrice : Z) :
  searchCollectionsWithFilters s searchTerm category minFloorPrice maxFloorPrice =
    Ok (search_spec s searchTerm category minFloorPrice maxFloorPrice).
Proof. apply _searchWithFilters_run. Qed.

Example containsIgnoreCase_ex :
  _containsIgnoreCase "Test Collection" "tesT c" = Ok true ∧
  _containsIgnoreCase "Test" "Test Collection" = Ok false.
Proof. split; reflexivity. Qed.
