(* ===== verification/Chain.v ===== *)
(** * The chain: both contracts together

    The accounts, the deployed collections and the marketplace in one state,
    the external functions as calls of that state, and the steps the chain can
    take ([evolves]), callbacks of token receivers included. *)

From stdpp Require Import base list gmap strings numbers.
From Stdlib Require Import ZArith Lia.
From S2P Require Import Prelude Evm Erc721 NFTCollection MarketStorage Marketplace.

(** Everything outside the storage of the marketplace. *)
Record Env := {
  e_ether : gmap address Z;
  e_nfts : gmap address NFTCollection;
  e_nonce : N
}.

Definition set_ether (f : gmap address Z → gmap address Z) (e : Env) : Env :=
  {| e_ether := f (e_ether e); e_nfts := e_nfts e; e_nonce := e_nonce e |}.
Definition set_nft (c : address) (n : NFTCollection) (e : Env) : Env :=
  {| e_ether := e_ether e; e_nfts := <[c := n]> (e_nfts e); e_nonce := e_nonce e |}.

Definition World := MState Env.

Section chain.
(** The address of the marketplace, the addresses [CREATE] gives to the
    contracts it deploys, and the accounts that accept a plain transfer. *)
Variable this : address.
Variable create_address : N → address.
Variable accepts_ether : address → bool.

Definition code_at (e : Env) (a : address) : bool :=
  bool_decide (a = this) || bool_decide (is_Some (e_nfts e !! a)).

(** Running code on the storage of the collection deployed at [c]. *)
Definition on_nft {A} (c : address) (m : M evm_error NFTCollection A) : M evm_error Env A :=
  λ e, match e_nfts e !! c with
       | None => Err (NoCode c)
       | Some n => match m n with
                   | Ok (a, n') => Ok (a, set_nft c n' e)
                   | Err x => Err x
                   end
       end.

Definition view_nft {A} (c : address) (f : NFTCollection → result evm_error A) (e : Env)
    : result evm_error A :=
  match e_nfts e !! c with None => Err (NoCode c) | Some n => f n end.

Definition move_ether (from to : address) (amount : Z) : M evm_error Env unit :=
  e ← get;
  ensure (amount <=? (e_ether e).[from])%Z InsufficientFunds;;
  modify (set_ether (λ b, <[from := b.[from] - amount]> b))%Z;;
  modify (set_ether (λ b, <[to := b.[to] + amount]> b))%Z.

(** [payable(to).transfer(amount)]: neither contract has a receive function. *)
Definition send_ether (from to : address) (amount : Z) : M evm_error Env unit :=
  e ← get;
  ensure (accepts_ether to && negb (code_at e to)) (SendFailed to);;
  move_ether from to amount.

(** [new NFTCollection(...)]. *)
Definition create_nft (name symbol baseURI : string) (marketplace : address)
    (category : string) (initialOwner : address) : M evm_error Env address :=
  e ← get;
  let a := create_address (e_nonce e) in
  ensure (negb (code_at e a)) (CreateCollision a);;
  n ← lift (nft_constructor name symbol baseURI marketplace category initialOwner);
  modify (λ e, {| e_ether := e_ether e; e_nfts := <[a := n]> (e_nfts e);
                  e_nonce := e_nonce e + 1 |});;
  mret a.

#[export] Instance Env_ops : ChainEnv Env := {|
  has_code := code_at;
  nft_ownerOf e c id :=
    match e_nfts e !! c with Some n => _ownerOf (erc721 n) id | None => 0%N end;
  nft_tokenURI e c id := view_nft c (λ n, tokenURI (erc721 n) id) e;
  nft_totalSupply e c := view_nft c (λ n, Ok (totalSupply n)) e;
  nft_transferFrom caller c from to id :=
    on_nft c (on_erc721 (transferFrom caller from to id));
  new_NFTCollection := create_nft;
  ether e a := (e_ether e).[a];
  pay := send_ether
|}.

(** ** Calls *)
Inductive market_call :=
| AddCategory (category : string)
| CreateCollection (name symbol baseURI category : string)
| CreateMarketItem (collectionAddress : address) (tokenId price : Z)
| CreateMarketSale (collectionAddress : address) (tokenId : Z)
| CreateAuction (collectionAddress : address) (tokenId startingPrice duration : Z)
| PlaceBid (collectionAddress : address) (tokenId : Z)
| MakeOffer (collectionAddress : address) (tokenId : Z)
| UpdateCollectionTotalSupply (collectionAddress : address)
| MarketTransferOwnership (newOwner : address)
| MarketRenounceOwnership.

Inductive nft_call :=
| Mint (to : address) (tokenURI : string)
| Approve (to : address) (tokenId : Z)
| SetApprovalForAll (operator : address) (approved : bool)
| TransferFrom (from to : address) (tokenId : Z)
| SafeTransferFrom (from to : address) (tokenId : Z)
| TransferOwnership (newOwner : address)
| RenounceOwnership.

Inductive call :=
| ToMarket (f : market_call)
| ToNft (c : address) (f : nft_call).

Definition payable (f : market_call) : bool :=
  match f with
  | CreateMarketItem _ _ _ | CreateMarketSale _ _ | PlaceBid _ _ | MakeOffer _ _ => true
  | _ => false
  end.

Definition market_body (m : msg) (f : market_call) : M evm_error World unit :=
  match f with
  | AddCategory category => addCategory m category
  | CreateCollection name symbol baseURI category =>
      _ ← createCollection this m name symbol baseURI category; mret tt
  | CreateMarketItem c id price => createMarketItem this m c id price
  | CreateMarketSale c id => createMarketSale this m c id
  | CreateAuction c id startingPrice duration => createAuction m c id startingPrice duration
  | PlaceBid c id => placeBid m c id
  | MakeOffer c id => makeOffer m c id
  | UpdateCollectionTotalSupply c => updateCollectionTotalSupply m c
  | MarketTransferOwnership o => market_transferOwnership m o
  | MarketRenounceOwnership => market_renounceOwnership m
  end.

(** A call of the marketplace: [msg.value] arrives, then the body runs. *)
Definition market_exec (m : msg) (f : market_call) : M evm_error World unit :=
  (if payable f then external (move_ether (msg_sender m) this (msg_value m))
   else ensure (msg_value m =? 0)%Z NotPayable);;
  market_body m f.

(** A receiver with code is called back.  [hook] is the code of the receiver;
    the two contracts of this repository do not implement the callback. *)
Definition checkOnERC721Received (hook : M evm_error World unit)
    (operator from to : address) (tokenId : Z) : M evm_error World unit :=
  w ← get;
  ensure (negb (code_at (m_env w) to)) (ERC721InvalidReceiver to);;
  hook.

Definition nft_exec (hook : M evm_error World unit) (m : msg) (c : address) (f : nft_call)
    : M evm_error World unit :=
  ensure (msg_value m =? 0)%Z NotPayable;;
  let caller := msg_sender m in
  let self {A} (p : M evm_error NFTCollection A) := external (on_nft c p) in
  match f with
  | Mint to uri =>
      _ ← mint (@self) (checkOnERC721Received hook)
            (updateCollectionTotalSupply (Msg c 0 (block_timestamp m)) c) caller to uri;
      mret tt
  | Approve to id => self (on_erc721 (approve caller to id))
  | SetApprovalForAll operator approved =>
      self (on_erc721 (setApprovalForAll caller operator approved))
  | TransferFrom from to id => self (on_erc721 (transferFrom caller from to id))
  | SafeTransferFrom from to id =>
      safeTransferFrom (@self) (checkOnERC721Received hook) caller from to id
  | TransferOwnership o => self (transferOwnership caller o)
  | RenounceOwnership => self (renounceOwnership caller)
  end.

Definition exec (hook : M evm_error World unit) (m : msg) (f : call) : M evm_error World unit :=
  match f with
  | ToMarket f => market_exec m f
  | ToNft c f => nft_exec hook m c f
  end.

(** The words among the arguments of a call: calldata is decoded as such. *)
Definition valid_call (f : call) : Prop :=
  match f with
  | ToMarket (CreateMarketItem _ tokenId price) => is_uint256 tokenId ∧ is_uint256 price
  | ToMarket (CreateAuction _ tokenId startingPrice duration) =>
      is_uint256 tokenId ∧ is_uint256 startingPrice ∧ is_uint256 duration
  | ToMarket (CreateMarketSale _ tokenId | PlaceBid _ tokenId | MakeOffer _ tokenId)
  | ToNft _ (Approve _ tokenId | TransferFrom _ _ tokenId | SafeTransferFrom _ _ tokenId) =>
      is_uint256 tokenId
  | _ => True
  end.

(** Calls start from accounts that are neither of the contracts; amounts and
    times are words. *)
Definition valid_msg (w : World) (m : msg) : Prop :=
  msg_sender m ≠ 0%N ∧ code_at (m_env w) (msg_sender m) = false ∧
  is_uint256 (msg_value m) ∧ is_uint256 (block_timestamp m).

Definition set_env (e : Env) (w : World) : World :=
  {| m_store := m_store w; m_env := e; m_logs := m_logs w |}.

(** ** Steps

    A call with a receiver whose code does, while it is called back, any
    sequence of steps; and ether moving between other accounts. *)
Inductive evolves : World → World → Prop :=
| ev_refl w : evolves w w
| ev_trans w1 w2 w3 : evolves w1 w2 → evolves w2 w3 → evolves w1 w3
| ev_call w m f hook w' :
    valid_msg w m → valid_call f →
    (∀ w1 w2, hook w1 = Ok (tt, w2) → evolves w1 w2) →
    exec hook m f w = Ok (tt, w') →
    evolves w w'
| ev_ether w b :
    b.[this] = (e_ether (m_env w)).[this] →
    evolves w (set_env (set_ether (λ _, b) (m_env w)) w).

(** The deployment transaction. *)
Definition deploy (m : msg) (e : Env) : result evm_error (unit * World) :=
  constructor (E := Env) m
    {| m_store := market_storage_init (msg_sender m); m_env := e; m_logs := [] |}.

Definition genesis (w : World) : Prop :=
  ∃ m b, deploy m {| e_ether := b; e_nfts := ∅; e_nonce := 1 |} = Ok (tt, w) ∧
         (0 ≤ b.[this])%Z ∧ msg_sender m ≠ 0%N.

Definition reachable (w : World) : Prop := ∃ w0, genesis w0 ∧ evolves w0 w.

End chain.
