(* ===== verification/Trace.v ===== *)
(** * Transactions in sequence, and a deployment to try things on

    [run] executes calls one after the other, receivers with no code; whatever
    it reaches is reachable.  [demo] is a concrete deployment: a collection
    with tokens, listings, an auction, a sale. *)

From stdpp Require Import base list gmap strings numbers.
From Stdlib Require Import ZArith Lia.
From S2P Require Import Prelude Evm Erc721 NFTCollection MarketStorage Marketplace Chain.

#[export] Instance valid_msg_dec this w m : Decision (valid_msg this w m).
Proof. unfold valid_msg, is_uint256. apply _. Defined.

#[export] Instance valid_call_dec f : Decision (valid_call f).
Proof. destruct f as [[]|? []]; unfold valid_call, is_uint256; apply _. Defined.

Section trace.
Variable this : address.
Variable create_address : N → address.
Variable accepts_ether : address → bool.

Abbreviation exec := (exec this create_address accepts_ether).
Abbreviation evolves := (evolves this create_address accepts_ether).
Abbreviation reachable := (reachable this create_address accepts_ether).

Definition no_callback : M evm_error World unit := mret tt.

(** One transaction of an account; [None] when the account may not send it or
    the call reverts. *)
Definition transact (m : msg) (f : call) (w : World) : option World :=
  if decide (valid_msg this w m ∧ valid_call f) then
    match exec no_callback m f w with Ok (_, w') => Some w' | Err _ => None end
  else None.

Fixpoint run (calls : list (msg * call)) (w : World) : option World :=
  match calls with
  | [] => Some w
  | (m, f) :: calls => w' ← transact m f w; run calls w'
  end.

Lemma transact_evolves m f w w' : transact m f w = Some w' → evolves w w'.
Proof.
  unfold transact. case_decide as Hv; [destruct Hv as [Hv Hcall]|done].
  destruct (exec no_callback m f w) as [[[] w1]|] eqn:H; [|done]. intros [= <-].
  eapply (ev_call _ _ _ w m f no_callback); [done..| |done].
  intros w1' w2 [= <-]. apply ev_refl.
Qed.

Lemma run_evolves calls w w' : run calls w = Some w' → evolves w w'.
Proof.
  revert w. induction calls as [|[m f] calls IH]; intros w; cbn.
  - intros [= <-]. apply ev_refl.
  - intros (w1 & H & Hr)%bind_Some. eapply ev_trans; [by eapply transact_evolves|by apply IH].
Qed.

Lemma run_reachable calls w w' : genesis this w → run calls w = Some w' → reachable w'.
Proof. intros Hg Hr. exists w. split; [done|by eapply run_evolves]. Qed.
End trace.

(** ** A concrete deployment *)
Module demo.
Definition this : address := 1.
Definition create_address (nonce : N) : address := 1000 + nonce.
Definition accepts_ether (_ : address) : bool := true.

Definition deployer : address := 10.
Definition alice : address := 11.
Definition bob : address := 12.
Definition carol : address := 13.
(** The collection the first [createCollection] deploys. *)
Definition apes : address := 1001.

Definition ether_ : Z := 10 ^ 18.
Definition fee : Z := 5 * 10 ^ 14.

Definition start : World :=
  {| m_store := market_storage_init deployer;
     m_env := {| e_ether := <[alice := (100 * ether_)%Z]> (<[bob := (100 * ether_)%Z]>
                              (<[carol := (100 * ether_)%Z]> ∅));
                 e_nfts := ∅; e_nonce := 1 |};
     m_logs := [] |}.

Definition deployed : World :=
  match deploy (Msg deployer 0 1000) (m_env start) with Ok (_, w) => w | Err _ => start end.

Lemma deployed_genesis : genesis this deployed.
Proof. exists (Msg deployer 0 1000), (e_ether (m_env start)). split_and!; by vm_compute. Qed.

Definition play (calls : list (msg * call)) (w : World) : World :=
  default w (run this create_address accepts_ether calls w).

(** Calls at a time, without or with ether. *)
Definition at_ (t : Z) (who : address) (f : call) : msg * call := (Msg who 0 t, f).
Definition paying (v t : Z) (who : address) (f : call) : msg * call := (Msg who v t, f).

(** Alice creates a collection, mints a token to herself and lists it for one ether. *)
Definition listing : list (msg * call) := [
  at_ 2000 alice (ToMarket (CreateCollection "Cool Apes" "APE" "ipfs://apes" "Art"));
  at_ 2010 alice (ToNft apes (Mint alice "ipfs://apes/1"));
  at_ 2020 alice (ToNft apes (Approve this 1));
  paying fee 2030 alice (ToMarket (CreateMarketItem apes 1 ether_)) ].

Definition sale : list (msg * call) :=
  [ paying ether_ 2040 bob (ToMarket (CreateMarketSale apes 1)) ].

(** Bob lists what he bought; Carol buys it. *)
Definition relisting : list (msg * call) := [
  at_ 2050 bob (ToNft apes (Approve this 1));
  paying fee 2060 bob (ToMarket (CreateMarketItem apes 1 (2 * ether_)));
  paying (2 * ether_) 2070 carol (ToMarket (CreateMarketSale apes 1)) ].

(** Alice turns her listing into an auction and Bob, then Carol, bid. *)
Definition auction : list (msg * call) := [
  at_ 2040 alice (ToMarket (CreateAuction apes 1 (3 * ether_) 1000));
  paying ether_ 2050 bob (ToMarket (PlaceBid apes 1));
  paying (2 * ether_) 2060 carol (ToMarket (PlaceBid apes 1)) ].

(** One more bid. *)
Definition bids : list (msg * call) := [
  paying (3 * ether_) 2070 bob (ToMarket (PlaceBid apes 1)) ].

Definition w_listed : World := play listing deployed.
Definition w_sold : World := play (listing ++ sale) deployed.
Definition w_relisted : World := play (listing ++ sale ++ relisting) deployed.
Definition w_auction : World := play (listing ++ auction) deployed.
Definition w_bids : World := play bids w_auction.

Abbreviation evolves := (evolves this create_address accepts_ether).
Abbreviation reachable := (reachable this create_address accepts_ether).

Lemma play_reachable calls : is_Some (run this create_address accepts_ether calls deployed) →
  reachable (play calls deployed).
Proof.
  intros [w Hw]. unfold play. rewrite Hw. eapply run_reachable; [apply deployed_genesis|done].
Qed.

Lemma w_listed_reachable : reachable w_listed.
Proof. apply play_reachable. vm_compute. eauto. Qed.
Lemma w_sold_reachable : reachable w_sold.
Proof. apply play_reachable. vm_compute. eauto. Qed.
Lemma w_relisted_reachable : reachable w_relisted.
Proof. apply play_reachable. vm_compute. eauto. Qed.
Lemma w_auction_reachable : reachable w_auction.
Proof. apply play_reachable. vm_compute. eauto. Qed.

Lemma play_evolves calls w :
  is_Some (run this create_address accepts_ether calls w) → evolves w (play calls w).
Proof. intros [w' Hw]. unfold play. rewrite Hw. by eapply run_evolves. Qed.

Lemma w_listed_auction : evolves w_listed w_auction.
Proof.
  replace w_auction with (play auction w_listed) by by vm_compute.
  apply play_evolves. vm_compute. eauto.
Qed.
Lemma w_auction_bids : evolves w_auction w_bids.
Proof. apply play_evolves. vm_compute. eauto. Qed.
End demo.
