(* ===== verification/ChainFacts.v ===== *)
(** * The collections of the chain stay well-formed

    Well-formedness of every deployed collection, preserved by each of its
    operations; EnvLaws builds the instance of [ChainEnvLaws] on it. *)

From stdpp Require Import base list gmap strings numbers.
From Stdlib Require Import ZArith Lia.
From S2P Require Import Prelude Evm Erc721 NFTCollection MarketStorage Marketplace Chain.

Section facts.
Variable this : address.

(** A collection in good order: tokens minted in sequence, no approval hanging
    over a token the marketplace holds, no operator for the marketplace. *)
Record ok_nft (n : NFTCollection) : Prop := {
  ok_wf : nft_wf n;
  ok_marketplace : marketplaceAddress n = this;
  ok_operators : ∀ op, isApprovedForAll (erc721 n) this op = false;
  ok_escrow : ∀ id, _ownerOf (erc721 n) id = this → _getApproved (erc721 n) id = 0%N;
  ok_balances : balances_count (erc721 n)
}.

Lemma nft_constructor_ok name symbol uri cat owner c :
  nft_constructor name symbol uri this cat owner = Ok c → ok_nft c.
Proof.
  intros H. split.
  - by eapply nft_constructor_wf.
  - unfold nft_constructor in H. case_decide; [done|]. by injection H as <-.
  - unfold nft_constructor in H. case_decide; [done|]. injection H as <-. intros.
    unfold isApprovedForAll. cbn. apply mget_empty.
  - unfold nft_constructor in H. case_decide; [done|]. injection H as <-. intros.
    unfold _getApproved. cbn. apply mget_empty.
  - unfold nft_constructor in H. case_decide; [done|]. injection H as <-. intros a _.
    cbn. rewrite mget_empty. unfold tokens_of. cbn. by rewrite map_sum_empty.
Qed.

Lemma ok_nft_moved to id n :
  to ≠ 0%N → (1 ≤ id ≤ _tokenIds n)%Z → ok_nft n →
  ok_nft (set_erc721 (moved to id (erc721 n)) n).
Proof.
  intros Hto Hid [[Hwf Hm Hc] Hmk Hop Hes Hb]. split; cbn.
  - split; cbn; [by apply moved_wf | | done].
    intros id'. rewrite moved_ownerOf. case_decide; [subst; tauto|]. apply Hm.
  - done.
  - intros. by rewrite moved_operators.
  - intros id'. rewrite moved_ownerOf, moved_approved.
    repeat case_decide; try done.
    + intros _. subst id'. apply Hwf.
      destruct (decide (_ownerOf (erc721 n) id = 0%N)); [done|]. tauto.
    + apply Hes.
  - by apply moved_balances_count.
Qed.

Lemma ok_nft_ownership n o : ok_nft n → ok_nft (set_owner o n).
Proof. intros [[? ? ?] ? ? ? ?]. by split. Qed.

Lemma ok_nft_setTokenURI id uri n u n' :
  ok_nft n → on_erc721 (_setTokenURI id uri) n = Ok (u, n') →
  ok_nft n' ∧ (∀ id', _ownerOf (erc721 n') id' = _ownerOf (erc721 n) id') ∧
  _tokenIds n' = _tokenIds n.
Proof.
  intros [[[? ?] ? ?] ? ? ? ?] H. apply on_erc721_Ok in H as (e & H & ->).
  apply _setTokenURI_Ok in H as ->. split; [|done].
  split; [split; [split|..]|..]; done.
Qed.

(** Minting: the counter moves to a fresh id, which [to] then owns. *)
Lemma ok_nft_mint to n id n1 u n2 :
  ok_nft n → next_tokenId n = Ok (id, n1) → on_erc721 (_mint to id) n1 = Ok (u, n2) →
  ok_nft n2 ∧ id = (_tokenIds n + 1)%Z ∧ _ownerOf (erc721 n) id = 0%N ∧ to ≠ 0%N ∧
  (∀ id', _ownerOf (erc721 n2) id' =
            if decide (id = id') then to else _ownerOf (erc721 n) id') ∧
  _tokenIds n2 = id.
Proof.
  intros [[Hwf Hm Hc] Hmk Hop Hes Hb] Hn H.
  apply next_tokenId_Ok in Hn as (-> & Hmax & ->).
  apply on_erc721_Ok in H as (e & H & ->).
  apply _mint_Ok in H as (Hto & Hown & ->).
  split_and!; try done.
  - unfold is_uint256 in Hc. split; cbn.
    + split; cbn; [by apply moved_wf | | unfold is_uint256; lia].
      intros id'. rewrite moved_ownerOf. case_decide as Hd; [subst; split; [lia|done]|].
      rewrite Hm. lia.
    + done.
    + intros. by rewrite moved_operators.
    + intros id'. rewrite moved_ownerOf, moved_approved. intros Ht.
      destruct (decide (_ ∧ _)); [done|].
      destruct (decide (_tokenIds n + 1 = id')%Z) as [<-|Hne]; [by apply Hwf|].
      by apply Hes.
    + by apply moved_balances_count.
  - intros id'. apply moved_ownerOf.
Qed.
(** *** Each operation of a collection, called by an ordinary account *)
Variable caller : address.
Hypothesis caller_ok : caller ≠ 0%N ∧ caller ≠ this.

Lemma ok_nft_approve to id n u n' :
  ok_nft n → on_erc721 (approve caller to id) n = Ok (u, n') →
  ok_nft n' ∧ (∀ id', _ownerOf (erc721 n') id' = _ownerOf (erc721 n) id') ∧
  _tokenIds n' = _tokenIds n.
Proof.
  intros [[Hwf Hm Hc] Hmk Hop Hes Hb] H. apply on_erc721_Ok in H as (e & H & ->).
  apply approve_Ok in H as (Hown & Hauth & ->); [|apply caller_ok].
  split; [|done]. split; [|done..| |done]; cbn.
  - split; [|done..]. split; [|by apply Hwf]. cbn. intros id'.
    unfold _getApproved. cbn. rewrite mget_insert. case_decide; [by subst|]. apply Hwf.
  - intros id'. unfold _getApproved. cbn. rewrite mget_insert.
    change (_ownerOf _ id') with (_ownerOf (erc721 n) id').
    case_decide; [subst id'|apply Hes]. intros Ht. exfalso.
    rewrite Ht in Hauth. destruct Hauth as [->|Hauth]; [by apply caller_ok|].
    by rewrite Hop in Hauth.
Qed.

Lemma ok_nft_setApprovalForAll op b n u n' :
  ok_nft n → on_erc721 (setApprovalForAll caller op b) n = Ok (u, n') →
  ok_nft n' ∧ (∀ id', _ownerOf (erc721 n') id' = _ownerOf (erc721 n) id') ∧
  _tokenIds n' = _tokenIds n.
Proof.
  intros [[[Ha Ho] Hm Hc] Hmk Hop Hes Hb] H. apply on_erc721_Ok in H as (e & H & ->).
  apply setApprovalForAll_Ok in H as (Hz & ->). destruct caller_ok as [Hc0 Hct].
  split; [|done]. split; [|done| |done..]; cbn.
  - split; [|done..]. split; [done|]. intros op'. unfold isApprovedForAll. cbn.
    rewrite mget_insert_ne by congruence. apply Ho.
  - intros op'. unfold isApprovedForAll. cbn. rewrite mget_insert_ne by congruence. apply Hop.
Qed.

(** Only tokens that are not held by the marketplace can be moved. *)
Lemma ok_nft_transferFrom from to id n u n' :
  ok_nft n → on_erc721 (transferFrom caller from to id) n = Ok (u, n') →
  ok_nft n' ∧ _ownerOf (erc721 n) id ≠ this ∧ to ≠ 0%N ∧
  (∀ id', _ownerOf (erc721 n') id' =
            if decide (id = id') then to else _ownerOf (erc721 n) id') ∧
  _tokenIds n' = _tokenIds n.
Proof.
  intros Hok H. apply on_erc721_Ok in H as (e & H & ->).
  destruct caller_ok as [Hc0 Hct].
  apply transferFrom_Ok in H as (Hto & Hown & Hauth & ->); [|done].
  pose proof Hok as [[Hwf Hm Hc] Hmk Hop Hes Hb].
  assert (Hne : _ownerOf (erc721 n) id ≠ 0%N).
  { intros E. rewrite <- Hown, unminted_not_authorized in Hauth; done. }
  split; [apply ok_nft_moved; [done|by apply Hm|done]|]. split; [|split; [done|split; [|done]]].
  - intros E. rewrite <- Hown, E in Hauth. unfold _isAuthorized in Hauth.
    rewrite Hop, (Hes id E) in Hauth.
    rewrite (bool_decide_false (this = caller)) in Hauth by congruence.
    rewrite (bool_decide_false (0%N = caller)) in Hauth by congruence.
    cbn in Hauth. by rewrite andb_false_r in Hauth.
  - intros id'. apply moved_ownerOf.
Qed.

End facts.
