(* ===== verification/EnvLaws.v ===== *)
(** * The concrete chain implements the interface of the marketplace

    [Env_laws]: the operations of [Env_ops] satisfy [ChainEnvLaws], for the
    well-formedness [ok_env] of the deployed collections. *)

From stdpp Require Import base list gmap strings numbers.
From Stdlib Require Import ZArith Lia.
From S2P Require Import Prelude Evm Erc721 NFTCollection MarketStorage Marketplace Chain ChainFacts.

Section laws.
Variable this : address.
Variable create_address : N → address.
Variable accepts_ether : address → bool.

#[local] Instance ops : ChainEnv Env := Env_ops this create_address accepts_ether.

(** Every deployed collection is in good order, and none sits at the address
    of the marketplace. *)
Record ok_env (e : Env) : Prop := {
  env_nfts_ok : ∀ c n, e_nfts e !! c = Some n → ok_nft this n;
  env_this_free : e_nfts e !! this = None;
  env_this_nonzero : this ≠ 0%N
}.

Lemma on_nft_Ok {A} c (m : M evm_error NFTCollection A) e a e' :
  on_nft c m e = Ok (a, e') ↔
  ∃ n n', e_nfts e !! c = Some n ∧ m n = Ok (a, n') ∧ e' = set_nft c n' e.
Proof.
  unfold on_nft. destruct (e_nfts e !! c) as [n|] eqn:Hn.
  - destruct (m n) as [[x n']|x] eqn:Hm; split.
    + intros [= <- <-]. eauto.
    + intros (? & ? & [= <-] & Hm' & ->). rewrite Hm in Hm'. by simplify_eq.
    + done.
    + intros (? & ? & [= <-] & Hm' & ->). rewrite Hm in Hm'. by simplify_eq.
  - split; [done|]. by intros (? & ? & ? & _).
Qed.

Lemma ok_env_set_nft c n n' e :
  ok_env e → e_nfts e !! c = Some n → ok_nft this n' → ok_env (set_nft c n' e).
Proof.
  intros [Hn Ht H0] Hc Hok. split; cbn; [|by rewrite lookup_insert_ne by congruence|done].
  intros c' n''. rewrite lookup_insert. case_decide; [by intros [= <-]|apply Hn].
Qed.

Lemma set_nft_code c n n' e a :
  e_nfts e !! c = Some n → code_at this (set_nft c n' e) a = code_at this e a.
Proof.
  intros Hc. unfold code_at. f_equal. apply bool_decide_ext. cbn.
  rewrite lookup_insert. case_decide; [subst|done]. rewrite Hc. split; eauto.
Qed.

Lemma set_nft_ownerOf c n n' e c' id :
  e_nfts e !! c = Some n →
  nft_ownerOf (set_nft c n' e) c' id =
    if decide (c = c') then _ownerOf (erc721 n') id else nft_ownerOf e c' id.
Proof. intros Hc. cbn. rewrite lookup_insert. by case_decide. Qed.

Lemma set_nft_totalSupply c n n' e a :
  e_nfts e !! c = Some n → _tokenIds n' = _tokenIds n →
  nft_totalSupply (set_nft c n' e) a = nft_totalSupply e a.
Proof.
  intros Hc Ht. cbn. unfold view_nft. cbn. rewrite lookup_insert.
  case_decide; [subst|done]. rewrite Hc. unfold totalSupply. by rewrite Ht.
Qed.

(** A transfer by anyone, the marketplace included. *)
Lemma env_transferFrom e caller coll from to id u e' :
  ok_env e → caller ≠ 0%N → from ≠ 0%N →
  nft_transferFrom caller coll from to id e = Ok (u, e') →
  ok_env e' ∧ nft_ownerOf e coll id = from ∧ to ≠ 0%N ∧
  (∀ coll' id', nft_ownerOf e' coll' id' =
     if decide (coll = coll' ∧ id = id') then to else nft_ownerOf e coll' id') ∧
  (∀ a, ether e' a = ether e a) ∧
  (∀ a, nft_totalSupply e' a = nft_totalSupply e a) ∧
  (∀ a, has_code e' a = has_code e a).
Proof.
  intros Hok Hc Hf H. apply on_nft_Ok in H as (n & n' & Hn & H & ->).
  apply on_erc721_Ok in H as (s & H & ->).
  apply transferFrom_Ok in H as (Hto & Hown & _ & ->); [|done].
  assert (Hokn : ok_nft this n) by by eapply env_nfts_ok.
  assert (Hid : (1 ≤ id ≤ _tokenIds n)%Z)
    by (apply (wf_minted n (ok_wf _ _ Hokn)); by rewrite Hown).
  split_and!.
  - eapply ok_env_set_nft; [done..|]. by apply ok_nft_moved.
  - cbn. by rewrite Hn.
  - done.
  - intros coll' id'. rewrite (set_nft_ownerOf _ n) by done. cbn [erc721 set_erc721].
    rewrite moved_ownerOf. cbn. destruct (decide (coll = coll')) as [<-|Hne].
    + rewrite Hn. destruct (decide (id = id')) as [<-|].
      * by rewrite decide_True.
      * by rewrite decide_False by by intros [_ ?].
    + by rewrite (decide_False (P := coll = coll' ∧ _)) by by intros [? _].
  - done.
  - intros a. by eapply set_nft_totalSupply.
  - intros a. by eapply set_nft_code.
Qed.

Lemma env_transferFrom_by_owner e coll from to id :
  ok_env e → from ≠ 0%N → to ≠ 0%N → nft_ownerOf e coll id = from →
  ∃ e', nft_transferFrom from coll from to id e = Ok (tt, e').
Proof.
  intros Hok Hf Hto. cbn. destruct (e_nfts e !! coll) as [n|] eqn:Hn; [|congruence].
  intros Hown. eexists. apply on_nft_Ok. do 2 eexists. split; [done|]. split; [|done].
  apply on_erc721_Ok. eexists. split; [|done].
  rewrite transferFrom_run by done. rewrite decide_False by done.
  unfold _isAuthorized. rewrite Hown.
  rewrite (bool_decide_true (from ≠ 0%N)), (bool_decide_true (from = from)) by done. cbn.
  by rewrite decide_True by done.
Qed.

Lemma create_nft_Ok name symbol baseURI mkt category owner e a e' :
  create_nft this create_address name symbol baseURI mkt category owner e = Ok (a, e') →
  ∃ n, a = create_address (e_nonce e) ∧ code_at this e a = false ∧
    nft_constructor name symbol baseURI mkt category owner = Ok n ∧
    e' = {| e_ether := e_ether e; e_nfts := <[a := n]> (e_nfts e);
            e_nonce := e_nonce e + 1 |}.
Proof.
  unfold create_nft. run_block.
  destruct (code_at this e _) eqn:Hcode; [done|]. cbn.
  destruct (nft_constructor _ _ _ _ _ _) as [n|] eqn:Hctor; [|done].
  intros [= <- <-]. eauto.
Qed.

Lemma env_new_NFTCollection e name symbol baseURI category owner a e' :
  ok_env e →
  new_NFTCollection name symbol baseURI this category owner e = Ok (a, e') →
  ok_env e' ∧ has_code e a = false ∧ owner ≠ 0%N ∧
  (∀ b, has_code e' b = if decide (a = b) then true else has_code e b) ∧
  (∀ coll id, nft_ownerOf e' coll id = nft_ownerOf e coll id) ∧
  nft_totalSupply e' a = Ok 0%Z ∧
  (∀ b, a ≠ b → nft_totalSupply e' b = nft_totalSupply e b) ∧
  (∀ b, ether e' b = ether e b).
Proof.
  intros [Hn Ht H0] H. apply create_nft_Ok in H as (n & -> & Hcode & Hctor & ->).
  set (a := create_address (e_nonce e)) in *.
  assert (Hfree : a ≠ this ∧ e_nfts e !! a = None).
  { unfold code_at in Hcode. apply orb_false_iff in Hcode as [? ?]. bool_to_prop.
    split; [done|]. by apply eq_None_not_Some. }
  destruct Hfree as [Hat Hfree].
  assert (Hokn : ok_nft this n) by by eapply nft_constructor_ok.
  assert (Hown : owner ≠ 0%N ∧ (∀ id, _ownerOf (erc721 n) id = 0%N) ∧ _tokenIds n = 0%Z).
  { unfold nft_constructor in Hctor. case_decide; [done|]. by injection Hctor as <-. }
  destruct Hown as (Hown & Hids & Hcount).
  split_and!; try done.
  - split; cbn; [|by rewrite lookup_insert_ne|done].
    intros c n'. rewrite lookup_insert. case_decide; [by intros [= <-]|apply Hn].
  - intros b. cbn. unfold code_at. cbn. case_decide as Hb.
    + subst b. rewrite lookup_insert_eq. by rewrite orb_true_r.
    + by rewrite lookup_insert_ne.
  - intros coll id. cbn. rewrite lookup_insert. case_decide; [|done].
    subst coll. by rewrite Hids, Hfree.
  - cbn. unfold view_nft. cbn. rewrite lookup_insert_eq. unfold totalSupply.
    by rewrite Hcount.
  - intros b Hb. cbn. unfold view_nft. cbn. by rewrite lookup_insert_ne.
Qed.

Lemma move_ether_Ok from to amount e u e' :
  move_ether from to amount e = Ok (u, e') →
  (amount ≤ (e_ether e).[from])%Z ∧ e_nfts e' = e_nfts e ∧ e_nonce e' = e_nonce e ∧
  ∀ a, ((e_ether e').[a] = (e_ether e).[a] + (if decide (a = to) then amount else 0)
                           - (if decide (a = from) then amount else 0))%Z.
Proof.
  intros H. unfold move_ether in H. inv_run. bool_to_prop. split_and!; try done.
  intros a. cbn. rewrite !mget_insert. repeat case_decide; subst; try congruence; lia.
Qed.

Lemma ok_env_same_nfts e e' : e_nfts e' = e_nfts e → ok_env e → ok_env e'.
Proof. intros E [? ? ?]. split; [rewrite E..|]; done. Qed.

Lemma same_nfts e e' :
  e_nfts e' = e_nfts e →
  (∀ coll id, nft_ownerOf e' coll id = nft_ownerOf e coll id) ∧
  (∀ a, nft_totalSupply e' a = nft_totalSupply e a) ∧
  (∀ a, has_code e' a = has_code e a).
Proof.
  intros E. split_and!; intros; cbn; unfold view_nft, code_at; by rewrite E.
Qed.

Lemma env_pay e from to amount u e' :
  ok_env e → pay from to amount e = Ok (u, e') →
  ok_env e' ∧ (amount ≤ ether e from)%Z ∧
  (∀ a, ether e' a = ether e a + (if decide (a = to) then amount else 0)
                     - (if decide (a = from) then amount else 0))%Z ∧
  (∀ coll id, nft_ownerOf e' coll id = nft_ownerOf e coll id) ∧
  (∀ a, nft_totalSupply e' a = nft_totalSupply e a) ∧
  (∀ a, has_code e' a = has_code e a).
Proof.
  intros Hok H. cbn in H. unfold send_ether in H. inv_run.
  match goal with H : move_ether _ _ _ _ = _ |- _ => rename H into Hm end.
  apply move_ether_Ok in Hm as (Hle & En & _ & Hb).
  split_and!; [by eapply ok_env_same_nfts | done | done | by apply same_nfts..].
Qed.

#[export] Instance Env_laws : ChainEnvLaws this Env := {|
  env_wf := ok_env;
  transferFrom_law := env_transferFrom;
  transferFrom_by_owner := env_transferFrom_by_owner;
  new_NFTCollection_law := env_new_NFTCollection;
  pay_law := env_pay
|}.
End laws.
