(* ===== verification/MarketFacts.v ===== *)
(** * What a successful call of the marketplace did

    One inversion lemma per state-changing function: the guards that held, the
    calls that were made, and the state that was left. *)

From stdpp Require Import base list gmap strings numbers.
From Stdlib Require Import ZArith Lia.
From S2P Require Import Prelude Evm MarketStorage Marketplace.

Section facts.
Context {E : Type} `{!ChainEnv E}.
Variable this : address.
Implicit Types (s : MState E) (m : msg).

Definition with_store (f : MarketStorage → MarketStorage) s : MState E :=
  {| m_store := f (m_store s); m_env := m_env s; m_logs := m_logs s |}.

Lemma store_Ok {A} (f : MarketStorage → A) s a s' :
  store f s = Ok (a, s') ↔ a = f (m_store s) ∧ s' = s.
Proof. unfold store, gets. split; [by intros [= <- <-] | by intros [-> ->]]. Qed.

Lemma update_Ok f s u s' : update (E := E) f s = Ok (u, s') ↔ s' = with_store f s.
Proof. destruct u. unfold update, modify. split; [by intros [= <-] | by intros ->]. Qed.

Lemma emit_Ok e s u s' :
  emit (E := E) e s = Ok (u, s') ↔
  s' = {| m_store := m_store s; m_env := m_env s; m_logs := m_logs s ++ [e] |}.
Proof. destruct u. unfold emit, modify. split; [by intros [= <-] | by intros ->]. Qed.

Lemma external_Ok {A} (p : M evm_error E A) s a s' :
  external p s = Ok (a, s') ↔
  ∃ e, p (m_env s) = Ok (a, e) ∧
       s' = {| m_store := m_store s; m_env := e; m_logs := m_logs s |}.
Proof.
  unfold external. destruct (p (m_env s)) as [[x e]|x]; split.
  - intros [= <- <-]. eauto.
  - by intros (? & [= <- <-] & ->).
  - done.
  - by intros (? & ? & _).
Qed.

Lemma external_view_Ok {A} (f : E → result evm_error A) s a s' :
  external_view f s = Ok (a, s') ↔ f (m_env s) = Ok a ∧ s' = s.
Proof.
  unfold external_view. destruct (f (m_env s)) as [x|x]; split.
  - by intros [= <- <-].
  - by intros [[= <-] ->].
  - done.
  - by intros [? _].
Qed.

Lemma nonReentrant_Ok {A} (body : MM A) s a s' :
  nonReentrant body s = Ok (a, s') ↔
  _status_entered (m_store s) = false ∧
  ∃ s1, body (with_store (upd__status_entered (λ _, true)) s) = Ok (a, s1) ∧
        s' = with_store (upd__status_entered (λ _, false)) s1.
Proof.
  unfold nonReentrant, store, update. run_block.
  destruct (_status_entered (m_store s)); cbn.
  { split; [done|]. by intros [? _]. }
  fold (with_store (upd__status_entered (λ _, true)) s).
  destruct (body _) as [[x s1]|x]; split.
  - intros [= <- <-]. eauto.
  - by intros (_ & ? & [= <- <-] & ->).
  - done.
  - by intros (_ & ? & ? & _).
Qed.

Lemma with_item_Ok c id f s u s' :
  with_item (E := E) c id f s = Ok (u, s') ↔
  s' = with_store (upd_collectionToMarketItems (λ items,
         <[(c, id) := f (items.[(c, id)])]> items)) s.
Proof. apply update_Ok. Qed.
End facts.

(** Opens the hypothesis that a block of marketplace code succeeded. *)
Ltac inv_market_step :=
  match goal with
  | H : store _ _ = Ok (_, _) |- _ => apply store_Ok in H; destruct H as [-> ->]
  | H : update _ _ = Ok (_, _) |- _ => apply update_Ok in H; subst
  | H : emit _ _ = Ok (_, _) |- _ => apply emit_Ok in H; subst
  | H : with_item _ _ _ _ = Ok (_, _) |- _ => apply with_item_Ok in H; subst
  | H : external _ _ = Ok (_, _) |- _ => apply external_Ok in H; destruct H as (? & ? & ->)
  | H : external_view _ _ = Ok (_, _) |- _ => apply external_view_Ok in H; destruct H as [? ->]
  | H : nonReentrant _ _ = Ok (_, _) |- _ =>
      apply nonReentrant_Ok in H; destruct H as (? & ? & H & ->)
  | H : checked_add _ _ _ = Ok (_, _) |- _ =>
      apply checked_add_Ok in H; destruct H as (? & -> & ->)
  | H : (_ ≫= _) _ = Ok (_, _) |- _ =>
      apply bind_Ok in H; destruct H as (? & ? & ? & H)
  | H : ensure _ _ _ = Ok (_, _) |- _ => apply ensure_Ok in H; destruct H as [H ->]
  | H : mret _ _ = Ok (_, _) |- _ => unfold mret, M_ret in H; injection H as ? ?; subst
  | H : throw _ _ = Ok _ |- _ => discriminate H
  end.
Ltac inv_market := repeat inv_market_step.

(** The re-entrancy flag plays no part in what an item is. *)
Ltac drop_guard :=
  repeat match goal with
  | |- context [item_at (upd__status_entered ?f ?st) ?c ?id] =>
      change (item_at (upd__status_entered f st) c id) with (item_at st c id)
  | H : context [item_at (upd__status_entered ?f ?st) ?c ?id] |- _ =>
      change (item_at (upd__status_entered f st) c id) with (item_at st c id) in H
  end.

Section specs.
Context {E : Type} `{!ChainEnv E}.
Variable this : address.
Implicit Types (s : MState E) (m : msg).

(** The storage after each operation. *)
Definition listed m c id price uri (st : MarketStorage) : MarketStorage :=
  upd_collectionTokenIds (push_at c id)
    (upd_collectionToMarketItems <[(c, id) :=
      {| i_tokenId := id; i_nftContract := c; i_seller := msg_sender m; i_owner := 0;
         i_price := price; i_isOnSale := true; i_auctionEndTime := 0;
         i_highestBidder := 0; i_highestBid := 0; i_isAuction := false;
         i_tokenURI := uri |}]> st).

Definition sold m c id (st : MarketStorage) : MarketStorage :=
  upd_userPurchaseCount (λ n, <[msg_sender m := n.[msg_sender m] + 1]> n)%Z
    (upd_userPurchases <[(msg_sender m, c, id) := true]>
      (upd_collectionToMarketItems
        <[(c, id) := item_sold (msg_sender m) (item_at st c id)]> st)).

Definition auctioned m c id startingPrice duration (st : MarketStorage) : MarketStorage :=
  upd_collectionToMarketItems <[(c, id) :=
    item_auctioned startingPrice (block_timestamp m + duration) (item_at st c id)]> st.

Definition refunded c id (st : MarketStorage) : MarketStorage :=
  let i := item_at st c id in
  if decide (i_highestBidder i ≠ 0%N) then
    upd_pendingReturns (λ p, <[(c, id, i_highestBidder i) :=
      p.[(c, id, i_highestBidder i)] + i_highestBid i]> p)%Z st
  else st.

Definition bid_placed m c id (st : MarketStorage) : MarketStorage :=
  upd_collectionToMarketItems
    <[(c, id) := item_bid (msg_sender m) (msg_value m) (item_at st c id)]>
    (refunded c id st).

Definition offered m c id (st : MarketStorage) : MarketStorage :=
  upd_itemOffers (push_at (c, id)
    {| o_buyer := msg_sender m; o_price := msg_value m;
       o_timestamp := block_timestamp m |}) st.

Definition collection_of m a name symbol baseURI category : Collection :=
  {| c_collectionAddress := a; c_name := name; c_symbol := symbol; c_category := category;
     c_owner := msg_sender m; c_isActive := true; c_createdAt := block_timestamp m;
     c_baseURI := baseURI; c_totalSupply := 0 |}.

Definition created m a name symbol baseURI category (st : MarketStorage) : MarketStorage :=
  upd_userCreatedCollections (push_at (msg_sender m) a)
    (upd_categoryToCollections (push_at category a)
      (upd_collectionAddresses (λ l, l ++ [a])
        (upd_collections <[a := collection_of m a name symbol baseURI category]> st))).

Definition category_added category (st : MarketStorage) : MarketStorage :=
  upd_categoryExists <[category := true]> (upd_categories (λ l, l ++ [category]) st).

Definition with_totalSupply (n : Z) (c : Collection) : Collection :=
  {| c_collectionAddress := c_collectionAddress c; c_name := c_name c;
     c_symbol := c_symbol c; c_category := c_category c; c_owner := c_owner c;
     c_isActive := c_isActive c; c_createdAt := c_createdAt c;
     c_baseURI := c_baseURI c; c_totalSupply := n |}.

Definition supply_updated a n (st : MarketStorage) : MarketStorage :=
  upd_collections (λ cs, <[a := with_totalSupply n (cs.[a])]> cs) st.

(** The guard is released and everything else is [f]'s. *)
Definition left_by s (f : MarketStorage → MarketStorage) : MarketStorage :=
  upd__status_entered (λ _, false) (f (upd__status_entered (λ _, true) (m_store s))).

Lemma createMarketItem_Ok m c id price s u s' :
  createMarketItem this m c id price s = Ok (u, s') →
  _status_entered (m_store s) = false ∧
  c_isActive (collections (m_store s)).[c] = true ∧ (0 < price)%Z ∧
  msg_value m = listingFee (m_store s) ∧
  ∃ uri, nft_tokenURI (m_env s) c id = Ok uri ∧
    nft_transferFrom this c (msg_sender m) this id (m_env s) = Ok (tt, m_env s') ∧
    m_store s' = left_by s (listed m c id price uri) ∧
    m_logs s' = m_logs s ++ [MarketItemCreated c id (msg_sender m) 0%N price].
Proof.
  intros H. unfold createMarketItem in H. inv_market. bool_to_prop. cbn in *.
  destruct_or?; split_and!; try done. eexists. split_and!; try done.
  by match goal with x : unit |- _ => destruct x end.
Qed.

Lemma createMarketSale_Ok m c id s u s' :
  createMarketSale this m c id s = Ok (u, s') →
  let i := item_at (m_store s) c id in
  _status_entered (m_store s) = false ∧
  i_isOnSale i = true ∧ i_isAuction i = false ∧ msg_value m = i_price i ∧
  ((userPurchaseCount (m_store s)).[msg_sender m] + 1 ≤ uint256_max)%Z ∧
  (∃ e, pay this (i_seller i) (msg_value m) (m_env s) = Ok (tt, e) ∧
        nft_transferFrom this c this (msg_sender m) id e = Ok (tt, m_env s')) ∧
  m_store s' = left_by s (sold m c id) ∧
  m_logs s' = m_logs s ++ [MarketItemSold c id (i_seller i) (msg_sender m) (msg_value m)].
Proof.
  intros H. unfold createMarketSale in H. inv_market. bool_to_prop. cbn in *.
  repeat match goal with x : unit |- _ => destruct x end.
  split_and!; try done. eexists. split; eassumption.
Qed.

Lemma createAuction_Ok m c id startingPrice duration s u s' :
  createAuction m c id startingPrice duration s = Ok (u, s') →
  let i := item_at (m_store s) c id in
  _status_entered (m_store s) = false ∧
  i_seller i = msg_sender m ∧ i_isAuction i = false ∧
  (block_timestamp m + duration ≤ uint256_max)%Z ∧
  m_store s' = left_by s (auctioned m c id startingPrice duration) ∧
  m_env s' = m_env s ∧ m_logs s' = m_logs s.
Proof.
  intros H. unfold createAuction in H. inv_market. bool_to_prop. cbn in *. done.
Qed.

Lemma placeBid_Ok m c id s u s' :
  placeBid m c id s = Ok (u, s') →
  let i := item_at (m_store s) c id in
  _status_entered (m_store s) = false ∧
  i_isAuction i = true ∧ (block_timestamp m < i_auctionEndTime i)%Z ∧
  (i_highestBid i < msg_value m)%Z ∧
  (i_highestBidder i ≠ 0%N →
     (pendingReturns (m_store s)).[(c, id, i_highestBidder i)] + i_highestBid i
       ≤ uint256_max)%Z ∧
  m_store s' = left_by s (bid_placed m c id) ∧
  m_env s' = m_env s ∧ m_logs s' = m_logs s.
Proof.
  intros H. unfold placeBid in H. inv_market. cbn in *.
  unfold left_by, bid_placed, refunded. cbn.
  drop_guard.
  destruct (decide (i_highestBidder (item_at (m_store s) c id) ≠ 0%N)) as [Hb|Hb];
    inv_market; bool_to_prop; cbn in *; split_and!; done.
Qed.

Lemma makeOffer_Ok m c id s u s' :
  makeOffer m c id s = Ok (u, s') →
  let i := item_at (m_store s) c id in
  _status_entered (m_store s) = false ∧
  i_isOnSale i = true ∧ i_isAuction i = false ∧ (0 < msg_value m)%Z ∧
  m_store s' = left_by s (offered m c id) ∧
  m_env s' = m_env s ∧ m_logs s' = m_logs s ++ [OfferCreated c (msg_sender m) (msg_value m)].
Proof.
  intros H. unfold makeOffer in H. inv_market. bool_to_prop. cbn in *. done.
Qed.

Lemma createCollection_Ok m name symbol baseURI category s a s' :
  createCollection this m name symbol baseURI category s = Ok (a, s') →
  (categoryExists (m_store s)).[category] = true ∧
  new_NFTCollection name symbol baseURI this category (msg_sender m) (m_env s)
    = Ok (a, m_env s') ∧
  m_store s' = created m a name symbol baseURI category (m_store s) ∧
  m_logs s' = m_logs s ++ [CollectionCreated a name symbol category (msg_sender m)].
Proof.
  intros H. unfold createCollection in H. inv_market. cbn in *. done.
Qed.

Lemma addCategory_Ok m category s u s' :
  addCategory m category s = Ok (u, s') →
  market_owner (m_store s) = msg_sender m ∧
  (categoryExists (m_store s)).[category] = false ∧
  m_store s' = category_added category (m_store s) ∧
  m_env s' = m_env s ∧ m_logs s' = m_logs s ++ [CategoryAdded category].
Proof.
  intros H. unfold addCategory, onlyOwner in H. inv_market. bool_to_prop. cbn in *. done.
Qed.

Lemma updateCollectionTotalSupply_Ok m c s u s' :
  updateCollectionTotalSupply m c s = Ok (u, s') →
  c_isActive (collections (m_store s)).[c] = true ∧ msg_sender m = c ∧
  ∃ n, nft_totalSupply (m_env s) c = Ok n ∧
    m_store s' = supply_updated c n (m_store s) ∧
    m_env s' = m_env s ∧ m_logs s' = m_logs s.
Proof.
  intros H. unfold updateCollectionTotalSupply in H. inv_market. bool_to_prop. cbn in *.
  split_and!; try done. eauto.
Qed.

Lemma ownership_Ok m s u s' :
  (∃ o, market_transferOwnership m o s = Ok (u, s')) ∨ market_renounceOwnership m s = Ok (u, s') →
  market_owner (m_store s) = msg_sender m ∧
  (∃ o, m_store s' = upd_market_owner (λ _, o) (m_store s)) ∧
  m_env s' = m_env s ∧ m_logs s' = m_logs s.
Proof.
  unfold market_transferOwnership, market_renounceOwnership, onlyOwner.
  intros [[o H]|H]; inv_market; bool_to_prop; cbn in *; eauto.
Qed.
End specs.

(** ** The item of a key that a call wrote, and of the others *)
Section items.
Context {E : Type}.
Implicit Types (w : MState E) (m : msg).

Lemma item_at_insert c id i st c' id' :
  (<[(c, id) := i]> (collectionToMarketItems st)).[(c', id')] =
    if decide (c = c' ∧ id = id') then i else item_at st c' id'.
Proof. rewrite mget_insert. repeat case_decide; naive_solver. Qed.

Lemma listed_item w m c id price uri c' id' :
  item_at (left_by w (listed m c id price uri)) c' id' =
    if decide (c = c' ∧ id = id') then
      {| i_tokenId := id; i_nftContract := c; i_seller := msg_sender m; i_owner := 0;
         i_price := price; i_isOnSale := true; i_auctionEndTime := 0;
         i_highestBidder := 0; i_highestBid := 0; i_isAuction := false;
         i_tokenURI := uri |}
    else item_at (m_store w) c' id'.
Proof. exact (item_at_insert c id _ (m_store w) c' id'). Qed.

Lemma sold_item w m c id c' id' :
  item_at (left_by w (sold m c id)) c' id' =
    if decide (c = c' ∧ id = id') then item_sold (msg_sender m) (item_at (m_store w) c id)
    else item_at (m_store w) c' id'.
Proof. exact (item_at_insert c id _ (m_store w) c' id'). Qed.

Lemma auctioned_item w m c id start dur c' id' :
  item_at (left_by w (auctioned m c id start dur)) c' id' =
    if decide (c = c' ∧ id = id') then
      item_auctioned start (block_timestamp m + dur) (item_at (m_store w) c id)
    else item_at (m_store w) c' id'.
Proof. exact (item_at_insert c id _ (m_store w) c' id'). Qed.

Lemma bid_item w m c id c' id' :
  item_at (left_by w (bid_placed m c id)) c' id' =
    if decide (c = c' ∧ id = id') then
      item_bid (msg_sender m) (msg_value m) (item_at (m_store w) c id)
    else item_at (m_store w) c' id'.
Proof.
  unfold left_by, bid_placed, item_at, refunded. cbn. rewrite mget_insert.
  repeat case_decide; naive_solver.
Qed.
End items.

(** ** The floor price *)
Section floor.
Implicit Types (st : MarketStorage).

(** The prices of the listed tokens of a collection that are on sale. *)
Definition prices_on_sale st (c : address) : list Z :=
  i_price <$> filter (λ i, i_isOnSale i = true) (item_at st c <$> (collectionTokenIds st).[c]).

Lemma floor_fold st c ids low :
  let prices := i_price <$> filter (λ i, i_isOnSale i = true) (item_at st c <$> ids) in
  let r := foldl (floor_step st c) low ids in
  (r = low ∨ r ∈ prices) ∧ (r ≤ low)%Z ∧ ∀ p, p ∈ prices → (r ≤ p)%Z.
Proof.
  revert low. induction ids as [|id ids IH]; intros low; cbn.
  - split_and!; [by left|lia|]. intros p Hp. by apply not_elem_of_nil in Hp.
  - specialize (IH (floor_step st c low id)). cbn in IH. destruct IH as (Hin & Hle & Hall).
    unfold floor_step in Hin, Hle, Hall |- *.
    set (i := item_at st c id) in *. set (r := foldl _ _ ids) in *.
    destruct (i_isOnSale i) eqn:Hs; cbn in *.
    + rewrite decide_True by done. cbn.
      destruct (Z.ltb_spec (i_price i) low) as [Hlt|Hge]; split_and!; try lia.
      * destruct Hin as [->|Hin]; right; [by left|by right].
      * intros p [->|Hp]%elem_of_cons; [done|by apply Hall].
      * destruct Hin as [->|Hin]; [by left|by right; right].
      * intros p [->|Hp]%elem_of_cons; [lia|by apply Hall].
    + rewrite decide_False by done. done.
Qed.

(** The floor price is the lowest price among the collection's tokens that
    are on sale; it is 0 exactly when no such token is priced below 2^256 - 1. *)
Theorem floor_price_lowest st c :
  let prices := prices_on_sale st c in
  let floor := _getFloorPrice st c in
  (floor ∈ prices ∧ (floor < uint256_max)%Z ∧ ∀ p, p ∈ prices → (floor ≤ p)%Z) ∨
  (floor = 0%Z ∧ ∀ p, p ∈ prices → (uint256_max ≤ p)%Z).
Proof.
  intros prices floor. subst floor. unfold _getFloorPrice.
  destruct (floor_fold st c (collectionTokenIds st).[c] uint256_max) as (Hin & Hle & Hall).
  fold (prices_on_sale st c) in Hin, Hall. fold prices in Hin, Hall.
  destruct (Z.eqb_spec (foldl (floor_step st c) uint256_max (collectionTokenIds st).[c])
    uint256_max) as [E|E].
  - right. split; [done|]. intros p Hp. rewrite <- E. by apply Hall.
  - left. destruct Hin as [Hin|Hin]; [done|]. split_and!; [done|lia|done].
Qed.
End floor.
