(* ===== verification/Steps.v ===== *)
(** * Atomic steps of the chain

    A call of the chain, callbacks included, is a sequence of atomic steps: a
    call of the marketplace, a local operation of one collection, the supply
    notification of a mint, or ether moving elsewhere.  [effect] says what a
    call of the marketplace does to the whole chain.  Invariants are then
    proved over atomic steps only. *)

From stdpp Require Import base list gmap strings numbers relations.
From Stdlib Require Import ZArith Lia.
From S2P Require Import Prelude Evm Erc721 NFTCollection MarketStorage Marketplace Chain ChainFacts.
From S2P Require Import EnvLaws MarketFacts.

Section steps.
Variable this : address.
Variable create_address : N → address.
Variable accepts_ether : address → bool.

#[local] Instance ops' : ChainEnv Env := Env_ops this create_address accepts_ether.

Abbreviation market_exec := (market_exec this create_address accepts_ether).
Abbreviation exec := (exec this create_address accepts_ether).
Abbreviation evolves := (evolves this create_address accepts_ether).
Abbreviation ok_env := (ok_env this).

(** The account that owns a token, and the ether the marketplace holds. *)
Definition owner_of (w : World) (c : address) (id : Z) : address := nft_ownerOf (m_env w) c id.
Definition held (w : World) : Z := (e_ether (m_env w)).[this].

(** ** Local operations of a collection, by an ordinary account *)
Inductive nft_local (n : NFTCollection) : NFTCollection → Prop :=
| nl_approve caller to id u n' : caller ≠ 0%N → caller ≠ this →
    on_erc721 (approve caller to id) n = Ok (u, n') → nft_local n n'
| nl_setApprovalForAll caller op b u n' : caller ≠ 0%N → caller ≠ this →
    on_erc721 (setApprovalForAll caller op b) n = Ok (u, n') → nft_local n n'
| nl_transferFrom caller from to id u n' : caller ≠ 0%N → caller ≠ this →
    on_erc721 (transferFrom caller from to id) n = Ok (u, n') → nft_local n n'
| nl_owner o : nft_local n (set_owner o n)
| nl_mint to id n1 u n' : to ≠ this →
    next_tokenId n = Ok (id, n1) → on_erc721 (_mint to id) n1 = Ok (u, n') → nft_local n n'
| nl_tokenURI id uri u n' :
    on_erc721 (_setTokenURI id uri) n = Ok (u, n') → nft_local n n'.

Lemma nft_local_ok n n' :
  this ≠ 0%N → ok_nft this n → nft_local n n' →
  ok_nft this n' ∧
  (∀ id, _ownerOf (erc721 n) id = this → _ownerOf (erc721 n') id = this).
Proof.
  intros Hnz Hok Hl.
  destruct Hl as [caller to id u n' H0 Ht H|caller op b u n' H0 Ht H
                 |caller from to id u n' H0 Ht H|o|to id n1 u n' Ht Hn H|id uri u n' H].
  - destruct (ok_nft_approve this caller (conj H0 Ht) to id n u n' Hok H) as (? & Ho & _).
    split; [done|]. intros id'. by rewrite Ho.
  - destruct (ok_nft_setApprovalForAll this caller (conj H0 Ht) op b n u n' Hok H)
      as (? & Ho & _).
    split; [done|]. intros id'. by rewrite Ho.
  - destruct (ok_nft_transferFrom this caller (conj H0 Ht) from to id n u n' Hok H)
      as (? & Hne & _ & Ho & _).
    split; [done|]. intros id'. rewrite Ho. case_decide; [by subst|done].
  - split; [by apply ok_nft_ownership|done].
  - destruct (ok_nft_mint this to n id n1 u n' Hok Hn H) as (? & _ & Hz & Hto & Ho & _).
    split; [done|]. intros id'. rewrite Ho. case_decide; [subst id'; congruence|done].
  - destruct (ok_nft_setTokenURI this id uri n u n' Hok H) as (? & Ho & _).
    split; [done|]. intros id'. by rewrite Ho.
Qed.

(** ** What a call of the marketplace does to the chain *)
Definition same_contracts (w w' : World) : Prop :=
  (∀ a, nft_totalSupply (m_env w') a = nft_totalSupply (m_env w) a) ∧
  (∀ a, code_at this (m_env w') a = code_at this (m_env w) a).

Definition same_tokens (w w' : World) : Prop :=
  (∀ c id, owner_of w' c id = owner_of w c id) ∧ same_contracts w w'.

(** The token [id] of [c] went from [from] to [to]; nothing else moved. *)
Definition token_moved c id from to (w w' : World) : Prop :=
  owner_of w c id = from ∧
  (∀ c' id', owner_of w' c' id' =
     if decide (c = c' ∧ id = id') then to else owner_of w c' id') ∧
  same_contracts w w'.

Definition effect (m : msg) (f : market_call) (w w' : World) : Prop :=
  let st := m_store w in
  let st' := m_store w' in
  match f with
  | AddCategory category =>
      (categoryExists st).[category] = false ∧ st' = category_added category st ∧
      same_tokens w w' ∧ held w' = held w
  | CreateCollection name symbol baseURI category =>
      ∃ a, (categoryExists st).[category] = true ∧ code_at this (m_env w) a = false ∧
        st' = created m a name symbol baseURI category st ∧
        (∀ c id, owner_of w' c id = owner_of w c id) ∧
        (∀ b, code_at this (m_env w') b =
                if decide (a = b) then true else code_at this (m_env w) b) ∧
        nft_totalSupply (m_env w') a = Ok 0%Z ∧
        (∀ b, a ≠ b → nft_totalSupply (m_env w') b = nft_totalSupply (m_env w) b) ∧
        held w' = held w
  | CreateMarketItem c id price =>
      _status_entered st = false ∧ c_isActive (collections st).[c] = true ∧
      (0 < price)%Z ∧ msg_value m = listingFee st ∧
      (∃ uri, st' = left_by w (listed m c id price uri)) ∧
      token_moved c id (msg_sender m) this w w' ∧
      held w' = (held w + listingFee st)%Z
  | CreateMarketSale c id =>
      let i := item_at st c id in
      _status_entered st = false ∧ i_isOnSale i = true ∧ i_isAuction i = false ∧
      msg_value m = i_price i ∧ st' = left_by w (sold m c id) ∧
      token_moved c id this (msg_sender m) w w' ∧ held w' = held w
  | CreateAuction c id startingPrice duration =>
      let i := item_at st c id in
      _status_entered st = false ∧ i_seller i = msg_sender m ∧ i_isAuction i = false ∧
      st' = left_by w (auctioned m c id startingPrice duration) ∧
      same_tokens w w' ∧ held w' = held w
  | PlaceBid c id =>
      let i := item_at st c id in
      _status_entered st = false ∧ i_isAuction i = true ∧
      (block_timestamp m < i_auctionEndTime i)%Z ∧ (i_highestBid i < msg_value m)%Z ∧
      st' = left_by w (bid_placed m c id) ∧
      same_tokens w w' ∧ held w' = (held w + msg_value m)%Z
  | MakeOffer c id =>
      let i := item_at st c id in
      _status_entered st = false ∧ i_isOnSale i = true ∧ i_isAuction i = false ∧
      (0 < msg_value m)%Z ∧ st' = left_by w (offered m c id) ∧
      same_tokens w w' ∧ held w' = (held w + msg_value m)%Z
  | UpdateCollectionTotalSupply c =>
      c_isActive (collections st).[c] = true ∧ msg_sender m = c ∧
      (∃ n, nft_totalSupply (m_env w) c = Ok n ∧ st' = supply_updated c n st) ∧
      same_tokens w w' ∧ held w' = held w
  | MarketTransferOwnership _ | MarketRenounceOwnership =>
      (∃ o, st' = upd_market_owner (λ _, o) st) ∧ same_tokens w w' ∧ held w' = held w
  end.

Lemma same_tokens_nfts w w' : e_nfts (m_env w') = e_nfts (m_env w) → same_tokens w w'.
Proof.
  intros E. destruct (same_nfts this create_address accepts_ether _ _ E) as (? & ? & ?).
  by repeat split.
Qed.

(** [paid m f w w1]: [msg.value] arrived. *)
Record paid (m : msg) (f : market_call) (w w1 : World) : Prop := {
  paid_store : m_store w1 = m_store w;
  paid_logs : m_logs w1 = m_logs w;
  paid_nfts : e_nfts (m_env w1) = e_nfts (m_env w);
  paid_env : ok_env (m_env w1);
  paid_held : held w1 = (held w + msg_value m)%Z;
  paid_free : payable f = false → msg_value m = 0%Z
}.

Lemma market_exec_Ok m f w u w' :
  valid_msg this w m → ok_env (m_env w) → market_exec m f w = Ok (u, w') →
  ∃ w1, market_body this create_address accepts_ether m f w1 = Ok (u, w') ∧ paid m f w w1.
Proof.
  intros (_ & Hcode & _) Hok H. unfold Chain.market_exec in H.
  apply bind_Ok in H as (? & w1 & Hpay & H). exists w1. split; [done|].
  destruct (payable f) eqn:Hp.
  - apply external_Ok in Hpay as (e & Hm & ->). destruct x.
    apply move_ether_Ok in Hm as (_ & En & _ & Hb).
    split; cbn; try done; [by eapply ok_env_same_nfts| |congruence].
    unfold held. cbn. rewrite Hb, decide_True by done.
    rewrite decide_False; [lia|]. intros ->. unfold code_at in Hcode.
    by rewrite bool_decide_true in Hcode.
  - apply ensure_Ok in Hpay as [Hv ->]. bool_to_prop. split; try done. lia.
Qed.

Lemma left_by_store (w1 w : World) f : m_store w1 = m_store w → left_by w1 f = left_by w f.
Proof. unfold left_by. by intros ->. Qed.

Lemma same_tokens_trans_moved c id from to w w1 w' :
  e_nfts (m_env w1) = e_nfts (m_env w) →
  token_moved c id from to w1 w' → token_moved c id from to w w'.
Proof.
  intros En. destruct (same_tokens_nfts _ _ En) as (Ho & Hs & Hc).
  intros (H1 & H2 & H3 & H4). split_and!.
  - by rewrite <- Ho.
  - intros c' id'. rewrite H2. by rewrite Ho.
  - split; intros; by rewrite ?H3, ?H4.
Qed.

(** A call that changes nothing but the storage. *)
Lemma same_env_effect m f w w1 w' :
  paid m f w w1 → m_env w' = m_env w1 →
  ok_env (m_env w') ∧ same_tokens w w' ∧ held w' = (held w + msg_value m)%Z.
Proof.
  intros [_ _ En Hok Hheld _] E. split_and!.
  - by rewrite E.
  - apply same_tokens_nfts. by rewrite E.
  - rewrite <- Hheld. unfold held. by rewrite E.
Qed.

(** ... and takes no ether. *)
Lemma same_env_free m f w w1 w' :
  paid m f w w1 → payable f = false → m_env w' = m_env w1 →
  ok_env (m_env w') ∧ same_tokens w w' ∧ held w' = held w.
Proof.
  intros Hp Hf E. destruct (same_env_effect _ _ _ _ _ Hp E) as (? & ? & ->).
  rewrite (paid_free _ _ _ _ Hp Hf). split_and!; [done..|lia].
Qed.

Lemma createCollection_effect m name symbol baseURI category a w w1 w' :
  paid m (CreateCollection name symbol baseURI category) w w1 →
  createCollection this m name symbol baseURI category w1 = Ok (a, w') →
  ok_env (m_env w') ∧ effect m (CreateCollection name symbol baseURI category) w w'.
Proof.
  intros [Est _ En Hok1 Hheld Hpay] H.
  apply createCollection_Ok in H as (Hx & Hnew & Hst & _). rewrite Est in *.
  destruct (env_new_NFTCollection this create_address accepts_ether _ _ _ _ _ _ _ _
              Hok1 Hnew) as (? & Hfree & _ & Hcode & Hown & Hsup & Hsup' & Heth).
  destruct (same_tokens_nfts _ _ En) as (Ho & Hs & Hc).
  split; [done|]. exists a. split_and!; try done.
  - change (code_at this (m_env w1) a = false) in Hfree. by rewrite <- Hc.
  - intros c id. etransitivity; [apply Hown|]. apply Ho.
  - intros b. etransitivity; [apply Hcode|]. case_decide; [done|apply Hc].
  - intros b Hb. rewrite Hsup' by done. apply Hs.
  - transitivity (held w1); [apply (Heth this)|]. rewrite Hheld, Hpay by done. lia.
Qed.

Lemma createMarketItem_effect m c id price u w w1 w' :
  msg_sender m ≠ 0%N → paid m (CreateMarketItem c id price) w w1 →
  createMarketItem this m c id price w1 = Ok (u, w') →
  ok_env (m_env w') ∧ effect m (CreateMarketItem c id price) w w'.
Proof.
  intros Hs0 [Est _ En Hok1 Hheld _] H.
  apply createMarketItem_Ok in H as (Hg & Ha & Hp & Hfee & uri & _ & Htr & Hst & _).
  destruct (env_transferFrom this create_address accepts_ether _ _ _ _ _ _ _ _ Hok1
              (env_this_nonzero _ _ Hok1) Hs0 Htr) as (? & Hown & _ & Hmv & He & Hs & Hc).
  rewrite (left_by_store _ _ _ Est) in Hst. rewrite Est in *.
  split; [done|]. split_and!; try done; [by eauto| |].
  - eapply same_tokens_trans_moved; [done|]. split_and!; done.
  - transitivity (held w1); [apply (He this)|]. by rewrite Hheld, Hfee.
Qed.

(** The marketplace pays somebody else. *)
Lemma pay_not_this from to v e e' :
  pay from to v e = Ok (tt, e') → to ≠ this.
Proof.
  cbn. unfold send_ether. intros H ->. inv_run. bool_to_prop.
  match goal with H : code_at _ _ _ = false |- _ => unfold code_at in H;
    rewrite (bool_decide_true (this = this)) in H by done; discriminate H end.
Qed.

Lemma createMarketSale_effect m c id u w w1 w' :
  paid m (CreateMarketSale c id) w w1 → createMarketSale this m c id w1 = Ok (u, w') →
  ok_env (m_env w') ∧ effect m (CreateMarketSale c id) w w'.
Proof.
  intros [Est _ En Hok1 Hheld _] H.
  apply createMarketSale_Ok in H as (Hg & Hsale & Hau & Hv & _ & (e & Hp & Htr) & Hst & _).
  destruct (env_pay this create_address accepts_ether _ _ _ _ _ _ Hok1 Hp)
    as (Hok2 & _ & Hbal & Hown2 & Hs2 & Hc2).
  pose proof (env_this_nonzero _ _ Hok1) as Hnz.
  destruct (env_transferFrom this create_address accepts_ether _ _ _ _ _ _ _ _ Hok2
              Hnz Hnz Htr) as (? & Hown & _ & Hmv & He & Hs & Hc).
  rewrite (left_by_store _ _ _ Est) in Hst. rewrite Est in *.
  split; [done|]. split_and!; try done.
  - eapply same_tokens_trans_moved; [done|]. split_and!.
    + etransitivity; [symmetry; apply Hown2|done].
    + intros c' id'. etransitivity; [apply Hmv|]. by rewrite Hown2.
    + split; intros a; (etransitivity; [first [apply Hs | apply Hc]|]); auto.
  - transitivity (ether e this); [apply He|]. rewrite Hbal.
    rewrite (decide_True (P := this = this)) by done.
    rewrite decide_False; [change (ether (m_env w1) this) with (held w1); lia|].
    intros E. by apply (pay_not_this _ _ _ _ _ Hp).
Qed.

Lemma market_effect m f w u w' :
  valid_msg this w m → ok_env (m_env w) → market_exec m f w = Ok (u, w') →
  ok_env (m_env w') ∧ effect m f w w'.
Proof.
  intros Hvm Hok H. pose proof Hvm as (Hs0 & _ & _).
  apply market_exec_Ok in H as (w1 & H & Hp); [|done..]. pose proof (paid_store _ _ _ _ Hp) as Est.
  destruct f as [category|name symbol baseURI category|c id price|c id|c id start dur
                |c id|c id|c|o|]; cbn in H.
  - apply addCategory_Ok in H as (_ & Hx & Hst & Henv & _). rewrite Est in *.
    by destruct (same_env_free _ _ _ _ _ Hp eq_refl Henv) as (? & ? & ?).
  - apply bind_Ok in H as (a & w2 & H & Hr). injection Hr as _ <-.
    by eapply createCollection_effect.
  - by eapply createMarketItem_effect.
  - by eapply createMarketSale_effect.
  - apply createAuction_Ok in H as (Hg & Hs & Hau & _ & Hst & Henv & _).
    rewrite (left_by_store _ _ _ Est) in Hst. rewrite Est in *.
    by destruct (same_env_free _ _ _ _ _ Hp eq_refl Henv) as (? & ? & ?).
  - apply placeBid_Ok in H as (Hg & Hau & Ht & Hb & _ & Hst & Henv & _).
    rewrite (left_by_store _ _ _ Est) in Hst. rewrite Est in *.
    by destruct (same_env_effect _ _ _ _ _ Hp Henv) as (? & ? & ?).
  - apply makeOffer_Ok in H as (Hg & Hs & Hau & Hv & Hst & Henv & _).
    rewrite (left_by_store _ _ _ Est) in Hst. rewrite Est in *.
    by destruct (same_env_effect _ _ _ _ _ Hp Henv) as (? & ? & ?).
  - apply updateCollectionTotalSupply_Ok in H as (Ha & Hs & n & Hn & Hst & Henv & _).
    rewrite Est in *. destruct (same_tokens_nfts _ _ (paid_nfts _ _ _ _ Hp)) as (_ & Hsup & _).
    destruct (same_env_free _ _ _ _ _ Hp eq_refl Henv) as (? & ? & ?).
    split; [done|]. split_and!; try done. exists n. split; [|done]. by rewrite <- Hsup.
  - destruct (ownership_Ok m w1 u w' (or_introl (ex_intro _ o H))) as (_ & Hst & Henv & _).
    rewrite Est in *. by destruct (same_env_free _ _ _ _ _ Hp eq_refl Henv) as (? & ? & ?).
  - destruct (ownership_Ok m w1 u w' (or_intror H)) as (_ & Hst & Henv & _).
    rewrite Est in *. by destruct (same_env_free _ _ _ _ _ Hp eq_refl Henv) as (? & ? & ?).
Qed.

(** ** Atomic steps *)
Inductive astep : World → World → Prop :=
| as_market w m f w' : valid_msg this w m → valid_call (ToMarket f) →
    market_exec m f w = Ok (tt, w') → astep w w'
| as_nft w c n n' : e_nfts (m_env w) !! c = Some n → nft_local n n' →
    astep w (set_env (set_nft c n' (m_env w)) w)
| as_supply w c ts w' : is_Some (e_nfts (m_env w) !! c) →
    updateCollectionTotalSupply (Msg c 0 ts) c w = Ok (tt, w') → astep w w'
| as_ether w b : b.[this] = (e_ether (m_env w)).[this] →
    astep w (set_env (set_ether (λ _, b) (m_env w)) w).

Lemma self_Ok {A} c (p : M evm_error NFTCollection A) w a w' :
  external (on_nft c p) w = Ok (a, w') →
  ∃ n n', e_nfts (m_env w) !! c = Some n ∧ p n = Ok (a, n') ∧
          w' = set_env (set_nft c n' (m_env w)) w.
Proof.
  intros H. apply external_Ok in H as (e & H & ->).
  apply on_nft_Ok in H as (n & n' & Hn & Hp & ->). by exists n, n'.
Qed.

Lemma set_nft_twice c n1 n2 e : set_nft c n2 (set_nft c n1 e) = set_nft c n2 e.
Proof. unfold set_nft. cbn. by rewrite insert_insert_eq. Qed.

Lemma set_nft_same c n e : e_nfts e !! c = Some n → set_nft c n e = e.
Proof. intros. unfold set_nft. destruct e; cbn in *. by rewrite insert_id. Qed.

Lemma set_env_same (w : World) : set_env (m_env w) w = w.
Proof. by destruct w. Qed.

(** Pieces of [mint] before the receiver is called. *)
Lemma mint_begin c caller to w id w1 w2 w3 u u' :
  external (on_nft c (_checkOwner caller)) w = Ok (u, w1) →
  external (on_nft c next_tokenId) w1 = Ok (id, w2) →
  external (on_nft c (on_erc721 (_mint to id))) w2 = Ok (u', w3) →
  ∃ n n1 n2, e_nfts (m_env w) !! c = Some n ∧ _owner n = caller ∧
    next_tokenId n = Ok (id, n1) ∧ on_erc721 (_mint to id) n1 = Ok (u', n2) ∧
    w3 = set_env (set_nft c n2 (m_env w)) w.
Proof.
  intros H1 H2 H3.
  apply self_Ok in H1 as (n & n0 & Hn & H1 & ->).
  apply _checkOwner_Ok in H1 as [Hown ->].
  rewrite set_nft_same, set_env_same in H2 by done.
  apply self_Ok in H2 as (n' & n1 & Hn' & H2 & ->).
  rewrite Hn in Hn'. injection Hn' as <-.
  apply self_Ok in H3 as (n1' & n2 & Hn1 & H3 & ->). cbn in *.
  rewrite lookup_insert_eq in Hn1. injection Hn1 as <-.
  exists n, n1, n2. split_and!; try done. by rewrite set_nft_twice.
Qed.

Lemma check_Ok hook op from to id (w : World) u w' :
  checkOnERC721Received this hook op from to id w = Ok (u, w') →
  code_at this (m_env w) to = false ∧ hook w = Ok (u, w').
Proof.
  unfold checkOnERC721Received. intros H. apply bind_Ok in H as (? & ? & Hg & H).
  injection Hg as <- <-. apply bind_Ok in H as (? & ? & He & H).
  apply ensure_Ok in He as [Hc ->]. by apply negb_true_iff in Hc.
Qed.

Lemma not_code_not_this e a : code_at this e a = false → a ≠ this.
Proof.
  unfold code_at. intros H ->. by rewrite bool_decide_true in H.
Qed.

(** A call that only touches the collection it is sent to. *)
Lemma self_astep {A} c (p : M evm_error NFTCollection A) w a w' :
  (∀ n n', p n = Ok (a, n') → nft_local n n') →
  external (on_nft c p) w = Ok (a, w') → rtc astep w w'.
Proof.
  intros Hp (n & n' & Hn & H & ->)%self_Ok. apply rtc_once, (as_nft w c n n' Hn). by apply Hp.
Qed.

(** A mint: the token, the callback of its receiver, its URI, the notice to the
    marketplace. *)
Lemma mint_asteps hook c caller ts to uri w id w' :
  (∀ w1 w2, hook w1 = Ok (tt, w2) → rtc astep w1 w2) →
  mint (λ A p, external (on_nft c p)) (checkOnERC721Received this hook)
    (updateCollectionTotalSupply (Msg c 0 ts) c) caller to uri w = Ok (id, w') →
  rtc astep w w'.
Proof.
  intros Hhook H. unfold mint, _safeMint in H.
  apply bind_Ok in H as (? & w1 & H1 & H). apply bind_Ok in H as (id' & w2 & H2 & H).
  apply bind_Ok in H as (? & w4' & H3 & H). apply bind_Ok in H3 as (? & w3 & H3 & H4).
  apply bind_Ok in H as (? & w5 & H5 & H). apply bind_Ok in H as (? & w6 & H6 & H).
  injection H as <- <-.
  destruct (mint_begin _ _ _ _ _ _ _ _ _ _ H1 H2 H3)
    as (n & n1 & n2 & Hn & _ & Hnext & Hmint & ->).
  apply check_Ok in H4 as [Hto H4]. repeat match goal with x : unit |- _ => destruct x end.
  eapply rtc_l; [eapply as_nft; [done|eapply nl_mint; [|done..]]|].
  { by eapply not_code_not_this. }
  etransitivity; [by apply Hhook|].
  apply self_Ok in H5 as (n3 & n4 & Hn3 & H5 & ->).
  eapply rtc_l; [eapply as_nft; [done|by eapply nl_tokenURI]|].
  apply rtc_once. eapply as_supply; [|done]. cbn. rewrite lookup_insert_eq. eauto.
Qed.

(** Every call is a sequence of atomic steps, given that its callback is. *)
Lemma exec_asteps hook m f w w' :
  valid_msg this w m → valid_call f →
  (∀ w1 w2, hook w1 = Ok (tt, w2) → rtc astep w1 w2) →
  exec hook m f w = Ok (tt, w') →
  rtc astep w w'.
Proof.
  intros Hv Hcall Hhook H. pose proof Hv as (Hs0 & Hsc & _).
  assert (Hst : msg_sender m ≠ this) by by eapply not_code_not_this.
  destruct f as [f|c f]; cbn in H; [by apply rtc_once; eapply as_market|].
  unfold nft_exec in H. apply bind_Ok in H as (? & ? & He & H).
  apply ensure_Ok in He as [_ ->].
  destruct f as [to uri|to id|op b|from to id|from to id|o|];
    cbv beta iota zeta in H;
    try (eapply self_astep; [|exact H]; intros n n').
  - apply bind_Ok in H as (id & w4 & H & Hr). injection Hr as <-. by eapply mint_asteps.
  - by apply (nl_approve n (msg_sender m)).
  - by apply (nl_setApprovalForAll n (msg_sender m)).
  - by apply (nl_transferFrom n (msg_sender m)).
  - unfold safeTransferFrom in H. apply bind_Ok in H as (? & w1 & H & Hc).
    apply check_Ok in Hc as [_ Hc]. etransitivity; [|by apply Hhook].
    eapply self_astep; [|exact H]. intros n n'. by apply (nl_transferFrom n (msg_sender m)).
  - intros (_ & _ & ->)%transferOwnership_Ok. apply nl_owner.
  - intros [_ ->]%renounceOwnership_Ok. apply nl_owner.
Qed.

Lemma evolves_asteps w w' : evolves w w' → rtc astep w w'.
Proof.
  induction 1 as [w|w1 w2 w3 _ IH1 _ IH2|w m f hook w' Hv Hcall _ IH H|w b Hb].
  - done.
  - by transitivity w2.
  - by eapply exec_asteps.
  - by apply rtc_once, as_ether.
Qed.

(** Invariants: what the atomic steps keep holds along every evolution. *)
Lemma evolves_invariant (I : World → Prop) w w' :
  (∀ w w', I w → astep w w' → I w') → evolves w w' → I w → I w'.
Proof.
  intros Hstep He. apply evolves_asteps in He.
  induction He as [w|w1 w2 w3 Hs _ IH]; [done|]. intros HI. by eapply IH, Hstep.
Qed.
End steps.
