(* ===== verification/Invariants.v ===== *)
(** * Invariants of the reachable states

    Registry of collections, escrow of listed tokens, backing of the money the
    marketplace owes, auctions that can never end, purchase records. *)

From stdpp Require Import base list gmap strings numbers relations.
From Stdlib Require Import ZArith Lia.
From S2P Require Import Prelude Evm Erc721 NFTCollection MarketStorage Marketplace Chain ChainFacts.
From S2P Require Import EnvLaws MarketFacts Steps.

Section invariants.
Variable this : address.
Variable create_address : N → address.
Variable accepts_ether : address → bool.

#[local] Instance ops'' : ChainEnv Env := Env_ops this create_address accepts_ether.

Abbreviation astep := (astep this create_address accepts_ether).
Abbreviation evolves := (evolves this create_address accepts_ether).
Abbreviation owner_of := (owner_of this create_address accepts_ether).
Abbreviation held := (held this).
Abbreviation effect := (effect this create_address accepts_ether).
Implicit Types (w : World) (st : MarketStorage).

(** ** The base invariant *)
Record inv_base (w : World) : Prop := {
  base_env : ok_env this (m_env w);
  base_guard : _status_entered (m_store w) = false;
  base_fee : listingFee (m_store w) = (5 * 10 ^ 14)%Z
}.

(** What an atomic step is, seen from the marketplace. *)
Inductive step_kind (w w' : World) : Prop :=
| sk_market m f : valid_msg this w m → effect m f w w' → step_kind w w'
| sk_other : m_store w' = m_store w → held w' = held w →
    (∀ c id, owner_of w c id = this → owner_of w' c id = this) →
    (∀ a, code_at this (m_env w') a = code_at this (m_env w) a) → step_kind w w'
| sk_supply c n : c_isActive (collections (m_store w)).[c] = true →
    m_store w' = supply_updated c n (m_store w) → m_env w' = m_env w → step_kind w w'.

Lemma left_by_guard w f : _status_entered (left_by w f) = false.
Proof. done. Qed.

Lemma effect_guard_fee m f w w' :
  effect m f w w' → _status_entered (m_store w) = false →
  _status_entered (m_store w') = false ∧ listingFee (m_store w') = listingFee (m_store w).
Proof.
  intros He Hg. destruct f; cbn in He; split_hyps;
    match goal with H : m_store w' = _ |- _ => rewrite H end; try done.
  unfold left_by, bid_placed, refunded. cbn. by case_decide.
Qed.

Lemma astep_kind w w' : inv_base w → astep w w' → step_kind w w' ∧ inv_base w'.
Proof.
  intros [Henv Hg Hfee] Hs. destruct Hs as [w m f w' Hv Hcall H|w c n n' Hn Hl|w c ts w' Hc H|w b Hb].
  - destruct (market_effect _ _ _ _ _ _ _ _ Hv Henv H) as [Henv' He].
    split; [by eapply sk_market|]. destruct (effect_guard_fee _ _ _ _ He Hg) as [? ?].
    split; [done..|congruence].
  - destruct (nft_local_ok this n n') as [Hok' Hkeep]; [by eapply env_this_nonzero|by eapply env_nfts_ok|done..|].
    split.
    + apply sk_other; [done|done| |].
      * intros c' id. unfold Steps.owner_of. cbn [m_env set_env].
        rewrite (set_nft_ownerOf _ _ _ c n) by done. case_decide; [subst c'|done].
        cbn. rewrite Hn. apply Hkeep.
      * intros a. by eapply set_nft_code.
    + split; [|done..]. by eapply ok_env_set_nft.
  - apply updateCollectionTotalSupply_Ok in H as (Ha & _ & k & _ & Hst & He & _).
    split; [by eapply sk_supply|]. split; [by rewrite He|by rewrite Hst..].
  - split; [|split; [by apply (ok_env_same_nfts this (m_env w))|done..]].
    apply sk_other; [done| |done|done]. unfold Steps.held. done.
Qed.

(** ** The registry of collections

    The three indexes of the storage (all collections, by category, by creator)
    list the same collections in creation order; categories are kept once. *)
Record registry_ok (w : World) : Prop := {
  reg_nodup : NoDup (collectionAddresses (m_store w));
  reg_active a : c_isActive (collections (m_store w)).[a] = true ↔
                 a ∈ collectionAddresses (m_store w);
  reg_code a : a ∈ collectionAddresses (m_store w) → code_at this (m_env w) a = true;
  reg_self a : a ∈ collectionAddresses (m_store w) →
               c_collectionAddress (collections (m_store w)).[a] = a;
  reg_category category :
    (categoryToCollections (m_store w)).[category] =
    filter (λ a, c_category (collections (m_store w)).[a] = category)
      (collectionAddresses (m_store w));
  reg_user user :
    (userCreatedCollections (m_store w)).[user] =
    filter (λ a, c_owner (collections (m_store w)).[a] = user)
      (collectionAddresses (m_store w));
  reg_known a : a ∈ collectionAddresses (m_store w) →
    (categoryExists (m_store w)).[c_category (collections (m_store w)).[a]] = true;
  reg_categories_nodup : NoDup (categories (m_store w));
  reg_categories category :
    (categoryExists (m_store w)).[category] = true ↔ category ∈ categories (m_store w)
}.

(** The registry does not depend on items, offers, bids or purchases. *)
Lemma registry_same w w' :
  collections (m_store w') = collections (m_store w) →
  collectionAddresses (m_store w') = collectionAddresses (m_store w) →
  categoryToCollections (m_store w') = categoryToCollections (m_store w) →
  userCreatedCollections (m_store w') = userCreatedCollections (m_store w) →
  categories (m_store w') = categories (m_store w) →
  categoryExists (m_store w') = categoryExists (m_store w) →
  (∀ a, code_at this (m_env w') a = code_at this (m_env w) a) →
  registry_ok w → registry_ok w'.
Proof.
  intros E1 E2 E3 E4 E5 E6 Hc [? ? ? ? ? ? ? ? ?].
  split; rewrite ?E1, ?E2, ?E3, ?E4, ?E5, ?E6; try done.
  intros a. rewrite Hc. auto.
Qed.

Lemma registry_created w w' m a name symbol baseURI category :
  registry_ok w →
  (categoryExists (m_store w)).[category] = true →
  code_at this (m_env w) a = false →
  m_store w' = created m a name symbol baseURI category (m_store w) →
  (∀ b, code_at this (m_env w') b = if decide (a = b) then true else code_at this (m_env w) b) →
  registry_ok w'.
Proof.
  intros [Hnd Hact Hcode Hself Hcat Huser Hknown Hcnd Hcats] Hx Ha Hst Hc.
  assert (Hfresh : a ∉ collectionAddresses (m_store w)).
  { intros Hin. by rewrite Hcode in Ha. }
  assert (Hold : ∀ b v, b ∈ collectionAddresses (m_store w) →
            (<[a := v]> (collections (m_store w))).[b] = (collections (m_store w)).[b]).
  { intros b v Hb. apply mget_insert_ne. by intros ->. }
  split; rewrite Hst; unfold created; cbn.
  - by apply NoDup_snoc.
  - intros b. rewrite elem_of_snoc, mget_insert. case_decide as Hd.
    + subst b. cbn. naive_solver.
    + rewrite Hact. naive_solver.
  - intros b. rewrite elem_of_snoc, Hc. case_decide; naive_solver.
  - intros b. rewrite elem_of_snoc. intros [Hb | ->].
    + by rewrite Hold by done; auto.
    + by rewrite mget_insert_eq.
  - intros cat. rewrite push_at_lookup, filter_snoc, mget_insert_eq. cbn.
    rewrite (filter_ext_elem _ (λ b, c_category (collections (m_store w)).[b] = cat)).
    2: { intros b Hb. by rewrite Hold. }
    rewrite Hcat. case_decide; [done|by rewrite app_nil_r].
  - intros user. rewrite push_at_lookup, filter_snoc, mget_insert_eq. cbn.
    rewrite (filter_ext_elem _ (λ b, c_owner (collections (m_store w)).[b] = user)).
    2: { intros b Hb. by rewrite Hold. }
    rewrite Huser. case_decide; [done|by rewrite app_nil_r].
  - intros b. rewrite elem_of_snoc. intros [Hb | ->].
    + rewrite Hold by done. auto.
    + by rewrite mget_insert_eq.
  - done.
  - done.
Qed.

Lemma registry_supply w w' c n :
  c_isActive (collections (m_store w)).[c] = true →
  m_store w' = supply_updated c n (m_store w) →
  (∀ a, code_at this (m_env w') a = code_at this (m_env w) a) →
  registry_ok w → registry_ok w'.
Proof.
  intros Ha Hst Hc [Hnd Hact Hcode Hself Hcat Huser Hknown Hcnd Hcats].
  assert (Hf : ∀ {A} (f : Collection → A), (∀ k x, f (with_totalSupply k x) = f x) →
    ∀ b, f (collections (m_store w')).[b] = f (collections (m_store w)).[b]).
  { intros A f Hf b. rewrite Hst. unfold supply_updated. cbn. rewrite mget_insert.
    case_decide; [by subst|done]. }
  assert (E2 : collectionAddresses (m_store w') = collectionAddresses (m_store w))
    by by rewrite Hst.
  split; rewrite ?E2; try done.
  - intros b. rewrite (Hf _ c_isActive) by done. apply Hact.
  - intros b. rewrite Hc. apply Hcode.
  - intros b. rewrite (Hf _ c_collectionAddress) by done. apply Hself.
  - intros cat. transitivity ((categoryToCollections (m_store w)).[cat]); [by rewrite Hst|].
    rewrite Hcat. apply filter_ext_elem. intros b _. by rewrite (Hf _ c_category) by done.
  - intros u. transitivity ((userCreatedCollections (m_store w)).[u]); [by rewrite Hst|].
    rewrite Huser. apply filter_ext_elem. intros b _. by rewrite (Hf _ c_owner) by done.
  - intros b. rewrite (Hf _ c_category) by done.
    replace (categoryExists (m_store w')) with (categoryExists (m_store w)) by by rewrite Hst.
    apply Hknown.
  - by rewrite Hst.
  - intros cat. rewrite Hst. apply Hcats.
Qed.

Lemma registry_category w w' category :
  registry_ok w → (categoryExists (m_store w)).[category] = false →
  m_store w' = category_added category (m_store w) →
  (∀ a, code_at this (m_env w') a = code_at this (m_env w) a) → registry_ok w'.
Proof.
  intros [Hnd Hact Hcode Hself Hcat Huser Hknown Hcnd Hcats] Hx Hst Hc.
  split; rewrite Hst; unfold category_added; cbn; try done.
  - intros a. rewrite Hc. apply Hcode.
  - intros a Ha. rewrite mget_insert. case_decide; [done|]. by apply Hknown.
  - apply NoDup_snoc; [done|]. rewrite <- Hcats. by rewrite Hx.
  - intros cat. rewrite mget_insert, elem_of_snoc. case_decide; [naive_solver|].
    rewrite Hcats. naive_solver.
Qed.

Lemma effect_registry m f w w' :
  inv_base w → effect m f w w' → registry_ok w → registry_ok w'.
Proof.
  intros _ He Hr. destruct f; cbn in He; split_hyps;
    try (eapply registry_same; [..|exact Hr]; repeat
         match goal with
         | H : m_store _ = _ |- _ => rewrite H; clear H
         | H : same_tokens _ _ _ _ _ |- _ => destruct H as (_ & _ & ?)
         | H : token_moved _ _ _ _ _ _ _ _ _ |- _ => destruct H as (_ & _ & _ & ?)
         end; try done; unfold left_by, bid_placed, refunded; cbn; by case_decide).
  - eapply registry_category; [done..|]. by match goal with H : same_tokens _ _ _ _ _ |- _ =>
      destruct H as (_ & _ & ?) end.
  - by eapply registry_created.
  - eapply registry_supply; [done..| |done].
    by match goal with H : same_tokens _ _ _ _ _ |- _ => destruct H as (_ & _ & ?) end.
Qed.

Lemma kind_registry w w' : inv_base w → step_kind w w' → registry_ok w → registry_ok w'.
Proof.
  intros Hb [m f _ He|Hst _ _ Hc|c n Ha Hst He] Hr.
  - by eapply effect_registry.
  - eapply registry_same; [..|done|done]; by rewrite Hst.
  - eapply registry_supply; [done..| |done]. intros a. by rewrite He.
Qed.

(** ** Escrow

    A token that is on sale is held by the marketplace, is in the list of its
    collection, and that collection is registered. *)
Record escrow_ok (w : World) : Prop := {
  esc_owner c id : i_isOnSale (item_at (m_store w) c id) = true → owner_of w c id = this;
  esc_listed c id : i_isOnSale (item_at (m_store w) c id) = true →
    id ∈ (collectionTokenIds (m_store w)).[c];
  esc_active c id : id ∈ (collectionTokenIds (m_store w)).[c] →
    c_isActive (collections (m_store w)).[c] = true
}.

Lemma escrow_same w w' :
  (∀ c id, i_isOnSale (item_at (m_store w') c id) = i_isOnSale (item_at (m_store w) c id)) →
  collectionTokenIds (m_store w') = collectionTokenIds (m_store w) →
  (∀ a, c_isActive (collections (m_store w)).[a] = true →
        c_isActive (collections (m_store w')).[a] = true) →
  (∀ c id, owner_of w c id = this → owner_of w' c id = this) →
  escrow_ok w → escrow_ok w'.
Proof.
  intros Hi Ht Ha Ho [E1 E2 E3]. split; intros c id; rewrite ?Hi, ?Ht; auto.
  intros Hin. apply Ha. by eapply E3.
Qed.

Lemma same_tokens_owner w w' c id :
  same_tokens this create_address accepts_ether w w' → owner_of w c id = this →
  owner_of w' c id = this.
Proof. intros (Ho & _) H. by rewrite Ho. Qed.

Lemma createMarketItem_escrow m c id price w w' :
  effect m (CreateMarketItem c id price) w w' → escrow_ok w → escrow_ok w'.
Proof.
  intros (_ & Ha & _ & _ & (uri & Hs) & (Hfrom & Hmv & _) & _) [E1 E2 E3].
  split; intros c' id'; rewrite Hs, ?listed_item.
  - rewrite Hmv. case_decide; [done|]. apply E1.
  - cbn. rewrite push_at_lookup. repeat case_decide; destruct_and?; subst; intros Hi.
    + apply elem_of_snoc. by right.
    + tauto.
    + apply elem_of_snoc. left. by apply E2.
    + by apply E2.
  - cbn. rewrite push_at_lookup. case_decide; [by subst|]. apply E3.
Qed.

Lemma createMarketSale_escrow m c id w w' :
  effect m (CreateMarketSale c id) w w' → escrow_ok w → escrow_ok w'.
Proof.
  intros (_ & _ & _ & _ & Hs & (Hfrom & Hmv & _) & _) [E1 E2 E3].
  split; intros c' id'; rewrite Hs, ?sold_item.
  - rewrite Hmv. case_decide; [done|]. apply E1.
  - case_decide; [done|]. apply E2.
  - apply E3.
Qed.

(** A call that moves no token and leaves every item on sale or off. *)
Lemma still_escrow w w' :
  (∀ c id, i_isOnSale (item_at (m_store w') c id) = i_isOnSale (item_at (m_store w) c id)) →
  collectionTokenIds (m_store w') = collectionTokenIds (m_store w) →
  (∀ a, c_isActive (collections (m_store w)).[a] = true →
        c_isActive (collections (m_store w')).[a] = true) →
  same_tokens this create_address accepts_ether w w' → escrow_ok w → escrow_ok w'.
Proof.
  intros Hi Ht Ha Hsame. apply escrow_same; [done..|]. intros ??. by apply same_tokens_owner.
Qed.

Lemma effect_escrow m f w w' : effect m f w w' → escrow_ok w → escrow_ok w'.
Proof.
  intros He Hesc. destruct f as [category|name symbol baseURI category|c id price|c id
    |c id start dur|c id|c id|c|o|]; cbn [Steps.effect] in He.
  - destruct He as (_ & Hs & Ht & _). by eapply still_escrow; [..|done]; rewrite ?Hs.
  - destruct He as (a & _ & _ & Hs & Ho & _). eapply escrow_same; [..|done]; rewrite ?Hs; try done.
    + intros b. unfold created. cbn. rewrite mget_insert. by case_decide.
    + intros c id Hc. by rewrite Ho.
  - by eapply createMarketItem_escrow.
  - by eapply createMarketSale_escrow.
  - destruct He as (_ & _ & _ & Hs & Ht & _). eapply still_escrow; [..|done]; rewrite ?Hs; try done.
    intros c' id'. rewrite auctioned_item. case_decide as Hd; [by destruct Hd as [<- <-]|done].
  - destruct He as (_ & _ & _ & _ & Hs & Ht & _).
    eapply still_escrow; [..|done]; rewrite ?Hs; try done.
    + intros c' id'. rewrite bid_item. case_decide as Hd; [by destruct Hd as [<- <-]|done].
    + unfold left_by, bid_placed, refunded. cbn. by case_decide.
    + unfold left_by, bid_placed, refunded. cbn. by case_decide.
  - destruct He as (_ & _ & _ & _ & Hs & Ht & _). by eapply still_escrow; [..|done]; rewrite ?Hs.
  - destruct He as (_ & _ & (k & _ & Hs) & Ht & _).
    eapply still_escrow; [..|done]; rewrite ?Hs; try done.
    intros b. unfold supply_updated. cbn. rewrite mget_insert. by case_decide; subst.
  - destruct He as ((o' & Hs) & Ht & _). by eapply still_escrow; [..|done]; rewrite ?Hs.
  - destruct He as ((o' & Hs) & Ht & _). by eapply still_escrow; [..|done]; rewrite ?Hs.
Qed.

Lemma kind_escrow w w' : step_kind w w' → escrow_ok w → escrow_ok w'.
Proof.
  intros [m f Hv He|Hst _ Ho _|c n Ha Hst He] Hr.
  - by eapply effect_escrow.
  - eapply escrow_same; [..|done]; by rewrite ?Hst.
  - eapply escrow_same; [..|done]; rewrite ?Hst; try done.
    + intros b. unfold supply_updated. cbn. rewrite mget_insert. by case_decide; subst.
    + intros c' id. unfold Steps.owner_of. by rewrite He.
Qed.
End invariants.
