(* ===== verification/Money.v ===== *)
(** * The ether the marketplace holds

    [liabilities]: the listing fees it collected, the offers, the refunds owed
    to outbid bidders and the standing highest bids.  They are always covered
    by the balance, and the balance never goes down. *)

From stdpp Require Import base list gmap strings numbers relations.
From Stdlib Require Import ZArith Lia.
From S2P Require Import Prelude Evm MarketStorage Marketplace Chain EnvLaws MarketFacts Steps Invariants.

Section money.
Variable this : address.
Variable create_address : N → address.
Variable accepts_ether : address → bool.

Abbreviation evolves := (evolves this create_address accepts_ether).
Abbreviation held := (held this).
Abbreviation effect := (effect this create_address accepts_ether).
Abbreviation step_kind := (step_kind this create_address accepts_ether).
Implicit Types (w : World) (st : MarketStorage).

Definition listing_count st : Z := map_sum (λ ids, Z.of_nat (length ids)) (collectionTokenIds st).
Definition offers_total st : Z := map_sum (sum_Z o_price) (itemOffers st).
Definition refunds_total st : Z := map_sum (λ v, v) (pendingReturns st).
Definition bids_total st : Z := map_sum i_highestBid (collectionToMarketItems st).

Definition liabilities st : Z :=
  (5 * 10 ^ 14 * listing_count st + offers_total st + refunds_total st + bids_total st)%Z.

Record backed (w : World) : Prop := {
  bk_bids k i : collectionToMarketItems (m_store w) !! k = Some i → (0 ≤ i_highestBid i)%Z;
  bk_covered : (liabilities (m_store w) ≤ held w)%Z
}.

Lemma backed_item w c id : backed w → (0 ≤ i_highestBid (item_at (m_store w) c id))%Z.
Proof.
  intros [Hb _]. unfold item_at, mget.
  destruct (collectionToMarketItems (m_store w) !! (c, id)) as [i|] eqn:E; cbn; [|done].
  by eapply Hb.
Qed.

Lemma backed_same w w' :
  collectionToMarketItems (m_store w') = collectionToMarketItems (m_store w) →
  liabilities (m_store w') = liabilities (m_store w) → held w' = held w →
  backed w → backed w'.
Proof. intros E1 E2 E3 [H1 H2]. split; [by rewrite E1|by rewrite E2, E3]. Qed.

(** One item is replaced by another with bid [b]. *)
Lemma backed_update w w' c id i :
  collectionToMarketItems (m_store w') = <[(c, id) := i]> (collectionToMarketItems (m_store w)) →
  (0 ≤ i_highestBid i)%Z →
  (5 * 10 ^ 14 * listing_count (m_store w') + offers_total (m_store w')
     + refunds_total (m_store w') + i_highestBid i ≤
   5 * 10 ^ 14 * listing_count (m_store w) + offers_total (m_store w)
     + refunds_total (m_store w) + i_highestBid (item_at (m_store w) c id)
     + (held w' - held w))%Z →
  backed w → backed w'.
Proof.
  intros E H0 Hle [H1 H2]. split.
  - intros k i'. rewrite E, lookup_insert. case_decide; [by intros [= <-]|apply H1].
  - unfold liabilities, bids_total in *. rewrite E, (map_sum_insert_mget i_highestBid) by done.
    change (i_highestBid ((collectionToMarketItems (m_store w)).[(c, id)]))
      with (i_highestBid (item_at (m_store w) c id)). lia.
Qed.

Lemma push_count k v (m : gmap address (list Z)) :
  map_sum (λ ids, Z.of_nat (length ids)) (push_at k v m) =
  (map_sum (λ ids, Z.of_nat (length ids)) m + 1)%Z.
Proof.
  unfold push_at. rewrite (map_sum_insert_mget (λ ids : list Z, Z.of_nat (length ids))) by done. rewrite length_app. cbn. lia.
Qed.

Lemma push_offers (k : address * Z) (o : Offer) (m : gmap (address * Z) (list Offer)) :
  map_sum (sum_Z o_price) (push_at k o m) = (map_sum (sum_Z o_price) m + o_price o)%Z.
Proof.
  unfold push_at. rewrite (map_sum_insert_mget (sum_Z o_price)) by done. rewrite sum_Z_snoc. lia.
Qed.

Lemma effect_backed m f w w' :
  inv_base this w → valid_msg this w m → effect m f w w' → backed w → backed w'.
Proof.
  intros [_ _ Hfee] (_ & _ & Hv & _) He Hb. unfold is_uint256 in Hv.
  destruct f as [category|name symbol baseURI category|c id price|c id|c id start dur
                |c id|c id|c|o|]; cbn [Steps.effect] in He.
  - destruct He as (_ & Hs & _ & Hh). by eapply backed_same; [..|done]; rewrite ?Hs.
  - destruct He as (a & _ & _ & Hs & _ & _ & _ & _ & Hh).
    by eapply backed_same; [..|done]; rewrite ?Hs.
  - destruct He as (_ & _ & _ & _ & (uri & Hs) & _ & Hh).
    eapply (backed_update w w' c id); [by rewrite Hs|done| |done].
    pose proof (backed_item w c id Hb). rewrite Hs, Hh, Hfee.
    unfold listing_count, offers_total, refunds_total. cbn. rewrite push_count.
    change (5 * 10 ^ 14)%Z with 500000000000000%Z. lia.
  - destruct He as (_ & _ & _ & _ & Hs & _ & Hh).
    eapply (backed_update w w' c id); [by rewrite Hs| | |done].
    + cbn. by apply backed_item.
    + rewrite Hs, Hh. unfold listing_count, offers_total, refunds_total. cbn. drop_guard. lia.
  - destruct He as (_ & _ & _ & Hs & _ & Hh).
    eapply (backed_update w w' c id); [by rewrite Hs| | |done].
    + cbn. by apply backed_item.
    + rewrite Hs, Hh. unfold listing_count, offers_total, refunds_total. cbn. drop_guard. lia.
  - destruct He as (_ & _ & _ & Hbid & Hs & _ & Hh).
    pose proof (backed_item w c id Hb) as Hold.
    eapply (backed_update w w' c id (item_bid (msg_sender m) (msg_value m) (item_at (m_store w) c id)));
      [| |  |done].
    + rewrite Hs. unfold left_by, bid_placed, refunded, item_at. cbn. by case_decide.
    + cbn. lia.
    + rewrite Hs, Hh. cbn. unfold left_by, bid_placed, refunded.
      drop_guard.
      unfold listing_count, offers_total, refunds_total. case_decide; cbn; [|lia].
      rewrite (map_sum_insert_mget (λ v : Z, v)) by done. lia.
  - destruct He as (_ & _ & _ & _ & Hs & _ & Hh). destruct Hb as [H1 H2].
    split; [by rewrite Hs|]. rewrite Hs, Hh. revert H2.
    unfold liabilities, listing_count, offers_total, refunds_total, bids_total. cbn.
    rewrite push_offers. cbn. lia.
  - destruct He as (_ & _ & (k & _ & Hs) & _ & Hh).
    by eapply backed_same; [..|done]; rewrite ?Hs.
  - destruct He as ((o' & Hs) & _ & Hh). by eapply backed_same; [..|done]; rewrite ?Hs.
  - destruct He as ((o' & Hs) & _ & Hh). by eapply backed_same; [..|done]; rewrite ?Hs.
Qed.

Lemma kind_backed w w' : inv_base this w → step_kind w w' → backed w → backed w'.
Proof.
  intros Hi [m f Hv He|Hst Hh _ _|c n _ Hst He] Hb.
  - by eapply effect_backed.
  - by eapply backed_same; [..|done]; rewrite ?Hst.
  - eapply backed_same; [..|done]; rewrite ?Hst; try done. unfold Steps.held. by rewrite He.
Qed.

(** No step takes ether out of the marketplace. *)
Lemma kind_held w w' : inv_base this w → step_kind w w' → (held w ≤ held w')%Z.
Proof.
  intros [_ _ Hfee] [m f (_ & _ & Hv & _) He|_ Hh _ _|c n _ _ He].
  - unfold is_uint256 in Hv. destruct f; cbn [Steps.effect] in He; split_hyps; lia.
  - lia.
  - unfold Steps.held. by rewrite He.
Qed.
End money.
