(* ===== verification/Purchases.v ===== *)
(** * Purchased items

    What [fetchUserPurchasedItems] computes, when it reverts, and the invariant
    between the purchase counter of a user and the purchases recorded. *)

From stdpp Require Import base list gmap strings numbers relations.
From Stdlib Require Import ZArith Lia.
From S2P Require Import Prelude Evm MarketStorage Marketplace Chain EnvLaws MarketFacts Steps Invariants.

(** The listed tokens of one collection the user bought, in list order, with
    the repetitions of the list. *)
Definition purchases_in (s : MarketStorage) (user c : address) (ids : list Z)
    : list (address * Z) :=
  pair c <$> filter (λ id, (userPurchases s).[(user, c, id)] = true) ids.

Lemma purchases_in_cons s user c id ids :
  purchases_in s user c (id :: ids) =
    if (userPurchases s).[(user, c, id)] then (c, id) :: purchases_in s user c ids
    else purchases_in s user c ids.
Proof.
  unfold purchases_in. rewrite filter_cons. case_decide as Hd; [by rewrite Hd|].
  by destruct (userPurchases s).[(user, c, id)].
Qed.

Definition purchase_list (s : MarketStorage) (user : address) : list (address * Z) :=
  c ← collectionAddresses s; purchases_in s user c (collectionTokenIds s).[c].

Definition item_of (s : MarketStorage) (k : address * Z) : MarketItem := item_at s k.1 k.2.

(** Writing [ks] into an array of [n] entries from index [i] on. *)
Definition fill (s : MarketStorage) (n : nat) (done_ ks : list (address * Z))
    : list MarketItem :=
  (item_of s <$> done_ ++ ks) ++ replicate (n - length done_ - length ks) sol_zero.

Lemma fill_step s n pre k :
  length pre < n →
  array_set (fill s n pre []) (length pre) (item_of s k) = Ok (fill s n (pre ++ [k]) []).
Proof.
  intros Hn. unfold fill, array_set. rewrite !app_nil_r.
  rewrite decide_True by (rewrite length_app, length_fmap, length_replicate; cbn [length]; lia).
  rewrite fmap_app. cbn [length].
  replace (n - length pre - 0) with (S (n - length (pre ++ [k]) - 0))
    by (rewrite length_app; cbn [length]; lia).
  cbn [replicate]. rewrite insert_app_r_alt by (rewrite length_fmap; lia).
  rewrite length_fmap, Nat.sub_diag. cbn. by rewrite <- app_assoc.
Qed.

Lemma fill_overflow s n pre k :
  length pre = n → array_set (fill s n pre []) (length pre) (item_of s k) = Err PanicBounds.
Proof.
  intros Hl. unfold fill, array_set. rewrite !app_nil_r, decide_False; [done|].
  rewrite length_app, length_fmap, length_replicate. cbn [length]. lia.
Qed.

Lemma purchased_tokens_run s user c ids n pre :
  length pre ≤ n →
  purchased_tokens s user c ids (fill s n pre [], length pre) =
    let ks := purchases_in s user c ids in
    if decide (length pre + length ks ≤ n)
    then Ok (fill s n (pre ++ ks) [], length pre + length ks) else Err PanicBounds.
Proof.
  revert pre. induction ids as [|id ids IH]; intros pre Hn; cbn -[purchases_in].
  - rewrite decide_True by (cbn; lia). cbn. by rewrite app_nil_r, Nat.add_0_r.
  - rewrite purchases_in_cons.
    destruct (userPurchases s).[(user, c, id)] eqn:Hb; cbn -[purchases_in].
    + destruct (decide (length pre < n)) as [Hlt|Hge].
      * change (item_at s c id) with (item_of s (c, id)).
        rewrite fill_step by done. cbn -[purchases_in].
        replace (S (length pre)) with (length (pre ++ [(c, id)]))
          by (rewrite length_app; cbn; lia).
        rewrite IH by (rewrite length_app; cbn; lia). cbn -[purchases_in].
        rewrite length_app. cbn -[purchases_in]. repeat case_decide; try lia; [|done].
        f_equal. f_equal; [by rewrite <- app_assoc|lia].
      * change (item_at s c id) with (item_of s (c, id)).
        rewrite fill_overflow by lia. cbn -[purchases_in]. by rewrite decide_False by lia.
    + by rewrite IH.
Qed.

Lemma purchased_collections_run s user cs n pre :
  length pre ≤ n →
  purchased_collections s user cs (fill s n pre [], length pre) =
    let ks := c ← cs; purchases_in s user c (collectionTokenIds s).[c] in
    if decide (length pre + length ks ≤ n)
    then Ok (fill s n (pre ++ ks) [], length pre + length ks) else Err PanicBounds.
Proof.
  revert pre. induction cs as [|c cs IH]; intros pre Hn; cbn -[purchases_in].
  - rewrite decide_True by lia. by rewrite app_nil_r, Nat.add_0_r.
  - rewrite purchased_tokens_run by done. cbn -[purchases_in].
    set (ks := purchases_in _ _ c _). rewrite length_app.
    case_decide as Hle; cbn -[purchases_in].
    + replace (length pre + length ks) with (length (pre ++ ks)) by apply length_app.
      rewrite IH by (rewrite length_app; lia). cbn -[purchases_in].
      rewrite length_app. repeat case_decide; try lia; [|done].
      f_equal. f_equal; [by rewrite <- app_assoc|lia].
    + by rewrite decide_False by lia.
Qed.

Lemma fetchUserPurchasedItems_run s user :
  let n := Z.to_nat (userPurchaseCount s).[user] in
  let ks := purchase_list s user in
  fetchUserPurchasedItems s user =
    if decide (length ks ≤ n)
    then Ok ((item_of s <$> ks) ++ replicate (n - length ks) sol_zero) else Err PanicBounds.
Proof.
  cbn. unfold fetchUserPurchasedItems. set (n := Z.to_nat _).
  pose proof (purchased_collections_run s user (collectionAddresses s) n []
    ltac:(cbn; lia)) as H.
  unfold fill in H at 1. cbn in H. rewrite Nat.sub_0_r, Nat.sub_0_r in H. rewrite H.
  unfold purchase_list. set (ks := collectionAddresses s ≫= _).
  destruct (decide (length ks ≤ n)); cbn; [|done].
  by rewrite app_nil_r, Nat.sub_0_r.
Qed.

(** ** The purchase counter

    Purchases are recorded for listed tokens only, and a user's counter is at
    least the number of different tokens recorded for the user. *)
Definition bought (s : MarketStorage) (user : address) : gset (address * address * Z) :=
  filter (λ k, k.1.1 = user) (dom (userPurchases s)).

Record purchases_ok (s : MarketStorage) : Prop := {
  pu_listed user c id : (userPurchases s).[(user, c, id)] = true →
    id ∈ (collectionTokenIds s).[c];
  pu_count user : (Z.of_nat (size (bought s user)) ≤ (userPurchaseCount s).[user])%Z
}.

Lemma bought_flag s user c id :
  (userPurchases s).[(user, c, id)] = true → (user, c, id) ∈ bought s user.
Proof.
  intros H. apply elem_of_filter. split; [done|]. apply elem_of_dom.
  unfold mget in H. destruct (userPurchases s !! (user, c, id)); [eauto|done].
Qed.

Lemma purchase_list_elem s user k :
  k ∈ purchase_list s user →
  (userPurchases s).[(user, k.1, k.2)] = true ∧ k.1 ∈ collectionAddresses s.
Proof.
  unfold purchase_list. rewrite list_elem_of_bind. intros (c & Hk & Hc).
  apply list_elem_of_fmap in Hk as (id & -> & Hid).
  apply list_elem_of_filter in Hid as [Hid _]. done.
Qed.

Lemma NoDup_purchase_list s user :
  NoDup (collectionAddresses s) → (∀ c, NoDup (collectionTokenIds s).[c]) →
  NoDup (purchase_list s user).
Proof.
  intros Hc Ht. unfold purchase_list.
  induction Hc as [|c cs Hnew Hcs IH]; cbn; [constructor|].
  apply list.NoDup_app. split_and!; [|intros k Hk|done].
  - apply NoDup_fmap; [by intros ?? [=]|]. by apply list.NoDup_filter.
  - rewrite list_elem_of_bind. intros (c' & Hk' & Hc').
    apply list_elem_of_fmap in Hk as (? & -> & _).
    apply list_elem_of_fmap in Hk' as (? & [= <- _] & _). done.
Qed.

(** Distinct purchases never outnumber the counter. *)
Lemma purchase_list_length s user :
  purchases_ok s → NoDup (purchase_list s user) →
  length (purchase_list s user) ≤ Z.to_nat (userPurchaseCount s).[user].
Proof.
  intros [_ Hcount] Hnd. specialize (Hcount user).
  assert (Hle : length (purchase_list s user) ≤ size (bought s user)); [|lia].
  rewrite <- (length_fmap (λ k, (user, k.1, k.2))).
  assert (Hnd' : NoDup ((λ k, (user, k.1, k.2)) <$> purchase_list s user)).
  { apply NoDup_fmap; [|done]. intros [c id] [c' id']. cbn. congruence. }
  rewrite <- (size_list_to_set (C := gset (address * address * Z))) by done.
  apply subseteq_size. intros k. rewrite elem_of_list_to_set.
  intros ([c id] & -> & Hk)%list_elem_of_fmap. apply bought_flag.
  by apply purchase_list_elem in Hk as [? _].
Qed.

(** A purchased token that is listed twice is counted twice. *)
Lemma purchase_list_repeats s user c id :
  (userPurchases s).[(user, c, id)] = true → c ∈ collectionAddresses s →
  (∃ ids1 ids2 ids3, (collectionTokenIds s).[c] = ids1 ++ id :: ids2 ++ id :: ids3) →
  ¬ NoDup (purchase_list s user).
Proof.
  intros Hb Hc (ids1 & ids2 & ids3 & Hids) Hnd.
  apply list_elem_of_split in Hc as (l1 & l2 & Hc).
  unfold purchase_list in Hnd. rewrite Hc, bind_app in Hnd. cbn in Hnd.
  apply list.NoDup_app in Hnd as (_ & _ & Hnd).
  apply list.NoDup_app in Hnd as (Hnd & _ & _).
  unfold purchases_in in Hnd. apply NoDup_fmap_1 in Hnd.
  rewrite Hids, list.filter_app, filter_cons_True, list.filter_app, filter_cons_True in Hnd by done.
  apply list.NoDup_app in Hnd as (_ & _ & [Hnot _]%NoDup_cons).
  apply Hnot. apply elem_of_app. right. by left.
Qed.

Lemma remove_dups_short `{EqDecision A} (l : list A) :
  length l ≤ length (remove_dups l) → NoDup l.
Proof.
  assert (H : ∀ l : list A, length (remove_dups l) ≤ length l).
  { induction l0; cbn; [done|]. case_decide; cbn; lia. }
  induction l as [|x l IH]; cbn; [constructor|]. case_decide as Hd; cbn; intros Hle.
  - specialize (H l). lia.
  - constructor; [done|]. apply IH. lia.
Qed.

(** Only finitely many lists are to be looked at. *)
Lemma token_lists_nodup (m : gmap address (list Z)) c :
  bool_decide (map_Forall (λ _ ids, NoDup ids) m) = true → NoDup (m.[c]).
Proof.
  intros H%bool_decide_eq_true. unfold mget.
  destruct (m !! c) as [ids|] eqn:E; cbn; [by apply (H c)|constructor].
Qed.

Section steps.
Variable this : address.
Variable create_address : N → address.
Variable accepts_ether : address → bool.

Abbreviation step_kind := (step_kind this create_address accepts_ether).
Abbreviation escrow_ok := (escrow_ok this create_address accepts_ether).
Implicit Types (w : World).

Lemma purchases_same s s' :
  userPurchases s' = userPurchases s → userPurchaseCount s' = userPurchaseCount s →
  (∀ c id, id ∈ (collectionTokenIds s).[c] → id ∈ (collectionTokenIds s').[c]) →
  purchases_ok s → purchases_ok s'.
Proof.
  intros E1 E2 Ht [H1 H2]. split.
  - intros user c id. rewrite E1. intros Hp. by eapply Ht, H1.
  - intros user. unfold bought. rewrite E1, E2. apply H2.
Qed.

Lemma bought_insert s s' user buyer c id :
  userPurchases s' = <[(buyer, c, id) := true]> (userPurchases s) →
  (size (bought s' user) ≤ size (bought s user) + (if decide (buyer = user) then 1 else 0))%nat.
Proof.
  intros E. unfold bought. rewrite E, dom_insert_L. case_decide as Hd.
  - transitivity (size ({[(buyer, c, id)]} ∪ filter (λ k, k.1.1 = user) (dom (userPurchases s)))).
    { apply subseteq_size. set_solver. }
    rewrite size_union_alt, size_singleton.
    pose proof (subseteq_size
      (filter (λ k, k.1.1 = user) (dom (userPurchases s)) ∖ {[(buyer, c, id)]})
      (filter (λ k, k.1.1 = user) (dom (userPurchases s))) ltac:(set_solver)). lia.
  - rewrite Nat.add_0_r. apply subseteq_size. intros k.
    rewrite !elem_of_filter, elem_of_union, elem_of_singleton. naive_solver.
Qed.

Lemma effect_purchases m f w w' :
  effect this create_address accepts_ether m f w w' → escrow_ok w →
  purchases_ok (m_store w) → purchases_ok (m_store w').
Proof.
  intros He Hesc Hp. destruct f as [category|name symbol baseURI category|c id price|c id
    |c id start dur|c id|c id|c|o|]; cbn [effect] in He.
  - destruct He as (_ & Hs & _). by eapply purchases_same; [..|done]; rewrite Hs.
  - destruct He as (a & _ & _ & Hs & _). by eapply purchases_same; [..|done]; rewrite Hs.
  - destruct He as (_ & _ & _ & _ & (uri & Hs) & _).
    eapply purchases_same; [..|done]; rewrite Hs; try done.
    intros c' id'. cbn. rewrite push_at_lookup. case_decide; [|done].
    intros. apply elem_of_snoc. by left.
  - destruct He as (_ & Hsale & _ & _ & Hs & _). destruct Hp as [H1 H2].
    pose proof (esc_listed _ _ _ _ Hesc _ _ Hsale) as Hid. split.
    + intros user c' id'. rewrite Hs. cbn. rewrite mget_insert.
      case_decide as Hk; [intros _; by injection Hk as <- <- <-|apply H1].
    + intros user. specialize (H2 user).
      pose proof (bought_insert (m_store w) (m_store w') user (msg_sender m) c id
        ltac:(by rewrite Hs)) as Hb.
      assert (Hc : ((userPurchaseCount (m_store w')).[user] =
        (userPurchaseCount (m_store w)).[user] + if decide (msg_sender m = user) then 1 else 0)%Z).
      { rewrite Hs. cbn. rewrite mget_insert. case_decide; [by subst|lia]. }
      rewrite Hc. case_decide; lia.
  - destruct He as (_ & _ & _ & Hs & _). by eapply purchases_same; [..|done]; rewrite Hs.
  - destruct He as (_ & _ & _ & _ & Hs & _).
    eapply purchases_same; [..|done]; rewrite Hs;
      unfold left_by, bid_placed, refunded; cbn; by case_decide.
  - destruct He as (_ & _ & _ & _ & Hs & _). by eapply purchases_same; [..|done]; rewrite Hs.
  - destruct He as (_ & _ & (k & _ & Hs) & _). by eapply purchases_same; [..|done]; rewrite Hs.
  - destruct He as ((o' & Hs) & _). by eapply purchases_same; [..|done]; rewrite Hs.
  - destruct He as ((o' & Hs) & _). by eapply purchases_same; [..|done]; rewrite Hs.
Qed.

Lemma kind_purchases w w' :
  step_kind w w' → escrow_ok w → purchases_ok (m_store w) → purchases_ok (m_store w').
Proof.
  intros [m f _ He|Hst _ _ _|c n _ Hst _] Hesc Hp.
  - by eapply effect_purchases.
  - by rewrite Hst.
  - by eapply purchases_same; [..|done]; rewrite Hst.
Qed.
End steps.
