(* ===== verification/Safety.v ===== *)
(** * What holds in every reachable state

    The invariants of the other files put together, from the deployment on,
    and the properties of the marketplace that follow. *)

From stdpp Require Import base list gmap strings numbers relations.
From Stdlib Require Import ZArith Lia.
From S2P Require Import Prelude Evm Erc721 NFTCollection MarketStorage Marketplace Chain Trace ChainFacts.
From S2P Require Import EnvLaws MarketFacts Steps Invariants Money Purchases.

Section safety.
Variable this : address.
Variable create_address : N → address.
Variable accepts_ether : address → bool.

#[local] Instance chain_ops : ChainEnv Env := Env_ops this create_address accepts_ether.

Abbreviation astep := (astep this create_address accepts_ether).
Abbreviation evolves := (evolves this create_address accepts_ether).
Abbreviation genesis := (genesis this).
Abbreviation reachable := (reachable this create_address accepts_ether).
Abbreviation owner_of := (owner_of this create_address accepts_ether).
Abbreviation held := (held this).
Implicit Types (w : World).

Record inv (w : World) : Prop := {
  inv_b : inv_base this w;
  inv_r : registry_ok this w;
  inv_e : escrow_ok this create_address accepts_ether w;
  inv_m : backed this w;
  inv_p : purchases_ok (m_store w)
}.

Lemma astep_inv w w' : inv w → astep w w' → inv w'.
Proof.
  intros [Hb Hr He Hm Hp] Hs.
  destruct (astep_kind _ _ _ _ _ Hb Hs) as [Hk Hb']. split.
  - done.
  - exact (kind_registry _ _ _ _ _ Hb Hk Hr).
  - exact (kind_escrow _ _ _ _ _ Hk He).
  - exact (kind_backed _ _ _ _ _ Hb Hk Hm).
  - by eapply kind_purchases.
Qed.

Lemma evolves_inv w w' : evolves w w' → inv w → inv w'.
Proof. intros He. by eapply evolves_invariant; [apply astep_inv|]. Qed.

(** ** The deployment *)
Definition initial_categories : list string :=
  ["Art"; "Gaming"; "Memberships"; "Music"; "PFPs"; "Photography"].

(** The state the constructor leaves: six categories, nothing else. *)
Definition deployed_store (deployer : address) : MarketStorage :=
  foldl (λ st c, category_added c st) (market_storage_init deployer) initial_categories.

Lemma addCategory_run m c (w : World) :
  market_owner (m_store w) = msg_sender m → (categoryExists (m_store w)).[c] = false →
  addCategory m c w = Ok (tt, {| m_store := category_added c (m_store w); m_env := m_env w;
                                 m_logs := m_logs w ++ [CategoryAdded c] |}).
Proof.
  intros Ho Hc. unfold addCategory, onlyOwner, store, update, emit. run_block.
  rewrite bool_decide_true by done. cbn. by rewrite Hc.
Qed.

Lemma deploy_run m e :
  deploy m e =
    Ok (tt, {| m_store := deployed_store (msg_sender m); m_env := e;
               m_logs := CategoryAdded <$> initial_categories |}).
Proof.
  unfold deploy, constructor, mbind, M_bind.
  do 6 (rewrite addCategory_run; [cbn [m_store m_env m_logs]|done|by vm_compute]).
  reflexivity.
Qed.

Hypothesis this_nonzero : this ≠ 0%N.

Lemma genesis_registry d w :
  m_store w = deployed_store d → registry_ok this w.
Proof.
  intros Hst.
  assert (Hin : ∀ a, a ∉ collectionAddresses (m_store w)).
  { intros a. rewrite Hst. apply not_elem_of_nil. }
  split; try (intros a Ha; by destruct (Hin a)).
  - rewrite Hst. constructor.
  - intros a. split; [|intros Ha; by destruct (Hin a)]. rewrite Hst.
    cbn. by rewrite mget_empty.
  - intros c. rewrite Hst. apply mget_empty.
  - intros u. rewrite Hst. apply mget_empty.
  - rewrite Hst. cbn. apply (bool_decide_unpack _). by vm_compute.
  - intros c. rewrite Hst. cbn. rewrite !mget_insert, mget_empty.
    rewrite !elem_of_cons, elem_of_nil.
    repeat case_decide; subst; tauto || (split; [done|]; intros; destruct_or?; congruence).
Qed.

Lemma genesis_inv w : genesis w → inv w.
Proof.
  intros (m & b & Hd & Hb & _). rewrite deploy_run in Hd. injection Hd as <-. split.
  - split; [split|..]; cbn; try done.
  - by eapply genesis_registry.
  - split; intros c id; cbn; unfold item_at; cbn; rewrite mget_empty; try done.
    intros Hi. by apply not_elem_of_nil in Hi.
  - split; [by intros k i|]. exact Hb.
  - split; cbn; intros user.
    + intros c id. by rewrite mget_empty.
    + rewrite mget_empty. replace (size _) with 0; [done|].
      symmetry. apply size_empty_iff. unfold bought. cbn. set_solver.
Qed.

Lemma reachable_inv w : reachable w → inv w.
Proof. intros (w0 & Hg & He). by eapply evolves_inv, genesis_inv. Qed.

Lemma reachable_evolves w w' : reachable w → evolves w w' → reachable w'.
Proof. intros (w0 & Hg & He) He'. exists w0. split; [done|]. by eapply ev_trans. Qed.

(** ** Escrow, solvency, locked funds *)

(** C1: in every reachable state, a token that is on sale is owned by the
    marketplace, is in the token list of its collection, and that collection
    is registered. *)
Theorem listed_token_escrowed w c id :
  reachable w → i_isOnSale (item_at (m_store w) c id) = true →
  owner_of w c id = this ∧ id ∈ (collectionTokenIds (m_store w)).[c] ∧
  c ∈ collectionAddresses (m_store w).
Proof.
  intros Hr Hs. destruct (reachable_inv _ Hr) as [_ Hreg [E1 E2 E3] _ _].
  split_and!; [by apply E1|by apply E2|].
  apply (reg_active _ _ Hreg), (E3 c id), E2, Hs.
Qed.

(** C2: the ether the marketplace holds always covers the listing fees it
    took, every offer, every refund owed and every standing highest bid. *)
Theorem market_solvent w : reachable w → (liabilities (m_store w) ≤ held w)%Z.
Proof. intros Hr. by destruct (reachable_inv _ Hr) as [_ _ _ [_ ?] _]. Qed.

(** C15: no sequence of calls, callbacks included, ever takes ether out of the
    marketplace: offers, bids, refunds and fees stay locked in it. *)
Theorem funds_never_leave w w' : reachable w → evolves w w' → (held w ≤ held w')%Z.
Proof.
  intros Hr He. apply reachable_inv in Hr.
  assert (H : inv w' ∧ (held w ≤ held w')%Z); [|by destruct H].
  eapply (evolves_invariant _ _ _ (λ v, inv v ∧ (held w ≤ held v)%Z)); [|exact He|done].
  intros v v' [Hv Hle] Hs. split; [by eapply astep_inv|].
  destruct (astep_kind _ _ _ _ _ (inv_b _ Hv) Hs) as [Hk _].
  pose proof (kind_held _ _ _ _ _ (inv_b _ Hv) Hk). lia.
Qed.

(** ** Auctions *)
Definition on_auction (w : World) c id (least : Z) : Prop :=
  let i := item_at (m_store w) c id in
  i_isOnSale i = true ∧ i_isAuction i = true ∧ (least ≤ i_highestBid i)%Z.

Lemma effect_auction m f w w' c id least :
  inv w → valid_msg this w m → effect this create_address accepts_ether m f w w' →
  on_auction w c id least → on_auction w' c id least.
Proof.
  intros Hi (_ & Hcode & _) He (Hs & Ha & Hb).
  assert (Hst : msg_sender m ≠ this) by by eapply not_code_not_this.
  unfold on_auction. destruct f; cbn [effect] in He; split_hyps;
    match goal with H : m_store w' = _ |- _ => rewrite H end; try done.
  - rewrite listed_item. case_decide as Hd; [|done]. destruct Hd as [-> ->].
    destruct (inv_e _ Hi) as [E1 _ _]. specialize (E1 _ _ Hs).
    match goal with H : token_moved _ _ _ _ _ _ _ _ _ |- _ => destruct H as [Hfrom _] end.
    change (owner_of w c id = msg_sender m) in Hfrom. congruence.
  - rewrite sold_item. case_decide as Hd; [|done]. destruct Hd as [-> ->]. congruence.
  - rewrite auctioned_item. case_decide as Hd; [|done]. destruct Hd as [-> ->]. congruence.
  - rewrite bid_item. case_decide as Hd; [|done]. destruct Hd as [-> ->]. cbn.
    split_and!; [done..|lia].
Qed.

(** C16: an auction of a listed token never ends: whatever is called, the item
    stays on sale and on auction, the marketplace keeps the token, and the
    highest bid never goes down. *)
Theorem auction_never_ends w w' c id :
  reachable w → evolves w w' →
  let i := item_at (m_store w) c id in
  i_isOnSale i = true → i_isAuction i = true →
  let i' := item_at (m_store w') c id in
  i_isOnSale i' = true ∧ i_isAuction i' = true ∧
  (i_highestBid i ≤ i_highestBid i')%Z ∧ owner_of w' c id = this.
Proof.
  intros Hr He i Hs Ha i'. apply reachable_inv in Hr.
  assert (H : inv w' ∧ on_auction w' c id (i_highestBid i)).
  { eapply (evolves_invariant _ _ _ (λ v, inv v ∧ on_auction v c id (i_highestBid i)));
      [|exact He|split; [done|split_and!; done]].
    intros v v' [Hv Hau] Hst. split; [by eapply astep_inv|].
    destruct (astep_kind _ _ _ _ _ (inv_b _ Hv) Hst) as [[m f Hm Hf|E _ _ _|c' n _ E _] _].
    - by eapply effect_auction.
    - unfold on_auction. by rewrite E.
    - unfold on_auction. by rewrite E. }
  destruct H as [Hv (H1 & H2 & H3)]. split_and!; try done.
  by apply (inv_e _ Hv).
Qed.
(** ** The registry and the views that read it *)

(** C5: in every reachable state the three indexes of the registry list the
    same collections, once each and in creation order: by category and by
    creator they are the filters of the list of all collections; a collection
    is active exactly when it is listed, is deployed, knows its own address and
    has a category of the category list. *)
Theorem registry_consistent w : reachable w → registry_ok this w.
Proof. intros Hr. by destruct (reachable_inv _ Hr). Qed.

Definition details_of (st : MarketStorage) (a : address) : CollectionDetails :=
  {| d_basic := (collections st).[a]; d_floorPrice := _getFloorPrice st a;
     d_totalVolume := 0; d_ownerCount := 0 |}.

Lemma fetch_details_all st l :
  (∀ a, a ∈ l → c_isActive (collections st).[a] = true) →
  result_mapM (fetchCollectionDetails st) l = Ok (details_of st <$> l).
Proof.
  intros Hl. apply result_mapM_total. intros a Ha.
  unfold fetchCollectionDetails. by rewrite Hl.
Qed.

(** C7: in every reachable state the list pages never revert: all collections
    come in creation order, a user's collections are those whose owner field is
    the user, and a known category's are those of that category. *)
Theorem listings_complete w user category :
  reachable w →
  let st := m_store w in
  fetchCollections st = Ok (details_of st <$> collectionAddresses st) ∧
  fetchUserCreatedCollections st user =
    Ok (details_of st <$> filter (λ a, c_owner (collections st).[a] = user)
                            (collectionAddresses st)) ∧
  fetchCollectionsByCategory st category =
    if decide (category ∈ getCategories st) then
      Ok ((λ a, (collections st).[a]) <$>
            filter (λ a, c_category (collections st).[a] = category) (collectionAddresses st))
    else Err (Revert "Category does not exist").
Proof.
  intros Hr st. apply reachable_inv, inv_r in Hr. split_and!.
  - apply fetch_details_all. intros a. apply (reg_active _ _ Hr).
  - unfold fetchUserCreatedCollections. rewrite (reg_user _ _ Hr).
    apply fetch_details_all. intros a [_ Ha]%list_elem_of_filter.
    by apply (reg_active _ _ Hr).
  - unfold fetchCollectionsByCategory, getCategories. rewrite (reg_category _ _ Hr).
    pose proof (reg_categories _ _ Hr category) as Hc. fold st in Hc.
    case_decide as Hd; [by rewrite (proj2 Hc Hd)|].
    destruct ((categoryExists st).[category]); [tauto|done].
Qed.

(** C8: in a reachable state where no token was listed twice, the page of
    purchased items never reverts: it returns the user's purchases in listing
    order, followed by blank items up to the user's purchase counter. *)
Theorem purchased_items_returned w user :
  reachable w → (∀ c, NoDup (collectionTokenIds (m_store w)).[c]) →
  let st := m_store w in
  let bought := purchase_list st user in
  fetchUserPurchasedItems st user =
    Ok ((item_of st <$> bought)
        ++ replicate (Z.to_nat (userPurchaseCount st).[user] - length bought) sol_zero) ∧
  length bought ≤ Z.to_nat (userPurchaseCount st).[user].
Proof.
  intros Hr Hids st bought. destruct (reachable_inv _ Hr) as [_ Hreg _ _ Hp].
  assert (Hle : length bought ≤ Z.to_nat (userPurchaseCount st).[user]).
  { apply purchase_list_length; [done|].
    apply NoDup_purchase_list; [apply (reg_nodup _ _ Hreg)|done]. }
  split; [|done]. rewrite fetchUserPurchasedItems_run. by rewrite decide_True.
Qed.
(** Once a user bought an item and the item is listed a second time, the
    page of purchased items reverts (array index out of bounds) for every user
    whose purchase counter is the number of different items bought. *)
Theorem relisting_breaks_purchases st user c id ids1 ids2 ids3 :
  (collectionTokenIds st).[c] = ids1 ++ id :: ids2 ++ id :: ids3 →
  (userPurchases st).[(user, c, id)] = true → c ∈ collectionAddresses st →
  Z.to_nat (userPurchaseCount st).[user] = length (remove_dups (purchase_list st user)) →
  fetchUserPurchasedItems st user = Err PanicBounds.
Proof.
  intros Hids Hb Hc Hn. rewrite fetchUserPurchasedItems_run.
  apply decide_False. rewrite Hn.
  assert (Hnd : ¬ NoDup (purchase_list st user)).
  { apply (purchase_list_repeats _ _ c id); [done..|]. rewrite Hids. by eexists _, _, _. }
  intros Hle. apply Hnd. by apply remove_dups_short.
Qed.
End safety.

(** ** The properties at work on the concrete deployment *)
Section witnesses.
Import demo.

Lemma listed_token_escrowed_witness :
  owner_of this create_address accepts_ether w_listed apes 1 = this ∧
  1%Z ∈ (collectionTokenIds (m_store w_listed)).[apes] ∧
  apes ∈ collectionAddresses (m_store w_listed).
Proof.
  apply (listed_token_escrowed this create_address accepts_ether);
    [done|apply w_listed_reachable|by vm_compute].
Defined.

Lemma market_solvent_witness : (liabilities (m_store w_auction) ≤ held this w_auction)%Z.
Proof.
  apply (market_solvent this create_address accepts_ether); [done|apply w_auction_reachable].
Defined.

Lemma funds_never_leave_witness : (held this w_listed ≤ held this w_auction)%Z.
Proof.
  apply (funds_never_leave this create_address accepts_ether);
    [done|apply w_listed_reachable|apply w_listed_auction].
Defined.

Lemma auction_never_ends_witness :
  let i' := item_at (m_store w_bids) apes 1 in
  i_isOnSale i' = true ∧ i_isAuction i' = true ∧
  (i_highestBid (item_at (m_store w_auction) apes 1) ≤ i_highestBid i')%Z ∧
  owner_of this create_address accepts_ether w_bids apes 1 = this.
Proof.
  apply (auction_never_ends this create_address accepts_ether);
    [done|apply w_auction_reachable|apply w_auction_bids|by vm_compute..].
Defined.

Lemma registry_consistent_witness : registry_ok this w_sold.
Proof.
  apply (registry_consistent this create_address accepts_ether); [done|apply w_sold_reachable].
Defined.

Lemma listings_complete_witness :
  fetchCollections (m_store w_sold) =
    Ok (details_of (m_store w_sold) <$> collectionAddresses (m_store w_sold)).
Proof.
  by destruct (listings_complete this create_address accepts_ether ltac:(done) w_sold alice "Art"
    w_sold_reachable).
Defined.

Lemma purchased_items_returned_witness :
  length <$> fetchUserPurchasedItems (m_store w_sold) bob = Ok 1.
Proof.
  destruct (purchased_items_returned this create_address accepts_ether ltac:(done) w_sold bob
    w_sold_reachable) as [H _]; [|rewrite H; by vm_compute].
  intros c. apply token_lists_nodup. by vm_compute.
Defined.

Lemma relisting_breaks_purchases_witness :
  fetchUserPurchasedItems (m_store w_relisted) bob = Err PanicBounds.
Proof.
  apply (relisting_breaks_purchases (m_store w_relisted) bob apes 1 [] [] []);
    [by vm_compute..| |by vm_compute].
  apply (bool_decide_unpack _). by vm_compute.
Defined.
End witnesses.
