(* ===== verification/Sales.v ===== *)
(** * Listing, selling, bidding: what the calls do

    Success of a sale and of a listing, with all their effects, and the exact
    outcome of the auction functions on every branch, errors included. *)

From stdpp Require Import base list gmap strings numbers relations.
From Stdlib Require Import ZArith Lia.
From S2P Require Import Prelude Evm Erc721 NFTCollection MarketStorage Marketplace Chain Trace ChainFacts.
From S2P Require Import EnvLaws MarketFacts Steps Invariants Money Purchases Safety.

(** ** Runs of the two trading calls, whatever the chain is *)
Section runs.
Context {E : Type} `{!ChainEnv E}.
Variable this : address.
Implicit Types (w : MState E).

Lemma nonReentrant_run {A} (body : MM A) w a w1 :
  _status_entered (m_store w) = false →
  body (with_store (upd__status_entered (λ _, true)) w) = Ok (a, w1) →
  nonReentrant body w = Ok (a, with_store (upd__status_entered (λ _, false)) w1).
Proof.
  intros Hg Hb. apply nonReentrant_Ok. split; [done|]. by exists w1.
Qed.

Lemma createMarketSale_run m c id w e1 e2 :
  let i := item_at (m_store w) c id in
  _status_entered (m_store w) = false →
  i_isOnSale i = true → i_isAuction i = false → msg_value m = i_price i →
  ((userPurchaseCount (m_store w)).[msg_sender m] + 1 ≤ uint256_max)%Z →
  pay this (i_seller i) (msg_value m) (m_env w) = Ok (tt, e1) →
  nft_transferFrom this c this (msg_sender m) id e1 = Ok (tt, e2) →
  createMarketSale this m c id w =
    Ok (tt, {| m_store := left_by w (sold m c id); m_env := e2;
               m_logs := m_logs w ++ [MarketItemSold c id (i_seller i) (msg_sender m)
                                        (msg_value m)] |}).
Proof.
  intros i Hg Hs Ha Hv Hn Hp Ht. unfold createMarketSale.
  erewrite nonReentrant_run; [|done|].
  2:{ unfold store, update, with_item, external, emit. run_block.
      change (item_at (upd__status_entered (λ _, true) (m_store w)) c id) with i.
      rewrite Hs, Ha, Hv, Z.eqb_refl. cbn -[pay nft_transferFrom]. rewrite <- Hv.
      rewrite Hp. cbn -[pay nft_transferFrom]. rewrite Ht. cbn -[pay nft_transferFrom].
      unfold checked_add. rewrite (proj2 (Z.leb_le _ _) Hn). cbn. reflexivity. }
  reflexivity.
Qed.
Lemma createMarketItem_run m c id price uri w e :
  _status_entered (m_store w) = false →
  c_isActive (collections (m_store w)).[c] = true → (0 < price)%Z →
  msg_value m = listingFee (m_store w) →
  nft_tokenURI (m_env w) c id = Ok uri →
  nft_transferFrom this c (msg_sender m) this id (m_env w) = Ok (tt, e) →
  createMarketItem this m c id price w =
    Ok (tt, {| m_store := left_by w (listed m c id price uri); m_env := e;
               m_logs := m_logs w ++ [MarketItemCreated c id (msg_sender m) 0%N price] |}).
Proof.
  intros Hg Ha Hp Hv Hu Ht. unfold createMarketItem.
  erewrite nonReentrant_run; [|done|].
  2:{ unfold store, update, external, external_view, emit. run_block.
      rewrite Ha, (proj2 (Z.ltb_lt _ _) Hp), Hv. cbn. rewrite Z.eqb_refl. cbn.
      rewrite Hu. cbn. rewrite Ht. reflexivity. }
  reflexivity.
Qed.

Ltac branch :=
  unfold store, update, with_item, emit, checked_add; run_block;
  drop_guard.

(** The exact outcome of a bid.  It is refused, in this order, while the
    contract is entered, when the item is not on auction, when the auction's
    time is over, when it is not above the highest bid (the starting price is
    not looked at), and when the refund counter of the outbid account would
    overflow; otherwise the outbid account is credited its bid in
    [pendingReturns], and the sender is the new highest bidder. *)
Lemma placeBid_run m c id w :
  let i := item_at (m_store w) c id in
  let owed := (pendingReturns (m_store w)).[(c, id, i_highestBidder i)] in
  placeBid m c id w =
    if _status_entered (m_store w) then Err ReentrancyGuardReentrantCall
    else if negb (i_isAuction i) then Err (Revert "Not an auction")
    else if (i_auctionEndTime i <=? block_timestamp m)%Z then Err (Revert "Auction ended")
    else if (msg_value m <=? i_highestBid i)%Z then Err (Revert "Bid too low")
    else if bool_decide (i_highestBidder i ≠ 0%N) && (uint256_max <? owed + i_highestBid i)%Z
    then Err PanicOverflow
    else Ok (tt, with_store (λ _, left_by w (bid_placed m c id)) w).
Proof.
  intros i owed. unfold placeBid, nonReentrant. branch.
  destruct (_status_entered (m_store w)); [done|]. cbn. drop_guard. fold i.
  destruct (i_isAuction i); [|done]. cbn.
  rewrite Z.leb_antisym. destruct (block_timestamp m <? i_auctionEndTime i)%Z; [|done]. cbn.
  rewrite Z.leb_antisym. destruct (i_highestBid i <? msg_value m)%Z; [|done]. cbn.
  unfold with_store, left_by, bid_placed, refunded. cbn. drop_guard. fold i.
  destruct (decide (i_highestBidder i ≠ 0%N)) as [Hb|Hb].
  - rewrite (bool_decide_true _ Hb), Z.ltb_antisym. cbn. fold owed.
    by destruct (owed + i_highestBid i <=? uint256_max)%Z.
  - by rewrite (bool_decide_false _ Hb).
Qed.

Lemma createAuction_run m c id startingPrice duration w :
  let i := item_at (m_store w) c id in
  createAuction m c id startingPrice duration w =
    if _status_entered (m_store w) then Err ReentrancyGuardReentrantCall
    else if bool_decide (i_seller i ≠ msg_sender m)
    then Err (Revert "Only seller can start auction")
    else if i_isAuction i then Err (Revert "Already on auction")
    else if (uint256_max <? block_timestamp m + duration)%Z then Err PanicOverflow
    else Ok (tt, with_store (λ _, left_by w (auctioned m c id startingPrice duration)) w).
Proof.
  intros i. unfold createAuction, nonReentrant. branch.
  destruct (_status_entered (m_store w)); [done|]. cbn. drop_guard. fold i.
  rewrite bool_decide_not. destruct (bool_decide (i_seller i = msg_sender m)); [|done]. cbn.
  destruct (i_isAuction i); [done|]. cbn. rewrite Z.ltb_antisym.
  by destruct (block_timestamp m + duration <=? uint256_max)%Z.
Qed.

(** The exact outcome of starting an auction: refused while the contract
    is entered, for anyone but the recorded seller, when already on auction, or
    when the end time overflows; otherwise the item is on auction at the given
    price until [block.timestamp + duration].  Whether the item is on sale is
    not looked at. *)
Theorem createAuction_outcome m c id startingPrice duration w :
  let i := item_at (m_store w) c id in
  createAuction m c id startingPrice duration w =
    if _status_entered (m_store w) then Err ReentrancyGuardReentrantCall
    else if bool_decide (i_seller i ≠ msg_sender m)
    then Err (Revert "Only seller can start auction")
    else if i_isAuction i then Err (Revert "Already on auction")
    else if (uint256_max <? block_timestamp m + duration)%Z then Err PanicOverflow
    else Ok (tt, with_store (λ _, left_by w (auctioned m c id startingPrice duration)) w).
Proof. apply createAuction_run. Qed.

Lemma makeOffer_run m c id w :
  let i := item_at (m_store w) c id in
  makeOffer m c id w =
    if _status_entered (m_store w) then Err ReentrancyGuardReentrantCall
    else if negb (i_isOnSale i) then Err (Revert "Item not on sale")
    else if i_isAuction i then Err (Revert "Item is on auction")
    else if (msg_value m <=? 0)%Z then Err (Revert "Offer must be greater than zero")
    else Ok (tt, {| m_store := left_by w (offered m c id); m_env := m_env w;
                    m_logs := m_logs w ++ [OfferCreated c (msg_sender m) (msg_value m)] |}).
Proof.
  intros i. unfold makeOffer, nonReentrant. branch.
  destruct (_status_entered (m_store w)); [done|]. cbn. drop_guard. fold i.
  destruct (i_isOnSale i); [|done]. cbn. destruct (i_isAuction i); [done|]. cbn.
  rewrite Z.leb_antisym. by destruct (0 <? msg_value m)%Z.
Qed.

(** The exact outcome of an offer: refused while the contract is entered,
    when the item is not on sale, is on auction, or no ether is sent; otherwise
    the offer is appended to the item's offers with its value and time. *)
Theorem makeOffer_outcome m c id w :
  let i := item_at (m_store w) c id in
  makeOffer m c id w =
    if _status_entered (m_store w) then Err ReentrancyGuardReentrantCall
    else if negb (i_isOnSale i) then Err (Revert "Item not on sale")
    else if i_isAuction i then Err (Revert "Item is on auction")
    else if (msg_value m <=? 0)%Z then Err (Revert "Offer must be greater than zero")
    else Ok (tt, {| m_store := left_by w (offered m c id); m_env := m_env w;
                    m_logs := m_logs w ++ [OfferCreated c (msg_sender m) (msg_value m)] |}).
Proof. apply makeOffer_run. Qed.
End runs.

Section sales.
Variable this : address.
Variable create_address : N → address.
Variable accepts_ether : address → bool.

#[local] Instance chain_ops : ChainEnv Env := Env_ops this create_address accepts_ether.

Abbreviation exec := (exec this create_address accepts_ether).
Abbreviation reachable := (reachable this create_address accepts_ether).
Abbreviation owner_of := (owner_of this create_address accepts_ether).
Abbreviation held := (held this).
Implicit Types (w : World).

Lemma move_ether_run from to amount e :
  (amount ≤ (e_ether e).[from])%Z →
  ∃ e', move_ether from to amount e = Ok (tt, e').
Proof.
  intros H. unfold move_ether. run_block.
  apply Z.leb_le in H as ->. cbn. by eexists.
Qed.

Lemma send_ether_run from to amount e :
  accepts_ether to = true → code_at this e to = false → (amount ≤ (e_ether e).[from])%Z →
  ∃ e', send_ether this accepts_ether from to amount e = Ok (tt, e').
Proof.
  intros Ha Hc Hb. unfold send_ether. run_block. rewrite Ha, Hc. cbn.
  by apply move_ether_run.
Qed.

(** The value of a payable call arrives. *)
Lemma market_exec_paid m f w e :
  payable f = true →
  move_ether (msg_sender m) this (msg_value m) (m_env w) = Ok (tt, e) →
  market_exec this create_address accepts_ether m f w =
    market_body this create_address accepts_ether m f (set_env e w).
Proof. intros Hp Hm. unfold market_exec. rewrite Hp. run_block. unfold external. by rewrite Hm. Qed.

Lemma reachable_held w : this ≠ 0%N → reachable w → (0 ≤ held w)%Z.
Proof.
  intros H0 (w0 & Hg & He). pose proof (genesis_inv _ create_address accepts_ether H0 _ Hg) as Hi.
  assert (H : inv this create_address accepts_ether w ∧ (0 ≤ held w)%Z); [|by destruct H].
  eapply (evolves_invariant _ _ _ (λ v, inv this create_address accepts_ether v ∧ (0 ≤ held v)%Z));
    [|exact He|split; [done|]].
  - intros v v' [Hv Hle] Hs. split; [by eapply astep_inv|].
    destruct (astep_kind _ _ _ _ _ (inv_b _ _ _ _ Hv) Hs) as [Hk _].
    pose proof (kind_held _ _ _ _ _ (inv_b _ _ _ _ Hv) Hk). lia.
  - destruct Hg as (m & b & Hd & Hb & _). rewrite deploy_run in Hd. by injection Hd as <-.
Qed.

(** The moves of ether and of the token in a sale that goes through. *)
Lemma sale_run w m c id hook :
  let i := item_at (m_store w) c id in
  this ≠ 0%N → reachable w → valid_msg this w m →
  i_isOnSale i = true → i_isAuction i = false → msg_value m = i_price i →
  (msg_value m ≤ (e_ether (m_env w)).[msg_sender m])%Z →
  ((userPurchaseCount (m_store w)).[msg_sender m] < uint256_max)%Z →
  accepts_ether (i_seller i) = true → code_at this (m_env w) (i_seller i) = false →
  ∃ e1 e2 e3,
    move_ether (msg_sender m) this (msg_value m) (m_env w) = Ok (tt, e1) ∧
    send_ether this accepts_ether this (i_seller i) (msg_value m) e1 = Ok (tt, e2) ∧
    nft_transferFrom this c this (msg_sender m) id e2 = Ok (tt, e3) ∧
    exec hook m (ToMarket (CreateMarketSale c id)) w =
      Ok (tt, {| m_store := left_by w (sold m c id); m_env := e3;
                 m_logs := m_logs w ++ [MarketItemSold c id (i_seller i) (msg_sender m)
                                          (msg_value m)] |}).
Proof.
  intros i H0 Hr (Hs0 & Hsc & [Hv0 _] & _) Hs Ha Hv Hbal Hcount Hacc Hcode.
  pose proof (reachable_held _ H0 Hr) as Hheld.
  destruct (reachable_inv _ _ _ H0 _ Hr) as [[Hok Hg _] _ [Hesc _ _] _ _].
  assert (Hst : msg_sender m ≠ this) by by eapply not_code_not_this.
  destruct (move_ether_run (msg_sender m) this (msg_value m) (m_env w) Hbal) as [e1 He1].
  pose proof (move_ether_Ok _ _ _ _ _ _ He1) as (_ & En1 & _ & Eb1).
  assert (Hok1 : ok_env this e1) by by eapply ok_env_same_nfts.
  destruct (send_ether_run this (i_seller i) (msg_value m) e1) as [e2 He2]; [done| |..].
  { unfold code_at in *. by rewrite En1. }
  { rewrite Eb1, decide_True, decide_False by done. unfold Steps.held in Hheld. lia. }
  destruct (env_pay _ create_address _ _ _ _ _ _ _ Hok1 He2) as (Hok2 & _ & _ & Hown2 & _).
  destruct (same_nfts this create_address accepts_ether _ _ En1) as (Hown1 & _).
  destruct (env_transferFrom_by_owner this create_address accepts_ether e2 c this (msg_sender m) id)
    as [e3 He3]; [done..| |].
  { rewrite Hown2, Hown1. by apply Hesc. }
  exists e1, e2, e3. split_and!; [done..|]. cbn [Chain.exec].
  rewrite (market_exec_paid _ _ _ e1) by done. cbn [market_body].
  eapply (createMarketSale_run this m c id (set_env e1 w));
    [done..|cbn [m_store set_env]; lia|exact He2|exact He3].
Qed.

(** C9: a sale goes through whenever the item is on sale and not on auction,
    the buyer sends the asking price and can pay it, and the seller is an
    account that accepts ether.  The buyer then owns the token, the seller has
    the whole price, the buyer paid exactly the price, nobody else's ether and
    no other token moved, the item is off sale and the purchase is recorded. *)
Theorem sale_settles w m c id hook :
  let i := item_at (m_store w) c id in
  this ≠ 0%N → reachable w → valid_msg this w m →
  i_isOnSale i = true → i_isAuction i = false → msg_value m = i_price i →
  (msg_value m ≤ (e_ether (m_env w)).[msg_sender m])%Z →
  ((userPurchaseCount (m_store w)).[msg_sender m] < uint256_max)%Z →
  accepts_ether (i_seller i) = true → code_at this (m_env w) (i_seller i) = false →
  ∃ w', exec hook m (ToMarket (CreateMarketSale c id)) w = Ok (tt, w') ∧
    (∀ c' id', owner_of w' c' id' =
       if decide (c = c' ∧ id = id') then msg_sender m else owner_of w c' id') ∧
    (∀ a, (e_ether (m_env w')).[a] =
       (e_ether (m_env w)).[a] + (if decide (a = i_seller i) then i_price i else 0)
                               - (if decide (a = msg_sender m) then i_price i else 0))%Z ∧
    m_store w' = left_by w (sold m c id) ∧
    m_logs w' = m_logs w ++ [MarketItemSold c id (i_seller i) (msg_sender m) (i_price i)].
Proof.
  intros i H0 Hr Hvm Hs Ha Hv Hbal Hcount Hacc Hcode.
  pose proof (base_env _ _ (inv_b _ _ _ _ (reachable_inv _ _ _ H0 _ Hr))) as Hok.
  destruct (sale_run w m c id hook H0 Hr Hvm Hs Ha Hv Hbal Hcount Hacc Hcode)
    as (e1 & e2 & e3 & He1 & He2 & He3 & Hrun).
  pose proof (move_ether_Ok _ _ _ _ _ _ He1) as (_ & En1 & _ & Eb1).
  assert (Hok1 : ok_env this e1) by by eapply ok_env_same_nfts.
  destruct (env_pay _ create_address _ _ _ _ _ _ _ Hok1 He2) as (Hok2 & _ & Eb2 & Hown2 & _).
  destruct (same_nfts this create_address accepts_ether _ _ En1) as (Hown1 & _).
  destruct (env_transferFrom this create_address accepts_ether _ _ _ _ _ _ _ _ Hok2 H0 H0 He3)
    as (_ & _ & _ & Hown3 & Eb3 & _).
  eexists. split; [exact Hrun|split_and!].
  - intros c' id'. etransitivity; [apply Hown3|]. case_decide; [done|].
    etransitivity; [apply Hown2|]. apply Hown1.
  - intros a. transitivity (ether e3 a); [done|]. rewrite Eb3, Eb2, <- Hv.
    change (ether e1 a) with ((e_ether e1).[a]). rewrite Eb1.
    fold i. repeat case_decide; subst; lia.
  - done.
  - cbn. by rewrite <- Hv.
Qed.

(** The moves of ether and of the token in a listing that goes through. *)
Lemma listing_run w m c id price n hook :
  this ≠ 0%N → reachable w → valid_msg this w m →
  c_isActive (collections (m_store w)).[c] = true → (0 < price)%Z →
  msg_value m = (5 * 10 ^ 14)%Z →
  (msg_value m ≤ (e_ether (m_env w)).[msg_sender m])%Z →
  e_nfts (m_env w) !! c = Some n → _ownerOf (erc721 n) id = msg_sender m →
  _isAuthorized (erc721 n) (msg_sender m) this id = true →
  ∃ e1 e2,
    move_ether (msg_sender m) this (msg_value m) (m_env w) = Ok (tt, e1) ∧
    nft_transferFrom this c (msg_sender m) this id e1 = Ok (tt, e2) ∧
    exec hook m (ToMarket (CreateMarketItem c id price)) w =
      Ok (tt, {| m_store := left_by w (listed m c id price (_tokenURIs (erc721 n)).[id]);
                 m_env := e2;
                 m_logs := m_logs w ++ [MarketItemCreated c id (msg_sender m) 0%N price] |}).
Proof.
  intros H0 Hr (Hs0 & Hsc & _) Ha Hp Hv Hbal Hn Hown Hauth.
  destruct (reachable_inv _ _ _ H0 _ Hr) as [[Hok Hg Hfee] _ _ _ _].
  assert (Hst : msg_sender m ≠ this) by by eapply not_code_not_this.
  destruct (move_ether_run (msg_sender m) this (msg_value m) (m_env w) Hbal) as [e1 He1].
  pose proof (move_ether_Ok _ _ _ _ _ _ He1) as (_ & En1 & _).
  assert (He2 : nft_transferFrom this c (msg_sender m) this id e1 =
    Ok (tt, set_nft c (set_erc721 (moved this id (erc721 n)) n) e1)).
  { apply on_nft_Ok. exists n. eexists. rewrite En1. split; [done|]. split; [|done].
    apply on_erc721_Ok. eexists. split; [|done].
    rewrite transferFrom_run by done. rewrite (decide_False (P := this = 0%N)) by done.
    by rewrite Hown, Hauth, decide_True. }
  exists e1. eexists. split; [exact He1|]. split; [exact He2|]. cbn [Chain.exec].
  rewrite (market_exec_paid _ _ _ e1) by done. cbn [market_body].
  eapply (createMarketItem_run this m c id price _ (set_env e1 w));
    [done..|by rewrite Hv, <- Hfee| |exact He2].
  cbn. unfold view_nft. rewrite En1, Hn. unfold tokenURI, _requireOwned.
  rewrite Hown, decide_False by done. reflexivity.
Qed.

(** The owner of a token of a registered collection can list it for any
    positive price once the marketplace is approved, by sending the listing fee
    of 0.0005 ether.  The token then belongs to the marketplace, which holds
    the fee, and the item records seller, price and token URI. *)
Theorem listing_succeeds w m c id price n hook :
  this ≠ 0%N → reachable w → valid_msg this w m →
  c_isActive (collections (m_store w)).[c] = true → (0 < price)%Z →
  msg_value m = (5 * 10 ^ 14)%Z →
  (msg_value m ≤ (e_ether (m_env w)).[msg_sender m])%Z →
  e_nfts (m_env w) !! c = Some n → _ownerOf (erc721 n) id = msg_sender m →
  _isAuthorized (erc721 n) (msg_sender m) this id = true →
  ∃ w', exec hook m (ToMarket (CreateMarketItem c id price)) w = Ok (tt, w') ∧
    (∀ c' id', owner_of w' c' id' =
       if decide (c = c' ∧ id = id') then this else owner_of w c' id') ∧
    (held w' = held w + 5 * 10 ^ 14)%Z ∧
    m_store w' = left_by w (listed m c id price (_tokenURIs (erc721 n)).[id]).
Proof.
  intros H0 Hr Hvm Ha Hp Hv Hbal Hn Hown Hauth.
  pose proof (base_env _ _ (inv_b _ _ _ _ (reachable_inv _ _ _ H0 _ Hr))) as Hok.
  destruct (listing_run w m c id price n hook H0 Hr Hvm Ha Hp Hv Hbal Hn Hown Hauth)
    as (e1 & e2 & He1 & He2 & Hrun). pose proof Hvm as (Hs0 & Hsc & _).
  assert (Hst : msg_sender m ≠ this) by by eapply not_code_not_this.
  pose proof (move_ether_Ok _ _ _ _ _ _ He1) as (_ & En1 & _ & Eb1).
  assert (Hok1 : ok_env this e1) by by eapply ok_env_same_nfts.
  destruct (same_nfts this create_address accepts_ether _ _ En1) as (Hown1 & _).
  destruct (env_transferFrom this create_address accepts_ether _ _ _ _ _ _ _ _ Hok1 H0 Hs0 He2)
    as (_ & _ & _ & Hown3 & Eb3 & _).
  eexists. split; [exact Hrun|split_and!].
  - intros c' id'. etransitivity; [apply Hown3|]. case_decide; [done|]. apply Hown1.
  - etransitivity; [apply (Eb3 this)|]. cbn. rewrite Eb1, decide_True, decide_False by done.
    unfold Steps.held. lia.
  - done.
Qed.

(** A sold item can be put on auction by its former seller: after a
    successful sale the seller recorded in the item is unchanged, so the
    seller's [createAuction] succeeds although the buyer owns the token. *)
Theorem sold_item_can_be_auctioned w m c id hook hook' w1 m' startingPrice duration :
  this ≠ 0%N → reachable w → valid_msg this w m →
  exec hook m (ToMarket (CreateMarketSale c id)) w = Ok (tt, w1) →
  valid_msg this w1 m' → msg_sender m' = i_seller (item_at (m_store w) c id) →
  msg_value m' = 0%Z → (block_timestamp m' + duration ≤ uint256_max)%Z →
  ∃ w2, exec hook' m' (ToMarket (CreateAuction c id startingPrice duration)) w1 = Ok (tt, w2) ∧
    i_isAuction (item_at (m_store w2) c id) = true ∧
    i_isOnSale (item_at (m_store w2) c id) = false ∧
    owner_of w2 c id = msg_sender m.
Proof.
  intros H0 Hr Hv He Hv' Hseller Hz Ht.
  destruct (reachable_inv _ _ _ H0 _ Hr) as [[Hok Hg Hfee] _ _ _ _].
  destruct (market_effect this create_address accepts_ether m (CreateMarketSale c id) w tt w1)
    as [_ (_ & _ & Hau & _ & Hst & (_ & Hmv & _) & _)]; [done..|].
  assert (Hit : item_at (m_store w1) c id = item_sold (msg_sender m) (item_at (m_store w) c id)).
  { rewrite Hst, sold_item. by rewrite decide_True. }
  exists (with_store (λ _, left_by w1 (auctioned m' c id startingPrice duration)) w1). split_and!.
  - cbn [Chain.exec]. unfold market_exec. cbn [payable]. rewrite Hz. cbn [market_body].
    unfold mbind, M_bind, ensure. cbn -[createAuction]. rewrite createAuction_run.
    rewrite Hit, Hst. cbn [i_seller i_isAuction item_sold]. rewrite Hau, <- Hseller.
    rewrite bool_decide_false by tauto. cbn.
    by rewrite (proj2 (Z.ltb_ge _ _) Ht).
  - cbn [m_store with_store]. rewrite auctioned_item. by rewrite decide_True.
  - cbn [m_store with_store]. rewrite auctioned_item, decide_True by done. by rewrite Hit.
  - change (owner_of w1 c id = msg_sender m). rewrite Hmv. by rewrite decide_True.
Qed.
End sales.

(** ** The properties at work on the concrete deployment *)
Section witnesses.
Import demo.

Lemma sale_settles_witness : ∃ w',
  Chain.exec this create_address accepts_ether no_callback
    (Msg bob ether_ 2040) (ToMarket (CreateMarketSale apes 1)) w_listed = Ok (tt, w') ∧
  owner_of this create_address accepts_ether w' apes 1 = bob ∧
  (e_ether (m_env w')).[bob] = (99 * ether_)%Z.
Proof.
  destruct (sale_settles this create_address accepts_ether w_listed (Msg bob ether_ 2040) apes 1
    no_callback) as (w' & He & Ho & Hb & _);
    [done|apply w_listed_reachable|apply (bool_decide_unpack _); by vm_compute
    |by vm_compute..|].
  exists w'. split; [exact He|]. split.
  - rewrite Ho. by vm_compute.
  - rewrite Hb. by vm_compute.
Defined.

Definition w_approved : World := play (firstn 3 listing) deployed.

Lemma listing_succeeds_witness : ∃ w',
  Chain.exec this create_address accepts_ether no_callback
    (Msg alice fee 2030) (ToMarket (CreateMarketItem apes 1 ether_)) w_approved = Ok (tt, w') ∧
  owner_of this create_address accepts_ether w' apes 1 = this.
Proof.
  assert (Hr : Chain.reachable this create_address accepts_ether w_approved)
    by (apply play_reachable; vm_compute; eauto).
  destruct (e_nfts (m_env w_approved) !! apes) as [n|] eqn:Hn; [|by vm_compute in Hn].
  assert (Hnn : e_nfts (m_env w_approved) !! apes = Some n) by done.
  vm_compute in Hn. injection Hn as Hn.
  destruct (listing_succeeds this create_address accepts_ether w_approved (Msg alice fee 2030)
    apes 1 ether_ n no_callback) as (w' & He & Ho & _);
    [done|done|apply (bool_decide_unpack _); by vm_compute|by vm_compute|done|done|by vm_compute
    |done|rewrite <- Hn; by vm_compute..|].
  exists w'. split; [exact He|]. rewrite Ho. by vm_compute.
Defined.

Lemma sold_item_can_be_auctioned_witness : ∃ w2,
  Chain.exec this create_address accepts_ether no_callback
    (Msg alice 0 2050) (ToMarket (CreateAuction apes 1 ether_ 1000)) w_sold = Ok (tt, w2) ∧
  i_isAuction (item_at (m_store w2) apes 1) = true ∧
  owner_of this create_address accepts_ether w2 apes 1 = bob.
Proof.
  destruct (sold_item_can_be_auctioned this create_address accepts_ether w_listed
    (Msg bob ether_ 2040) apes 1 no_callback no_callback w_sold (Msg alice 0 2050) ether_ 1000)
    as (w2 & He & Ha & _ & Ho);
    [done|apply w_listed_reachable|apply (bool_decide_unpack _); by vm_compute|by vm_compute
    |apply (bool_decide_unpack _); by vm_compute|by vm_compute..|].
  exists w2. split; [exact He|]. split; [exact Ha|exact Ho].
Defined.
End witnesses.
