(* ===== verification/Supply.v ===== *)
(** * The recorded supply of a collection

    A mint ends with the collection telling the marketplace to read its supply
    again, so outside a mint the supply recorded in the registry is the
    collection's, even when receivers of tokens mint again in their callback. *)

From stdpp Require Import base list gmap strings numbers relations.
From Stdlib Require Import ZArith Lia.
From S2P Require Import Prelude Evm Erc721 NFTCollection MarketStorage Marketplace Chain Trace ChainFacts.
From S2P Require Import EnvLaws MarketFacts Steps Invariants Money Purchases Safety.

Section supply.
Variable this : address.
Variable create_address : N → address.
Variable accepts_ether : address → bool.

#[local] Instance chain_ops : ChainEnv Env := Env_ops this create_address accepts_ether.

Abbreviation exec := (exec this create_address accepts_ether).
Abbreviation evolves := (evolves this create_address accepts_ether).
Abbreviation reachable := (reachable this create_address accepts_ether).
Abbreviation inv := (inv this create_address accepts_ether).
Implicit Types (w : World).

(** The registry's supply of [c] is the collection's own. *)
Definition synced w (c : address) : Prop :=
  c_isActive (collections (m_store w)).[c] = true →
  nft_totalSupply (m_env w) c = Ok (c_totalSupply (collections (m_store w)).[c]).

Lemma synced_same w w' c :
  collections (m_store w') = collections (m_store w) →
  nft_totalSupply (m_env w') c = nft_totalSupply (m_env w) c →
  synced w c → synced w' c.
Proof. unfold synced. by intros -> ->. Qed.

(** Changing one collection does not disturb the others. *)
Lemma synced_other w c n n' b :
  e_nfts (m_env w) !! c = Some n → b ≠ c →
  synced w b → synced (set_env (set_nft c n' (m_env w)) w) b.
Proof.
  intros Hn Hb. apply synced_same; [done|]. cbn. unfold view_nft. cbn.
  by rewrite lookup_insert_ne.
Qed.

Lemma synced_keep_count w c n n' b :
  e_nfts (m_env w) !! c = Some n → _tokenIds n' = _tokenIds n →
  synced w b → synced (set_env (set_nft c n' (m_env w)) w) b.
Proof.
  intros Hn Hc. apply synced_same; [done|].
  by apply (set_nft_totalSupply this create_address accepts_ether c n n' (m_env w) b).
Qed.

Lemma market_synced m f w w' c :
  inv w → valid_msg this w m →
  market_exec this create_address accepts_ether m f w = Ok (tt, w') →
  synced w c → synced w' c.
Proof.
  intros Hi Hv H Hs. destruct Hi as [[Hok _ _] _ _ _ _].
  destruct (market_effect this create_address accepts_ether m f w tt w' Hv Hok H) as [_ He].
  destruct f; cbn [effect] in He; split_hyps;
    repeat match goal with
    | H : same_tokens _ _ _ _ _ |- _ => destruct H as (_ & Hsup & _)
    | H : token_moved _ _ _ _ _ _ _ _ _ |- _ => destruct H as (_ & _ & Hsup & _)
    end;
    try (apply (synced_same w w' c); [|by apply Hsup|exact Hs];
         match goal with H : m_store w' = _ |- _ => rewrite H end;
         first [done | unfold left_by, bid_placed, refunded; cbn; by case_decide]).
  - intros Ha. match goal with H : m_store w' = _ |- _ => rewrite H in Ha |- * end.
    revert Ha. unfold created. cbn -[mget]. rewrite mget_insert. case_decide as Hd.
    + subst c. intros _. done.
    + intros Ha. transitivity (nft_totalSupply (m_env w) c); [|by apply Hs].
      match goal with H : _ |- _ => by apply H end.
  - intros Ha. match goal with H : m_store w' = _ |- _ => rewrite H in Ha |- * end.
    revert Ha. unfold supply_updated. cbn. rewrite mget_insert. case_decide as Hd.
    + subst c. intros _. etransitivity; [by apply Hsup|done].
    + intros Ha. etransitivity; [by apply Hsup|by apply Hs].
Qed.

(** The notification at the end of a mint. *)
Lemma notified_synced c ts w w' b :
  updateCollectionTotalSupply (Msg c 0 ts) c w = Ok (tt, w') →
  (b ≠ c → synced w b) → synced w' b.
Proof.
  intros H Hs. apply updateCollectionTotalSupply_Ok in H as (Ha & _ & k & Hk & Hst & He & _).
  unfold synced. rewrite He, Hst. unfold supply_updated. cbn [collections upd_collections].
  rewrite mget_insert. case_decide as Hd; [by subst b|]. apply Hs. congruence.
Qed.

Lemma on_erc721_count {A} (p : M evm_error Erc721Storage A) n a n' :
  on_erc721 p n = Ok (a, n') → _tokenIds n' = _tokenIds n.
Proof. intros H. by apply on_erc721_Ok in H as (e & _ & ->). Qed.

Lemma self_synced {A} c (p : M evm_error Erc721Storage A) w a w' b :
  external (on_nft c (on_erc721 p)) w = Ok (a, w') → synced w b → synced w' b.
Proof.
  intros H. apply self_Ok in H as (n & n' & Hn & H & ->).
  apply synced_keep_count with (n := n); [done|]. by eapply on_erc721_count.
Qed.

Lemma mint_synced hook m c to uri w id w' b :
  (∀ w1 w2, hook w1 = Ok (tt, w2) → inv w1 → ∀ b, synced w1 b → synced w2 b) →
  mint (λ A p, external (on_nft c p)) (checkOnERC721Received this hook)
    (updateCollectionTotalSupply (Msg c 0 (block_timestamp m)) c) (msg_sender m) to uri w
    = Ok (id, w') →
  this ≠ 0%N → inv w → synced w b → synced w' b.
Proof.
  intros Hhook H H0 Hi Hs. unfold mint, _safeMint in H.
  apply bind_Ok in H as (? & w1 & H1 & H). apply bind_Ok in H as (id' & w2 & H2 & H).
  apply bind_Ok in H as (? & w4 & H3 & H). apply bind_Ok in H3 as (? & w3 & H3 & H4).
  apply bind_Ok in H as (? & w5 & H5 & H). apply bind_Ok in H as ([] & w6 & H6 & H).
  injection H as <- <-. eapply notified_synced; [done|]. intros Hne.
  destruct (mint_begin _ _ _ _ _ _ _ _ _ _ H1 H2 H3) as (n & n1 & n2 & Hn & _ & Hn1 & Hn2 & ->).
  apply check_Ok in H4 as [Hto H4]. repeat match goal with x : unit |- _ => destruct x end.
  eapply self_synced; [exact H5|]. eapply Hhook; [exact H4| |by eapply synced_other].
  eapply astep_inv; [exact Hi|]. eapply as_nft; [done|]. eapply nl_mint; [|done..].
  by eapply not_code_not_this.
Qed.

Lemma nft_synced hook m c f w w' b :
  (∀ w1 w2, hook w1 = Ok (tt, w2) → inv w1 → ∀ b, synced w1 b → synced w2 b) →
  valid_msg this w m → nft_exec this create_address accepts_ether hook m c f w = Ok (tt, w') →
  this ≠ 0%N → inv w → synced w b → synced w' b.
Proof.
  intros Hhook (Hs0 & Hsc & _) H H0 Hi Hs. unfold nft_exec in H. apply bind_Ok in H as (? & ? & He & H).
  apply ensure_Ok in He as [_ ->].
  destruct f as [to uri|to id|op ap|from to id|from to id|o|]; cbv beta iota zeta in H.
  - apply bind_Ok in H as (id & w1 & H & Hr). injection Hr as <-. by eapply mint_synced.
  - by eapply self_synced.
  - by eapply self_synced.
  - by eapply self_synced.
  - unfold safeTransferFrom in H. apply bind_Ok in H as (? & w1 & H & Hc).
    apply check_Ok in Hc as [_ Hc]. 
    eapply Hhook; [exact Hc| |by eapply self_synced].
    apply self_Ok in H as (n & n' & Hn & H & ->).
    eapply astep_inv; [exact Hi|]. eapply as_nft; [done|]. eapply (nl_transferFrom this n (msg_sender m)); [done| |done].
    by eapply not_code_not_this.
  - apply self_Ok in H as (n & n' & Hn & (_ & _ & ->)%transferOwnership_Ok & ->).
    by eapply synced_keep_count.
  - apply self_Ok in H as (n & n' & Hn & [_ ->]%renounceOwnership_Ok & ->).
    by eapply synced_keep_count.
Qed.

Lemma evolves_synced w w' :
  this ≠ 0%N → evolves w w' → inv w → ∀ c, synced w c → synced w' c.
Proof.
  intros H0. induction 1 as [w|w1 w2 w3 H1 IH1 H2 IH2|w m f hook w' Hv Hcall Hh IH H|w b Hb];
    intros Hi c Hs.
  - done.
  - apply IH2; [by eapply evolves_inv|by apply IH1].
  - destruct f as [f|a f].
    + by eapply market_synced.
    + eapply nft_synced; [intros w1 w2 Hr Hi1; by apply (IH w1 w2 Hr Hi1)|done..].
  - by eapply synced_same.
Qed.

Lemma reachable_supply w c :
  this ≠ 0%N → reachable w → c ∈ collectionAddresses (m_store w) →
  nft_totalSupply (m_env w) c = Ok (c_totalSupply (collections (m_store w)).[c]).
Proof.
  intros H0 Hr Hc. pose proof (reachable_inv _ _ _ H0 _ Hr) as Hi.
  destruct Hr as (w0 & Hg & He).
  assert (Hs : synced w c).
  { eapply evolves_synced; [done|done|by apply genesis_inv|]. intros Ha.
    apply (genesis_inv _ create_address accepts_ether H0) in Hg as Hi0.
    destruct Hg as (m & b & Hd & _). rewrite deploy_run in Hd. injection Hd as <-.
    cbn in Ha. by rewrite mget_empty in Ha. }
  apply Hs. by apply (reg_active _ _ (inv_r _ _ _ _ Hi)).
Qed.

(** In every reachable state the supply the registry records for a
    collection is the number of tokens that collection has minted. *)
Theorem supply_in_sync w c :
  this ≠ 0%N → reachable w → c ∈ collectionAddresses (m_store w) →
  nft_totalSupply (m_env w) c = Ok (c_totalSupply (collections (m_store w)).[c]).
Proof. apply reachable_supply. Qed.
End supply.

Lemma supply_in_sync_witness :
  let w := demo.w_sold in
  @nft_totalSupply _ (Env_ops demo.this demo.create_address demo.accepts_ether)
    (m_env w) demo.apes = Ok (c_totalSupply (collections (m_store w)).[demo.apes]).
Proof.
  assert (Hin : demo.apes ∈ collectionAddresses (m_store demo.w_sold))
    by (apply (bool_decide_unpack _); by vm_compute).
  exact (supply_in_sync demo.this demo.create_address demo.accepts_ether demo.w_sold demo.apes
    ltac:(done) demo.w_sold_reachable Hin).
Defined.
