(* ===== verification/Ledger.v ===== *)
(** * The ledger of a collection

    Tokens are minted one after the other and never burned: the tokens of a
    deployed collection are 1 to its supply, and the balances of ERC721, kept
    apart in unchecked arithmetic, count them. *)

From stdpp Require Import base list gmap strings numbers.
From Stdlib Require Import ZArith Lia.
From S2P Require Import Prelude Evm Erc721 NFTCollection MarketStorage Marketplace Chain Trace ChainFacts.
From S2P Require Import EnvLaws MarketFacts Steps Invariants Money Purchases Safety Supply.

(** The tokens of [n] that [a] owns. *)
Definition tokens_owned (n : NFTCollection) (a : address) : list Z :=
  filter (λ id, _ownerOf (erc721 n) id = a) (seqZ 1 (_tokenIds n)).

Lemma tokens_of_owned n a :
  nft_wf n → a ≠ 0%N → tokens_of (erc721 n) a = Z.of_nat (length (tokens_owned n a)).
Proof.
  intros [_ Hm [H0 _]] Ha. unfold tokens_of, tokens_owned.
  rewrite (map_sum_range _ _ 1 (Z.to_nat (_tokenIds n))).
  - rewrite Z2Nat.id by done. apply sum_Z_count.
  - by rewrite decide_False.
  - intros k Hk. rewrite Z2Nat.id in Hk by done.
    destruct (decide (_ownerOf (erc721 n) k = 0%N)) as [|Hn]; [done|]. apply Hm in Hn. lia.
Qed.

Lemma tokens_owned_le n a :
  (0 ≤ _tokenIds n)%Z → (Z.of_nat (length (tokens_owned n a)) ≤ _tokenIds n)%Z.
Proof.
  intros H0. assert (length (tokens_owned n a) ≤ Z.to_nat (_tokenIds n)); [|lia].
  unfold tokens_owned. etrans; [apply length_filter|]. by rewrite length_seqZ.
Qed.

(** At most the whole supply: the unchecked balance never wraps. *)
Lemma balance_counts this n a :
  ok_nft this n → a ≠ 0%N → (_balances (erc721 n)).[a] = Z.of_nat (length (tokens_owned n a)).
Proof.
  intros Hok Ha. destruct Hok as [W _ _ _ Hb]. rewrite Hb, tokens_of_owned by done.
  unfold wrap. apply Z.mod_small. destruct (wf_count n W) as [H0 Hmax].
  pose proof (tokens_owned_le n a H0). unfold uint256_max in Hmax. lia.
Qed.

Section ledger.
Variable this : address.
Variable create_address : N → address.
Variable accepts_ether : address → bool.

#[local] Instance chain_ops : ChainEnv Env := Env_ops this create_address accepts_ether.

Abbreviation reachable := (reachable this create_address accepts_ether).
Implicit Types (w : World).

(** C13: in every reachable state the tokens of a deployed collection are exactly
    1 to its supply, each with one owner (nothing is burned or skipped), anything
    else is unknown to [ownerOf]; [balanceOf] answers the number of tokens an
    account owns, without wrapping, and refuses the zero account; and the supply
    the registry records for the collection is the number of its tokens. *)
Theorem token_ledger w c n :
  this ≠ 0%N → reachable w → e_nfts (m_env w) !! c = Some n →
  (∀ id, ownerOf (erc721 n) id =
     if decide (1 ≤ id ≤ totalSupply n)%Z then Ok (_ownerOf (erc721 n) id)
     else Err (ERC721NonexistentToken id)) ∧
  (∀ a, balanceOf (erc721 n) a =
     if decide (a = 0%N) then Err (ERC721InvalidOwner 0%N)
     else Ok (Z.of_nat (length (tokens_owned n a)))) ∧
  (c ∈ collectionAddresses (m_store w) →
     c_totalSupply (collections (m_store w)).[c] = totalSupply n).
Proof.
  intros H0 Hr Hn. pose proof (reachable_inv _ _ _ H0 _ Hr) as [[Henv _ _] _ _ _ _].
  assert (Hok : ok_nft this n) by by eapply env_nfts_ok. split_and!.
  - intros id. unfold ownerOf, _requireOwned, totalSupply.
    pose proof (wf_minted n (ok_wf this n Hok) id).
    destruct (decide (_ownerOf _ _ = 0%N)); by rewrite ?decide_True, ?decide_False by tauto.
  - intros a. unfold balanceOf. case_decide; [done|]. by rewrite (balance_counts this).
  - intros Hc. pose proof (reachable_supply _ create_address accepts_ether w c H0 Hr Hc) as Hs.
    cbn in Hs. unfold view_nft in Hs. rewrite Hn in Hs. by injection Hs.
Qed.
End ledger.

Lemma token_ledger_witness :
  let n := default (Build_NFTCollection (erc721_constructor "" "") 0 0 "" 0 "")
             (e_nfts (m_env demo.w_sold) !! demo.apes) in
  ownerOf (erc721 n) 1 = Ok demo.bob ∧ balanceOf (erc721 n) demo.bob = Ok 1%Z ∧
  ownerOf (erc721 n) 2 = Err (ERC721NonexistentToken 2).
Proof.
  intros n.
  assert (Hn : e_nfts (m_env demo.w_sold) !! demo.apes = Some n) by by vm_compute.
  destruct (token_ledger demo.this demo.create_address demo.accepts_ether demo.w_sold demo.apes n
    ltac:(done) demo.w_sold_reachable Hn) as (Ho & Hb & _).
  rewrite !Ho, Hb. split_and!; by vm_compute.
Defined.
