(* ===== verification/Custody.v ===== *)
(** * Nobody takes a token

    A token can only leave an account that called something, or that had given
    somebody power over it: not through the marketplace, not in the callback of
    somebody else's mint, not by any sequence of calls of others. *)

From stdpp Require Import base list gmap strings numbers.
From Stdlib Require Import ZArith Lia.
From S2P Require Import Prelude Evm Erc721 NFTCollection MarketStorage Marketplace Chain Trace ChainFacts.
From S2P Require Import EnvLaws MarketFacts Steps Invariants Money Purchases Safety Sales.

(** ** In the storage of one collection *)

(** [who] owns [id] and nobody else has power over it. *)
Record resting (who : address) (id : Z) (s : Erc721Storage) : Prop := {
  rest_owner : _ownerOf s id = who;
  rest_approved : _getApproved s id = 0%N;
  rest_operators : ∀ op, isApprovedForAll s who op = false
}.

Section resting.
Variables (who : address) (id : Z).
Implicit Types (s : Erc721Storage) (n : NFTCollection).

Lemma resting_moved to id' s : id' ≠ id → resting who id s → resting who id (moved to id' s).
Proof.
  intros Hne [Ho Ha Hop]. split.
  - by rewrite moved_ownerOf, decide_False.
  - rewrite moved_approved, decide_False; [done|]. by intros [? _].
  - intros op. by rewrite moved_operators.
Qed.

Lemma resting_not_authorized caller s :
  caller ≠ 0%N → caller ≠ who → resting who id s → _isAuthorized s who caller id = false.
Proof.
  intros Hc Hw [_ Ha Hop]. unfold _isAuthorized. rewrite Ha, Hop.
  rewrite (bool_decide_false (who = caller)), (bool_decide_false (0%N = caller)) by congruence.
  by rewrite andb_false_r.
Qed.

Lemma resting_mint to id' s u s' :
  who ≠ 0%N → _mint to id' s = Ok (u, s') → resting who id s → resting who id s'.
Proof.
  intros Hw H Hr. apply _mint_Ok in H as (_ & Ho & ->). apply resting_moved; [|done].
  intros ->. apply Hw. by rewrite <- (rest_owner _ _ _ Hr).
Qed.

Lemma resting_setTokenURI id' uri s u s' :
  _setTokenURI id' uri s = Ok (u, s') → resting who id s → resting who id s'.
Proof. intros H [Ho Ha Hop]. by apply _setTokenURI_Ok in H as ->. Qed.

Variable caller : address.
Hypothesis (caller_nonzero : caller ≠ 0%N) (caller_other : caller ≠ who).

Lemma resting_transferFrom from to id' s u s' :
  transferFrom caller from to id' s = Ok (u, s') → resting who id s → resting who id s'.
Proof.
  intros H Hr. apply transferFrom_Ok in H as (_ & Ho & Ha & ->); [|done].
  apply resting_moved; [|done]. intros ->. rewrite (rest_owner _ _ _ Hr) in Ho. subst from.
  by rewrite resting_not_authorized in Ha.
Qed.

Lemma resting_approve to id' s u s' :
  approve caller to id' s = Ok (u, s') → resting who id s → resting who id s'.
Proof.
  intros H [Ho Ha Hop]. apply approve_Ok in H as (_ & Hauth & ->); [|done].
  split; [done| |done]. unfold _getApproved. cbn. rewrite mget_insert.
  case_decide as Hd; [|done]. subst id'. rewrite Ho, Hop in Hauth. destruct Hauth; congruence.
Qed.

Lemma resting_setApprovalForAll op b s u s' :
  setApprovalForAll caller op b s = Ok (u, s') → resting who id s → resting who id s'.
Proof.
  intros H [Ho Ha Hop]. apply setApprovalForAll_Ok in H as (_ & ->).
  split; [done..|]. intros op'. unfold isApprovedForAll. cbn.
  rewrite mget_insert_ne by congruence. apply Hop.
Qed.
End resting.

Section custody.
Variable this : address.
Variable create_address : N → address.
Variable accepts_ether : address → bool.

#[local] Instance chain_ops : ChainEnv Env := Env_ops this create_address accepts_ether.

Abbreviation exec := (exec this create_address accepts_ether).
Abbreviation evolves := (evolves this create_address accepts_ether).
Abbreviation market_exec := (market_exec this create_address accepts_ether).
Abbreviation nft_exec := (nft_exec this create_address accepts_ether).
Implicit Types (w : World) (e : Env).

(** The token [id] of the collection at [c] rests with [who]. *)
Definition rests (who c : address) (id : Z) e : Prop :=
  ∃ n, e_nfts e !! c = Some n ∧ resting who id (erc721 n).

(** What the chain does without [who]: every call, those of callbacks included,
    comes from another account. *)
Inductive evolves_without (who : address) : World → World → Prop :=
| ew_refl w : evolves_without who w w
| ew_trans w1 w2 w3 :
    evolves_without who w1 w2 → evolves_without who w2 w3 → evolves_without who w1 w3
| ew_call w m f hook w' :
    valid_msg this w m → valid_call f → msg_sender m ≠ who →
    (∀ w1 w2, hook w1 = Ok (tt, w2) → evolves_without who w1 w2) →
    exec hook m f w = Ok (tt, w') →
    evolves_without who w w'
| ew_ether w b :
    b.[this] = (e_ether (m_env w)).[this] →
    evolves_without who w (set_env (set_ether (λ _, b) (m_env w)) w).

Lemma evolves_without_evolves who w w' : evolves_without who w w' → evolves w w'.
Proof.
  induction 1 as [w|w1 w2 w3 _ IH1 _ IH2|w m f hook w' Hv Hc _ _ IH H|w b Hb].
  - apply ev_refl.
  - by eapply ev_trans.
  - by eapply ev_call.
  - by apply ev_ether.
Qed.

Section rests.
Variables (who c : address) (id : Z).
Hypothesis (who_nonzero : who ≠ 0%N) (who_not_this : who ≠ this) (this_nonzero : this ≠ 0%N).
Abbreviation at_rest := (rests who c id).

Lemma rests_same e e' : e_nfts e' = e_nfts e → at_rest e → at_rest e'.
Proof. unfold rests. by intros ->. Qed.

Lemma rests_on_nft {A} c' (p : M evm_error NFTCollection A) e a e' :
  (∀ n n', p n = Ok (a, n') → resting who id (erc721 n) → resting who id (erc721 n')) →
  on_nft c' p e = Ok (a, e') → at_rest e → at_rest e'.
Proof.
  intros Hp (n & n' & Hn & H & ->)%on_nft_Ok (k & Hk & Hr).
  unfold rests. cbn. rewrite lookup_insert. case_decide as Hd; [|by exists k].
  subst c'. rewrite Hn in Hk. simplify_eq. exists n'. split; [done|]. by eapply Hp.
Qed.

Lemma rests_erc721 {A} c' (p : M evm_error Erc721Storage A) e a e' :
  (∀ s s', p s = Ok (a, s') → resting who id s → resting who id s') →
  on_nft c' (on_erc721 p) e = Ok (a, e') → at_rest e → at_rest e'.
Proof.
  intros Hp. apply rests_on_nft. intros n n' (s & H & ->)%on_erc721_Ok. by apply Hp.
Qed.

Lemma rests_self {A} c' (p : M evm_error NFTCollection A) w a w' :
  (∀ n n', p n = Ok (a, n') → resting who id (erc721 n) → resting who id (erc721 n')) →
  external (on_nft c' p) w = Ok (a, w') → at_rest (m_env w) → at_rest (m_env w').
Proof. intros Hp (e & H & ->)%external_Ok. by eapply rests_on_nft. Qed.

Lemma rests_transferFrom caller c' from to id' e u e' :
  caller ≠ 0%N → caller ≠ who →
  nft_transferFrom caller c' from to id' e = Ok (u, e') → at_rest e → at_rest e'.
Proof.
  intros H0 Hw. apply rests_erc721. intros s s'. by apply resting_transferFrom.
Qed.

Lemma rests_create name symbol baseURI mkt category owner a e e' :
  create_nft this create_address name symbol baseURI mkt category owner e = Ok (a, e') →
  at_rest e → at_rest e'.
Proof.
  intros (n & -> & Hcode & _ & ->)%create_nft_Ok (k & Hk & Hr). exists k. split; [|done].
  cbn. rewrite lookup_insert_ne; [done|]. intros Hd. unfold code_at in Hcode.
  rewrite Hd, (bool_decide_true (is_Some _)), orb_true_r in Hcode by eauto. done.
Qed.

Lemma rests_pay from to v e u e' : pay from to v e = Ok (u, e') → at_rest e → at_rest e'.
Proof.
  cbn. unfold send_ether. intros H. inv_run.
  match goal with H : move_ether _ _ _ _ = _ |- _ => apply move_ether_Ok in H as (_ & En & _) end.
  by apply rests_same.
Qed.

(** *** Calls of others *)
Lemma market_rests m f w w' :
  market_exec m f w = Ok (tt, w') → at_rest (m_env w) → at_rest (m_env w').
Proof.
  intros H Hr. unfold Chain.market_exec in H. apply bind_Ok in H as (u & w1 & Hpay & H).
  assert (Hr1 : at_rest (m_env w1)).
  { destruct (payable f).
    - apply external_Ok in Hpay as (e & Hm & ->). apply move_ether_Ok in Hm as (_ & En & _).
      by eapply rests_same.
    - by apply ensure_Ok in Hpay as [_ ->]. }
  clear Hpay Hr. destruct f as [category|name symbol baseURI category|c' id' price|c' id'
    |c' id' start dur|c' id'|c' id'|c'|o|]; cbn in H.
  - apply addCategory_Ok in H as (_ & _ & _ & -> & _). done.
  - apply bind_Ok in H as (a & w2 & H & Hret). injection Hret as <-.
    apply createCollection_Ok in H as (_ & H & _). eapply rests_create; [exact H|exact Hr1].
  - apply createMarketItem_Ok in H as (_ & _ & _ & _ & uri & _ & H & _).
    eapply rests_transferFrom; [exact this_nonzero|congruence|exact H|done].
  - apply createMarketSale_Ok in H as (_ & _ & _ & _ & _ & (e & Hp & H) & _).
    eapply rests_transferFrom; [exact this_nonzero|congruence|exact H|by eapply rests_pay].
  - apply createAuction_Ok in H as (_ & _ & _ & _ & _ & -> & _). done.
  - apply placeBid_Ok in H as (_ & _ & _ & _ & _ & _ & -> & _). done.
  - apply makeOffer_Ok in H as (_ & _ & _ & _ & _ & -> & _). done.
  - apply updateCollectionTotalSupply_Ok in H as (_ & _ & n & _ & _ & -> & _). done.
  - by destruct (ownership_Ok m w1 tt w' (or_introl (ex_intro _ o H))) as (_ & _ & -> & _).
  - by destruct (ownership_Ok m w1 tt w' (or_intror H)) as (_ & _ & -> & _).
Qed.

Lemma mint_rests hook c' caller ts to uri w n' w' :
  (∀ w1 w2, hook w1 = Ok (tt, w2) → at_rest (m_env w1) → at_rest (m_env w2)) →
  mint (λ A p, external (on_nft c' p)) (checkOnERC721Received this hook)
    (updateCollectionTotalSupply (Msg c' 0 ts) c') caller to uri w = Ok (n', w') →
  at_rest (m_env w) → at_rest (m_env w').
Proof.
  intros Hhook H Hr. unfold mint, _safeMint in H.
  apply bind_Ok in H as (? & w1 & H1 & H). apply bind_Ok in H as (id' & w2 & H2 & H).
  apply bind_Ok in H as (? & w4' & H3 & H). apply bind_Ok in H3 as (? & w3 & H3 & H4).
  apply bind_Ok in H as (? & w5 & H5 & H). apply bind_Ok in H as (? & w6 & H6 & H).
  injection H as _ <-. apply check_Ok in H4 as [_ H4].
  repeat match goal with x : unit |- _ => destruct x end.
  apply updateCollectionTotalSupply_Ok in H6 as (_ & _ & k & _ & _ & -> & _).
  eapply rests_self; [|exact H5|].
  { intros n m (s & Hs & ->)%on_erc721_Ok. by eapply resting_setTokenURI. }
  eapply Hhook; [exact H4|]. eapply rests_self; [|exact H3|].
  { intros n m (s & Hs & ->)%on_erc721_Ok. by eapply resting_mint. }
  eapply rests_self; [|exact H2|].
  { intros n m (_ & _ & ->)%next_tokenId_Ok. done. }
  eapply rests_self; [|exact H1|done]. intros n m Hn. by apply _checkOwner_Ok in Hn as [_ ->].
Qed.

Lemma nft_rests hook m c' f w w' :
  (∀ w1 w2, hook w1 = Ok (tt, w2) → at_rest (m_env w1) → at_rest (m_env w2)) →
  msg_sender m ≠ 0%N → msg_sender m ≠ who →
  nft_exec hook m c' f w = Ok (tt, w') → at_rest (m_env w) → at_rest (m_env w').
Proof.
  intros Hhook H0 Hw H Hr. unfold Chain.nft_exec in H. apply bind_Ok in H as (? & ? & He & H).
  apply ensure_Ok in He as [_ ->].
  destruct f as [to uri|to id'|op b|from to id'|from to id'|o|]; cbv beta iota zeta in H;
    try (eapply rests_self; [|exact H|exact Hr]; intros n n').
  - apply bind_Ok in H as (k & w1 & H & Hret). injection Hret as <-. by eapply mint_rests.
  - intros (s & Hs & ->)%on_erc721_Ok. by eapply resting_approve.
  - intros (s & Hs & ->)%on_erc721_Ok. by eapply resting_setApprovalForAll.
  - intros (s & Hs & ->)%on_erc721_Ok. by eapply resting_transferFrom.
  - unfold safeTransferFrom in H. apply bind_Ok in H as (? & w1 & H & Hc).
    apply check_Ok in Hc as [_ Hc]. destruct x. eapply Hhook; [exact Hc|].
    eapply rests_self; [|exact H|exact Hr]. intros n n' (s & Hs & ->)%on_erc721_Ok.
    by eapply resting_transferFrom.
  - by intros (_ & _ & ->)%transferOwnership_Ok.
  - by intros [_ ->]%renounceOwnership_Ok.
Qed.
End rests.

(** C14: nobody takes a token.  An account that owns a token for which it approved
    nobody, and that has no operator, still owns it, with nobody approved,
    after any sequence of calls of other accounts, the calls in callbacks
    included. *)
Theorem token_at_rest_safe who c id w w' :
  this ≠ 0%N → who ≠ 0%N → who ≠ this →
  rests who c id (m_env w) → evolves_without who w w' → rests who c id (m_env w').
Proof.
  intros H0 Hw Ht Hr He. revert Hr.
  induction He as [w|w1 w2 w3 _ IH1 _ IH2|w m f hook w' Hv _ Hs _ IH H|w b _]; intros Hr.
  - done.
  - by apply IH2, IH1.
  - destruct f as [f|c' f]; cbn in H.
    + by eapply market_rests.
    + eapply nft_rests; [exact Hw|exact IH| |done|exact H|done]. apply Hv.
  - done.
Qed.
End custody.

(** ** Witness: Bob bought a token and rests *)
Lemma run_evolves_without this create_address accepts_ether who calls w w' :
  Forall (λ c, msg_sender c.1 ≠ who) calls →
  run this create_address accepts_ether calls w = Some w' →
  evolves_without this create_address accepts_ether who w w'.
Proof.
  intros Hs. revert w. induction Hs as [|[m f] calls Hm Hs IH]; intros w H; cbn in H.
  - simplify_eq. apply ew_refl.
  - apply bind_Some in H as (w1 & H & Hr). eapply ew_trans; [|by apply IH].
    unfold transact in H. case_decide as Hv; [destruct Hv as [Hv Hcall]|done].
    destruct (Chain.exec _ _ _ _ m f w) as [[[] w2]|] eqn:Hx; [|done]. injection H as <-.
    eapply (ew_call _ _ _ who w m f no_callback); [done..| |done].
    intros w1 w3 [= <-]. apply ew_refl.
Qed.

(** Alice mints another token and gives Carol power over all of hers, and Carol
    takes it. *)
Definition others : list (msg * call) := [
  demo.at_ 2050 demo.alice (ToNft demo.apes (Mint demo.alice "ipfs://apes/2"));
  demo.at_ 2060 demo.alice (ToNft demo.apes (SetApprovalForAll demo.carol true));
  demo.at_ 2070 demo.carol (ToNft demo.apes (TransferFrom demo.alice demo.carol 2)) ].

Lemma demo_bob_rests : rests demo.bob demo.apes 1 (m_env demo.w_sold).
Proof.
  set (n := default (Build_NFTCollection (erc721_constructor "" "") 0 0 "" 0 "")
              (e_nfts (m_env demo.w_sold) !! demo.apes)).
  exists n. split; [by vm_compute|]. split; [by vm_compute..|].
  assert (Hop : _operatorApprovals (erc721 n) = ∅) by by vm_compute.
  intros op. unfold isApprovedForAll. rewrite Hop. apply mget_empty.
Qed.

Lemma token_at_rest_safe_witness :
  ∃ w', run demo.this demo.create_address demo.accepts_ether others demo.w_sold = Some w' ∧
    rests demo.bob demo.apes 1 (m_env w').
Proof.
  destruct (run demo.this demo.create_address demo.accepts_ether others demo.w_sold) as [w'|] eqn:Hr.
  - exists w'. split; [done|].
    apply (token_at_rest_safe demo.this demo.create_address demo.accepts_ether demo.bob demo.apes 1
      demo.w_sold w'); [done|done|done|exact demo_bob_rests|].
    apply (run_evolves_without _ _ _ _ others); [by repeat constructor|exact Hr].
  - exfalso. by vm_compute in Hr.
Defined.
