(* ===== verification/Minting.v ===== *)
(** * Creating a collection and minting into it

    Both calls go through for whoever is entitled to make them, with all their
    effects on the token contract, on the registry and on the pages; and every
    contract the chain holds is a registered collection. *)

From stdpp Require Import base list gmap strings numbers.
From Stdlib Require Import ZArith Lia.
From S2P Require Import Prelude Evm Erc721 NFTCollection MarketStorage Marketplace Chain Trace ChainFacts.
From S2P Require Import EnvLaws MarketFacts Steps Invariants Money Purchases Safety Sales Supply Ledger.

(** ** The notice of a new supply and a new collection, whatever the chain is *)
Section runs.
Context {E : Type} `{!ChainEnv E}.
Implicit Types (w : MState E).

Lemma supply_run c ts w k :
  c_isActive (collections (m_store w)).[c] = true → nft_totalSupply (m_env w) c = Ok k →
  updateCollectionTotalSupply (Msg c 0 ts) c w = Ok (tt, with_store (supply_updated c k) w).
Proof.
  intros Ha Hk. unfold updateCollectionTotalSupply, store, external_view, update. run_block.
  rewrite Ha. cbn. rewrite bool_decide_true by done. cbn. by rewrite Hk.
Qed.

Lemma createCollection_run this m name symbol baseURI category w a e :
  (categoryExists (m_store w)).[category] = true →
  new_NFTCollection name symbol baseURI this category (msg_sender m) (m_env w) = Ok (a, e) →
  createCollection this m name symbol baseURI category w =
    Ok (a, {| m_store := created m a name symbol baseURI category (m_store w); m_env := e;
              m_logs := m_logs w ++ [CollectionCreated a name symbol category (msg_sender m)] |}).
Proof.
  intros Hc Hn. unfold createCollection, store, external, update, emit. run_block.
  rewrite Hc. cbn. by rewrite Hn.
Qed.
End runs.

(** A mint step by step. *)
Lemma mint_steps {W} (with_self : ∀ {A}, M evm_error NFTCollection A → M evm_error W A)
    check notice caller to uri w w1 id w2 w3 w4 w5 w6 :
  with_self (_checkOwner caller) w = Ok (tt, w1) → with_self next_tokenId w1 = Ok (id, w2) →
  with_self (on_erc721 (_mint to id)) w2 = Ok (tt, w3) → check caller 0%N to id w3 = Ok (tt, w4) →
  with_self (on_erc721 (_setTokenURI id uri)) w4 = Ok (tt, w5) → notice w5 = Ok (tt, w6) →
  mint (@with_self) check notice caller to uri w = Ok (id, w6).
Proof.
  intros H1 H2 H3 H4 H5 H6. unfold mint, _safeMint, mbind, M_bind.
  by rewrite H1, H2, H3, H4, H5, H6.
Qed.

Section minting.
Variable this : address.
Variable create_address : N → address.
Variable accepts_ether : address → bool.

#[local] Instance chain_ops : ChainEnv Env := Env_ops this create_address accepts_ether.

Abbreviation exec := (exec this create_address accepts_ether).
Abbreviation evolves := (evolves this create_address accepts_ether).
Abbreviation reachable := (reachable this create_address accepts_ether).
Abbreviation effect := (effect this create_address accepts_ether).
Abbreviation step_kind := (step_kind this create_address accepts_ether).
Implicit Types (w : World).

(** ** Every contract is registered *)
Definition registered w : Prop :=
  ∀ a, a ≠ this → code_at this (m_env w) a = true → c_isActive (collections (m_store w)).[a] = true.

Lemma registered_same w w' :
  (∀ a, code_at this (m_env w') a = code_at this (m_env w) a) →
  (∀ a, c_isActive (collections (m_store w)).[a] = true →
        c_isActive (collections (m_store w')).[a] = true) →
  registered w → registered w'.
Proof. intros Hc Ha H a. rewrite Hc. auto. Qed.

Lemma active_supply c n (st : MarketStorage) a :
  c_isActive (collections (supply_updated c n st)).[a] = c_isActive (collections st).[a].
Proof. unfold supply_updated. cbn. rewrite mget_insert. by case_decide; subst. Qed.

Lemma effect_registered m f w w' : effect m f w w' → registered w → registered w'.
Proof.
  intros He H. destruct f; cbn [Steps.effect] in He; split_hyps;
    repeat match goal with
    | H : same_tokens _ _ _ _ _ |- _ => destruct H as (_ & _ & ?)
    | H : token_moved _ _ _ _ _ _ _ _ _ |- _ => destruct H as (_ & _ & _ & ?)
    end;
    try (apply (registered_same w); [done| |done]; intros b Hb;
         match goal with H : m_store w' = _ |- _ => rewrite H end;
         first [exact Hb | by rewrite active_supply
               | unfold left_by, bid_placed, refunded; cbn; by case_decide]).
  intros b Hb. match goal with H : m_store w' = _ |- _ => rewrite H end.
  unfold created. cbn. rewrite mget_insert.
  match goal with H : ∀ b, code_at _ (m_env w') b = _ |- _ => rewrite H end.
  case_decide; [done|]. by apply H.
Qed.

Lemma kind_registered w w' : step_kind w w' → registered w → registered w'.
Proof.
  intros [m f _ He|Hst _ _ Hc|c n _ Hst He].
  - by eapply effect_registered.
  - apply registered_same; [done|]. by rewrite Hst.
  - apply registered_same; [by rewrite He|]. intros b Hb. by rewrite Hst, active_supply.
Qed.

Hypothesis this_nonzero : this ≠ 0%N.

Lemma reachable_registered w : reachable w → registered w.
Proof.
  intros (w0 & Hg & He).
  assert (H : inv this create_address accepts_ether w ∧ registered w); [|by destruct H].
  eapply (evolves_invariant _ _ _ (λ v, inv this create_address accepts_ether v ∧ registered v));
    [|exact He|split; [by apply genesis_inv|]].
  - intros v v' [Hv H] Hs. split; [by eapply astep_inv|].
    destruct (astep_kind _ _ _ _ _ (inv_b _ _ _ _ Hv) Hs) as [Hk _]. by eapply kind_registered.
  - destruct Hg as (m & b & Hd & _). rewrite deploy_run in Hd. injection Hd as <-.
    intros a Ha Hc. exfalso. unfold code_at in Hc. cbn in Hc. rewrite lookup_empty in Hc.
    rewrite (bool_decide_false (a = this)), bool_decide_false in Hc; [done| |done].
    by intros [? ?].
Qed.

Lemma deployed_registered w c n :
  reachable w → e_nfts (m_env w) !! c = Some n → c ∈ collectionAddresses (m_store w).
Proof.
  intros Hr Hn. pose proof (reachable_inv _ _ _ this_nonzero _ Hr) as [Hb Hreg _ _ _].
  apply (reg_active _ _ Hreg), (reachable_registered _ Hr).
  - intros ->. by rewrite (env_this_free _ _ (base_env _ _ Hb)) in Hn.
  - unfold code_at. rewrite Hn, (bool_decide_true (is_Some _)) by done. by rewrite orb_true_r.
Qed.


(** ** A mint that goes through *)

(** The collection after a mint of token [id]. *)
Definition minted (to : address) (uri : string) (n : NFTCollection) : NFTCollection :=
  let id := (_tokenIds n + 1)%Z in
  set_erc721 (emit_erc721 (MetadataUpdate id)
    (with_tokenURIs <[id := uri]> (moved to id (erc721 n)))) (set_tokenIds id n).

Lemma self_run {A} c (p : M evm_error NFTCollection A) w n a n' :
  e_nfts (m_env w) !! c = Some n → p n = Ok (a, n') →
  external (on_nft c p) w = Ok (a, set_env (set_nft c n' (m_env w)) w).
Proof. intros Hn Hp. unfold external, on_nft. by rewrite Hn, Hp. Qed.

Lemma on_erc721_run {A} (p : M evm_error Erc721Storage A) n a e :
  p (erc721 n) = Ok (a, e) → on_erc721 p n = Ok (a, set_erc721 e n).
Proof. unfold on_erc721. by intros ->. Qed.

Lemma check_run hook op from to id w :
  code_at this (m_env w) to = false →
  checkOnERC721Received this hook op from to id w = hook w.
Proof. intros Hc. unfold checkOnERC721Received. run_block. by rewrite Hc. Qed.

Lemma mint_run m c to uri w n :
  reachable w → msg_value m = 0%Z → e_nfts (m_env w) !! c = Some n → _owner n = msg_sender m →
  to ≠ 0%N → code_at this (m_env w) to = false → (_tokenIds n < uint256_max)%Z →
  exec no_callback m (ToNft c (Mint to uri)) w =
    Ok (tt, {| m_store := supply_updated c (_tokenIds n + 1) (m_store w);
               m_env := set_nft c (minted to uri n) (m_env w); m_logs := m_logs w |}).
Proof.
  intros Hr Hv Hn Hown Hto Hcode Hmax.
  pose proof (reachable_inv _ _ _ this_nonzero _ Hr) as [[Henv _ _] Hreg _ _ _].
  pose proof (deployed_registered w c n Hr Hn) as Hin.
  assert (Hok : ok_nft this n) by by eapply env_nfts_ok.
  set (id := (_tokenIds n + 1)%Z). set (n1 := set_tokenIds id n).
  set (n2 := set_erc721 (moved to id (erc721 n)) n1).
  set (w2 := set_env (set_nft c n2 (m_env w)) w).
  set (w3 := set_env (set_nft c (minted to uri n) (m_env w)) w).
  assert (H1 : external (on_nft c (_checkOwner (msg_sender m))) w = Ok (tt, w)).
  { rewrite (self_run _ _ _ n tt n); [by rewrite set_nft_same, set_env_same|done|].
    by apply _checkOwner_Ok. }
  assert (H2 : external (on_nft c next_tokenId) w = Ok (id, set_env (set_nft c n1 (m_env w)) w)).
  { apply (self_run _ _ _ n); [done|]. apply next_tokenId_Ok. split_and!; [done|lia|done]. }
  assert (H3 : external (on_nft c (on_erc721 (_mint to id))) (set_env (set_nft c n1 (m_env w)) w)
               = Ok (tt, w2)).
  { rewrite (self_run _ _ _ n1 tt n2).
    - cbn. by rewrite set_nft_twice.
    - cbn. apply lookup_insert_eq.
    - apply on_erc721_run. rewrite _mint_run, decide_False by done. cbn.
      rewrite decide_True; [done|]. apply next_tokenId_fresh, Hok. }
  assert (H4 : external (on_nft c (on_erc721 (_setTokenURI id uri))) w2 = Ok (tt, w3)).
  { rewrite (self_run _ _ _ n2 tt (minted to uri n)).
    - unfold w2, w3. cbn. by rewrite set_nft_twice.
    - cbn. apply lookup_insert_eq.
    - etransitivity; [by apply on_erc721_run|done]. }
  assert (H5 : updateCollectionTotalSupply (Msg c 0 (block_timestamp m)) c w3 =
               Ok (tt, with_store (supply_updated c id) w3)).
  { apply supply_run; [by apply (reg_active _ _ Hreg)|]. cbn. unfold view_nft. cbn.
    by rewrite lookup_insert_eq. }
  assert (Hc2 : code_at this (m_env w2) to = false) by (unfold w2; cbn; by rewrite (set_nft_code _ c n)).
  cbn [Chain.exec]. unfold nft_exec. rewrite Hv. cbn [Z.eqb ensure].
  unfold mbind, M_bind, mret, M_ret.
  by rewrite (mint_steps _ _ _ _ _ _ _ _ _ _ _ _ _ _ H1 H2 H3
    (eq_trans (check_run _ _ _ _ _ _ Hc2) eq_refl) H4 H5).
Qed.

(** What the minted token looks like, and the others. *)
Lemma minted_ownerOf to uri n id :
  _ownerOf (erc721 (minted to uri n)) id =
    if decide (id = _tokenIds n + 1)%Z then to else _ownerOf (erc721 n) id.
Proof.
  change (_ownerOf (moved to (_tokenIds n + 1) (erc721 n)) id =
    if decide (id = _tokenIds n + 1)%Z then to else _ownerOf (erc721 n) id).
  rewrite moved_ownerOf. repeat case_decide; congruence.
Qed.

Lemma minted_tokenURIs to uri n id :
  (_tokenURIs (erc721 (minted to uri n))).[id] =
    if decide (id = _tokenIds n + 1)%Z then uri else (_tokenURIs (erc721 n)).[id].
Proof.
  change (_tokenURIs (erc721 (minted to uri n)))
    with (<[(_tokenIds n + 1)%Z := uri]> (_tokenURIs (moved to (_tokenIds n + 1) (erc721 n)))).
  rewrite mget_insert, moved_tokenURIs. repeat case_decide; congruence.
Qed.

Lemma minted_balances to uri n a :
  ok_nft this n → (_tokenIds n < uint256_max)%Z → to ≠ 0%N → a ≠ 0%N →
  (_balances (erc721 (minted to uri n))).[a] =
    ((_balances (erc721 n)).[a] + if decide (a = to) then 1 else 0)%Z.
Proof.
  intros Hok Hmax Hto Ha.
  assert (H0 : _ownerOf (erc721 n) (_tokenIds n + 1) = 0%N) by apply next_tokenId_fresh, Hok.
  change (_balances (erc721 (minted to uri n)))
    with (_balances (moved to (_tokenIds n + 1) (erc721 n))).
  unfold moved. rewrite H0, decide_True by done. cbn. rewrite mget_insert.
  case_decide as Hd; [subst a; rewrite decide_True by done|rewrite decide_False by congruence; lia].
  rewrite (balance_counts this) by done. unfold wrap. apply Z.mod_small.
  destruct (wf_count n (ok_wf _ _ Hok)) as [Hn _].
  pose proof (tokens_owned_le n to Hn). unfold uint256_max in Hmax. lia.
Qed.

(** C10: the owner of a collection can mint to any account: the call goes through,
    the next id in sequence belongs to that account with the given URI, the
    account's balance and the collection's supply grow by one, and the registry
    records the new supply.  No other token, collection or ether changes.
    Anybody else is refused. *)
Theorem mint_succeeds m c to uri w n :
  reachable w → msg_value m = 0%Z → e_nfts (m_env w) !! c = Some n →
  to ≠ 0%N → code_at this (m_env w) to = false → (totalSupply n < uint256_max)%Z →
  let id := (totalSupply n + 1)%Z in
  if decide (_owner n = msg_sender m) then
    ∃ w' n', exec no_callback m (ToNft c (Mint to uri)) w = Ok (tt, w') ∧
      e_nfts (m_env w') !! c = Some n' ∧ totalSupply n' = id ∧
      ownerOf (erc721 n') id = Ok to ∧ tokenURI (erc721 n') id = Ok uri ∧
      (∀ id', id' ≠ id → ownerOf (erc721 n') id' = ownerOf (erc721 n) id' ∧
                         tokenURI (erc721 n') id' = tokenURI (erc721 n) id') ∧
      (∀ a, balanceOf (erc721 n') a =
              (λ b, b + if decide (a = to) then 1 else 0)%Z <$> balanceOf (erc721 n) a) ∧
      c_totalSupply (collections (m_store w')).[c] = id ∧
      (∀ c', c' ≠ c → e_nfts (m_env w') !! c' = e_nfts (m_env w) !! c') ∧
      e_ether (m_env w') = e_ether (m_env w)
  else exec no_callback m (ToNft c (Mint to uri)) w =
         Err (OwnableUnauthorizedAccount (msg_sender m)).
Proof.
  intros Hr Hv Hn Hto Hcode Hmax id. case_decide as Hown.
  - pose proof (reachable_inv _ _ _ this_nonzero _ Hr) as [[Henv _ _] _ _ _ _].
    assert (Hok : ok_nft this n) by by eapply env_nfts_ok.
    do 2 eexists. split; [by apply mint_run|]. split; [cbn; apply lookup_insert_eq|].
    unfold ownerOf, tokenURI, _requireOwned. split_and!.
    + done.
    + rewrite minted_ownerOf, (decide_True (P := id = _)) by done. by rewrite decide_False.
    + rewrite minted_ownerOf, minted_tokenURIs, !(decide_True (P := id = _)) by done.
      by rewrite decide_False.
    + intros id' Hne. by rewrite minted_ownerOf, minted_tokenURIs, !(decide_False (P := id' = _)).
    + intros a. unfold balanceOf. case_decide; [done|]. by rewrite minted_balances.
    + cbn. by rewrite mget_insert_eq.
    + intros c' Hne. cbn. by rewrite lookup_insert_ne by congruence.
    + done.
  - cbn [Chain.exec]. unfold nft_exec, mint, mbind, M_bind. rewrite Hv. cbn [Z.eqb ensure mret M_ret].
    unfold external, on_nft, _checkOwner. rewrite Hn. run_block. by rewrite bool_decide_false.
Qed.

(** ** A new collection *)

(** What the pages show of a new collection, when no collection had its
    address. *)
Section pages.
Variables (m : msg) (a : address) (name symbol baseURI category : string) (st : MarketStorage).
Let st' := created m a name symbol baseURI category st.
Let new := collection_of m a name symbol baseURI category.
Let details := {| d_basic := new; d_floorPrice := 0; d_totalVolume := 0; d_ownerCount := 0 |}.
Hypothesis no_items : (collectionTokenIds st).[a] = [].

Lemma created_details : fetchCollectionDetails st' a = Ok details.
Proof.
  unfold fetchCollectionDetails, _getFloorPrice, st', created. cbn. rewrite mget_insert_eq. cbn.
  by rewrite no_items.
Qed.

Lemma created_other b : b ≠ a → fetchCollectionDetails st' b = fetchCollectionDetails st b.
Proof.
  intros Hb. unfold fetchCollectionDetails, st', created. cbn. by rewrite mget_insert_ne.
Qed.

(** A page of details over a list of addresses, and over the list with the new
    one. *)
Lemma created_page l :
  a ∉ l → (∀ b, b ∈ l → c_isActive (collections st).[b] = true) →
  ∃ page, result_mapM (fetchCollectionDetails st) l = Ok page ∧
    result_mapM (fetchCollectionDetails st') l = Ok page ∧
    result_mapM (fetchCollectionDetails st') (l ++ [a]) = Ok (page ++ [details]).
Proof.
  intros Ha Hl. exists (details_of st <$> l). assert (Hpage := fetch_details_all st l Hl).
  assert (Hother : ∀ b, b ∈ l → fetchCollectionDetails st' b = fetchCollectionDetails st b).
  { intros b Hb. apply created_other. by intros ->. }
  split_and!; [done|by erewrite result_mapM_ext|].
  eapply result_mapM_snoc; [done|done|apply created_details].
Qed.

Lemma created_category c :
  a ∉ (categoryToCollections st).[c] →
  fetchCollectionsByCategory st' c =
    (λ page, page ++ if decide (c = category) then [new] else [])
      <$> fetchCollectionsByCategory st c.
Proof.
  intros Ha. unfold fetchCollectionsByCategory, st', created. cbn.
  destruct ((categoryExists st).[c]); [|done]. cbn. rewrite push_at_lookup.
  assert (Hl : (λ b, (<[a := new]> (collections st)).[b]) <$> (categoryToCollections st).[c]
    = (λ b, (collections st).[b]) <$> (categoryToCollections st).[c]).
  { apply list_fmap_ext. intros i b Hb. rewrite mget_insert_ne; [done|].
    intros <-. by apply Ha, (list_elem_of_lookup_2 _ i). }
  fold new. destruct (decide (category = c)) as [<-|Hne].
  - rewrite decide_True by done. rewrite fmap_app, Hl. cbn. by rewrite mget_insert_eq.
  - rewrite decide_False by congruence. by rewrite Hl, app_nil_r.
Qed.
End pages.

(** C11: anybody can create a collection in a known category (when the address
    the chain gives the new contract is free, as CREATE requires).  The call goes
    through; the new contract is the one the constructor makes, with the caller as
    owner and this marketplace as its own; the list of all collections, the page
    of its category and the caller's page show it last, with the caller as creator
    and nothing on sale; the other pages of collections show what they showed, and
    nothing else changes: items, offers, refunds, purchases, balances and the
    other contracts are as before. *)
Theorem createCollection_registers m name symbol baseURI category hook w :
  reachable w → msg_sender m ≠ 0%N → msg_value m = 0%Z →
  category ∈ getCategories (m_store w) →
  let st := m_store w in
  let a := create_address (e_nonce (m_env w)) in
  let new := collection_of m a name symbol baseURI category in
  let details := {| d_basic := new; d_floorPrice := 0; d_totalVolume := 0; d_ownerCount := 0 |} in
  code_at this (m_env w) a = false →
  ∃ w' n, exec hook m (ToMarket (CreateCollection name symbol baseURI category)) w = Ok (tt, w') ∧
    nft_constructor name symbol baseURI this category (msg_sender m) = Ok n ∧
    let st' := m_store w' in
    (∃ page, fetchCollections st = Ok page ∧ fetchCollections st' = Ok (page ++ [details])) ∧
    (∃ page, fetchUserCreatedCollections st (msg_sender m) = Ok page ∧
       fetchUserCreatedCollections st' (msg_sender m) = Ok (page ++ [details])) ∧
    (∃ page, fetchCollectionsByCategory st category = Ok page ∧
       fetchCollectionsByCategory st' category = Ok (page ++ [new])) ∧
    (∀ u, u ≠ msg_sender m →
       fetchUserCreatedCollections st' u = fetchUserCreatedCollections st u) ∧
    (∀ c, c ≠ category → fetchCollectionsByCategory st' c = fetchCollectionsByCategory st c) ∧
    fetchCollectionDetails st' a = Ok details ∧
    (∀ b, b ≠ a → fetchCollectionDetails st' b = fetchCollectionDetails st b) ∧
    m_env w' = {| e_ether := e_ether (m_env w); e_nfts := <[a := n]> (e_nfts (m_env w));
                  e_nonce := e_nonce (m_env w) + 1 |} ∧
    st' = {|
      _paused := _paused st; _status_entered := _status_entered st;
      market_owner := market_owner st; listingFee := listingFee st;
      categories := categories st; categoryExists := categoryExists st;
      collections := <[a := new]> (collections st);
      collectionAddresses := collectionAddresses st ++ [a];
      categoryToCollections := push_at category a (categoryToCollections st);
      collectionToMarketItems := collectionToMarketItems st;
      collectionTokenIds := collectionTokenIds st; pendingReturns := pendingReturns st;
      itemOffers := itemOffers st;
      userCreatedCollections := push_at (msg_sender m) a (userCreatedCollections st);
      userPurchases := userPurchases st; userPurchaseCount := userPurchaseCount st |} ∧
    m_logs w' = m_logs w ++ [CollectionCreated a name symbol category (msg_sender m)].
Proof.
  intros Hr Hs Hv Hcat st a new details Hfree.
  pose proof (reachable_inv _ _ _ this_nonzero _ Hr) as [_ Hreg Hesc _ _].
  assert (Hn : ∃ n, nft_constructor name symbol baseURI this category (msg_sender m) = Ok n).
  { unfold nft_constructor. rewrite decide_False by done. by eexists. }
  destruct Hn as [n Hn].
  assert (Hnew : a ∉ collectionAddresses st).
  { intros Ha%(reg_code _ _ Hreg). congruence. }
  assert (Hempty : (collectionTokenIds st).[a] = []).
  { destruct (collectionTokenIds st).[a] as [|id l] eqn:E; [done|].
    pose proof (esc_active _ _ _ _ Hesc a id) as Ha. unfold st in E. rewrite E in Ha.
    by apply (reg_active _ _ Hreg) in Ha; [|by left]. }
  assert (Hknown : (categoryExists st).[category] = true) by by apply (reg_categories _ _ Hreg).
  assert (Huser : ∀ u, a ∉ (userCreatedCollections st).[u] ∧ ∀ b,
    b ∈ (userCreatedCollections st).[u] → c_isActive (collections st).[b] = true).
  { intros u. unfold st. rewrite (reg_user _ _ Hreg). split; [by intros [_ ?]%list_elem_of_filter|].
    intros b [_ Hb]%list_elem_of_filter. by apply (reg_active _ _ Hreg). }
  assert (Hcats : ∀ c, a ∉ (categoryToCollections st).[c]).
  { intros c. unfold st. rewrite (reg_category _ _ Hreg). by intros [_ ?]%list_elem_of_filter. }
  do 2 eexists. split.
  { cbn [Chain.exec]. unfold Chain.market_exec. cbn [payable market_body]. rewrite Hv. run_block.
    erewrite (createCollection_run this m name symbol baseURI category w a); [reflexivity|done|].
    cbn. unfold create_nft. run_block. fold a. rewrite Hfree. cbn. rewrite Hn. reflexivity. }
  cbn [m_store m_env m_logs]. fold st.
  split_and!; try done.
  - destruct (created_page m a name symbol baseURI category st Hempty (collectionAddresses st))
      as (page & Hp & _ & Hp'); [done|by apply (reg_active _ _ Hreg)|]. by exists page.
  - destruct (Huser (msg_sender m)) as [Hu1 Hu2].
    destruct (created_page m a name symbol baseURI category st Hempty _ Hu1 Hu2)
      as (page & Hp & _ & Hp'). exists page. split; [done|].
    unfold fetchUserCreatedCollections, created. cbn. by rewrite push_at_lookup, decide_True.
  - rewrite created_category by done. unfold fetchCollectionsByCategory. rewrite Hknown.
    eexists. split; [reflexivity|]. cbn. by rewrite decide_True.
  - intros u Hu. destruct (Huser u) as [Hu1 Hu2].
    destruct (created_page m a name symbol baseURI category st Hempty _ Hu1 Hu2)
      as (page & Hp & Hp' & _). unfold fetchUserCreatedCollections. rewrite Hp.
    unfold created at 2. cbn. by rewrite push_at_lookup, decide_False by congruence.
  - intros c Hc. rewrite created_category by done.
    destruct (fetchCollectionsByCategory st c); cbn; [|done].
    by rewrite decide_False, app_nil_r.
  - by apply created_details.
  - intros b Hb. by apply created_other.
Qed.
End minting.

(** ** Witnesses *)
Definition demo_apes : NFTCollection :=
  default (Build_NFTCollection (erc721_constructor "" "") 0 0 "" 0 "")
    (e_nfts (m_env demo.w_listed) !! demo.apes).

Lemma mint_succeeds_witness :
  ∃ w' n', Chain.exec demo.this demo.create_address demo.accepts_ether no_callback
      (Msg demo.alice 0 3000) (ToNft demo.apes (Mint demo.bob "ipfs://apes/2")) demo.w_listed
      = Ok (tt, w') ∧
    e_nfts (m_env w') !! demo.apes = Some n' ∧ ownerOf (erc721 n') 2 = Ok demo.bob.
Proof.
  assert (Hn : e_nfts (m_env demo.w_listed) !! demo.apes = Some demo_apes) by by vm_compute.
  assert (Ho : _owner demo_apes = demo.alice) by by vm_compute.
  assert (Hs : totalSupply demo_apes = 1%Z) by by vm_compute.
  pose proof (mint_succeeds demo.this demo.create_address demo.accepts_ether ltac:(done)
    (Msg demo.alice 0 3000) demo.apes demo.bob "ipfs://apes/2" demo.w_listed demo_apes
    demo.w_listed_reachable eq_refl Hn ltac:(done) ltac:(by vm_compute)
    ltac:(by rewrite Hs)) as H.
  cbv zeta in H. rewrite Hs, (decide_True (P := _ = _)) in H by exact Ho.
  destruct H as (w' & n' & H & Hn' & _ & Hown & _). exists w', n'. auto.
Defined.

Lemma createCollection_registers_witness :
  ∃ w', Chain.exec demo.this demo.create_address demo.accepts_ether no_callback
      (Msg demo.bob 0 3000) (ToMarket (CreateCollection "Tunes" "TUN" "" "Music")) demo.w_listed
      = Ok (tt, w') ∧
    collectionAddresses (m_store w') = [demo.apes; 1002%N].
Proof.
  assert (Hc : "Music" ∈ getCategories (m_store demo.w_listed))
    by (apply (bool_decide_unpack _); by vm_compute).
  assert (Ha : demo.create_address (e_nonce (m_env demo.w_listed)) = 1002%N) by by vm_compute.
  assert (Hl : collectionAddresses (m_store demo.w_listed) = [demo.apes]) by by vm_compute.
  destruct (createCollection_registers demo.this demo.create_address demo.accepts_ether
    ltac:(done) (Msg demo.bob 0 3000) "Tunes" "TUN" "" "Music" no_callback demo.w_listed
    demo.w_listed_reachable ltac:(done) eq_refl Hc ltac:(by vm_compute))
    as (w' & n & H & _ & _ & _ & _ & _ & _ & _ & _ & _ & Hst & _).
  exists w'. split; [exact H|]. rewrite Hst. cbn [collectionAddresses]. by rewrite Hl, Ha.
Defined.
