(* ===== verification/Words.v ===== *)
(** * The types of the storage

    Solidity types every number as a [uint256]; the model keeps integers.
    [typed_store]: in every reachable state each stored number is a word, each
    item is stored under its own collection and token, and each offer is from
    somebody, for something.  With the backing of Money this bounds the refund
    counters: a bid that beats the standing one is never refused for overflow. *)

From stdpp Require Import base list gmap strings numbers relations.
From Stdlib Require Import ZArith Lia.
From S2P Require Import Prelude Evm Erc721 NFTCollection MarketStorage Marketplace Chain Trace ChainFacts.
From S2P Require Import EnvLaws MarketFacts Steps Invariants Money Purchases Safety Sales.

(** ** Well-typed data *)
Record typed_item (k : address * Z) (i : MarketItem) : Prop := {
  ti_key : (i_nftContract i, i_tokenId i) = k;
  ti_seller : i_seller i ≠ 0%N;
  ti_tokenId : is_uint256 (i_tokenId i);
  ti_price : is_uint256 (i_price i);
  ti_endTime : is_uint256 (i_auctionEndTime i);
  ti_bid : is_uint256 (i_highestBid i)
}.

Record typed_offer (o : Offer) : Prop := {
  to_buyer : o_buyer o ≠ 0%N;
  to_price : (0 < o_price o ≤ uint256_max)%Z;
  to_timestamp : is_uint256 (o_timestamp o)
}.

Record typed_collection (c : Collection) : Prop := {
  tc_createdAt : is_uint256 (c_createdAt c);
  tc_totalSupply : is_uint256 (c_totalSupply c)
}.

Record typed_store (st : MarketStorage) : Prop := {
  ts_fee : is_uint256 (listingFee st);
  ts_collections : map_Forall (λ _, typed_collection) (collections st);
  ts_items : map_Forall typed_item (collectionToMarketItems st);
  ts_tokens : map_Forall (λ _, Forall is_uint256) (collectionTokenIds st);
  ts_returns : map_Forall (λ _, is_uint256) (pendingReturns st);
  ts_offers : map_Forall (λ _, Forall typed_offer) (itemOffers st);
  ts_counts : map_Forall (λ _, is_uint256) (userPurchaseCount st)
}.

Lemma zero_is_uint256 : is_uint256 0.
Proof. done. Qed.
#[export] Hint Resolve zero_is_uint256 : core.

(** Reading a mapping that holds words gives a word. *)
Lemma mget_typed `{Countable K} (m : gmap K Z) k :
  map_Forall (λ _, is_uint256) m → is_uint256 (m.[k]).
Proof. intros Hm. unfold mget. destruct (m !! k) eqn:E; cbn; [by eapply Hm|done]. Qed.

Lemma push_at_typed `{Countable K} {A} (P : A → Prop) k v (m : gmap K (list A)) :
  P v → map_Forall (λ _, Forall P) m → map_Forall (λ _, Forall P) (push_at k v m).
Proof.
  intros Hv Hm. apply map_Forall_insert_2; [|done]. apply Forall_app. split; [|by constructor].
  unfold mget. destruct (m !! k) eqn:E; cbn; [by eapply Hm|constructor].
Qed.

(** An item with a seller is one that was stored. *)
Lemma item_typed st c id :
  typed_store st → i_seller (item_at st c id) ≠ 0%N ∨ i_isOnSale (item_at st c id) = true
    ∨ i_isAuction (item_at st c id) = true →
  typed_item (c, id) (item_at st c id).
Proof.
  intros Ht. unfold item_at, mget. destruct (_ !! (c, id)) as [i|] eqn:E; cbn.
  - intros _. by apply (ts_items _ Ht).
  - naive_solver.
Qed.

(** ** Each update of the storage keeps the types *)
Section updates.
Variable m : msg.
Hypothesis sender_ok : msg_sender m ≠ 0%N.
Hypothesis value_ok : is_uint256 (msg_value m).
Hypothesis time_ok : is_uint256 (block_timestamp m).
Implicit Types (st : MarketStorage).

Lemma typed_guard b st : typed_store st → typed_store (upd__status_entered b st).
Proof. by intros [? ? ? ? ? ? ?]. Qed.

Lemma typed_listed c id price uri st :
  is_uint256 id → is_uint256 price → typed_store st → typed_store (listed m c id price uri st).
Proof.
  intros Hi Hp [? ? ? ? ? ? ?]. split; cbn; try done.
  - by apply map_Forall_insert_2.
  - by apply push_at_typed.
Qed.

Lemma typed_sold c id st :
  i_isOnSale (item_at st c id) = true →
  ((userPurchaseCount st).[msg_sender m] + 1 ≤ uint256_max)%Z →
  typed_store st → typed_store (sold m c id st).
Proof.
  intros Hs Hmax Ht. pose proof (item_typed st c id Ht) as [? ? ? ? ? ?]; [by auto|].
  destruct Ht as [? ? ? ? ? ? Hc]. split; cbn; try done.
  - by apply map_Forall_insert_2.
  - apply map_Forall_insert_2; [|done]. pose proof (mget_typed _ (msg_sender m) Hc).
    unfold is_uint256 in *. lia.
Qed.

Lemma typed_auctioned c id price duration st :
  i_seller (item_at st c id) = msg_sender m →
  is_uint256 price → is_uint256 duration → (block_timestamp m + duration ≤ uint256_max)%Z →
  typed_store st → typed_store (auctioned m c id price duration st).
Proof.
  intros Hs Hp Hd Hmax Ht.
  pose proof (item_typed st c id Ht) as [? ? ? ? ? ?]; [left; by rewrite Hs|].
  destruct Ht as [? ? ? ? ? ? ?]. split; cbn; try done.
  apply map_Forall_insert_2; [|done]. split; cbn; try done.
  unfold is_uint256 in *. lia.
Qed.

Lemma typed_bid c id st :
  i_isAuction (item_at st c id) = true →
  (i_highestBidder (item_at st c id) ≠ 0%N →
    (pendingReturns st).[(c, id, i_highestBidder (item_at st c id))]
      + i_highestBid (item_at st c id) ≤ uint256_max)%Z →
  typed_store st → typed_store (bid_placed m c id st).
Proof.
  intros Hs Hmax Ht. pose proof (item_typed st c id Ht) as [? ? ? ? ? ?]; [by auto|].
  destruct Ht as [? ? ? ? Hr ? ?]. unfold bid_placed, refunded.
  case_decide as Hb; split; cbn; try done; try (by apply map_Forall_insert_2).
  apply map_Forall_insert_2; [|done]. specialize (Hmax Hb).
  pose proof (mget_typed _ (c, id, i_highestBidder (item_at st c id)) Hr).
  unfold is_uint256 in *. lia.
Qed.

Lemma typed_offered c id st :
  (0 < msg_value m)%Z → typed_store st → typed_store (offered m c id st).
Proof.
  intros Hv [? ? ? ? ? ? ?]. split; cbn; try done. apply push_at_typed; [|done].
  split; cbn; [done| |done]. unfold is_uint256 in *. lia.
Qed.

Lemma typed_created a name symbol uri category st :
  typed_store st → typed_store (created m a name symbol uri category st).
Proof. intros [? ? ? ? ? ? ?]. split; cbn; try done. by apply map_Forall_insert_2. Qed.

Lemma typed_supply a n st :
  is_uint256 n → c_isActive (collections st).[a] = true →
  typed_store st → typed_store (supply_updated a n st).
Proof.
  intros Hn Ha [? Hc ? ? ? ? ?]. split; cbn; try done. apply map_Forall_insert_2; [|done].
  split; cbn; [|done]. revert Ha. unfold mget. destruct (_ !! a) as [x|] eqn:E; cbn; [|done].
  intros _. by apply (Hc a x E).
Qed.
End updates.

Section words.
Variable this : address.
Variable create_address : N → address.
Variable accepts_ether : address → bool.

#[local] Instance chain_ops : ChainEnv Env := Env_ops this create_address accepts_ether.

Abbreviation astep := (astep this create_address accepts_ether).
Abbreviation evolves := (evolves this create_address accepts_ether).
Abbreviation genesis := (genesis this).
Abbreviation reachable := (reachable this create_address accepts_ether).
Abbreviation market_exec := (market_exec this create_address accepts_ether).
Abbreviation held := (held this).
Abbreviation inv := (inv this create_address accepts_ether).
Implicit Types (w : World).

(** The supply a collection reports is a word. *)
Lemma totalSupply_typed w c n :
  inv w → nft_totalSupply (m_env w) c = Ok n → is_uint256 n.
Proof.
  intros [[Hok _ _] _ _ _ _] H. cbn in H. unfold view_nft in H.
  destruct (e_nfts (m_env w) !! c) as [k|] eqn:E; [|done]. injection H as <-.
  apply (wf_count k), (ok_wf this k). by eapply env_nfts_ok.
Qed.

Lemma market_typed m f w w' :
  inv w → valid_msg this w m → valid_call (ToMarket f) →
  market_exec m f w = Ok (tt, w') → typed_store (m_store w) → typed_store (m_store w').
Proof.
  intros Hi Hv Hcall H Ht. pose proof Hv as (Hs0 & _ & Hval & Htime).
  pose proof (base_env _ _ (inv_b _ _ _ _ Hi)) as Hok.
  eapply market_exec_Ok in H as (w1 & H & [Est _ En _ _ _]); [|done..].
  unfold left_by in *; cbn in Hcall.
  destruct f as [category|name symbol baseURI category|c id price|c id|c id start dur
                |c id|c id|c|o|]; cbn in H.
  - apply addCategory_Ok in H as (_ & _ & -> & _). rewrite Est. by destruct Ht.
  - apply bind_Ok in H as (a & w2 & H & Hr). injection Hr as <-.
    apply createCollection_Ok in H as (_ & _ & -> & _). rewrite Est. by apply typed_created.
  - apply createMarketItem_Ok in H as (_ & _ & _ & _ & uri & _ & _ & -> & _).
    unfold left_by. rewrite Est. destruct Hcall. by apply typed_guard, typed_listed, typed_guard.
  - apply createMarketSale_Ok in H as (_ & Hs & _ & _ & Hn & _ & -> & _).
    unfold left_by. rewrite Est in *. by apply typed_guard, typed_sold, typed_guard.
  - apply createAuction_Ok in H as (_ & Hse & _ & Hmax & -> & _).
    unfold left_by. rewrite Est in *. destruct Hcall as (? & ? & ?).
    by apply typed_guard, typed_auctioned, typed_guard.
  - apply placeBid_Ok in H as (_ & Ha & _ & _ & Hmax & -> & _).
    unfold left_by. rewrite Est in *. by apply typed_guard, typed_bid, typed_guard.
  - apply makeOffer_Ok in H as (_ & _ & _ & Hpos & -> & _).
    unfold left_by. rewrite Est in *. by apply typed_guard, typed_offered, typed_guard.
  - apply updateCollectionTotalSupply_Ok in H as (Ha & _ & n & Hn & -> & _).
    rewrite Est in *. apply typed_supply; [|done..]. eapply (totalSupply_typed w c); [done|].
    destruct (same_nfts this create_address accepts_ether _ _ En) as (_ & Hsup & _).
    by rewrite <- Hsup.
  - assert (Ho := ownership_Ok m w1 tt w' (or_introl (ex_intro _ o H))).
    destruct Ho as (_ & (o' & ->) & _). rewrite Est. by destruct Ht.
  - assert (Ho := ownership_Ok m w1 tt w' (or_intror H)).
    destruct Ho as (_ & (o' & ->) & _). rewrite Est. by destruct Ht.
Qed.

Lemma astep_typed w w' :
  astep w w' → inv w ∧ typed_store (m_store w) → inv w' ∧ typed_store (m_store w').
Proof.
  intros Hs [Hi Ht]. split; [by eapply astep_inv|].
  destruct Hs as [w m f w' Hv Hcall H|w c n n' _ _|w c ts w' _ H|w b _]; [|done| |done].
  - by eapply market_typed.
  - apply updateCollectionTotalSupply_Ok in H as (Ha & _ & n & Hn & -> & _).
    apply typed_supply; [|done..]. by eapply totalSupply_typed.
Qed.

Lemma genesis_typed w : genesis w → typed_store (m_store w).
Proof.
  intros (m & b & Hd & _). rewrite deploy_run in Hd. injection Hd as <-.
  split; cbn; try apply map_Forall_empty. done.
Qed.

Hypothesis this_nonzero : this ≠ 0%N.

Lemma reachable_typed w : reachable w → typed_store (m_store w).
Proof.
  intros (w0 & Hg & He).
  enough (inv w ∧ typed_store (m_store w)) by tauto.
  eapply (evolves_invariant this create_address accepts_ether
            (λ w, inv w ∧ typed_store (m_store w))); [|exact He|].
  - intros w1 w2 Hi Hs. by eapply astep_typed.
  - split; [by apply genesis_inv|by apply genesis_typed].
Qed.

(** C17: the storage is well typed in every reachable state: every stored number
    is a 256-bit word, every item is stored under its own collection and token
    and has a seller, every offer is from somebody and for something. *)
Theorem storage_typed w : reachable w → typed_store (m_store w).
Proof. apply reachable_typed. Qed.

(** ** No overflow in the auctions *)

(** What the marketplace owes to one bidder and the standing bid are parts of
    what it owes. *)
Lemma refund_covered w c id b :
  reachable w →
  ((pendingReturns (m_store w)).[(c, id, b)] + i_highestBid (item_at (m_store w) c id)
     ≤ held w)%Z.
Proof.
  intros Hr. destruct (reachable_typed w Hr) as [_ _ Hi _ Hret Hoff _].
  pose proof (inv_m _ _ _ _ (reachable_inv _ _ _ this_nonzero _ Hr)) as [_ Hc].
  assert (Hl : (0 ≤ listing_count (m_store w))%Z).
  { apply map_sum_nonneg. intros. lia. }
  assert (Ho : (0 ≤ offers_total (m_store w))%Z).
  { apply map_sum_nonneg. intros k l Hk. apply sum_Z_nonneg. intros o Hin.
    specialize (Hoff k l Hk). rewrite Forall_forall in Hoff.
    pose proof (to_price _ (Hoff o Hin)). lia. }
  assert (Hp : ((pendingReturns (m_store w)).[(c, id, b)] ≤ refunds_total (m_store w))%Z).
  { apply (map_sum_mget (λ v : Z, v)); [done|]. intros k v Hk. by apply (Hret k v Hk). }
  assert (Hb : (i_highestBid (item_at (m_store w) c id) ≤ bids_total (m_store w))%Z).
  { apply (map_sum_mget i_highestBid); [done|]. intros k i Hk. by apply (ti_bid _ _ (Hi k i Hk)). }
  unfold liabilities in Hc. lia.
Qed.

(** A bid that beats the standing one goes through. *)
Lemma bid_run m c id w :
  let i := item_at (m_store w) c id in
  reachable w → (held w ≤ uint256_max)%Z →
  i_isAuction i = true → (block_timestamp m < i_auctionEndTime i)%Z →
  (i_highestBid i < msg_value m ≤ (e_ether (m_env w)).[msg_sender m])%Z →
  ∃ e, market_exec m (PlaceBid c id) w =
    Ok (tt, {| m_store := left_by w (bid_placed m c id); m_env := e; m_logs := m_logs w |}).
Proof.
  intros i Hr Hw Ha Ht [Hb Hpay].
  pose proof (inv_b _ _ _ _ (reachable_inv _ _ _ this_nonzero _ Hr)) as [_ Hg _].
  pose proof (refund_covered w c id (i_highestBidder i) Hr) as Hcov. fold i in Hcov.
  destruct (move_ether_run (msg_sender m) this (msg_value m) (m_env w) Hpay) as [e He].
  exists e. rewrite (market_exec_paid this create_address accepts_ether m _ w e) by done.
  cbn [market_body]. rewrite placeBid_run. cbn [m_store set_env]. fold i.
  rewrite Hg, Ha. cbn [negb].
  rewrite (proj2 (Z.leb_gt _ _) Ht), (proj2 (Z.leb_gt _ _) Hb).
  by rewrite (proj2 (Z.ltb_ge _ _)), andb_false_r by lia.
Qed.

(** C12: while the ether in the marketplace fits in a word, a bid that beats the
    standing one before the end of the auction, by an account that can pay it,
    is accepted: no counter overflows, and the guard is never left closed. *)
Theorem higher_bid_accepted m c id w :
  reachable w → (held w ≤ uint256_max)%Z →
  let i := item_at (m_store w) c id in
  i_isAuction i = true → (block_timestamp m < i_auctionEndTime i)%Z →
  (i_highestBid i < msg_value m ≤ (e_ether (m_env w)).[msg_sender m])%Z →
  ∃ w', market_exec m (PlaceBid c id) w = Ok (tt, w') ∧
    i_highestBidder (item_at (m_store w') c id) = msg_sender m ∧
    i_highestBid (item_at (m_store w') c id) = msg_value m.
Proof.
  intros Hr Hw i Ha Ht Hb. destruct (bid_run m c id w Hr Hw Ha Ht Hb) as [e He].
  eexists. split; [exact He|]. cbn [m_store]. by rewrite bid_item, decide_True.
Qed.
End words.

(** ** On the deployment of Trace *)
Section witnesses.
Import demo.

Lemma storage_typed_witness : typed_store (m_store w_auction).
Proof.
  exact (storage_typed this create_address accepts_ether ltac:(done) w_auction w_auction_reachable).
Defined.

Lemma higher_bid_accepted_witness :
  let m := Msg bob (3 * ether_) 2070 in
  ∃ w', market_exec this create_address accepts_ether m (PlaceBid apes 1) w_auction = Ok (tt, w') ∧
    i_highestBidder (item_at (m_store w') apes 1) = bob ∧
    i_highestBid (item_at (m_store w') apes 1) = (3 * ether_)%Z.
Proof.
  apply (higher_bid_accepted this create_address accepts_ether ltac:(done)
           (Msg bob (3 * ether_) 2070) apes 1 w_auction w_auction_reachable).
  - apply (bool_decide_unpack _). by vm_compute.
  - by vm_compute.
  - by vm_compute.
  - split; by vm_compute.
Defined.
End witnesses.
