(* ===== verification/Spec.v ===== *)
(** * The market as its users understand it

    An abstract specification of NFTMarketplace.sol.  There is no escrow, no
    storage layout and no re-entrancy guard: a token is either free, in the
    hands of an owner, or for sale.  A token that is for sale cannot be moved;
    only a purchase ends the sale.  Refine.v shows that the contracts implement
    this market; the consequences proved here then hold of the contracts. *)

From stdpp Require Import base list strings numbers.
From Stdlib Require Import ZArith Lia.
From S2P Require Import Prelude Evm MarketStorage.

(** ** States *)
Inductive sale :=
| Fixed (seller : address) (price : Z)
| Auction (seller : address) (price endTime : Z) (bidder : address) (bid : Z).

Inductive holding :=
| Free (owner : address)
| ForSale (s : sale).

(** Who has which token, and the ether the market keeps. *)
Record Spec := { tok : address → Z → holding; funds : Z }.

#[export] Instance sale_eq_dec : EqDecision sale.
Proof. solve_decision. Defined.
#[export] Instance holding_eq_dec : EqDecision holding.
Proof. solve_decision. Defined.

(** Two markets are the same when every token is in the same hands. *)
#[export] Instance Spec_equiv : Equiv Spec := λ s t,
  (∀ c id, tok s c id = tok t c id) ∧ funds s = funds t.

#[export] Instance Spec_equivalence : Equivalence (≡@{Spec}).
Proof.
  split.
  - done.
  - intros s t [H1 H2]. by split.
  - intros s t u [H1 H2] [H3 H4]. split; [intros c id; by rewrite H1|by rewrite H2].
Qed.

#[export] Instance tok_proper : Proper ((≡) ==> (=) ==> (=) ==> (=)) tok.
Proof. intros s t [H _] c ? <- id ? <-. apply H. Qed.
#[export] Instance funds_proper : Proper ((≡) ==> (=)) funds.
Proof. by intros s t [_ H]. Qed.

Definition put (c : address) (id : Z) (h : holding) (s : Spec) : Spec :=
  {| tok := λ c' id', if decide (c = c' ∧ id = id') then h else tok s c' id';
     funds := funds s |}.
Definition earn (n : Z) (s : Spec) : Spec := {| tok := tok s; funds := (funds s + n)%Z |}.

#[export] Instance put_proper c id h : Proper ((≡) ==> (≡)) (put c id h).
Proof. intros s t [H1 H2]. split; [|done]. intros c' id'. cbn. by rewrite H1. Qed.
#[export] Instance earn_proper n : Proper ((≡) ==> (≡)) (earn n).
Proof. intros s t [H1 H2]. split; [done|]. cbn. by rewrite H2. Qed.

(** ** Steps

    What can happen, and when; [None] when the market does not allow it. *)
Inductive label :=
| Idle
| List_ (who c : address) (id price : Z)
| Buy (who seller c : address) (id price : Z)
| Start (who c : address) (id price endTime : Z)
| Bid (who c : address) (id amount now : Z)
| MakeAnOffer (who c : address) (id amount : Z)
| Deposit (amount : Z)
| Move (c : address) (id : Z) (from to : address).

Definition listing_fee : Z := 5 * 10 ^ 14.

Definition spec_exec (l : label) (s : Spec) : option Spec :=
  match l with
  | Idle => Some s
  | List_ who c id price =>
      guard (tok s c id = Free who ∧ 0 < price)%Z;;
      Some (earn listing_fee (put c id (ForSale (Fixed who price)) s))
  | Buy who seller c id price =>
      guard (tok s c id = ForSale (Fixed seller price));;
      Some (put c id (Free who) s)
  | Start who c id price endTime =>
      match tok s c id with
      | ForSale (Fixed seller _) =>
          guard (seller = who);;
          Some (put c id (ForSale (Auction who price endTime 0 0)) s)
      | _ => None
      end
  | Bid who c id amount now =>
      match tok s c id with
      | ForSale (Auction seller price endTime _ bid) =>
          guard (now < endTime ∧ bid < amount)%Z;;
          Some (earn amount (put c id (ForSale (Auction seller price endTime who amount)) s))
      | _ => None
      end
  | MakeAnOffer who c id amount =>
      match tok s c id with
      | ForSale (Fixed _ _) => guard (0 < amount)%Z;; Some (earn amount s)
      | _ => None
      end
  | Deposit amount => guard (0 ≤ amount)%Z;; Some (earn amount s)
  | Move c id from to =>
      guard (tok s c id = Free from ∧ to ≠ 0%N);; Some (put c id (Free to) s)
  end.

Definition spec_run (ls : list label) (s : Spec) : option Spec :=
  foldl (λ o l, o ≫= spec_exec l) (Some s) ls.

(** The events the market announces. *)
Definition events_of (l : label) : list market_event :=
  match l with
  | List_ who c id price => [MarketItemCreated c id who 0 price]
  | Buy who seller c id price => [MarketItemSold c id seller who price]
  | MakeAnOffer who c id amount => [OfferCreated c who amount]
  | _ => []
  end.

(** ** Steps do not see the difference between equivalent states *)
#[export] Instance spec_exec_proper l : Proper ((≡) ==> (≡)) (spec_exec l).
Proof.
  intros s t E. pose proof E as [Ht _].
  destruct l as [|who c id ?|who se c id ?|who c id ??|who c id ??|who c id ?|?|c id ??];
    cbn; rewrite ?(Ht c id); repeat case_match; repeat case_guard; cbn;
    try done; try (constructor; by rewrite E); constructor; exact E.
Qed.

#[export] Instance spec_bind_proper l : Proper ((≡) ==> (≡)) (λ o, o ≫= spec_exec l).
Proof. intros o o' E. destruct E as [s t E|]; cbn; [by rewrite E|done]. Qed.

Lemma spec_foldl_proper ls o o' :
  o ≡ o' → foldl (λ o l, o ≫= spec_exec l) o ls ≡ foldl (λ o l, o ≫= spec_exec l) o' ls.
Proof.
  revert o o'. induction ls as [|l ls IH]; intros o o' E; cbn; [done|].
  apply IH. by apply spec_bind_proper.
Qed.

#[export] Instance spec_run_proper ls : Proper ((≡) ==> (≡)) (spec_run ls).
Proof. intros s t E. apply spec_foldl_proper. by constructor. Qed.

Lemma spec_run_app ls ks s : spec_run (ls ++ ks) s = spec_run ls s ≫= spec_run ks.
Proof.
  unfold spec_run. rewrite foldl_app. destruct (foldl _ (Some s) ls) as [t|]; [done|]. cbn.
  induction ks; done.
Qed.

Lemma spec_run_cons l ls s : spec_run (l :: ls) s = spec_exec l s ≫= spec_run ls.
Proof. exact (spec_run_app [l] ls s). Qed.

(** Facts of one step hold along a run. *)
Lemma spec_run_ind (R : Spec → list label → Spec → Prop) :
  (∀ s, R s [] s) →
  (∀ s l s' ls t, spec_exec l s = Some s' → spec_run ls s' = Some t → R s' ls t →
     R s (l :: ls) t) →
  ∀ ls s t, spec_run ls s = Some t → R s ls t.
Proof.
  intros H0 Hs ls. induction ls as [|l ls IH]; intros s t; [by intros [= <-]|].
  rewrite spec_run_cons. intros (s' & H & Hr)%bind_Some. eauto.
Qed.

(** The steps that are allowed, one rule each. *)
Inductive spec_step (s : Spec) : label → Spec → Prop :=
| st_idle : spec_step s Idle s
| st_list who c id price :
    tok s c id = Free who → (0 < price)%Z →
    spec_step s (List_ who c id price)
      (earn listing_fee (put c id (ForSale (Fixed who price)) s))
| st_buy who seller c id price :
    tok s c id = ForSale (Fixed seller price) →
    spec_step s (Buy who seller c id price) (put c id (Free who) s)
| st_start who c id old price endTime :
    tok s c id = ForSale (Fixed who old) →
    spec_step s (Start who c id price endTime)
      (put c id (ForSale (Auction who price endTime 0 0)) s)
| st_bid who c id amount now seller price endTime bidder bid :
    tok s c id = ForSale (Auction seller price endTime bidder bid) →
    (now < endTime)%Z → (bid < amount)%Z →
    spec_step s (Bid who c id amount now)
      (earn amount (put c id (ForSale (Auction seller price endTime who amount)) s))
| st_offer who c id amount seller price :
    tok s c id = ForSale (Fixed seller price) → (0 < amount)%Z →
    spec_step s (MakeAnOffer who c id amount) (earn amount s)
| st_deposit amount : (0 ≤ amount)%Z → spec_step s (Deposit amount) (earn amount s)
| st_move c id from to :
    tok s c id = Free from → to ≠ 0%N →
    spec_step s (Move c id from to) (put c id (Free to) s).

Lemma spec_exec_step l s t : spec_exec l s = Some t ↔ spec_step s l t.
Proof.
  split.
  - destruct l as [|who c id ?|who se c id ?|who c id ??|who c id ??|who c id ?|?|c id ??];
      cbn; try destruct (tok s c id) as [?|[]] eqn:?; intros H; simplify_option_eq;
      destruct_and?; subst; by econstructor.
  - destruct 1; cbn; repeat match goal with H : tok _ _ _ = _ |- _ => rewrite H end;
      by simplify_option_eq.
Qed.

(** The token asked about is the one the step is about, or another. *)
Ltac same_token :=
  cbn [tok funds put earn] in *;
  repeat match goal with
  | H : context [decide (?a = ?b ∧ ?i = ?j)] |- _ => destruct (decide (a = b ∧ i = j)) as [[-> ->]|?]
  | |- context [decide (?a = ?b ∧ ?i = ?j)] => destruct (decide (a = b ∧ i = j)) as [[-> ->]|?]
  end.

(** *** What the specification promises *)

(** An auction keeps its seller, price and end, and its bid only grows. *)
Lemma spec_auction_forever ls s t c id seller price endTime bidder bid :
  spec_run ls s = Some t →
  tok s c id = ForSale (Auction seller price endTime bidder bid) →
  ∃ bidder' bid', (bid ≤ bid')%Z ∧
    tok t c id = ForSale (Auction seller price endTime bidder' bid').
Proof.
  intros H. revert bidder bid. revert ls s t H.
  refine (spec_run_ind _ _ _); [intros; do 2 eexists; split; [reflexivity|eassumption]|].
  intros s l s' ls t H _ IH bidder bid Ha.
  assert (∃ bidder' bid', (bid ≤ bid')%Z ∧
    tok s' c id = ForSale (Auction seller price endTime bidder' bid'))
    as (bidder' & bid' & Hle & Ha').
  { apply spec_exec_step in H. clear IH.
    destruct H; same_token; try congruence;
      do 2 eexists; (split; [|first [eassumption | repeat f_equal; congruence]]); 
      simplify_eq; try lia; congruence || (rewrite Ha in *; simplify_eq; lia). }
  destruct (IH _ _ Ha') as (b2 & bid2 & ? & ?). exists b2, bid2. split; [lia|done].
Qed.

(** A fixed-price sale ends in a purchase from that seller at that price, unless
    it became an auction, which it then remains. *)
Lemma spec_sale_ends ls s t c id seller price :
  spec_run ls s = Some t → tok s c id = ForSale (Fixed seller price) →
  tok t c id = ForSale (Fixed seller price) ∨
  (∃ buyer, Buy buyer seller c id price ∈ ls) ∨
  (∃ p e b bid, tok t c id = ForSale (Auction seller p e b bid)).
Proof.
  revert ls s t. refine (spec_run_ind _ _ _); [auto|].
  intros s l s' ls t H Hr IH Hs.
  destruct (decide (tok s' c id = tok s c id)) as [E|Hne].
  - rewrite Hs in E. destruct (IH E) as [?|[(b & ?)|?]]; [auto| |auto].
    right. left. exists b. by right.
  - right. apply spec_exec_step in H. clear IH.
    destruct H; same_token; try done; rewrite Hs in *; simplify_eq.
    + left. eexists. by left.
    + right. edestruct spec_auction_forever as (b & bid & _ & Ht); [exact Hr| |by eauto].
      cbn. by rewrite decide_True.
Qed.

(** A bid is never negative, and so the market never loses ether. *)
Definition bids_nonneg (s : Spec) : Prop := ∀ c id seller price endTime bidder bid,
  tok s c id = ForSale (Auction seller price endTime bidder bid) → (0 ≤ bid)%Z.

Lemma spec_step_funds s l t :
  spec_step s l t → bids_nonneg s → (funds s ≤ funds t)%Z ∧ bids_nonneg t.
Proof.
  intros H Hb. split.
  - destruct H; cbn; unfold listing_fee; try lia.
    match goal with H : tok s _ _ = _ |- _ => specialize (Hb _ _ _ _ _ _ _ H) end. lia.
  - intros c' id' se p e b bid' Ha.
    destruct H; same_token; simplify_eq; try (by eapply Hb).
    + done.
    + match goal with H : tok s _ _ = _ |- _ => specialize (Hb _ _ _ _ _ _ _ H) end. lia.
Qed.

Lemma spec_funds_grow ls s t :
  spec_run ls s = Some t → bids_nonneg s → (funds s ≤ funds t)%Z.
Proof.
  revert ls s t. refine (spec_run_ind _ _ _); [done|].
  intros s l s' ls t H%spec_exec_step _ IH Hb.
  destruct (spec_step_funds _ _ _ H Hb) as [? ?%IH]. lia.
Qed.

(** ** Reading the market from its events

    A listener that keeps, for every token, the seller and the price of the
    last [MarketItemCreated] that no [MarketItemSold] followed. *)
Definition listen (c : address) (id : Z) (r : option (address * Z)) (e : market_event)
    : option (address * Z) :=
  match e with
  | MarketItemCreated c' id' seller _ price =>
      if decide (c' = c ∧ id' = id) then Some (seller, price) else r
  | MarketItemSold c' id' _ _ _ => if decide (c' = c ∧ id' = id) then None else r
  | _ => r
  end.

(** What the listener should believe of a token. *)
Definition heard (h : holding) (r : option (address * Z)) : Prop :=
  match h with
  | Free _ => r = None
  | ForSale (Fixed seller price) => r = Some (seller, price)
  | ForSale (Auction seller _ _ _ _) => ∃ price, r = Some (seller, price)
  end.

Lemma spec_events ls s t c id r :
  spec_run ls s = Some t → heard (tok s c id) r →
  heard (tok t c id) (foldl (listen c id) r (ls ≫= events_of)).
Proof.
  intros H. revert r. revert ls s t H. refine (spec_run_ind _ _ _); [done|].
  intros s l s' ls t H%spec_exec_step _ IH r Hr. cbn [mbind list_bind].
  rewrite foldl_app. apply IH. clear IH.
  destruct H; same_token; try done; cbn; 
    try (rewrite decide_False by done); try (rewrite decide_True by done); try done; eauto;
    repeat match goal with H : tok s _ _ = _ |- _ => rewrite H in Hr end; cbn in Hr; eauto.
Qed.
