(* ===== verification/Refine.v ===== *)
(** * The contracts implement the abstract market of Spec

    [abs]: the market a state of the chain stands for.  Every atomic step of
    the chain is one step of the specification ([astep_refines]), announced by
    the same events; so every evolution is a run of it, and what Spec proves
    holds of the contracts. *)

From stdpp Require Import base list gmap strings numbers relations.
From Stdlib Require Import ZArith Lia.
From S2P Require Import Prelude Evm Erc721 NFTCollection MarketStorage Marketplace Chain Trace ChainFacts.
From S2P Require Import EnvLaws MarketFacts Steps Invariants Money Purchases Safety Spec.

Section refine.
Variable this : address.
Variable create_address : N → address.
Variable accepts_ether : address → bool.

#[local] Instance chain_ops : ChainEnv Env := Env_ops this create_address accepts_ether.

Abbreviation astep := (astep this create_address accepts_ether).
Abbreviation evolves := (evolves this create_address accepts_ether).
Abbreviation genesis := (genesis this).
Abbreviation reachable := (reachable this create_address accepts_ether).
Abbreviation owner_of := (owner_of this create_address accepts_ether).
Abbreviation held := (held this).
Abbreviation effect := (effect this create_address accepts_ether).
Abbreviation same_tokens := (same_tokens this create_address accepts_ether).
Abbreviation token_moved := (token_moved this create_address accepts_ether).
Abbreviation escrow_ok := (escrow_ok this create_address accepts_ether).
Abbreviation inv := (inv this create_address accepts_ether).
Implicit Types (w : World).

(** ** The market a state stands for *)
Definition sale_of (i : MarketItem) : sale :=
  if i_isAuction i
  then Auction (i_seller i) (i_price i) (i_auctionEndTime i) (i_highestBidder i) (i_highestBid i)
  else Fixed (i_seller i) (i_price i).

Definition holding_of w (c : address) (id : Z) : holding :=
  let i := item_at (m_store w) c id in
  if i_isOnSale i then ForSale (sale_of i) else Free (owner_of w c id).

Definition abs w : Spec := {| tok := holding_of w; funds := held w |}.

(** The trades among the events. *)
Definition is_trade (e : market_event) : bool :=
  match e with
  | CategoryAdded _ | CollectionCreated _ _ _ _ _ => false
  | MarketItemCreated _ _ _ _ _ | MarketItemSold _ _ _ _ _ | OfferCreated _ _ _ => true
  end.
Definition trades w : list market_event := filter (λ e, is_trade e = true) (m_logs w).

(** The step of the specification a call of the marketplace is. *)
Definition label_of (m : msg) (f : market_call) w : label :=
  match f with
  | CreateMarketItem c id price => List_ (msg_sender m) c id price
  | CreateMarketSale c id =>
      Buy (msg_sender m) (i_seller (item_at (m_store w) c id)) c id (msg_value m)
  | CreateAuction c id startingPrice duration =>
      if i_isOnSale (item_at (m_store w) c id)
      then Start (msg_sender m) c id startingPrice (block_timestamp m + duration) else Idle
  | PlaceBid c id =>
      if i_isOnSale (item_at (m_store w) c id)
      then Bid (msg_sender m) c id (msg_value m) (block_timestamp m)
      else Deposit (msg_value m)
  | MakeOffer c id => MakeAnOffer (msg_sender m) c id (msg_value m)
  | _ => Idle
  end.

(** An item that is not on auction carries no bid. *)
Definition no_stale_bid (i : MarketItem) : Prop :=
  i_isAuction i = false → i_highestBidder i = 0%N ∧ i_highestBid i = 0%Z.
Definition items_fresh w : Prop := ∀ c id, no_stale_bid (item_at (m_store w) c id).

(** ** Marketplace calls *)
Lemma effect_fresh m f w w' : effect m f w w' → items_fresh w → items_fresh w'.
Proof.
  intros He Hf c' id'. specialize (Hf c' id') as Hi. revert Hi.
  destruct f; cbn [Steps.effect] in He; split_hyps;
    match goal with H : m_store w' = _ |- _ => rewrite H end; try done;
    rewrite ?listed_item, ?sold_item, ?auctioned_item, ?bid_item;
    case_decide as Hd; try done; destruct Hd as [-> ->]; unfold no_stale_bid; cbn;
    intros Hi; first [exact Hi | intros ?; congruence].
Qed.

(** An item that was not touched stays in the same hands. *)
Lemma holding_same w w' c id :
  item_at (m_store w') c id = item_at (m_store w) c id →
  owner_of w' c id = owner_of w c id → holding_of w' c id = holding_of w c id.
Proof. unfold holding_of. by intros -> ->. Qed.

Lemma abs_idle w w' :
  (∀ c id, item_at (m_store w') c id = item_at (m_store w) c id) →
  (∀ c id, owner_of w' c id = owner_of w c id) → held w' = held w → abs w ≡ abs w'.
Proof. intros Hi Ho Hh. split; [|done]. intros c id. symmetry. by apply holding_same. Qed.

(** One token changed hands, and [n] came in. *)
Lemma abs_put w w' c id h n :
  (∀ c' id', ¬ (c = c' ∧ id = id') → holding_of w' c' id' = holding_of w c' id') →
  holding_of w' c id = h → held w' = (held w + n)%Z →
  earn n (put c id h (abs w)) ≡ abs w'.
Proof.
  intros Ho Hh Hn. split; [|by cbn]. intros c' id'. cbn. case_decide as Hd.
  - by destruct Hd as [<- <-].
  - symmetry. by apply Ho.
Qed.

Lemma abs_put0 w w' c id h :
  (∀ c' id', ¬ (c = c' ∧ id = id') → holding_of w' c' id' = holding_of w c' id') →
  holding_of w' c id = h → held w' = held w → put c id h (abs w) ≡ abs w'.
Proof.
  intros Ho Hh Hn. rewrite <- (abs_put w w' c id h 0) by (done || lia).
  split; [done|]. cbn. lia.
Qed.

(** The other tokens, when a call wrote the item of one. *)
Ltac other_token Hs :=
  let Hd := fresh in
  intros ?c' ?id' Hd; apply holding_same;
  [rewrite Hs, ?listed_item, ?sold_item, ?auctioned_item, ?bid_item; by rewrite decide_False
  |match goal with
   | H : token_moved _ _ _ _ _ _ |- _ => destruct H as (_ & H & _); rewrite H; by rewrite decide_False
   | H : same_tokens _ _ |- _ => by apply H
   end].

(** The token itself. *)
Ltac this_token Hs :=
  unfold holding_of, sale_of; rewrite Hs, ?listed_item, ?sold_item, ?auctioned_item, ?bid_item;
  rewrite decide_True by done;
  cbn [i_isOnSale i_isAuction i_seller i_price i_auctionEndTime i_highestBidder i_highestBid
       item_sold item_auctioned item_bid].

(** Writing an item that is not on sale, and leaves it so, does not show. *)
Lemma holding_off_sale w w' c id i :
  i_isOnSale (item_at (m_store w) c id) = false → i_isOnSale i = false →
  (∀ c' id', item_at (m_store w') c' id' =
     if decide (c = c' ∧ id = id') then i else item_at (m_store w) c' id') →
  same_tokens w w' → ∀ c' id', holding_of w c' id' = holding_of w' c' id'.
Proof.
  intros Hs Hi Hw (Ho & _) c' id'. unfold holding_of, sale_of. rewrite Hw.
  case_decide as Hd; [|by rewrite Ho]. destruct Hd as [<- <-]. by rewrite Hs, Hi, Ho.
Qed.

Definition refines m f w w' : Prop :=
  ∃ t, spec_step (abs w) (label_of m f w) t ∧ t ≡ abs w'.

Lemma idle_refines m f w w' :
  label_of m f w = Idle →
  (∀ c id, item_at (m_store w') c id = item_at (m_store w) c id) →
  (∀ c id, owner_of w' c id = owner_of w c id) → held w' = held w → refines m f w w'.
Proof.
  intros El Hi Ho Hh. eexists. rewrite El. split; [apply st_idle|by apply abs_idle].
Qed.

Lemma createAuction_refines m c id start dur w w' :
  items_fresh w → effect m (CreateAuction c id start dur) w w' →
  refines m (CreateAuction c id start dur) w w'.
Proof.
  intros Hf (_ & Hse & Hau & Hs & Hsame & Hh). destruct (Hf c id Hau) as [Hb0 Hb1].
  unfold refines. cbn [label_of]. destruct (i_isOnSale _) eqn:Hsale; eexists.
  - split; [apply (st_start _ _ _ _ (i_price (item_at (m_store w) c id)))|].
    + cbn. unfold holding_of, sale_of. by rewrite Hsale, Hau, Hse.
    + apply abs_put0; [by other_token Hs| |done]. this_token Hs. by rewrite Hsale, Hse, Hb0, Hb1.
  - split; [apply st_idle|]. split; [|done]. cbn.
    eapply (holding_off_sale w w' c id); [done| |by intros; rewrite Hs; apply auctioned_item|done].
    exact Hsale.
Qed.

Lemma placeBid_refines m c id w w' :
  (0 ≤ msg_value m)%Z → effect m (PlaceBid c id) w w' → refines m (PlaceBid c id) w w'.
Proof.
  intros Hval (_ & Hau & Ht & Hb & Hs & Hsame & Hh).
  unfold refines. cbn [label_of]. destruct (i_isOnSale _) eqn:Hsale; eexists.
  - split; [eapply st_bid; [|done..]|].
    + cbn. unfold holding_of, sale_of. by rewrite Hsale, Hau.
    + apply abs_put; [by other_token Hs| |done]. this_token Hs. by rewrite Hsale, Hau.
  - split; [by apply st_deposit|]. split; [|cbn; congruence]. cbn.
    eapply (holding_off_sale w w' c id); [done| |by intros; rewrite Hs; apply bid_item|done].
    exact Hsale.
Qed.

Lemma createMarketItem_refines m c id price w w' :
  inv_base this w → escrow_ok w → msg_sender m ≠ this →
  effect m (CreateMarketItem c id price) w w' → refines m (CreateMarketItem c id price) w w'.
Proof.
  intros [_ _ Hfee] [E1 _ _] Hst (_ & _ & Hp & _ & (uri & Hs) & Hmv & Hh).
  eexists. cbn [label_of]. split; [apply st_list; [|done]|].
  - cbn. unfold holding_of. destruct (i_isOnSale _) eqn:Hsale.
    + apply E1 in Hsale. destruct Hmv as (Hfrom & _). congruence.
    + f_equal. apply Hmv.
  - apply abs_put; [by other_token Hs|by this_token Hs|]. rewrite Hh, Hfee. done.
Qed.

Lemma createMarketSale_refines m c id w w' :
  effect m (CreateMarketSale c id) w w' → refines m (CreateMarketSale c id) w w'.
Proof.
  intros (_ & Hsale & Hau & Hv & Hs & Hmv & Hh). eexists. cbn [label_of]. split; [apply st_buy|].
  - cbn. unfold holding_of, sale_of. by rewrite Hsale, Hau, Hv.
  - apply abs_put0; [by other_token Hs| |done]. this_token Hs.
    destruct Hmv as (_ & Hmv & _). f_equal. by rewrite (Hmv c id), decide_True.
Qed.

Lemma makeOffer_refines m c id w w' :
  effect m (MakeOffer c id) w w' → refines m (MakeOffer c id) w w'.
Proof.
  intros (_ & Hsale & Hau & Hv & Hs & (Ho & _) & Hh). eexists. cbn [label_of].
  split; [eapply st_offer; [|done]|].
  - cbn. unfold holding_of, sale_of. by rewrite Hsale, Hau.
  - split; [|cbn; congruence]. intros c' id'. symmetry. by apply holding_same; [rewrite Hs|].
Qed.

Lemma effect_refines m f w w' :
  inv_base this w → escrow_ok w → items_fresh w → valid_msg this w m → effect m f w w' →
  refines m f w w'.
Proof.
  intros Hb Hesc Hf (Hs0 & Hcode & [Hval _] & _) He.
  assert (Hst : msg_sender m ≠ this) by by eapply not_code_not_this.
  destruct f as [category|name symbol baseURI category|c id price|c id|c id start dur
                |c id|c id|c|o|];
    [|
     |by apply createMarketItem_refines|by apply createMarketSale_refines
     |by apply createAuction_refines|by apply placeBid_refines|by apply makeOffer_refines|..];
    cbn [Steps.effect] in He.
  - destruct He as (_ & Hs & (Ho & _) & Hh). by apply idle_refines; rewrite ?Hs.
  - destruct He as (a & _ & _ & Hs & Ho & _ & _ & _ & Hh). by apply idle_refines; rewrite ?Hs.
  - destruct He as (_ & _ & (k & _ & Hs) & (Ho & _) & Hh). by apply idle_refines; rewrite ?Hs.
  - destruct He as ((o' & Hs) & (Ho & _) & Hh). by apply idle_refines; rewrite ?Hs.
  - destruct He as ((o' & Hs) & (Ho & _) & Hh). by apply idle_refines; rewrite ?Hs.
Qed.

(** The trades a call announces are those of its step. *)
Lemma trades_app w w' es :
  m_logs w' = m_logs w ++ es → trades w' = trades w ++ filter (λ e, is_trade e = true) es.
Proof. intros E. unfold trades. by rewrite E, filter_app. Qed.

Lemma trades_same w w' : m_logs w' = m_logs w → trades w' = trades w ++ [].
Proof. intros E. unfold trades. by rewrite E, app_nil_r. Qed.

Lemma market_trades m f w w' :
  ok_env this (m_env w) → valid_msg this w m →
  market_exec this create_address accepts_ether m f w = Ok (tt, w') →
  trades w' = trades w ++ events_of (label_of m f w).
Proof.
  intros Hok Hv H. eapply market_exec_Ok in H as (w1 & H & [Est El _ _ _ _]); [|done..].
  destruct f as [category|name symbol baseURI category|c id price|c id|c id start dur
                |c id|c id|c|o|]; cbn in H; cbn [label_of]; rewrite <- ?Est.
  - apply addCategory_Ok in H as (_ & _ & _ & _ & E). eapply eq_trans; [apply trades_app; by rewrite E, El|done].
  - apply bind_Ok in H as (a & w2 & H & Hr). injection Hr as <-.
    apply createCollection_Ok in H as (_ & _ & _ & E). eapply eq_trans; [apply trades_app; by rewrite E, El|done].
  - apply createMarketItem_Ok in H as (_ & _ & _ & _ & uri & _ & _ & _ & E).
    eapply eq_trans; [apply trades_app; by rewrite E, El|done].
  - apply createMarketSale_Ok in H as (_ & _ & _ & _ & _ & _ & _ & E).
    eapply eq_trans; [apply trades_app; by rewrite E, El|done].
  - apply createAuction_Ok in H as (_ & _ & _ & _ & _ & _ & E).
    case_match; apply trades_same; by rewrite E, El.
  - apply placeBid_Ok in H as (_ & _ & _ & _ & _ & _ & _ & E).
    case_match; apply trades_same; by rewrite E, El.
  - apply makeOffer_Ok in H as (_ & _ & _ & _ & _ & _ & E).
    eapply eq_trans; [apply trades_app; by rewrite E, El|done].
  - apply updateCollectionTotalSupply_Ok in H as (_ & _ & n & _ & _ & _ & E).
    apply trades_same. by rewrite E, El.
  - assert (Ho := ownership_Ok m w1 tt w' (or_introl (ex_intro _ o H))).
    destruct Ho as (_ & _ & _ & E). apply trades_same. by rewrite E, El.
  - assert (Ho := ownership_Ok m w1 tt w' (or_intror H)). destruct Ho as (_ & _ & _ & E).
    apply trades_same. by rewrite E, El.
Qed.

(** ** Local operations of a collection *)

(** At most one token moves, out of hands that are not the marketplace's. *)
Lemma nft_local_owner n n' :
  ok_nft this n → this ≠ 0%N → nft_local this n n' →
  (∀ id, _ownerOf (erc721 n') id = _ownerOf (erc721 n) id) ∨
  ∃ id to, _ownerOf (erc721 n) id ≠ this ∧ to ≠ 0%N ∧
    ∀ id', _ownerOf (erc721 n') id' = if decide (id = id') then to else _ownerOf (erc721 n) id'.
Proof.
  intros Hok Hnz Hl.
  destruct Hl as [caller to id u n' H0 Ht H|caller op b u n' H0 Ht H
                 |caller from to id u n' H0 Ht H|o|to id n1 u n' Ht Hn H|id uri u n' H].
  - left. by eapply (ok_nft_approve this caller (conj H0 Ht)).
  - left. by eapply (ok_nft_setApprovalForAll this caller (conj H0 Ht)).
  - right. destruct (ok_nft_transferFrom this caller (conj H0 Ht) from to id n u n' Hok H)
      as (_ & ? & ? & ? & _). by exists id, to.
  - by left.
  - right. destruct (ok_nft_mint this to n id n1 u n' Hok Hn H) as (_ & _ & Hz & ? & ? & _).
    exists id, to. split_and!; [congruence|done..].
  - left. by eapply (ok_nft_setTokenURI this id uri).
Qed.

Lemma nft_refines w c n n' :
  inv_base this w → escrow_ok w → e_nfts (m_env w) !! c = Some n → nft_local this n n' →
  ∃ l t, spec_step (abs w) l t ∧ t ≡ abs (set_env (set_nft c n' (m_env w)) w) ∧ events_of l = [].
Proof.
  intros [Henv _ _] [E1 _ _] Hn Hl. set (w' := set_env _ w).
  assert (Ho : ∀ c' id, owner_of w' c' id =
    if decide (c = c') then _ownerOf (erc721 n') id else owner_of w c' id).
  { intros c' id. by apply (set_nft_ownerOf this create_address accepts_ether c n). }
  assert (Hc : ∀ id, owner_of w c id = _ownerOf (erc721 n) id).
  { intros id. unfold Steps.owner_of. cbn. by rewrite Hn. }
  destruct (nft_local_owner n n') as [Hs|(id & to & Hne & Hto & Hs)]; [|eauto using env_this_nonzero..|].
  { by eapply env_nfts_ok. }
  - exists Idle. eexists. split; [apply st_idle|]. split; [|done].
    apply abs_idle; [done| |done]. intros c' id. rewrite Ho. case_decide; [subst|done].
    by rewrite Hs, Hc.
  - assert (Hfree : i_isOnSale (item_at (m_store w) c id) = false).
    { apply not_true_is_false. intros Hsale%E1. congruence. }
    exists (Move c id (owner_of w c id) to). eexists. split; [apply st_move; [|done]|].
    + cbn. unfold holding_of. by rewrite Hfree.
    + split; [|done]. apply abs_put0; [| |done].
      * intros c' id' Hd. apply holding_same; [done|]. rewrite Ho. case_decide; [subst|done].
        rewrite Hs, Hc. apply decide_False. naive_solver.
      * unfold holding_of. cbn [m_store set_env w']. rewrite Hfree, Ho, decide_True, Hs by done.
        by rewrite decide_True.
Qed.

(** ** Every step of the chain is a step of the specification *)
Lemma astep_refines w w' :
  inv w → items_fresh w → astep w w' →
  items_fresh w' ∧ ∃ l t, spec_exec l (abs w) = Some t ∧ t ≡ abs w' ∧
    trades w' = trades w ++ events_of l.
Proof.
  intros [Hb _ Hesc _ _] Hf Hs.
  destruct Hs as [w m f w' Hv Hcall H|w c n n' Hn Hl|w c ts w' Hc H|w b Hb'].
  - pose proof (base_env _ _ Hb) as Henv.
    destruct (market_effect _ _ _ _ _ _ _ _ Hv Henv H) as [_ He].
    split; [by eapply effect_fresh|].
    destruct (effect_refines m f w w' Hb Hesc Hf Hv He) as (t & Ht & Heq).
    exists (label_of m f w), t. split; [by apply spec_exec_step|]. split; [done|].
    by apply market_trades.
  - split; [done|]. destruct (nft_refines w c n n' Hb Hesc Hn Hl) as (l & t & Ht & Heq & He).
    exists l, t. split; [by apply spec_exec_step|]. split; [done|].
    rewrite He. by apply trades_same.
  - apply updateCollectionTotalSupply_Ok in H as (_ & _ & k & _ & Hst & He & Hl).
    split; [intros c' id'; rewrite Hst; apply Hf|].
    exists Idle. eexists. split; [done|]. split; [|by apply trades_same].
    apply abs_idle; [by rewrite Hst|intros c' id'|]; unfold Steps.owner_of, Steps.held; by rewrite He.
  - split; [done|]. exists Idle. eexists. split; [done|]. split; [|by apply trades_same].
    by apply abs_idle.
Qed.

Lemma genesis_fresh w : genesis w → items_fresh w.
Proof.
  intros (m & b & Hd & _). rewrite deploy_run in Hd. injection Hd as <-.
  intros c id. unfold item_at. cbn. by rewrite mget_empty.
Qed.

Lemma rtc_refines w w' :
  rtc astep w w' → inv w → items_fresh w →
  items_fresh w' ∧ ∃ ls t, spec_run ls (abs w) = Some t ∧ t ≡ abs w' ∧
    trades w' = trades w ++ (ls ≫= events_of).
Proof.
  induction 1 as [w|w w1 w' Hs _ IH]; intros Hi Hf.
  - split; [done|]. exists [], (abs w). split_and!; [done..|]. by rewrite app_nil_r.
  - destruct (astep_refines w w1 Hi Hf Hs) as (Hf1 & l & t1 & Ht1 & Heq1 & Hl1).
    destruct IH as (Hf' & ls & t & Ht & Heq & Hl); [by eapply astep_inv|done|].
    split; [done|].
    assert (Hrun : spec_run ls t1 ≡ Some t) by (rewrite Heq1; by rewrite Ht).
    inversion Hrun as [t' ? Heq' Ht'|]; subst.
    exists (l :: ls), t'. split; [|split].
    + rewrite spec_run_cons, Ht1. cbn. done.
    + by rewrite Heq'.
    + rewrite Hl, Hl1. cbn. by rewrite (assoc_L (++)).
Qed.

Hypothesis this_nonzero : this ≠ 0%N.

Lemma reachable_fresh w : reachable w → items_fresh w.
Proof.
  intros (w0 & Hg & He). apply evolves_asteps in He.
  eapply rtc_refines; [done|by eapply genesis_inv|by apply genesis_fresh].
Qed.

Lemma evolves_refines w w' :
  reachable w → evolves w w' →
  ∃ ls t, spec_run ls (abs w) = Some t ∧ t ≡ abs w' ∧
    trades w' = trades w ++ (ls ≫= events_of).
Proof.
  intros Hr He. apply evolves_asteps in He.
  eapply rtc_refines; [done|by eapply reachable_inv|by apply reachable_fresh].
Qed.

(** C3: the contracts implement the abstract market: every evolution from a
    reachable state, callbacks included, is a run of the specification between
    the markets the two states stand for, and the trades it announces are
    exactly the events of that run, in order. *)
Theorem market_refines_spec w w' :
  reachable w → evolves w w' →
  ∃ ls t, spec_run ls (abs w) = Some t ∧ t ≡ abs w' ∧
    trades w' = trades w ++ (ls ≫= events_of).
Proof. apply evolves_refines. Qed.

(** ** What follows for the contracts *)

(** The listener only hears trades. *)
Lemma listen_trades c id l r :
  foldl (listen c id) r (filter (λ e, is_trade e = true) l) = foldl (listen c id) r l.
Proof.
  revert r. induction l as [|e l IH]; intros r; [done|].
  rewrite filter_cons. case_decide as He; cbn [foldl]; rewrite IH; [done|].
  by destruct e.
Qed.

Lemma genesis_abs w : genesis w → trades w = [] ∧ ∀ c id, holding_of w c id = Free 0.
Proof.
  intros (m & b & Hd & _). rewrite deploy_run in Hd. injection Hd as <-. split; [done|].
  intros c id. unfold holding_of, item_at. cbn. by rewrite mget_empty.
Qed.

Lemma reachable_heard w c id :
  reachable w → heard (holding_of w c id) (foldl (listen c id) None (m_logs w)).
Proof.
  intros (w0 & Hg & He). pose proof (genesis_abs w0 Hg) as [Hl0 H0].
  destruct (evolves_refines w0 w) as (ls & t & Hrun & Heq & Hl);
    [by exists w0; split; [|apply ev_refl]|done|].
  rewrite <- listen_trades. fold (trades w). rewrite Hl, Hl0. cbn [app].
  change (holding_of w c id) with (tok (abs w) c id). rewrite <- Heq.
  eapply spec_events; [done|]. cbn. by rewrite H0.
Qed.

(** C6: the events tell the market: a listener that keeps, for a token, the
    last [MarketItemCreated] that no [MarketItemSold] followed knows in every
    reachable state whether it is on sale, by whom, and, unless it was put up
    for auction, at what price. *)
Theorem events_tell_listings w c id :
  reachable w →
  let i := item_at (m_store w) c id in
  let r := foldl (listen c id) None (m_logs w) in
  if i_isOnSale i
  then ∃ price, r = Some (i_seller i, price) ∧ (i_isAuction i = false → price = i_price i)
  else r = None.
Proof.
  intros Hr. pose proof (reachable_heard w c id Hr) as H. revert H.
  cbv zeta. unfold holding_of, sale_of. repeat case_match; cbn; intros H'; try done.
  - destruct H' as [p ->]. by exists p.
  - rewrite H'. eauto.
Qed.

(** A fixed-price listing ends only in a sale: if a token on sale at a fixed
    price is later no longer on sale, a [MarketItemSold] from that seller at
    that price was announced in between. *)
Theorem sale_ends_in_purchase w w' c id :
  reachable w → evolves w w' →
  let i := item_at (m_store w) c id in
  i_isOnSale i = true → i_isAuction i = false →
  i_isOnSale (item_at (m_store w') c id) = false →
  ∃ es buyer, trades w' = trades w ++ es ∧
    MarketItemSold c id (i_seller i) buyer (i_price i) ∈ es.
Proof.
  intros Hr He i Hs Ha Hs'.
  destruct (evolves_refines w w' Hr He) as (ls & t & Hrun & Heq & Hl).
  assert (Ht : ∀ s, tok t c id ≠ ForSale s).
  { intros s. rewrite Heq. cbn. unfold holding_of. by rewrite Hs'. }
  assert (Hi : tok (abs w) c id = ForSale (Fixed (i_seller i) (i_price i))).
  { cbn. unfold holding_of, sale_of. fold i. by rewrite Hs, Ha. }
  destruct (spec_sale_ends _ _ _ _ _ _ _ Hrun Hi) as [E|[(buyer & Hb)|(p & e & b & bid & E)]];
    [by destruct (Ht _ E)| |by destruct (Ht _ E)].
  exists (ls ≫= events_of), buyer. split; [done|].
  apply list_elem_of_bind. eexists. split; [|exact Hb]. by left.
Qed.
End refine.

(** ** On the deployment of Trace *)
Section witnesses.
Import demo.

Lemma w_listed_sold : demo.evolves w_listed w_sold.
Proof.
  replace w_sold with (play sale w_listed) by by vm_compute.
  apply play_evolves. vm_compute. eauto.
Qed.

Lemma market_refines_spec_witness :
  ∃ ls t, spec_run ls (abs this create_address accepts_ether w_listed) = Some t ∧
    t ≡ abs this create_address accepts_ether w_sold ∧
    trades w_sold = trades w_listed ++ (ls ≫= events_of).
Proof.
  exact (market_refines_spec this create_address accepts_ether ltac:(done) w_listed w_sold
    w_listed_reachable w_listed_sold).
Defined.

Lemma events_tell_listings_witness :
  ∃ price, foldl (listen apes 1) None (m_logs w_listed) = Some (alice, price) ∧
    price = ether_.
Proof.
  assert (Hs : i_isOnSale (item_at (m_store w_listed) apes 1) = true) by by vm_compute.
  assert (Ha : i_isAuction (item_at (m_store w_listed) apes 1) = false) by by vm_compute.
  assert (He : i_seller (item_at (m_store w_listed) apes 1) = alice) by by vm_compute.
  assert (Hp : i_price (item_at (m_store w_listed) apes 1) = ether_) by by vm_compute.
  pose proof (events_tell_listings this create_address accepts_ether ltac:(done) w_listed apes 1
    w_listed_reachable) as H.
  cbv zeta in H. rewrite Hs in H. destruct H as (p & Hr & H). exists p.
  rewrite He in Hr. split; [done|]. by rewrite (H Ha).
Defined.

Lemma sale_ends_in_purchase_witness :
  ∃ es buyer, trades w_sold = trades w_listed ++ es ∧
    MarketItemSold apes 1 (i_seller (item_at (m_store w_listed) apes 1)) buyer
      (i_price (item_at (m_store w_listed) apes 1)) ∈ es.
Proof.
  apply (sale_ends_in_purchase this create_address accepts_ether ltac:(done) w_listed w_sold);
    [apply w_listed_reachable|apply w_listed_sold|by vm_compute..].
Defined.
End witnesses.
