(* ===== verification/Realise.v ===== *)
(** * What the abstract market allows, the contracts do

    The converse of Refine: whenever the specification allows a trade, the call
    that asks for it succeeds, under the conditions the specification does not
    speak of ([ready]), and leads to the market the trade leads to. *)

From stdpp Require Import base list gmap strings numbers relations.
From Stdlib Require Import ZArith Lia.
From S2P Require Import Prelude Evm Erc721 NFTCollection MarketStorage Marketplace Chain Trace ChainFacts.
From S2P Require Import EnvLaws MarketFacts Steps Invariants Money Purchases Safety Sales Words Spec Refine.

Section realise.
Variable this : address.
Variable create_address : N → address.
Variable accepts_ether : address → bool.

#[local] Instance chain_ops : ChainEnv Env := Env_ops this create_address accepts_ether.

Abbreviation evolves := (evolves this create_address accepts_ether).
Abbreviation reachable := (reachable this create_address accepts_ether).
Abbreviation exec := (exec this create_address accepts_ether).
Abbreviation owner_of := (owner_of this create_address accepts_ether).
Abbreviation abs := (abs this create_address accepts_ether).
Abbreviation held := (held this).
Implicit Types (w : World).

(** The call that asks for a trade at a time; moves are not trades. *)
Definition call_of (now : Z) (l : label) : option (msg * market_call) :=
  match l with
  | List_ who c id price => Some (Msg who listing_fee now, CreateMarketItem c id price)
  | Buy who seller c id price => Some (Msg who price now, CreateMarketSale c id)
  | Start who c id price endTime => Some (Msg who 0 now, CreateAuction c id price (endTime - now))
  | Bid who c id amount at_ => Some (Msg who amount at_, PlaceBid c id)
  | MakeAnOffer who c id amount => Some (Msg who amount now, MakeOffer c id)
  | Idle | Deposit _ | Move _ _ _ _ => None
  end.

(** What the specification leaves out: the sender can pay; a collection is
    registered and the marketplace approved for the token to be listed; the
    seller takes ether; counters and times fit in a word. *)
Definition ready w (m : msg) (l : label) : Prop :=
  (msg_value m ≤ (e_ether (m_env w)).[msg_sender m])%Z ∧
  match l with
  | List_ who c id _ =>
      c_isActive (collections (m_store w)).[c] = true ∧
      ∃ n, e_nfts (m_env w) !! c = Some n ∧ _isAuthorized (erc721 n) who this id = true
  | Buy who seller _ _ _ =>
      accepts_ether seller = true ∧ code_at this (m_env w) seller = false ∧
      ((userPurchaseCount (m_store w)).[who] < uint256_max)%Z
  | Start _ _ _ _ endTime => (endTime ≤ uint256_max)%Z
  | Bid _ _ _ _ _ => (held w ≤ uint256_max)%Z
  | _ => True
  end.

(** What an abstract holding says of the item. *)
Lemma holding_free w c id who :
  holding_of this create_address accepts_ether w c id = Free who →
  i_isOnSale (item_at (m_store w) c id) = false ∧ owner_of w c id = who.
Proof. unfold holding_of. destruct (i_isOnSale _); [done|]. by intros [= ->]. Qed.

Lemma holding_fixed w c id seller price :
  holding_of this create_address accepts_ether w c id = ForSale (Fixed seller price) →
  let i := item_at (m_store w) c id in
  i_isOnSale i = true ∧ i_isAuction i = false ∧ i_seller i = seller ∧ i_price i = price.
Proof.
  unfold holding_of, sale_of. destruct (i_isOnSale _); [|done].
  destruct (i_isAuction _); [done|]. by intros [= <- <-].
Qed.

Lemma holding_auction w c id seller price endTime bidder bid :
  holding_of this create_address accepts_ether w c id =
    ForSale (Auction seller price endTime bidder bid) →
  let i := item_at (m_store w) c id in
  i_isOnSale i = true ∧ i_isAuction i = true ∧
  i_auctionEndTime i = endTime ∧ i_highestBid i = bid.
Proof.
  unfold holding_of, sale_of. destruct (i_isOnSale _); [|done].
  destruct (i_isAuction _); [|done]. by intros [= <- <- <- <- <-].
Qed.

Hypothesis this_nonzero : this ≠ 0%N.

(** The call goes through, and it is that step of the specification. *)
Lemma call_succeeds w l t now m f :
  reachable w → valid_msg this w m → spec_step (abs w) l t → call_of now l = Some (m, f) →
  ready w m l →
  ∃ w', market_exec this create_address accepts_ether m f w = Ok (tt, w') ∧
    label_of m f w = l.
Proof.
  intros Hr Hv Hs Hc [Hpay Hready].
  pose proof (inv_b _ _ _ _ (reachable_inv _ _ _ this_nonzero _ Hr)) as [_ Hg _].
  destruct Hs as [|who c id price Hh Hp|who seller c id price Hh|who c id old price e Hh
    |who c id amount at_ seller price e b bid Hh Ht Hb|who c id amount seller price Hh Hp|amount|];
    try discriminate Hc; injection Hc as <- <-; cbn [msg_value msg_sender block_timestamp] in *; cbn in Hh.
  - apply holding_free in Hh as [_ Ho]. destruct Hready as (Ha & n & Hn & Hauth).
    destruct (listing_run this create_address accepts_ether w (Msg who listing_fee now) c id price
      n no_callback) as (e1 & e2 & _ & _ & H); try done.
    { unfold Steps.owner_of in Ho. cbn in Ho. by rewrite Hn in Ho. }
    by eexists.
  - apply holding_fixed in Hh as (Hs & Ha & <- & <-). destruct Hready as (Hacc & Hcode & Hn).
    destruct (sale_run this create_address accepts_ether w
      (Msg who (i_price (item_at (m_store w) c id)) now) c id no_callback)
      as (e1 & e2 & e3 & _ & _ & _ & H); try done.
    by eexists.
  - apply holding_fixed in Hh as (Hs & Ha & He & _). eexists. split.
    + unfold market_exec. cbn [payable market_body]. run_block. cbn -[createAuction].
      rewrite createAuction_run, Hg, Ha, He. cbn [msg_sender block_timestamp].
      rewrite bool_decide_false by tauto. rewrite (proj2 (Z.ltb_ge _ _)) by lia. reflexivity.
    + cbn. rewrite Hs. f_equal. lia.
  - apply holding_auction in Hh as (Hs & Ha & He & Hbid).
    destruct (bid_run this create_address accepts_ether this_nonzero (Msg who amount at_) c id w)
      as [e1 H]; [done..|by rewrite He|by rewrite Hbid|].
    eexists. split; [exact H|]. cbn. by rewrite Hs.
  - apply holding_fixed in Hh as (Hs & Ha & _).
    destruct (move_ether_run who this amount (m_env w) Hpay) as [e1 He1].
    eexists. split; [|done]. rewrite (market_exec_paid _ _ _ _ _ _ e1) by done.
    cbn [market_body]. rewrite makeOffer_run. cbn [m_store set_env msg_value].
    rewrite Hg, Hs, Ha. cbn [negb]. by rewrite (proj2 (Z.leb_gt _ _)).
Qed.

(** C4: the contracts offer the whole abstract market: in every reachable
    state, a listing, a purchase, the start of an auction, a bid or an offer
    that the specification allows goes through when the sender asks for it and
    the conditions outside the specification hold, and leads to the market the
    specification says. *)
Theorem spec_steps_realised w l t now m f :
  reachable w → spec_exec l (abs w) = Some t → call_of now l = Some (m, f) →
  valid_msg this w m → valid_call (ToMarket f) → ready w m l →
  ∃ w', exec no_callback m (ToMarket f) w = Ok (tt, w') ∧ evolves w w' ∧ abs w' ≡ t.
Proof.
  intros Hr Hs Hc Hv Hcall Hready. apply spec_exec_step in Hs as Hstep.
  destruct (call_succeeds w l t now m f Hr Hv Hstep Hc Hready) as (w' & Hx & Hl).
  exists w'. split; [exact Hx|]. split.
  { apply (transact_evolves _ _ _ m (ToMarket f)). unfold transact.
    rewrite decide_True by done. cbn [Chain.exec]. by rewrite Hx. }
  pose proof (reachable_inv _ _ _ this_nonzero _ Hr) as [Hb _ Hesc _ _].
  destruct (market_effect this create_address accepts_ether m f w tt w' Hv (base_env _ _ Hb) Hx)
    as [_ He].
  destruct (effect_refines this create_address accepts_ether m f w w' Hb Hesc
    (reachable_fresh _ _ _ this_nonzero w Hr) Hv He) as (t' & Ht' & <-).
  rewrite Hl in Ht'. apply spec_exec_step in Ht'. rewrite Hs in Ht'. by injection Ht' as ->.
Qed.
End realise.

(** ** On the deployment of Trace *)
Section witnesses.
Import demo.

Lemma spec_steps_realised_witness :
  let a := abs this create_address accepts_ether in
  ∃ w', Chain.exec this create_address accepts_ether no_callback (Msg bob ether_ 2040)
          (ToMarket (CreateMarketSale apes 1)) w_listed = Ok (tt, w') ∧
    demo.evolves w_listed w' ∧ a w' ≡ put apes 1 (Free bob) (a w_listed).
Proof.
  intros a. assert (Hh : tok (a w_listed) apes 1 = ForSale (Fixed alice ether_)) by by vm_compute.
  apply (spec_steps_realised this create_address accepts_ether ltac:(done) w_listed
           (Buy bob alice apes 1 ether_) (put apes 1 (Free bob) (a w_listed)) 2040
           (Msg bob ether_ 2040) (CreateMarketSale apes 1) w_listed_reachable).
  - apply spec_exec_step, st_buy. exact Hh.
  - done.
  - apply (bool_decide_unpack _). by vm_compute.
  - apply (bool_decide_unpack _). by vm_compute.
  - split_and!; by vm_compute.
Defined.
End witnesses.
