(* ===== verification/Numbers.v ===== *)
(** * JavaScript numbers

    The finite doubles, NaN and the infinities; how strings are read as numbers
    ([parseInt], [Number(s)]) and numbers written as strings; comparisons.
    Rounding is to the nearest double, ties to even, as ECMAScript has it. *)

From stdpp Require Import base list strings numbers.
From Stdlib Require Import ZArith Lia Ascii.
From S2P Require Import Prelude.

(** ** Values *)

(** [Frac m k] is m / 2^k, with m odd: a finite number that is not an integer.
    The two zeros are one. *)
Inductive jsnum := NaN | Inf (negative : bool) | Fin (z : Z) | Frac (m : Z) (k : positive).

#[export] Instance jsnum_eq_dec : EqDecision jsnum.
Proof. solve_decision. Defined.

(** Numerator and denominator of a finite number. *)
Definition ratio (n : jsnum) : Z * Z :=
  match n with
  | Fin z => (z, 1)%Z
  | Frac m k => (m, 2 ^ Zpos k)%Z
  | NaN | Inf _ => (0, 0)%Z
  end.

(** [a < b], false when one is NaN. *)
Definition num_lt (a b : jsnum) : bool :=
  match a, b with
  | NaN, _ | _, NaN => false
  | Inf n, Inf n' => n && negb n'
  | Inf n, _ => n
  | _, Inf n => negb n
  | _, _ => let '(p, q) := ratio a in let '(p', q') := ratio b in (p * q' <? p' * q)%Z
  end.

(** [Math.min(a, b)]. *)
Definition num_min (a b : jsnum) : jsnum :=
  match a, b with NaN, _ | _, NaN => NaN | _, _ => if num_lt b a then b else a end.

(** ** Rounding *)

(** The integer nearest to p / q, ties to even. *)
Definition round_even (p q : Z) : Z :=
  let d := (p / q)%Z in
  let r := (p mod q)%Z in
  if (q <? 2 * r)%Z || ((2 * r =? q) && Z.odd d)%Z then (d + 1)%Z else d.

(** p / q times a power of two, or of ten, as a fraction. *)
Definition scale (base p q e : Z) : Z * Z :=
  if (0 <=? e)%Z then (p * base ^ e, q)%Z else (p, q * base ^ (- e))%Z.

(** m times 2^e, of a double's mantissa and exponent. *)
Fixpoint half_while_even (fuel : nat) (m k : Z) : Z * Z :=
  match fuel with
  | O => (m, k)
  | S fuel =>
      if (0 <? k)%Z && Z.even m then half_while_even fuel (m / 2) (k - 1) else (m, k)
  end.
Definition dyadic (m e : Z) : jsnum :=
  if (0 <=? e)%Z then Fin (m * 2 ^ e) else
  match half_while_even (Z.to_nat (- e)) m (- e) with
  | (m, Zpos k) => Frac m k
  | (m, _) => Fin m
  end.

(** The double nearest to p / q, for p ≥ 0 and q > 0: 53 bits of mantissa,
    exponents from -1074, infinity from 2^1024 on. *)
Definition log2_ratio (p q : Z) : Z :=
  let e := (Z.log2 p - Z.log2 q)%Z in
  let '(a, b) := scale 2 p q (- e) in if (a <? b)%Z then (e - 1)%Z else e.
Definition nearest (p q : Z) : jsnum :=
  if (p =? 0)%Z then Fin 0 else
  let e := Z.max (log2_ratio p q - 52) (-1074) in
  let '(a, b) := scale 2 p q (- e) in
  let m := round_even a b in
  if (2 ^ 1024 <=? m * 2 ^ Z.max e 0)%Z then Inf false else dyadic m e.

Definition negate (n : jsnum) : jsnum :=
  match n with
  | NaN => NaN
  | Inf b => Inf (negb b)
  | Fin z => Fin (- z)
  | Frac m k => Frac (- m) k
  end.

(** The double nearest to an integer. *)
Definition to_double (z : Z) : jsnum :=
  if (z <? 0)%Z then negate (nearest (- z) 1) else nearest z 1.

(** ** Reading strings *)

(** White space below 256: tab, line feed, vertical tab, form feed, carriage
    return, space, no-break space. *)
Definition is_space (c : Ascii.ascii) : bool :=
  let n := Ascii.nat_of_ascii c in
  ((9 <=? n) && (n <=? 13)) || (n =? 32) || (n =? 160).
Fixpoint trim_start (s : string) : string :=
  match s with
  | String c s' => if is_space c then trim_start s' else s
  | EmptyString => EmptyString
  end.

Fixpoint trim_end (s : string) : string :=
  match s with
  | EmptyString => EmptyString
  | String c s' =>
      match trim_end s' with
      | EmptyString => if is_space c then EmptyString else String c EmptyString
      | t => String c t
      end
  end.

Definition digit_value (radix : Z) (c : Ascii.ascii) : option Z :=
  let n := Z.of_nat (Ascii.nat_of_ascii c) in
  let v := if (48 <=? n)%Z && (n <=? 57)%Z then (n - 48)%Z
           else if (97 <=? n)%Z && (n <=? 122)%Z then (n - 87)%Z
           else if (65 <=? n)%Z && (n <=? 90)%Z then (n - 55)%Z else 36%Z in
  if (v <? radix)%Z then Some v else None.

(** The longest prefix of digits, [None] when there is none. *)
Fixpoint digits (radix : Z) (s : string) (acc : option Z) : option Z :=
  match s with
  | EmptyString => acc
  | String c s =>
      match digit_value radix c with
      | Some d => digits radix s (Some (default 0 acc * radix + d))%Z
      | None => acc
      end
  end.

(** A sign, and the string after it. *)
Definition sign_of (s : string) : bool * string :=
  match s with
  | String "-"%char s => (true, s)
  | String "+"%char s => (false, s)
  | _ => (false, s)
  end.

(** [parseInt(s)]. *)
Definition parse_int_string (s : string) : jsnum :=
  let s := trim_start s in
  let '(neg, s) := sign_of s in
  let '(radix, s) := match s with
                     | String "0"%char (String "x"%char s) | String "0"%char (String "X"%char s) => (16%Z, s)
                     | _ => (10%Z, s)
                     end in
  match digits radix s None with
  | Some n => to_double (if neg then - n else n)%Z
  | None => NaN
  end.


(** The digits at the start of [s] after the value [acc]: value, how many they
    are, and the rest. *)
Fixpoint take_digits (radix : Z) (s : string) (acc : Z) : Z * nat * string :=
  match s with
  | String c s' =>
      match digit_value radix c with
      | Some d => let '(v, n, rest) := take_digits radix s' (acc * radix + d)%Z in (v, S n, rest)
      | None => (acc, 0, s)
      end
  | EmptyString => (acc, 0, s)
  end.

(** Digits, a point and digits, an exponent: m and e of m × 10^e. *)
Definition exponent_of (s : string) : option Z :=
  match s with
  | EmptyString => Some 0%Z
  | String "e"%char s | String "E"%char s =>
      let '(neg, s) := sign_of s in
      match take_digits 10 s 0 with
      | (x, S _, EmptyString) => Some (if neg then - x else x)%Z
      | _ => None
      end
  | _ => None
  end.
Definition decimal_literal (s : string) : option (Z * Z) :=
  let '(m, before_point, s) := take_digits 10 s 0 in
  let '(m, after_point, s) :=
    match s with String "."%char s => take_digits 10 s m | _ => (m, 0, s) end in
  if before_point + after_point =? 0 then None else
  e ← exponent_of s; Some (m, (e - Z.of_nat after_point)%Z).

(** 0x, 0o and 0b: the digits after the prefix, which are all there is. *)
Definition radix_prefix (s : string) : option (Z * string) :=
  match s with
  | String "0"%char (String "x"%char s) | String "0"%char (String "X"%char s) => Some (16%Z, s)
  | String "0"%char (String "o"%char s) | String "0"%char (String "O"%char s) => Some (8%Z, s)
  | String "0"%char (String "b"%char s) | String "0"%char (String "B"%char s) => Some (2%Z, s)
  | _ => None
  end.

(** [Number(s)]. *)
Definition number_of_string (s : string) : jsnum :=
  let s := trim_end (trim_start s) in
  match s with EmptyString => Fin 0 | _ =>
  match radix_prefix s with
  | Some (radix, s) =>
      match take_digits radix s 0 with
      | (v, S _, EmptyString) => to_double v
      | _ => NaN
      end
  | None =>
      let '(neg, s) := sign_of s in
      let n :=
        if String.eqb s "Infinity" then Inf false else
        match decimal_literal s with
        | Some (m, e) => let '(p, q) := scale 10 m 1 e in nearest p q
        | None => NaN
        end in
      if neg then negate n else n
  end end.

Example numbers_of_strings :
  number_of_string <$> ["3"; "1e1"; "2.5"; " 0x3 "; "-1"; ""; "+.5"; "1e400";
                        "-Infinity"; "3 4"; "1e"; "0b102"; "abc"]
  = [Fin 3; Fin 10; Frac 5 1; Fin 3; Fin (-1); Fin 0; Frac 1 1; Inf false;
     Inf true; NaN; NaN; NaN; NaN].
Proof. by vm_compute. Qed.

(** ** Writing numbers *)

(** Decimal digits of a number, most significant first. *)
Definition digit_char (d : Z) : Ascii.ascii := Ascii.ascii_of_nat (Z.to_nat (48 + d)).

Fixpoint decimal_digits (fuel : nat) (n : Z) (acc : string) : string :=
  match fuel with
  | O => acc
  | S fuel =>
      let acc := String (digit_char (n mod 10)) acc in
      if (n / 10 =? 0)%Z then acc else decimal_digits fuel (n / 10) acc
  end.

Definition decimal (z : Z) : string :=
  let n := Z.abs z in
  (if (z <? 0)%Z then "-" else "") +:+ decimal_digits (S (Z.to_nat (Z.log2 n))) n "".

(** The digits of a fraction x = p / q > 0: the fewest, k of them, that together
    with the position n of the point read back as x, and of those the closest to
    x; s is the number they make, and x rounds from s × 10^(n - k). *)
Definition reads_back (p q s e : Z) : bool :=
  let '(a, b) := scale 10 s 1 e in bool_decide (nearest a b = nearest p q).
Fixpoint shortest (fuel : nat) (p q n k : Z) : Z * Z :=
  let '(a, b) := scale 10 p q (k - n) in
  let s := (a / b)%Z in
  let ok s := (10 ^ (k - 1) <=? s)%Z && (s <? 10 ^ k)%Z && reads_back p q s (n - k) in
  match ok s, ok (s + 1)%Z, fuel with
  | true, true, _ => (if (2 * (a mod b) <=? b)%Z then s else (s + 1)%Z, k)
  | true, false, _ => (s, k)
  | false, true, _ => ((s + 1)%Z, k)
  | false, false, S fuel => shortest fuel p q n (k + 1)
  | false, false, O => (s, k)
  end.

(** The n with 10^(n-1) ≤ p / q < 10^n, looked for downwards. *)
Fixpoint magnitude (fuel : nat) (p q n : Z) : Z :=
  match fuel with
  | O => n
  | S fuel =>
      let '(a, b) := scale 10 p q (1 - n) in
      if (b <=? a)%Z then n else magnitude fuel p q (n - 1)
  end.

Fixpoint zeros (n : nat) : string := match n with O => "" | S n => "0" +:+ zeros n end.

(** Number::toString of a fraction, which is below 2^53. *)
Definition write_fraction (p q : Z) : string :=
  let n := magnitude 342 p q 17 in
  let '(s, k, n) := if reads_back p q 1 n then (1, 1, n + 1)%Z
                    else let '(s, k) := shortest 17 p q n 1 in (s, k, n) in
  let digits := decimal s in
  let i := Z.to_nat n in
  if (0 <? n)%Z then String.substring 0 i digits +:+ "." +:+ String.substring i (Z.to_nat k - i) digits
  else if (-6 <? n)%Z then "0." +:+ zeros (Z.to_nat (- n)) +:+ digits
  else
    let point := if (k =? 1)%Z then "" else "." in
    String.substring 0 1 digits +:+ point +:+ String.substring 1 (Z.to_nat k - 1) digits
      +:+ "e-" +:+ decimal (1 - n).

(** [String(n)], integers below 10^21 in absolute value. *)
Definition write_number (n : jsnum) : string :=
  match n with
  | NaN => "NaN"
  | Inf false => "Infinity"
  | Inf true => "-Infinity"
  | Fin z => decimal z
  | Frac m k => (if (m <? 0)%Z then "-" else "") +:+ write_fraction (Z.abs m) (2 ^ Zpos k)
  end.

Example numbers_written :
  (λ s, write_number (number_of_string s)) <$>
    ["0.1"; "-2.50"; "123456.789"; "0.000001"; "1e-7"; "-1.25e-9"; "9007199254740991.5";
     "0.30000000000000004"; "0.001"; "4503599627370495.5"; "16"]
  = ["0.1"; "-2.5"; "123456.789"; "0.000001"; "1e-7"; "-1.25e-9"; "9007199254740992";
     "0.30000000000000004"; "0.001"; "4503599627370495.5"; "16"].
Proof. by vm_compute. Qed.
