(* ===== verification/Js.v ===== *)
(** * JavaScript, as much of it as the back end uses

    Dynamic values with property access, truthiness, [||], [String(x)],
    [parseInt] and the string methods the code calls, and [js]: code that talks
    to the outside (database, chain, logger, HTTP response), may throw, and does
    not undo what it did before it threw.

    A string is a sequence of code units below 256.  An object is the list of
    its own properties in insertion order.  Everything outside the repository
    is one oracle, which answers each operation from the history of the
    operations before it. *)

From stdpp Require Import base list strings numbers.
From Stdlib Require Import ZArith Lia Ascii.
From S2P Require Import Prelude.
From S2P Require Export Numbers.

(** ** Values *)

Inductive jsval :=
| Undef
| Null
| Bool (b : bool)
| Num (n : jsnum)
| BigInt (z : Z)
| Str (s : string)
| Arr (l : list jsval)
| Obj (fields : list (string * jsval))
| Buf (bytes : string).

Abbreviation int z := (Num (Fin z)).

(** [!!v]. *)
Definition truthy (v : jsval) : bool :=
  match v with
  | Undef | Null => false
  | Bool b => b
  | Num NaN => false
  | Num (Fin z) => negb (z =? 0)%Z
  | Num (Inf _) | Num (Frac _ _) => true
  | BigInt z => negb (z =? 0)%Z
  | Str s => negb (String.eqb s "")
  | Arr _ | Obj _ | Buf _ => true
  end.

(** [a || b]. *)
Definition or_else (a b : jsval) : jsval := if truthy a then a else b.

(** [v === "s"]. *)
Definition is_str (v : jsval) (s : string) : bool :=
  match v with Str t => String.eqb t s | _ => false end.
Lemma is_str_eq v s : is_str v s = true ↔ v = Str s.
Proof. destruct v; cbn; try by split. rewrite String.eqb_eq. split; congruence. Qed.
(** [v === z]. *)
Definition is_int (v : jsval) (z : Z) : bool :=
  match v with Num (Fin y) => (y =? z)%Z | _ => false end.

(** ** Properties *)
Fixpoint assoc {A} (k : string) (l : list (string * A)) : option A :=
  match l with
  | [] => None
  | (k', v) :: l => if String.eqb k k' then Some v else assoc k l
  end.

Fixpoint assoc_set {A} (k : string) (v : A) (l : list (string * A)) : list (string * A) :=
  match l with
  | [] => [(k, v)]
  | (k', v') :: l =>
      if String.eqb k k' then (k, v) :: l else (k', v') :: assoc_set k v l
  end.

Definition error_object (name message : string) : jsval :=
  Obj [("name", Str name); ("message", Str message)].
Definition TypeError (message : string) : jsval := error_object "TypeError" message.
Definition ReferenceError (message : string) : jsval := error_object "ReferenceError" message.
(** [new Error(message)]. *)
Definition Error_ (message : string) : jsval := error_object "Error" message.

(** [v.k]. *)
Definition prop (v : jsval) (k : string) : result jsval jsval :=
  match v with
  | Undef => Err (TypeError ("Cannot read properties of undefined (reading '" +:+ k +:+ "')"))
  | Null => Err (TypeError ("Cannot read properties of null (reading '" +:+ k +:+ "')"))
  | Obj fields => Ok (default Undef (assoc k fields))
  | Arr l => Ok (if String.eqb k "length" then int (Z.of_nat (length l)) else Undef)
  | Str s =>
      Ok (if String.eqb k "length" then int (Z.of_nat (String.length s)) else Undef)
  | _ => Ok Undef
  end.

(** [v?.k]. *)
Definition prop_opt (v : jsval) (k : string) : jsval :=
  match prop v k with Ok x => x | Err _ => Undef end.

(** [v.k = x] on an object; a primitive ignores the assignment. *)
Definition set_prop (v : jsval) (k : string) (x : jsval) : jsval :=
  match v with Obj fields => Obj (assoc_set k x fields) | _ => v end.

(** [l[l.length - 1]]. *)
Definition last_of (v : jsval) : jsval :=
  match v with Arr l => default Undef (l !! (length l - 1)) | _ => Undef end.

(** ** Strings *)

(** [String(v)] of a primitive (numbers below 10^21 in absolute value); an
    object shows as [[object Object]]. *)
Fixpoint to_string (v : jsval) : string :=
  match v with
  | Undef => "undefined"
  | Null => "null"
  | Bool true => "true"
  | Bool false => "false"
  | Num n => write_number n
  | BigInt z => decimal z
  | Str s => s
  | Arr l => String.concat ","
      (map (λ x, match x with Undef | Null => "" | _ => to_string x end) l)
  | Obj _ => "[object Object]"
  | Buf s => s
  end.

(** [toLowerCase] on code units below 256: A to Z, and the Latin-1 capitals. *)
Definition lower_code (n : nat) : nat :=
  if ((65 <=? n) && (n <=? 90)) || ((192 <=? n) && (n <=? 222) && negb (n =? 215))
  then n + 32 else n.
Definition lower_char (c : Ascii.ascii) : Ascii.ascii :=
  Ascii.ascii_of_nat (lower_code (Ascii.nat_of_ascii c)).
Fixpoint toLowerCase (s : string) : string :=
  match s with
  | EmptyString => EmptyString
  | String c s => String (lower_char c) (toLowerCase s)
  end.

(** [s.toLowerCase()] on a value. *)
Definition call_toLowerCase (v : jsval) : result jsval string :=
  match v with
  | Str s => Ok (toLowerCase s)
  | Undef => Err (TypeError "Cannot read properties of undefined (reading 'toLowerCase')")
  | Null => Err (TypeError "Cannot read properties of null (reading 'toLowerCase')")
  | _ => Err (TypeError "toLowerCase is not a function")
  end.

Lemma call_toLowerCase_Ok v s :
  call_toLowerCase v = Ok s ↔ ∃ t, v = Str t ∧ s = toLowerCase t.
Proof.
  destruct v; cbn; (split; [intros [= <-]; eauto | intros (? & [=] & ?); by subst]).
Qed.

Fixpoint starts_with (p s : string) : bool :=
  match p, s with
  | EmptyString, _ => true
  | String a p, String b s => Ascii.eqb a b && starts_with p s
  | _, EmptyString => false
  end.

(** [s.includes(p)]. *)
Fixpoint includes (s p : string) : bool :=
  starts_with p s || match s with EmptyString => false | String _ s => includes s p end.

(** The part of [s] before the first [c]: [s.split(c)[0]]. *)
Fixpoint before (c : Ascii.ascii) (s : string) : string :=
  match s with
  | EmptyString => EmptyString
  | String d s => if Ascii.eqb d c then EmptyString else String d (before c s)
  end.

(** [parts.join(sep)]. *)
Definition join (sep : string) (parts : list jsval) : string :=
  String.concat sep
    (map (λ x, match x with Undef | Null => "" | _ => to_string x end) parts).

(** ** [parseInt] *)

Definition parseInt (v : jsval) : jsval := Num (parse_int_string (to_string v)).

(** ** Operations of the outside world *)
Inductive event :=
| Console (level : string) (args : list jsval)
| Log (level : string) (args : list jsval)
| Respond (status : jsval) (body : jsval)
| Next (err : option jsval)
| Invoke (object method : string) (args : list jsval)
| Listen (object name : string)
| Timer (callback : string) (ms : jsval)
| Exit (code : Z).

(** ** Code that runs in the outside world *)
Definition oracle : Type := list event → event → result jsval jsval.
Definition js (A : Type) : Type := oracle → list event → result jsval A * list event.

#[export] Instance js_ret : MRet js := λ A a o h, (Ok a, h).
#[export] Instance js_bind : MBind js := λ A B f m o h,
  match m o h with
  | (Ok a, h') => f a o h'
  | (Err e, h') => (Err e, h')
  end.

(** [throw e]. *)
Definition throw_js {A} (e : jsval) : js A := λ o h, (Err e, h).
(** An expression that may throw. *)
Definition pure {A} (r : result jsval A) : js A := λ o h, (r, h).
(** [try { m } catch (e) { f(e) }]. *)
Definition try_catch {A} (m : js A) (f : jsval → js A) : js A := λ o h,
  match m o h with
  | (Ok a, h') => (Ok a, h')
  | (Err e, h') => f e o h'
  end.
(** [await] of an operation that answers or rejects. *)
Definition perform (e : event) : js jsval := λ o h, (o h e, h ++ [e]).
(** An operation with no answer. *)
Definition note (e : event) : js unit := λ o h, (Ok tt, h ++ [e]).

Definition invoke (object method : string) (args : list jsval) : js jsval :=
  perform (Invoke object method args).

(** ** Facts *)

(** Reads what a block of code does, one operation after the other. *)
Ltac run_js :=
  unfold mbind, js_bind, mret, js_ret, pure, throw_js, try_catch, invoke, perform, note.

Lemma truthy_or_else a b : truthy a = true → or_else a b = a.
Proof. unfold or_else. by intros ->. Qed.
Lemma falsy_or_else a b : truthy a = false → or_else a b = b.
Proof. unfold or_else. by intros ->. Qed.

Lemma assoc_set_eq {A} k (v : A) l : assoc k (assoc_set k v l) = Some v.
Proof.
  induction l as [|[k' v'] l IH]; cbn; [by rewrite String.eqb_refl|].
  destruct (String.eqb k k') eqn:E; cbn; [by rewrite String.eqb_refl|by rewrite E].
Qed.

Lemma assoc_set_ne {A} k k' (v : A) l : k ≠ k' → assoc k' (assoc_set k v l) = assoc k' l.
Proof.
  intros Hk. induction l as [|[j w] l IH]; cbn.
  - by rewrite (proj2 (String.eqb_neq k' k)) by done.
  - destruct (String.eqb_spec k j) as [->|Hj]; cbn.
    + by rewrite (proj2 (String.eqb_neq k' j)) by done.
    + by destruct (String.eqb k' j).
Qed.

(** *** Runs that end well, and runs that throw *)
Section runs.
Implicit Types (o : oracle) (h : list event).

Lemma js_bind_Ok {A B} (m : js A) (f : A → js B) o h b h' :
  (m ≫= f) o h = (Ok b, h') ↔ ∃ a h1, m o h = (Ok a, h1) ∧ f a o h1 = (Ok b, h').
Proof.
  unfold mbind, js_bind. destruct (m o h) as [[a|e] h1]; split.
  - eauto.
  - by intros (? & ? & [= <- <-] & ?).
  - done.
  - by intros (? & ? & ? & _).
Qed.

Lemma js_bind_Err {A B} (m : js A) (f : A → js B) o h e h' :
  (m ≫= f) o h = (Err e, h') ↔
  m o h = (Err e, h') ∨ ∃ a h1, m o h = (Ok a, h1) ∧ f a o h1 = (Err e, h').
Proof.
  unfold mbind, js_bind. destruct (m o h) as [[a|x] h1]; split.
  - eauto.
  - by intros [?|(? & ? & [= <- <-] & ?)].
  - intros [= <- <-]. by left.
  - by intros [[= <- <-]|(? & ? & ? & _)].
Qed.

Lemma perform_Ok e o h v h' : perform e o h = (Ok v, h') ↔ o h e = Ok v ∧ h' = h ++ [e].
Proof. unfold perform. split; [by intros [= <- <-]|by intros [-> ->]]. Qed.
Lemma perform_Err e o h x h' : perform e o h = (Err x, h') ↔ o h e = Err x ∧ h' = h ++ [e].
Proof. unfold perform. split; [by intros [= <- <-]|by intros [-> ->]]. Qed.
Lemma note_Ok e o h u h' : note e o h = (Ok u, h') ↔ h' = h ++ [e].
Proof. unfold note. destruct u. split; [by intros [= <-]|by intros ->]. Qed.
Lemma pure_Ok {A} (r : result jsval A) o h a h' : pure r o h = (Ok a, h') ↔ r = Ok a ∧ h' = h.
Proof. unfold pure. split; [by intros [= <- <-]|by intros [-> ->]]. Qed.
Lemma pure_Err {A} (r : result jsval A) o h e h' :
  pure r o h = (Err e, h') ↔ r = Err e ∧ h' = h.
Proof. unfold pure. split; [by intros [= <- <-]|by intros [-> ->]]. Qed.
Lemma js_ret_Ok {A} (a : A) o h b h' : (mret a : js A) o h = (Ok b, h') ↔ b = a ∧ h' = h.
Proof. unfold mret, js_ret. split; [by intros [= <- <-]|by intros [-> ->]]. Qed.

(** A handler that always throws: the block ended well or the handler threw. *)
Lemma rethrow_Ok {A} (m : js A) (f : jsval → js A) o h a h' :
  (∀ e h1 b h2, f e o h1 ≠ (Ok b, h2)) →
  try_catch m f o h = (Ok a, h') ↔ m o h = (Ok a, h').
Proof.
  intros Hf. unfold try_catch. destruct (m o h) as [[b|e] h1]; [done|].
  split; [|done]. intros H. by destruct (Hf _ _ _ _ H).
Qed.

Lemma try_catch_Err {A} (m : js A) (f : jsval → js A) o h x h' :
  try_catch m f o h = (Err x, h') ↔
  ∃ e h1, m o h = (Err e, h1) ∧ f e o h1 = (Err x, h').
Proof.
  unfold try_catch. destruct (m o h) as [[b|e] h1]; split.
  - done.
  - by intros (? & ? & ? & _).
  - eauto.
  - by intros (? & ? & [= <- <-] & ?).
Qed.
End runs.

(** Opens a hypothesis saying that a block of code ended well. *)
Ltac inv_js_step :=
  match goal with
  | H : (_ ≫= _) _ _ = (Ok _, _) |- _ =>
      apply js_bind_Ok in H; destruct H as (? & ? & ? & H)
  | H : perform _ _ _ = (Ok _, _) |- _ => apply perform_Ok in H; destruct H as [H ->]
  | H : invoke _ _ _ _ _ = (Ok _, _) |- _ => unfold invoke in H
  | H : note _ _ _ = (Ok _, _) |- _ => apply note_Ok in H; subst
  | H : pure _ _ _ = (Ok _, _) |- _ => apply pure_Ok in H; destruct H as [H ->]
  | H : mret _ _ _ = (Ok _, _) |- _ => apply js_ret_Ok in H; destruct H as [? ->]; subst
  | H : throw_js _ _ _ = (Ok _, _) |- _ => discriminate H
  end.
Ltac inv_js := repeat inv_js_step.

(** ** Counting operations

    [spends p m a b]: a run of [m] does exactly [a] operations satisfying [p]
    when it ends well, and [b] when it throws.  [at_most p m n]: never more
    than [n]. *)
Definition count (p : event → bool) (h : list event) : nat := length (filter p h).

Lemma count_app p h h' : count p (h ++ h') = count p h + count p h'.
Proof. unfold count. by rewrite list.filter_app, length_app. Qed.
Lemma count_one p e : count p [e] = if p e then 1 else 0.
Proof. unfold count. cbn. by destruct (p e). Qed.
Lemma count_nil p : count p [] = 0.
Proof. done. Qed.

Definition is_invoke (object method : string) (e : event) : bool :=
  match e with
  | Invoke object' method' _ => String.eqb object' object && String.eqb method' method
  | _ => false
  end.

Lemma is_invoke_other object method object' method' e :
  is_invoke object method e = true → (object, method) ≠ (object', method') →
  is_invoke object' method' e = false.
Proof.
  destruct e; try done. cbn. intros [->%String.eqb_eq ->%String.eqb_eq]%andb_true_iff Hne.
  apply andb_false_iff.
  destruct (String.eqb_spec object object'); [|by left].
  right. apply String.eqb_neq. congruence.
Qed.

(** An answer to the client: a response, or an error given to [next]. *)
Definition is_answer (e : event) : bool :=
  match e with Respond _ _ | Next _ => true | _ => false end.
Lemma is_invoke_answer object method e : is_invoke object method e = true → is_answer e = false.
Proof. by destruct e. Qed.

Definition spends (p : event → bool) {A} (m : js A) (ok err : nat) : Prop := ∀ o h,
  ∃ tr, (m o h).2 = h ++ tr ∧ count p tr = if is_ok (m o h).1 then ok else err.

Definition at_most (p : event → bool) {A} (m : js A) (n : nat) : Prop := ∀ o h,
  ∃ tr, (m o h).2 = h ++ tr ∧ count p tr ≤ n.

Section counting.
Variable p : event → bool.

Lemma spends_ret {A} (a : A) e : spends p (mret a) 0 e.
Proof. intros o h. exists []. by rewrite app_nil_r. Qed.
Lemma spends_throw {A} e k : spends p (throw_js e : js A) k 0.
Proof. intros o h. exists []. by rewrite app_nil_r. Qed.
Lemma spends_pure {A} (r : result jsval A) : spends p (pure r) 0 0.
Proof. intros o h. exists []. rewrite app_nil_r. by destruct r. Qed.
Lemma spends_perform e : p e = false → spends p (perform e) 0 0.
Proof.
  intros He o h. exists [e]. split; [done|]. rewrite count_one, He. by destruct (is_ok _).
Qed.
Lemma spends_note e n k : (if p e then 1 else 0) = n → spends p (note e) n k.
Proof. intros <- o h. exists [e]. by rewrite count_one. Qed.

Lemma spends_bind {A B} (m : js A) (f : A → js B) n e a b :
  spends p m a (a + e) → (∀ x, spends p (f x) b e) → n = a + b →
  spends p (m ≫= f) n (a + e).
Proof.
  intros Hm Hf -> o h. destruct (Hm o h) as (tr & E & Hc). unfold mbind, js_bind.
  destruct (m o h) as [[x|x] h1]; cbn in *; subst h1; [|by eauto].
  destruct (Hf x o (h ++ tr)) as (tr' & -> & Hc').
  exists (tr ++ tr'). rewrite app_assoc, count_app, Hc, Hc'. split; [done|].
  by destruct (is_ok _).
Qed.
Lemma spends_bind0 {A B} (m : js A) (f : A → js B) b e :
  spends p m 0 e → (∀ x, spends p (f x) b e) → spends p (m ≫= f) b e.
Proof. intros. by eapply (spends_bind m f b e 0 b). Qed.
Lemma spends_if {A} (c : bool) (m m' : js A) a b :
  spends p m a b → spends p m' a b → spends p (if c then m else m') a b.
Proof. by destruct c. Qed.

Lemma spends_try {A} (m : js A) (f : jsval → js A) a b c :
  spends p m (b + a) b → (∀ x, spends p (f x) a c) → spends p (try_catch m f) (b + a) (b + c).
Proof.
  intros Hm Hf o h. destruct (Hm o h) as (tr & E & Hc). unfold try_catch.
  destruct (m o h) as [[x|x] h1]; cbn in *; subst h1; [by eauto|].
  destruct (Hf x o (h ++ tr)) as (tr' & -> & Hc').
  exists (tr ++ tr'). rewrite app_assoc, count_app, Hc, Hc'. split; [done|].
  by destruct (is_ok _).
Qed.

Lemma at_most_spends {A} (m : js A) a b n :
  spends p m a b → a ≤ n → b ≤ n → at_most p m n.
Proof.
  intros Hm Ha Hb o h. destruct (Hm o h) as (tr & E & Hc). exists tr. split; [done|].
  rewrite Hc. by destruct (is_ok _).
Qed.
Lemma at_most_perform e : at_most p (perform e) 1.
Proof.
  intros o h. exists [e]. split; [done|]. rewrite count_one. destruct (p e); lia.
Qed.
Lemma at_most_bind {A B} (m : js A) (f : A → js B) a b :
  at_most p m a → (∀ x, at_most p (f x) b) → at_most p (m ≫= f) (a + b).
Proof.
  intros Hm Hf o h. destruct (Hm o h) as (tr & E & Hc). unfold mbind, js_bind.
  destruct (m o h) as [[x|x] h1]; cbn in *; subst h1; [|exists tr; split; [done|lia]].
  destruct (Hf x o (h ++ tr)) as (tr' & -> & Hc').
  exists (tr ++ tr'). rewrite app_assoc, count_app. split; [done|lia].
Qed.
Lemma at_most_bind0 {A B} (m : js A) (f : A → js B) b :
  spends p m 0 0 → (∀ x, at_most p (f x) b) → at_most p (m ≫= f) b.
Proof.
  intros Hm Hf. apply (at_most_bind m f 0 b); [|done]. by eapply at_most_spends.
Qed.
Lemma at_most_if {A} (c : bool) (m m' : js A) a :
  at_most p m a → at_most p m' a → at_most p (if c then m else m') a.
Proof. by destruct c. Qed.
Lemma at_most_try {A} (m : js A) (f : jsval → js A) a :
  at_most p m a → (∀ x, spends p (f x) 0 0) → at_most p (try_catch m f) a.
Proof.
  intros Hm Hf o h. destruct (Hm o h) as (tr & E & Hc). unfold try_catch.
  destruct (m o h) as [[x|x] h1]; cbn in *; subst h1; [by eauto|].
  destruct (Hf x o (h ++ tr)) as (tr' & -> & Hc').
  exists (tr ++ tr'). rewrite app_assoc, count_app. split; [done|].
  destruct (is_ok _); lia.
Qed.
End counting.

Create HintDb js_count discriminated.
#[export] Hint Opaque mret mbind js_ret js_bind pure throw_js perform note invoke : js_count.
#[export] Hint Resolve spends_ret spends_throw spends_pure : js_count.
#[export] Hint Extern 1 (spends _ (perform _) 0 0) => by apply spends_perform : js_count.
#[export] Hint Extern 1 (spends _ (invoke _ _ _) 0 0) => by apply spends_perform : js_count.
#[export] Hint Extern 1 (spends _ (note _) _ _) => by apply spends_note : js_count.
#[export] Hint Extern 2 (spends _ (_ ≫= _) _ _) => apply spends_bind0; [|intros ?] : js_count.
#[export] Hint Extern 2 (spends _ (if _ then _ else _) _ _) => apply spends_if : js_count.

(** Solves [spends] goals of straight-line code. *)
Ltac count_js := auto 100 with js_count nocore.

(** ** What a block of code throws

    The outside only rejects with error objects; [throws P m]: what [m] throws
    then satisfies [P]. *)
Definition is_object (v : jsval) : Prop := ∃ fields, v = Obj fields.

Definition rejects_objects (o : oracle) : Prop := ∀ h e x, o h e = Err x → is_object x.

Definition throws (P : jsval → Prop) {A} (m : js A) : Prop :=
  ∀ o h x h', rejects_objects o → m o h = (Err x, h') → P x.

Lemma prop_Err v k x : prop v k = Err x → ∃ s, x = TypeError s.
Proof. destruct v; intros [= <-]; by eexists. Qed.

Lemma TypeError_object s : is_object (TypeError s).
Proof. by eexists. Qed.

Section throwing.
Variable P : jsval → Prop.

Lemma throws_bind {A B} (m : js A) (f : A → js B) :
  throws P m → (∀ a, throws P (f a)) → throws P (m ≫= f).
Proof.
  intros Hm Hf o h x h' Ho [H|(a & h1 & _ & H)]%js_bind_Err; [by eapply Hm|by eapply Hf].
Qed.
Lemma throws_pure {A} (r : result jsval A) : (∀ x, r = Err x → P x) → throws P (pure r).
Proof. intros Hr o h x h' _ [H _]%pure_Err. by apply Hr. Qed.
Lemma throws_prop v k : (∀ s, P (TypeError s)) → throws P (pure (prop v k)).
Proof. intros HP. apply throws_pure. intros x. by destruct v; intros [= <-]. Qed.
Lemma throws_ret {A} (a : A) : throws P (mret a).
Proof. by intros o h x h'. Qed.
Lemma throws_note e : throws P (note e).
Proof. by intros o h x h'. Qed.
Lemma throws_throw {A} e : P e → throws P (throw_js e : js A).
Proof. by intros He o h x h' _ [= <- _]. Qed.
Lemma throws_if {A} (c : bool) (m m' : js A) :
  throws P m → throws P m' → throws P (if c then m else m').
Proof. by destruct c. Qed.
(** Only the handler's errors leave a [try]. *)
Lemma throws_try {A} (m : js A) (f : jsval → js A) (Q : jsval → Prop) :
  throws Q m → (∀ e, Q e → throws P (f e)) → throws P (try_catch m f).
Proof.
  intros Hm Hf o h x h' Ho (e & h1 & H1 & H2)%try_catch_Err.
  by eapply (Hf e); [eapply Hm|..].
Qed.
End throwing.

Lemma throws_perform e : throws is_object (perform e).
Proof. intros o h x h' Ho [H _]%perform_Err. by eapply Ho. Qed.
Lemma throws_invoke object method args : throws is_object (invoke object method args).
Proof. apply throws_perform. Qed.

Create HintDb js_throws discriminated.
#[export] Hint Opaque mret mbind js_ret js_bind pure throw_js perform note invoke : js_throws.
#[export] Hint Resolve throws_ret throws_note throws_prop throws_perform throws_invoke
  TypeError_object : js_throws.
#[export] Hint Extern 1 (throws _ (throw_js _)) => apply throws_throw : js_throws.
#[export] Hint Extern 1 (is_object _) => by eexists : js_throws.
#[export] Hint Extern 2 (throws _ (_ ≫= _)) => apply throws_bind; [|intros ?] : js_throws.
#[export] Hint Extern 2 (throws _ (if _ then _ else _)) => apply throws_if : js_throws.

(** Solves [throws] goals of straight-line code. *)
Ltac throws_js := auto 100 with js_throws nocore.
