(* ===== verification/ErrorMiddleware.v ===== *)
(** * src/middlewares/error.middleware.js

    [AppError], the error handler at the end of the application, and the two
    shapes of its response.  What a client sees of an error, by environment. *)

From stdpp Require Import base list strings numbers.
From Stdlib Require Import ZArith Lia Ascii.
From S2P Require Import Prelude Js.

(** The text the engine writes into [error.stack]. *)
Definition new_AppError (stack : jsval) (statusCode : Z) (message : string)
    (isOperational : bool) : jsval :=
  Obj [("name", Str "Error"); ("message", Str message); ("statusCode", int statusCode);
       ("isOperational", Bool isOperational); ("stack", stack)].

(** ** The quoted value of a duplicate-key message

    The first match of the regular expression (quote)(\\?.)*?\1: from the first quote that has a
    matching one on the same line, to the nearest match; a backslash first takes
    the next character with it and, when that leads nowhere, stands alone. *)
Definition is_quote (c : ascii) : bool :=
  (Ascii.nat_of_ascii c =? 34) || (Ascii.nat_of_ascii c =? 39).
Definition is_newline (c : ascii) : bool :=
  (Ascii.nat_of_ascii c =? 10) || (Ascii.nat_of_ascii c =? 13).

Fixpoint quoted_rest (q : ascii) (s : string) : option string :=
  match s with
  | EmptyString => None
  | String c s1 =>
      if Ascii.eqb c q then Some (String c "") else
      if is_newline c then None else
      let alone := String c <$> quoted_rest q s1 in
      if Ascii.nat_of_ascii c =? 92 then
        match s1 with
        | String d s2 =>
            if is_newline d then alone else
            match quoted_rest q s2 with
            | Some r => Some (String c (String d r))
            | None => alone
            end
        | EmptyString => alone
        end
      else alone
  end.

Fixpoint find_quoted (s : string) : option string :=
  match s with
  | EmptyString => None
  | String c s1 =>
      if is_quote c then
        match quoted_rest c s1 with
        | Some r => Some (String c r)
        | None => find_quoted s1
        end
      else find_quoted s1
  end.

(** [errmsg.match(...)[0]] on a value. *)
Definition duplicate_value (errmsg : jsval) : result jsval string :=
  match errmsg with
  | Str s => match find_quoted s with
             | Some v => Ok v
             | None => Err (TypeError "Cannot read properties of null (reading '0')")
             end
  | Undef => Err (TypeError "Cannot read properties of undefined (reading 'match')")
  | Null => Err (TypeError "Cannot read properties of null (reading 'match')")
  | _ => Err (TypeError "err.errmsg.match is not a function")
  end.

Fixpoint characters (s : string) : list jsval :=
  match s with
  | EmptyString => []
  | String c s => Str (String c "") :: characters s
  end.

(** [Object.values(v)]. *)
Definition object_values (v : jsval) : result jsval (list jsval) :=
  match v with
  | Undef | Null => Err (TypeError "Cannot convert undefined or null to object")
  | Obj fields => Ok (map snd fields)
  | Arr l => Ok l
  | Str s => Ok (characters s)
  | _ => Ok []
  end.

Fixpoint messages_of (els : list jsval) : result jsval (list jsval) :=
  match els with
  | [] => Ok []
  | el :: els => m ← prop el "message"; ms ← messages_of els; Ok (m :: ms)
  end.

Section middleware.
Variable stack : jsval.

(** The four special cases, in order; each looks at what the one before left. *)
Definition on_validation (err : jsval) : result jsval jsval :=
  name ← prop err "name";
  if is_str name "ValidationError" then
    errors ← prop err "errors";
    els ← object_values errors;
    ms ← messages_of els;
    Ok (new_AppError stack 400 ("Invalid input data. " +:+ join ". " ms) true)
  else Ok err.

Definition on_duplicate (err : jsval) : result jsval jsval :=
  code ← prop err "code";
  if is_int code 11000 then
    errmsg ← prop err "errmsg";
    value ← duplicate_value errmsg;
    Ok (new_AppError stack 400
          ("Duplicate field value: " +:+ value +:+ ". Please use another value!") true)
  else Ok err.

Definition on_token (err : jsval) : result jsval jsval :=
  name ← prop err "name";
  if is_str name "JsonWebTokenError"
  then Ok (new_AppError stack 401 "Invalid token. Please log in again!" true) else Ok err.

Definition on_expired (err : jsval) : result jsval jsval :=
  name ← prop err "name";
  if is_str name "TokenExpiredError"
  then Ok (new_AppError stack 401 "Your token has expired! Please log in again." true)
  else Ok err.

Definition client_error (err : jsval) : result jsval jsval :=
  err ← on_validation err; err ← on_duplicate err; err ← on_token err; on_expired err.

(** [err.statusCode = err.statusCode || 500; err.message = err.message || ...]. *)
Definition with_defaults (err : jsval) : result jsval jsval :=
  code ← prop err "statusCode";
  let err := set_prop err "statusCode" (or_else code (int 500)) in
  message ← prop err "message";
  Ok (set_prop err "message" (or_else message (Str "Internal Server Error"))).

Definition log_entry (err req : jsval) : result jsval jsval :=
  message ← prop err "message"; stack ← prop err "stack"; code ← prop err "statusCode";
  method ← prop req "method"; url ← prop req "originalUrl"; ip ← prop req "ip";
  user ← prop req "user";
  userId ← (if truthy user then prop user "id" else Ok (Str "unauthenticated"));
  Ok (Obj [("error", Obj [("message", message); ("stack", stack); ("statusCode", code)]);
           ("requestInfo", Obj [("method", method); ("url", url); ("ip", ip);
                                ("userId", userId)])]).

Definition sendErrorDev (err : jsval) : js unit :=
  code ← pure (prop err "statusCode");
  message ← pure (prop err "message");
  stack ← pure (prop err "stack");
  note (Respond code (Obj [("status", Str "error"); ("error", err); ("message", message);
                           ("stack", stack)])).

Definition generic_body : jsval :=
  Obj [("status", Str "error"); ("message", Str "Something went very wrong!")].

Definition sendErrorProd (err : jsval) : js unit :=
  operational ← pure (prop err "isOperational");
  if truthy operational then
    code ← pure (prop err "statusCode");
    message ← pure (prop err "message");
    note (Respond code (Obj [("status", Str "error"); ("message", message)]))
  else
    note (Log "error" [Str "ERROR 💥"; err]);;
    note (Respond (int 500) generic_body).

(** [node_env] is [process.env.NODE_ENV]. *)
Definition errorMiddleware (node_env err req : jsval) : js unit :=
  err ← pure (with_defaults err);
  entry ← pure (log_entry err req);
  note (Log "error" [entry]);;
  err ← pure (client_error err);
  if is_str node_env "development" then sendErrorDev err
  else if is_str node_env "production" then sendErrorProd err
  else mret tt.

(** [module.exports]: the error class and the middleware. *)
Record error_exports := {
  x_AppError : Z → string → bool → jsval;
  x_errorMiddleware : jsval → jsval → jsval → js unit
}.
Definition error_module : error_exports :=
  {| x_AppError := new_AppError stack; x_errorMiddleware := errorMiddleware |}.

(** ** Facts *)
Definition is_respond (e : event) : bool := match e with Respond _ _ => true | _ => false end.
Definition responses (h : list event) : list event := filter is_respond h.

Lemma responses_snoc h e :
  responses (h ++ [e]) = responses h ++ if is_respond e then [e] else [].
Proof. unfold responses. rewrite list.filter_app. cbn. by destruct (is_respond e). Qed.

(** The fields of an error none of the special cases knows. *)
Definition ordinary (fields : list (string * jsval)) : Prop :=
  is_int (default Undef (assoc "code" fields)) 11000 = false ∧
  is_str (default Undef (assoc "name" fields)) "ValidationError" = false ∧
  is_str (default Undef (assoc "name" fields)) "JsonWebTokenError" = false ∧
  is_str (default Undef (assoc "name" fields)) "TokenExpiredError" = false.

(** Such an error, and not operational. *)
Definition unexpected (err : jsval) : Prop :=
  ∃ fields, err = Obj fields ∧
    truthy (default Undef (assoc "isOperational" fields)) = false ∧ ordinary fields.

Lemma note_js e o h : note e o h = (Ok tt, h ++ [e]).
Proof. done. Qed.

Lemma client_error_plain fields :
  ordinary fields → client_error (Obj fields) = Ok (Obj fields).
Proof.
  intros (Hc & Hn & Hj & Ht).
  unfold client_error, on_validation, on_duplicate, on_token, on_expired. cbn.
  by rewrite Hn; cbn; rewrite Hc; cbn; rewrite Hj; cbn; rewrite Ht.
Qed.

Lemma with_defaults_obj fields :
  ∃ fields', with_defaults (Obj fields) = Ok (Obj fields') ∧
    (∀ k, k ≠ "statusCode" → k ≠ "message" → assoc k fields' = assoc k fields) ∧
    assoc "statusCode" fields' =
      Some (or_else (default Undef (assoc "statusCode" fields)) (int 500)) ∧
    assoc "message" fields' =
      Some (or_else (default Undef (assoc "message" fields)) (Str "Internal Server Error")).
Proof.
  eexists. split; [reflexivity|]. split_and!.
  - intros k H1 H2. by rewrite !assoc_set_ne by congruence.
  - rewrite assoc_set_ne by done. apply assoc_set_eq.
  - rewrite assoc_set_eq. by rewrite assoc_set_ne.
Qed.

Lemma with_defaults_unexpected err :
  unexpected err → ∃ err', with_defaults err = Ok err' ∧ unexpected err'.
Proof.
  intros (fields & -> & H). destruct (with_defaults_obj fields) as (fields' & E & Hk & _).
  exists (Obj fields'). split; [done|]. exists fields'. split; [done|].
  unfold ordinary. by rewrite !Hk.
Qed.

(** A request as Express gives it: an object, whose [user] is one when set. *)
Definition request_ok (req : jsval) : Prop :=
  ∃ fields, req = Obj fields ∧
    (truthy (default Undef (assoc "user" fields)) = false ∨
     ∃ user, assoc "user" fields = Some (Obj user)).

Lemma log_entry_ok fields req : request_ok req → ∃ entry, log_entry (Obj fields) req = Ok entry.
Proof.
  intros (rf & -> & [Hu|[user Hu]]); unfold log_entry; cbn; rewrite Hu; cbn; by eexists.
Qed.

(** C31: in production, an error that is neither operational nor of a known
    kind reaches the client only as status 500 with the fixed message: nothing
    of its message, stack or status goes out, whatever they are. *)
Theorem production_hides_unexpected err req o h :
  unexpected err → request_ok req →
  let '(r, h') := errorMiddleware (Str "production") err req o h in
  r = Ok tt ∧ responses h' = responses h ++ [Respond (int 500) generic_body].
Proof.
  intros Hu Hr. unfold errorMiddleware.
  destruct (with_defaults_unexpected err Hu) as (err' & E & Hu').
  destruct Hu' as (fields & -> & Hop & Hord).
  destruct (log_entry_ok fields req Hr) as [entry He].
  run_js. rewrite E, He, client_error_plain by done. cbn. unfold sendErrorProd. run_js. cbn.
  rewrite Hop. cbn. split; [done|]. rewrite !responses_snoc. cbn.
  by rewrite !app_nil_r.
Qed.

(** One response at most, whatever the error and the request: exactly one
    when the handler completes in development or production, none when it
    throws or when NODE_ENV is anything else. *)
Theorem one_response node_env err req o h :
  let '(r, h') := errorMiddleware node_env err req o h in
  length (responses h') =
    length (responses h) +
    (if is_ok r && (is_str node_env "development" || is_str node_env "production")
     then 1 else 0).
Proof.
  unfold errorMiddleware, sendErrorDev, sendErrorProd. run_js.
  destruct (with_defaults err) as [e|]; [|cbn; lia].
  destruct (log_entry e req) as [en|]; [|cbn; lia].
  destruct (client_error e) as [c|]; [|cbn; rewrite responses_snoc, app_nil_r; lia].
  destruct (is_str node_env "development"); [|destruct (is_str node_env "production")].
  - destruct c; cbn; rewrite ?responses_snoc, ?length_app; cbn; lia.
  - destruct c; cbn;
      try match goal with |- context [if truthy ?v then _ else _] => destruct (truthy v) end;
      cbn; rewrite ?responses_snoc, ?length_app; cbn; lia.
  - cbn. rewrite responses_snoc, app_nil_r. lia.
Qed.

(** ** Known kinds of errors *)

(** In production the client gets [code] and [message] for the error. *)
Definition shown (err : jsval) (code : Z) (message : string) : Prop :=
  ∀ req o h, request_ok req →
    let '(r, h') := errorMiddleware (Str "production") err req o h in
    r = Ok tt ∧
    responses h' = responses h ++
      [Respond (int code) (Obj [("status", Str "error"); ("message", Str message)])].

Lemma shown_when fields fields' code message :
  with_defaults (Obj fields) = Ok (Obj fields') →
  client_error (Obj fields') = Ok (new_AppError stack code message true) →
  shown (Obj fields) code message.
Proof.
  intros E Hc req o h Hr. unfold errorMiddleware.
  destruct (log_entry_ok fields' req Hr) as [entry He].
  run_js. rewrite E, He, Hc. unfold sendErrorProd. run_js. cbn.
  rewrite !responses_snoc. cbn. by rewrite !app_nil_r.
Qed.

(** The fields the special cases look at, after the defaults. *)
Lemma client_error_of_name fields fields' :
  (∀ k, k ≠ "statusCode" → k ≠ "message" → assoc k fields' = assoc k fields) →
  default Undef (assoc "name" fields') = default Undef (assoc "name" fields) ∧
  default Undef (assoc "code" fields') = default Undef (assoc "code" fields) ∧
  default Undef (assoc "errors" fields') = default Undef (assoc "errors" fields) ∧
  default Undef (assoc "errmsg" fields') = default Undef (assoc "errmsg" fields).
Proof. intros H. by rewrite !H. Qed.

Lemma messages_of_objects (ms : list string) :
  messages_of ((λ m, Obj [("message", Str m)]) <$> ms) = Ok (Str <$> ms).
Proof. induction ms as [|m ms IH]; [done|]. cbn in *. by rewrite IH. Qed.

Lemma join_strings sep ms : join sep (Str <$> ms) = String.concat sep ms.
Proof. unfold join. f_equal. induction ms as [|m ms IH]; cbn; [done|by f_equal]. Qed.

(** C32: in production the known kinds of errors are answered with their own
    status and message: 400 listing the messages of a mongoose ValidationError,
    400 naming the quoted value of a duplicate key, 401 for an invalid and for
    an expired token. *)
Theorem production_known_errors fields :
  let name := default Undef (assoc "name" fields) in
  let code := default Undef (assoc "code" fields) in
  (∀ kinds ms, name = Str "ValidationError" →
     assoc "errors" fields = Some (Obj (zip kinds ((λ m, Obj [("message", Str m)]) <$> ms))) →
     length kinds = length ms →
     shown (Obj fields) 400 ("Invalid input data. " +:+ String.concat ". " ms)) ∧
  (∀ text value, is_str name "ValidationError" = false → code = int 11000 →
     assoc "errmsg" fields = Some (Str text) → find_quoted text = Some value →
     shown (Obj fields) 400
       ("Duplicate field value: " +:+ value +:+ ". Please use another value!")) ∧
  (name = Str "JsonWebTokenError" → is_int code 11000 = false →
     shown (Obj fields) 401 "Invalid token. Please log in again!") ∧
  (name = Str "TokenExpiredError" → is_int code 11000 = false →
     shown (Obj fields) 401 "Your token has expired! Please log in again.").
Proof.
  intros name code. destruct (with_defaults_obj fields) as (fields' & E & Hk & _).
  destruct (client_error_of_name fields fields' Hk) as (En & Ec & Ees & Eem).
  fold name in En. fold code in Ec.
  split_and!.
  - intros kinds ms Hn Hes Hl. eapply shown_when; [done|].
    unfold client_error, on_validation. cbn. rewrite En, Hn. cbn. rewrite Ees, Hes. cbn.
    change (map snd) with (fmap (M := list) (@snd string jsval)). rewrite snd_zip by (rewrite length_fmap; lia).
    by rewrite messages_of_objects; cbn; rewrite join_strings.
  - intros text value Hn Hc Hem Hq. eapply shown_when; [done|].
    unfold client_error, on_validation, on_duplicate. cbn. rewrite En, Hn. cbn.
    rewrite Ec, Hc. cbn. rewrite Eem, Hem. cbn. rewrite Hq. done.
  - intros Hn Hc. eapply shown_when; [done|].
    unfold client_error, on_validation, on_duplicate, on_token. cbn. rewrite En, Hn. cbn.
    rewrite Ec, Hc. cbn. by rewrite En, Hn.
  - intros Hn Hc. eapply shown_when; [done|].
    unfold client_error, on_validation, on_duplicate, on_token, on_expired. cbn.
    rewrite En, Hn. cbn. rewrite Ec, Hc. cbn. rewrite En, Hn. cbn. by rewrite En, Hn.
Qed.
End middleware.

(** ** The quoted value *)
Fixpoint no_newline (s : string) : bool :=
  match s with EmptyString => true | String c s => negb (is_newline c) && no_newline s end.

Lemma str_app_cons c s t : String c s +:+ t = String c (s +:+ t).
Proof. done. Qed.
Lemma str_app_nil t : "" +:+ t = t.
Proof. done. Qed.

Lemma quoted_rest_sound q n : ∀ s r, String.length s < n → quoted_rest q s = Some r →
  ∃ mid post, r = mid +:+ String q "" ∧ s = mid +:+ String q post ∧ no_newline mid = true.
Proof.
  induction n as [|n IH]; intros s r Hn; [lia|].
  destruct s as [|c s1]; cbn; [done|]. cbn in Hn.
  destruct (Ascii.eqb_spec c q) as [->|Hq].
  { intros [= <-]. by exists "", s1. }
  destruct (is_newline c) eqn:Hc; [done|].
  assert (Halone : ∀ r, String c <$> quoted_rest q s1 = Some r →
    ∃ mid post, r = mid +:+ String q "" ∧ String c s1 = mid +:+ String q post ∧
                no_newline mid = true).
  { intros r' (r1 & H & ->)%fmap_Some.
    apply IH in H as (mid & post & -> & -> & Hm); [|lia].
    exists (String c mid), post. cbn. by rewrite Hc, Hm. }
  destruct (Ascii.nat_of_ascii c =? 92); [|apply Halone].
  destruct s1 as [|d s2]; [apply Halone|].
  destruct (is_newline d) eqn:Hd; [apply Halone|].
  destruct (quoted_rest q s2) as [r2|] eqn:H2; [|apply Halone].
  intros [= <-]. cbn in Hn. apply IH in H2 as (mid & post & -> & -> & Hm); [|lia].
  exists (String c (String d mid)), post. cbn. by rewrite Hc, Hd, Hm.
Qed.

Lemma quoted_rest_found q mid post :
  no_newline mid = true → quoted_rest q (mid +:+ String q post) ≠ None.
Proof.
  induction mid as [|c mid IH]; rewrite ?str_app_nil, ?str_app_cons; cbn.
  - intros _. by rewrite Ascii.eqb_refl.
  - intros [Hc Hm]%andb_true_iff. apply negb_true_iff in Hc.
    destruct (Ascii.eqb c q); [done|]. rewrite Hc.
    specialize (IH Hm).
    assert (Halone : String c <$> quoted_rest q (mid +:+ String q post) ≠ None)
      by by destruct (quoted_rest q (mid +:+ String q post)).
    destruct (Ascii.nat_of_ascii c =? 92); [|done].
    destruct (mid +:+ String q post) as [|d s2]; [done|].
    destruct (is_newline d); [done|]. by destruct (quoted_rest q s2).
Qed.

(** The value a duplicate-key message names is a piece of the message
    between two equal quotes on one line; one is found whenever the message has
    such a piece, and otherwise reading the match fails. *)
Theorem duplicate_value_quoted text :
  (∀ v, duplicate_value (Str text) = Ok v →
     ∃ q pre mid post, is_quote q = true ∧ no_newline mid = true ∧
       v = String q mid +:+ String q "" ∧ text = pre +:+ (String q mid +:+ String q post)) ∧
  (∀ q pre mid post, is_quote q = true → no_newline mid = true →
     text = pre +:+ (String q mid +:+ String q post) →
     is_ok (duplicate_value (Str text)) = true).
Proof.
  unfold duplicate_value. split.
  - intros v. destruct (find_quoted text) as [v'|] eqn:H; [|done]. intros [= ->].
    revert H. induction text as [|c s IH]; cbn; [done|].
    assert (Hlater : find_quoted s = Some v → ∃ q pre mid post,
      is_quote q = true ∧ no_newline mid = true ∧ v = String q mid +:+ String q "" ∧
      String c s = pre +:+ (String q mid +:+ String q post)).
    { intros (q & pre & mid & post & ? & ? & ? & ->)%IH.
      exists q, (String c pre), mid, post. done. }
    destruct (is_quote c) eqn:Hc; [|done].
    destruct (quoted_rest c s) as [r|] eqn:Hr; [|done]. intros [= <-].
    eapply quoted_rest_sound in Hr as (mid & post & -> & -> & Hm); [|apply Nat.lt_succ_diag_r].
    by exists c, "", mid, post.
  - intros q pre mid post Hq Hm ->.
    assert (H : find_quoted (pre +:+ (String q mid +:+ String q post)) ≠ None).
    { rewrite str_app_cons. induction pre as [|c pre IH];
        rewrite ?str_app_nil, ?str_app_cons; cbn.
      - rewrite Hq. pose proof (quoted_rest_found q mid post Hm) as H.
        by destruct (quoted_rest q (mid +:+ String q post)).
      - destruct (is_quote c); [|done].
        by destruct (quoted_rest c (pre +:+ String q (mid +:+ String q post))). }
    by destruct (find_quoted _).
Qed.

(** ** The properties at work *)
Definition sample_request : jsval :=
  Obj [("method", Str "GET"); ("originalUrl", Str "/health"); ("ip", Str "127.0.0.1")].

Lemma sample_request_ok : request_ok sample_request.
Proof. eexists. split; [reflexivity|]. by left. Qed.

Lemma production_hides_unexpected_witness :
  let err := Obj [("name", Str "Error"); ("message", Str "connect ECONNREFUSED 10.0.0.7")] in
  let '(r, h) := errorMiddleware Undef (Str "production") err sample_request (λ _ _, Ok Undef) [] in
  r = Ok tt ∧ responses h = [Respond (int 500) generic_body].
Proof.
  apply (production_hides_unexpected Undef _ sample_request (λ _ _, Ok Undef) []).
  - eexists. split; [reflexivity|]. by vm_compute.
  - apply sample_request_ok.
Defined.

Lemma production_known_errors_witness :
  shown Undef (Obj [("name", Str "TokenExpiredError"); ("message", Str "jwt expired")]) 401
    "Your token has expired! Please log in again.".
Proof.
  destruct (production_known_errors Undef
    [("name", Str "TokenExpiredError"); ("message", Str "jwt expired")]) as (_ & _ & _ & H).
  by apply H.
Defined.

Lemma duplicate_value_quoted_witness :
  is_ok (duplicate_value (Str "dup key: { email: 'a@b.c' }")) = true.
Proof.
  destruct (duplicate_value_quoted "dup key: { email: 'a@b.c' }") as [_ H].
  by apply (H "'"%char "dup key: { email: " "a@b.c" " }").
Defined.

(** A duplicate token id is a number: its message has no quotes. *)
Example duplicate_number_fails :
  is_ok (duplicate_value (Str "E11000 duplicate key error index: tokenId_1 dup key: { tokenId: 7 }"))
  = false.
Proof. reflexivity. Qed.
