(* ===== verification/Validation.v ===== *)
(** * Input validation

    src/middlewares/validation.middleware.js, src/middlewares/upload.middleware.js
    and src/validators/collection.validator.js.  Joi and multer are libraries:
    what the code gives them is data here, what they do with it a parameter. *)

From stdpp Require Import base list strings numbers.
From Stdlib Require Import ZArith Lia Ascii.
From S2P Require Import Prelude Js.

(** ** validateNFTInput *)
Definition is_array (v : jsval) : bool := match v with Arr _ => true | _ => false end.

Definition validateNFTInput (nftData : jsval) : result jsval jsval :=
  name ← prop nftData "name";
  if negb (truthy name) then Ok (Str "Name is required") else
  image ← prop nftData "image";
  missing ← (if negb (truthy image) then
               imageUrl ← prop nftData "imageUrl"; Ok (negb (truthy imageUrl))
             else Ok false);
  if missing : bool then Ok (Str "Image or imageUrl is required") else
  attributes ← prop nftData "attributes";
  if truthy attributes && negb (is_array attributes)
  then Ok (Str "Attributes must be an array") else
  Ok Null.

(** ** The file filter and the limits of uploads *)
Definition allowedTypes : list string := ["image/jpeg"; "image/png"; "image/gif"; "image/webp"].

(** The arguments the filter passes to its callback. *)
Definition fileFilter (file : jsval) : result jsval (jsval * bool) :=
  mimetype ← prop file "mimetype";
  if negb (existsb (is_str mimetype) allowedTypes) then
    let error := Error_ "Invalid file type. Only JPEG, PNG, GIF, and WEBP are allowed." in
    Ok (set_prop error "code" (Str "INVALID_FILE_TYPE"), false)
  else Ok (Null, true).

Record upload_options := {
  u_storage : string;
  u_fileFilter : option (jsval → result jsval (jsval * bool));
  u_fileSize : option Z
}.

Definition upload : upload_options :=
  {| u_storage := "memory"; u_fileFilter := Some fileFilter;
     u_fileSize := Some (5 * 1024 * 1024)%Z |}.

(** ** The schema of a collection *)
Record joi_string := {
  j_required : bool;
  j_min : option Z;
  j_max : option Z;
  j_valid : list string;
  j_uri : bool
}.

Definition joi_schema := list (string * joi_string).

Definition collection_schema : joi_schema := [
  ("name", {| j_required := true; j_min := Some 3%Z; j_max := Some 50%Z; j_valid := [];
              j_uri := false |});
  ("symbol", {| j_required := true; j_min := Some 2%Z; j_max := Some 10%Z; j_valid := [];
                j_uri := false |});
  ("description", {| j_required := false; j_min := None; j_max := Some 1000%Z; j_valid := [];
                     j_uri := false |});
  ("category", {| j_required := true; j_min := None; j_max := None;
                  j_valid := ["art"; "gaming"; "music"; "sports"; "photography"];
                  j_uri := false |});
  ("websiteUrl", {| j_required := false; j_min := None; j_max := None; j_valid := [];
                    j_uri := true |});
  ("discordUrl", {| j_required := false; j_min := None; j_max := None; j_valid := [];
                    j_uri := true |});
  ("twitterUrl", {| j_required := false; j_min := None; j_max := None; j_valid := [];
                    j_uri := true |}) ].

Section joi.
(** [schema.validate(data)]: the object it returns, whose [error] is undefined
    when the data are accepted. *)
Variable joi_validate : joi_schema → jsval → jsval.

Definition validateCollection (data : jsval) : jsval := joi_validate collection_schema data.
End joi.

(** What Joi documents about [required] and [valid]: data that are accepted
    have every required key, and a key with a list of valid values has one of
    them. *)
Definition joi_respects_valid (joi_validate : joi_schema → jsval → jsval) : Prop :=
  ∀ schema data, truthy (prop_opt (joi_validate schema data) "error") = false →
    ∀ k f, (k, f) ∈ schema → j_required f = true → j_valid f ≠ [] →
    ∃ v, prop data k = Ok (Str v) ∧ v ∈ j_valid f.

(** ** Properties *)

(** The exact answer of [validateNFTInput] on an object: the first of the
    three complaints that applies, or null.  Only what is in the body counts:
    an uploaded file does not stand in for [image]. *)
Theorem validateNFTInput_exact fields :
  let get k := default Undef (assoc k fields) in
  validateNFTInput (Obj fields) = Ok (
    if negb (truthy (get "name")) then Str "Name is required"
    else if negb (truthy (get "image")) && negb (truthy (get "imageUrl"))
    then Str "Image or imageUrl is required"
    else if truthy (get "attributes") && negb (is_array (get "attributes"))
    then Str "Attributes must be an array"
    else Null).
Proof.
  intros get. unfold validateNFTInput. cbn -[get].
  change (default Undef (assoc "name" fields)) with (get "name").
  destruct (truthy (get "name")); [cbn -[get]|done].
  change (default Undef (assoc "image" fields)) with (get "image").
  change (default Undef (assoc "attributes" fields)) with (get "attributes").
  change (default Undef (assoc "imageUrl" fields)) with (get "imageUrl").
  destruct (truthy (get "image")); cbn -[get].
  - by destruct (truthy (get "attributes") && _).
  - change (default Undef (assoc "imageUrl" fields)) with (get "imageUrl").
    destruct (truthy (get "imageUrl")); cbn -[get]; [|done].
    change (default Undef (assoc "attributes" fields)) with (get "attributes").
    by destruct (truthy (get "attributes") && _).
Qed.

(** An upload is accepted exactly when its declared type is one of the four
    image types; otherwise the filter reports the error code
    INVALID_FILE_TYPE and refuses. *)
Theorem fileFilter_exact file fields :
  file = Obj fields →
  (fileFilter file = Ok (Null, true) ↔
     ∃ t, t ∈ allowedTypes ∧ assoc "mimetype" fields = Some (Str t)) ∧
  (fileFilter file ≠ Ok (Null, true) →
     ∃ e, fileFilter file = Ok (e, false) ∧ prop e "code" = Ok (Str "INVALID_FILE_TYPE")).
Proof.
  intros ->. unfold fileFilter. cbn -[allowedTypes existsb].
  set (mt := default Undef (assoc "mimetype" fields)).
  destruct (existsb (is_str mt) allowedTypes) eqn:He; cbn -[allowedTypes].
  - split; [|done]. split; [intros _|done].
    apply existsb_exists in He as (t & Ht & Hs). exists t.
    split; [by apply list_elem_of_In|]. subst mt.
    destruct (assoc "mimetype" fields) as [[]|]; try done. cbn in Hs.
    by apply String.eqb_eq in Hs as ->.
  - split; [|intros _; by eexists]. split; [done|]. intros (t & Ht & Ha).
    assert (existsb (is_str mt) allowedTypes = true); [|congruence].
    apply existsb_exists. exists t. split; [by apply list_elem_of_In|].
    subst mt. rewrite Ha. cbn. apply String.eqb_refl.
Qed.

Lemma fileFilter_exact_witness :
  fileFilter (Obj [("mimetype", Str "image/png")]) = Ok (Null, true).
Proof.
  apply (fileFilter_exact _ [("mimetype", Str "image/png")]); [done|].
  exists "image/png". split; [|done]. apply (bool_decide_unpack _). by vm_compute.
Defined.
