(* ===== verification/Models.v ===== *)
(** * The database models

    src/models/collection.model.js, nft.model.js and user.model.js: the schemas
    as data, and the hooks and methods of the user document.  Mongoose's
    documents and [save] are an interface with laws; bcrypt, the hash function of
    crypto, jsonwebtoken and the random sources are parameters. *)

From stdpp Require Import base list strings numbers.
From Stdlib Require Import ZArith Lia Ascii.
From S2P Require Import Prelude Js.

(** ** Schemas *)
Inductive field_type :=
| TString | TNumber | TBoolean | TDate | TObject | TObjectIds (ref : string).

(** A default that is a constant, or the time of creation. *)
Inductive field_default := DConst (v : jsval) | DNow.

Record field := {
  f_type : field_type;
  f_required : option (option string);
  f_unique : bool;
  f_sparse : bool;
  f_trim : bool;
  f_lowercase : bool;
  f_hidden : bool;
  f_enum : list string;
  f_minlength : option (Z * string);
  f_maxlength : option (Z * string);
  f_match : option (string * string);
  f_default : option field_default
}.

(** A field with no option, and one function per option. *)
Definition plain (t : field_type) : field :=
  {| f_type := t; f_required := None; f_unique := false; f_sparse := false; f_trim := false;
     f_lowercase := false; f_hidden := false; f_enum := []; f_minlength := None;
     f_maxlength := None; f_match := None; f_default := None |}.
Definition required (message : option string) (f : field) : field :=
  {| f_type := f_type f; f_required := Some message; f_unique := f_unique f;
     f_sparse := f_sparse f; f_trim := f_trim f; f_lowercase := f_lowercase f;
     f_hidden := f_hidden f; f_enum := f_enum f; f_minlength := f_minlength f;
     f_maxlength := f_maxlength f; f_match := f_match f; f_default := f_default f |}.
Definition unique (f : field) : field :=
  {| f_type := f_type f; f_required := f_required f; f_unique := true;
     f_sparse := f_sparse f; f_trim := f_trim f; f_lowercase := f_lowercase f;
     f_hidden := f_hidden f; f_enum := f_enum f; f_minlength := f_minlength f;
     f_maxlength := f_maxlength f; f_match := f_match f; f_default := f_default f |}.
Definition text_options (sparse trim lowercase hidden : bool) (f : field) : field :=
  {| f_type := f_type f; f_required := f_required f; f_unique := f_unique f;
     f_sparse := sparse; f_trim := trim; f_lowercase := lowercase; f_hidden := hidden;
     f_enum := f_enum f; f_minlength := f_minlength f; f_maxlength := f_maxlength f;
     f_match := f_match f; f_default := f_default f |}.
Definition trimmed := text_options false true false false.
Definition lowercase := text_options false false true false.
Definition sparse := text_options true false false false.
Definition hidden := text_options false false false true.
Definition checks (enum : list string) (minlength maxlength : option (Z * string))
    (match_ : option (string * string)) (f : field) : field :=
  {| f_type := f_type f; f_required := f_required f; f_unique := f_unique f;
     f_sparse := f_sparse f; f_trim := f_trim f; f_lowercase := f_lowercase f;
     f_hidden := f_hidden f; f_enum := enum; f_minlength := minlength;
     f_maxlength := maxlength; f_match := match_; f_default := f_default f |}.
Definition enum (values : list string) := checks values None None None.
Definition defaults (d : field_default) (f : field) : field :=
  {| f_type := f_type f; f_required := f_required f; f_unique := f_unique f;
     f_sparse := f_sparse f; f_trim := f_trim f; f_lowercase := f_lowercase f;
     f_hidden := f_hidden f; f_enum := f_enum f; f_minlength := f_minlength f;
     f_maxlength := f_maxlength f; f_match := f_match f; f_default := Some d |}.

Record schema := {
  s_fields : list (string * field);
  s_timestamps : bool;
  s_virtuals : bool
}.

Definition CollectionSchema : schema := {|
  s_fields := [
    ("name", trimmed (required (Some "Collection name is required") (plain TString)));
    ("symbol", trimmed (required (Some "Collection symbol is required") (plain TString)));
    ("description", plain TString);
    ("contractAddress", lowercase (unique (required None (plain TString))));
    ("creator", lowercase (required None (plain TString)));
    ("category", enum ["art"; "gaming"; "music"; "sports"; "photography"]
                   (required (Some "Category is required") (plain TString)));
    ("isVerified", defaults (DConst (Bool false)) (plain TBoolean));
    ("profileImage", plain TString);
    ("bannerImage", plain TString);
    ("websiteUrl", plain TString);
    ("discordUrl", plain TString);
    ("twitterUrl", plain TString) ];
  s_timestamps := true;
  s_virtuals := false
|}.

Definition NFTSchema : schema := {|
  s_fields := [
    ("tokenId", unique (required None (plain TNumber)));
    ("name", required None (plain TString));
    ("description", plain TString);
    ("image", plain TString);
    ("collectionAddress", required None (plain TString));
    ("creator", required None (plain TString));
    ("tokenURI", required None (plain TString));
    ("metadata", plain TObject);
    ("createdAt", defaults DNow (plain TDate)) ];
  s_timestamps := false;
  s_virtuals := false
|}.

Definition UserSchema : schema := {|
  s_fields := [
    ("username", checks [] (Some (3%Z, "Username must be at least 3 characters long"))
                   (Some (30%Z, "Username cannot exceed 30 characters")) None
                   (trimmed (unique (required (Some "Please provide a username")
                                       (plain TString)))));
    ("email", checks [] None None
                (Some ("^\w+([.-]?\w+)*@\w+([.-]?\w+)*(\.\w{2,3})+$",
                       "Please provide a valid email"))
                (lowercase (unique (required (Some "Please provide an email")
                                      (plain TString)))));
    ("password", checks [] (Some (8%Z, "Password must be at least 8 characters long"))
                   None None
                   (hidden (required (Some "Please provide a password") (plain TString))));
    ("role", defaults (DConst (Str "user")) (enum ["user"; "admin"] (plain TString)));
    ("profileImage", defaults (DConst (Str "default.jpg")) (plain TString));
    ("bio", checks [] None (Some (500%Z, "Bio cannot exceed 500 characters")) None
              (plain TString));
    ("walletAddress", sparse (unique (plain TString)));
    ("nftsOwned", plain (TObjectIds "NFT"));
    ("nftsCreated", plain (TObjectIds "NFT"));
    ("followers", plain (TObjectIds "User"));
    ("following", plain (TObjectIds "User"));
    ("passwordResetToken", plain TString);
    ("passwordResetExpires", plain TDate);
    ("accountActivationToken", plain TString);
    ("accountActivationExpires", plain TDate);
    ("isActive", defaults (DConst (Bool false)) (plain TBoolean));
    ("lastLogin", plain TDate) ];
  s_timestamps := true;
  s_virtuals := true
|}.

(** ** The user document *)

(** The names a module has bound; reading another one throws. *)
Definition read_name (scope : list string) (x : string) : result jsval unit :=
  if existsb (String.eqb x) scope then Ok tt
  else Err (ReferenceError (x +:+ " is not defined")).

(** Loading user.model.js: the statements that read a name before anything is
    exported; the last-but-one method is put on [userSchema]. *)
Definition load_user_model : result jsval (schema * string) :=
  let scope := ["mongoose"; "bcrypt"; "crypto"; "jwt"; "UserSchema"] in
  read_name scope "mongoose";;
  (* virtual, pre-save hook, methods, statics and index of UserSchema *)
  read_name scope "UserSchema";;
  (* comparePassword *)
  read_name scope "userSchema";;
  mret (UserSchema, "User").

(** *** Mongoose

    What the user model relies on: documents with named paths, which can be read
    and assigned, which know whether they were modified and whether a value could
    not be cast to the type of its path, and [save].  [save]
    takes the model's hook and what the database answers to a write; it gives
    its result and the documents written.  [date] is the Date of a number of
    milliseconds. *)
Class Mongoose (doc : Type) := {
  get : doc → string → jsval;
  set : doc → string → jsval → doc;
  isModified : doc → string → bool;
  cast_failed : doc → bool;
  accepted : schema → doc → bool;
  save : schema → (doc → result jsval doc) → (doc → result jsval jsval) → doc →
         result jsval doc * list doc;
  date : Z → jsval
}.

(** What a field's validators say of a value; [matches] is the regular
    expression test. *)
Definition missing (v : jsval) : bool :=
  match v with Undef | Null => true | Str s => String.eqb s "" | _ => false end.
Definition field_ok (matches : string → string → bool) (f : field) (v : jsval) : bool :=
  negb (bool_decide (is_Some (f_required f)) && missing v) &&
  match v with
  | Str s =>
      let n := Z.of_nat (String.length s) in
      match f_enum f with [] => true | l => existsb (String.eqb s) l end &&
      match f_minlength f with Some (k, _) => (k <=? n)%Z | None => true end &&
      match f_maxlength f with Some (k, _) => (n <=? k)%Z | None => true end &&
      match f_match f with Some (r, _) => String.eqb s "" || matches r s | None => true end
  | _ => true
  end.

(** A string path that is stored as it is given. *)
Definition verbatim (f : field) : bool :=
  match f_type f with TString => negb (f_trim f) && negb (f_lowercase f) | _ => false end.

(** What Mongoose documents of them: an assignment reaches its own path, with
    the schema's casts, and marks it modified when it changes it; [save] checks
    the modified paths with their validators, then runs the hook, then writes
    the document, which is unmodified afterwards; a document whose paths all have
    their types and pass their validators is accepted; a refused one is not written. *)
Class MongooseLaws (S : schema) (matches : string → string → bool) (doc : Type)
    `{Mongoose doc} := {
  get_set d k f s : (k, f) ∈ s_fields S → verbatim f = true → get (set d k (Str s)) k = Str s;
  get_set_date d k f ms : (k, f) ∈ s_fields S → f_type f = TDate →
    get (set d k (int ms)) k = date ms;
  get_set_ne d k k' v : k ≠ k' → get (set d k v) k' = get d k';
  modified_set d k f s : (k, f) ∈ s_fields S → verbatim f = true → get d k ≠ Str s →
    isModified (set d k (Str s)) k = true;
  modified_set_ne d k k' v : k ≠ k' → isModified (set d k v) k' = isModified d k';
  accepted_modified d k f : accepted S d = true → (k, f) ∈ s_fields S → isModified d k = true →
    field_ok matches f (get d k) = true;
  cast_set d k f s : (k, f) ∈ s_fields S → verbatim f = true → cast_failed d = false →
    cast_failed (set d k (Str s)) = false;
  accepted_all d : cast_failed d = false → (∀ k f, (k, f) ∈ s_fields S → field_ok matches f (get d k) = true) →
    accepted S d = true;
  save_refused hook write d : accepted S d = false → ∃ e, save S hook write d = (Err e, []);
  save_hook_failed hook write d e : accepted S d = true → hook d = Err e →
    save S hook write d = (Err e, []);
  save_written hook write d d1 : accepted S d = true → hook d = Ok d1 →
    ∃ d2, (∀ k, get d2 k = get d1 k) ∧ (∀ k, isModified d2 k = false) ∧
      save S hook write d = ((_ ← write d1; Ok d2), [d1])
}.

(** [buffer.toString("hex")]. *)
Definition hex_digit (d : nat) : ascii :=
  ascii_of_nat (if d <? 10 then 48 + d else 87 + d).
Fixpoint hex (bytes : string) : string :=
  match bytes with
  | EmptyString => EmptyString
  | String c s =>
      let n := nat_of_ascii c in
      String (hex_digit (n / 16)) (String (hex_digit (n mod 16)) (hex s))
  end.

Lemma hex_length bytes : String.length (hex bytes) = 2 * String.length bytes.
Proof. induction bytes as [|c s IH]; cbn; [done|]. rewrite IH. lia. Qed.

Lemma hex_digit_inj a b : a < 16 → b < 16 → hex_digit a = hex_digit b → a = b.
Proof.
  intros Ha Hb H. apply (f_equal nat_of_ascii) in H. unfold hex_digit in H.
  rewrite !nat_ascii_embedding in H by (repeat case_match; lia).
  destruct (Nat.ltb_spec a 10), (Nat.ltb_spec b 10); lia.
Qed.

Lemma hex_inj s t : hex s = hex t → s = t.
Proof.
  assert (Hcons : ∀ a b u v, String a u = String b v → a = b ∧ u = v)
    by (intros; by simplify_eq).
  revert t. induction s as [|c s IH]; intros [|d t]; cbn -[Nat.div Nat.modulo]; try done.
  intros H. apply Hcons in H as [H1 H]. apply Hcons in H as [H2 H3].
  pose proof (nat_ascii_bounded c) as Hc. pose proof (nat_ascii_bounded d) as Hd.
  f_equal; [|by apply IH].
  apply hex_digit_inj in H1; [|apply Nat.Div0.div_lt_upper_bound; lia..].
  apply hex_digit_inj in H2; [|apply Nat.mod_upper_bound; lia..].
  rewrite <- (ascii_nat_embedding c), <- (ascii_nat_embedding d). f_equal.
  rewrite (Nat.div_mod (nat_of_ascii c) 16), (Nat.div_mod (nat_of_ascii d) 16) by done.
  congruence.
Qed.

Section user.
Context {doc : Type} `{Mongoose doc}.
Variable bcrypt_hash : jsval → string → result jsval string.
Variable bcrypt_compare : jsval → jsval → result jsval bool.
Variable sha256_hex : string → string.
Variable jwt_sign : jsval → jsval → jsval → result jsval string.

(** [${this.firstName} ${this.lastName}]. *)
Definition fullName (this : doc) : string :=
  to_string (get this "firstName") +:+ " " +:+ to_string (get this "lastName").

(** [UserSchema.pre("save")]; [salt] is what [bcrypt.genSalt(10)] answers. *)
Definition pre_save (salt : result jsval string) (this : doc) : result jsval doc :=
  if negb (isModified this "password") then Ok this else
  salt ← salt;
  password ← bcrypt_hash (get this "password") salt;
  Ok (set this "password" (Str password)).

Definition isPasswordCorrect (this : doc) (candidatePassword : jsval) : result jsval bool :=
  bcrypt_compare candidatePassword (get this "password").

(** [env] is [process.env]. *)
Definition generateAuthToken (env : string → jsval) (this : doc) : result jsval string :=
  jwt_sign (Obj [("id", get this "_id")]) (env "JWT_SECRET")
    (Obj [("expiresIn", env "JWT_EXPIRE")]).

(** [bytes] are the 20 random bytes, [now] is [Date.now()]. *)
Definition generatePasswordResetToken (bytes : string) (now : Z) (this : doc) : string * doc :=
  let resetToken := hex bytes in
  let this := set this "passwordResetToken" (Str (sha256_hex resetToken)) in
  let this := set this "passwordResetExpires" (int (now + 10 * 60 * 1000)) in
  (resetToken, this).

Definition generateAccountActivationToken (bytes : string) (now : Z) (this : doc)
    : string * doc :=
  let activationToken := hex bytes in
  let this := set this "accountActivationToken" (Str (sha256_hex activationToken)) in
  let this := set this "accountActivationExpires" (int (now + 24 * 60 * 60 * 1000)) in
  (activationToken, this).

(** [findById] answers the document, or null. *)
Definition getNFTCount (found : option doc) : result jsval jsval :=
  match found with
  | None => Err (TypeError "Cannot read properties of null (reading 'nftsOwned')")
  | Some user => prop (get user "nftsOwned") "length"
  end.

(** ** Properties *)
Variable matches : string → string → bool.
Context `{!MongooseLaws UserSchema matches doc}.

Lemma pre_save_unmodified salt d : isModified d "password" = false → pre_save salt d = Ok d.
Proof. unfold pre_save. by intros ->. Qed.

(** Finds a field of the schema. *)
Ltac in_schema := unfold UserSchema; cbn [s_fields]; repeat (first [by left | right]).

Lemma password_set d p : get (set d "password" (Str p)) "password" = Str p.
Proof. eapply get_set; [in_schema|done]. Qed.
Lemma password_modified d p :
  get d "password" ≠ Str p → isModified (set d "password" (Str p)) "password" = true.
Proof. eapply modified_set; [in_schema|done]. Qed.

(** What the validators say of a new password, the rest of the document being
    in order. *)
Lemma password_accepted d p :
  cast_failed d = false →
  (∀ k f, (k, f) ∈ s_fields UserSchema → k ≠ "password" → field_ok matches f (get d k) = true) →
  get d "password" ≠ Str p →
  accepted UserSchema (set d "password" (Str p)) = (8 <=? String.length p).
Proof.
  intros Hcast Hd Hp. destruct (Nat.leb_spec 8 (String.length p)) as [Hlong|Hshort].
  - apply (accepted_all (matches := matches)); [eapply cast_set; [in_schema|done..]|].
    intros k f Hk.
    destruct (decide (k = "password")) as [->|Hne]; [|rewrite get_set_ne by done; by apply Hd].
    rewrite password_set. unfold UserSchema in Hk. cbn [s_fields] in Hk.
    rewrite !elem_of_cons, elem_of_nil in Hk. destruct_or?; simplify_eq. unfold field_ok. cbn.
    rewrite (proj2 (Z.leb_le _ _)) by lia. by destruct p; [cbn in Hlong; lia|].
  - destruct (accepted _ _) eqn:E; [|done].
    assert (Hf : ∃ f, ("password", f) ∈ s_fields UserSchema ∧ f_minlength f =
      Some (8%Z, "Password must be at least 8 characters long")).
    { eexists. split; [in_schema|done]. }
    destruct Hf as (f & Hf & Hmin).
    pose proof (accepted_modified (matches := matches) _ _ _ E Hf (password_modified d p Hp)) as Hok.
    rewrite password_set in Hok. unfold field_ok in Hok. rewrite Hmin in Hok.
    apply andb_true_iff in Hok as [_ Hok]. cbv zeta in Hok.
    rewrite (proj2 (Z.leb_gt _ _)), !andb_false_r in Hok by lia. done.
Qed.


(** The token mailed to the user is the hexadecimal form of the random
    bytes (so different bytes give different tokens); the database only gets
    its SHA-256 digest, with an expiry of 10 minutes for a password reset and 24
    hours for an activation; nothing else of the document changes, so the two
    kinds of token do not disturb each other. *)
Theorem tokens_digested bytes now d :
  let '(reset, d1) := generatePasswordResetToken bytes now d in
  let '(activation, d2) := generateAccountActivationToken bytes now d in
  reset = hex bytes ∧ activation = hex bytes ∧
  String.length reset = 2 * String.length bytes ∧
  (∀ bytes', (generatePasswordResetToken bytes' now d).1 = reset → bytes' = bytes) ∧
  get d1 "passwordResetToken" = Str (sha256_hex reset) ∧
  get d1 "passwordResetExpires" = date (now + 600000) ∧
  get d2 "accountActivationToken" = Str (sha256_hex activation) ∧
  get d2 "accountActivationExpires" = date (now + 86400000) ∧
  (∀ k, k ∉ ["passwordResetToken"; "passwordResetExpires"] →
     get d1 k = get d k ∧ isModified d1 k = isModified d k) ∧
  (∀ k, k ∉ ["accountActivationToken"; "accountActivationExpires"] →
     get d2 k = get d k ∧ isModified d2 k = isModified d k).
Proof.
  cbn zeta. split_and!; try done; [apply hex_length|intros bytes'; apply hex_inj|..].
  5,6: intros k Hk; rewrite !not_elem_of_cons in Hk; destruct Hk as (H1 & H2 & _);
    by rewrite !get_set_ne, !modified_set_ne.
  1,3: rewrite get_set_ne by done; eapply get_set; [in_schema|done].
  all: eapply get_set_date; [in_schema|done].
Qed.
End user.

(** The user model can never be loaded. *)
Lemma user_model_never_loads :
  load_user_model = Err (ReferenceError "userSchema is not defined").
Proof. reflexivity. Qed.

(** ** The properties at work *)

(** A document that does what Mongoose documents. *)
Record simple_doc := { sd_fields : list (string * jsval); sd_modified : list string }.
Definition same_string (v w : jsval) : bool :=
  match v, w with Str s, Str t => String.eqb s t | _, _ => false end.
Definition any_match (_ _ : string) : bool := true.

Definition simple_accepted (S : schema) (d : simple_doc) : bool :=
  forallb (λ '(k, f), field_ok any_match f (default Undef (assoc k (sd_fields d)))) (s_fields S).

#[export] Instance simple_mongoose : Mongoose simple_doc := {
  get d k := default Undef (assoc k (sd_fields d));
  set d k v := {| sd_fields := assoc_set k v (sd_fields d);
    sd_modified := if same_string (default Undef (assoc k (sd_fields d))) v then sd_modified d
                   else k :: sd_modified d |};
  isModified d k := existsb (String.eqb k) (sd_modified d);
  cast_failed _ := false;
  accepted := simple_accepted;
  save S hook write d :=
    if simple_accepted S d
    then match hook d with
         | Ok d1 => ((_ ← write d1; Ok {| sd_fields := sd_fields d1; sd_modified := [] |}), [d1])
         | Err e => (Err e, [])
         end
    else (Err (Error_ "validation failed"), []);
  date := λ ms, int ms
}.

#[export] Instance simple_mongoose_laws : MongooseLaws UserSchema any_match simple_doc.
Proof.
  split; cbn -[UserSchema simple_accepted].
  - intros d k f s _ _. by rewrite assoc_set_eq.
  - intros d k f ms _ _. by rewrite assoc_set_eq.
  - intros d k k' v Hk. by rewrite assoc_set_ne.
  - intros d k f s _ _ Hne. destruct (default Undef _); cbn; rewrite ?String.eqb_refl; try done.
    case_match eqn:E; [apply String.eqb_eq in E; by subst|]. cbn. by rewrite String.eqb_refl.
  - intros d k k' v Hk. case_match; [done|]. cbn. by rewrite (proj2 (String.eqb_neq k' k)) by done.
  - intros d k f Ha Hk _. apply list_elem_of_In in Hk.
    by apply (proj1 (forallb_forall _ _) Ha _ Hk).
  - done.
  - intros d _ Hd. apply forallb_forall. intros [k f] Hk. apply Hd. by apply list_elem_of_In.
  - intros hook write d ->. by eexists.
  - by intros hook write d e -> ->.
  - intros hook write d d1 -> ->. eexists. split; [|split; [|reflexivity]]; done.
Qed.

Definition sample_doc : simple_doc := {|
  sd_fields := [("username", Str "alice"); ("email", Str "alice@example.org"); ("role", Str "user")];
  sd_modified := ["username"; "email"] |}.
Definition sample_hash (v : jsval) (salt : string) : result jsval string :=
  Ok (salt +:+ "." +:+ to_string v).
Definition sample_compare (v w : jsval) : result jsval bool :=
  Ok (String.eqb (to_string w) ("salt." +:+ to_string v)).

