(* ===== verification/CollectionService.v ===== *)
(** * src/services/collection.service.js and src/controllers/collection.controller.js

    Creating a collection through the factory contract and recording it in the
    database; listing the recorded ones; the two request handlers.  The factory
    contract is not in the repository: its calls are operations of the outside. *)

From stdpp Require Import base list strings numbers.
From Stdlib Require Import ZArith Lia Ascii.
From S2P Require Import Prelude Js ErrorMiddleware Validation.

Section service.
Variable stack : jsval.
(** [process.env]. *)
Variable env : string → jsval.

Definition AppError := new_AppError stack.

(** The objects the constructor of the service builds. *)
Definition constructor_service : js unit :=
  invoke "ethers" "JsonRpcProvider" [env "RPC_URL"];;
  invoke "ethers" "Contract" [env "FACTORY_ADDRESS"];;
  mret tt.

(** [logs.find((log) => interface.parseLog(log)?.name === "CollectionCreated")]. *)
Fixpoint find_event (logs : list jsval) : js jsval :=
  match logs with
  | [] => mret Undef
  | log :: logs =>
      parsed ← invoke "interface" "parseLog" [log];
      if is_str (prop_opt parsed "name") "CollectionCreated" then mret log
      else find_event logs
  end.

Definition array_of (v : jsval) : result jsval (list jsval) :=
  match v with
  | Arr l => Ok l
  | Undef => Err (TypeError "Cannot read properties of undefined (reading 'find')")
  | Null => Err (TypeError "Cannot read properties of null (reading 'find')")
  | _ => Err (TypeError "find is not a function")
  end.

Definition collection_document (data collectionAddress userAddress : jsval)
    : result jsval jsval :=
  name ← prop data "name"; symbol ← prop data "symbol";
  description ← prop data "description"; category ← prop data "category";
  websiteUrl ← prop data "websiteUrl"; discordUrl ← prop data "discordUrl";
  twitterUrl ← prop data "twitterUrl";
  Ok (Obj [("name", name); ("symbol", symbol); ("description", description);
           ("contractAddress", collectionAddress); ("creator", userAddress);
           ("category", category); ("websiteUrl", websiteUrl); ("discordUrl", discordUrl);
           ("twitterUrl", twitterUrl)]).

(** The body of the try block of [createCollection]. *)
Definition create_and_save (data userAddress : jsval) : js jsval :=
  signer ← invoke "ethers" "Wallet" [env "PRIVATE_KEY"];
  factory ← invoke "factory" "connect" [signer];
  name ← pure (prop data "name");
  symbol ← pure (prop data "symbol");
  category ← pure (prop data "category");
  tx ← invoke "factory" "createCollection" [name; symbol; category];
  receipt ← invoke "tx" "wait" [tx];
  logs ← pure (prop receipt "logs");
  logs ← pure (array_of logs);
  event ← find_event logs;
  if negb (truthy event) then throw_js (AppError 500 "Collection creation event not found" true)
  else
  parsedEvent ← invoke "interface" "parseLog" [event];
  args ← pure (prop parsedEvent "args");
  collectionAddress ← pure (prop args "collectionAddress");
  doc ← pure (collection_document data collectionAddress userAddress);
  collection ← invoke "Collection" "new" [doc];
  invoke "collection" "save" [collection];;
  mret collection.

(** [catch (error) { throw new AppError(500, `prefix: ${error.message}`) }]. *)
Definition wrap_error {A} (prefix : string) (error : jsval) : js A :=
  message ← pure (prop error "message");
  throw_js (AppError 500 (prefix +:+ to_string message) true).

Definition createCollection (data userAddress : jsval) : js jsval :=
  try_catch (create_and_save data userAddress) (wrap_error "Failed to create collection: ").

Definition getAllCollections (query : jsval) : js jsval :=
  try_catch
    (found ← invoke "Collection" "find" [query; Obj [("createdAt", int (-1))]; Str "-__v"];
     mret found)
    (wrap_error "Failed to fetch collections: ").

(** The class, and [module.exports = new CollectionService()]: loading the
    module runs the constructor. *)
Record CollectionService := {
  cs_createCollection : jsval → jsval → js jsval;
  cs_getAllCollections : jsval → js jsval
}.
Definition new_CollectionService : js CollectionService :=
  constructor_service;;
  mret {| cs_createCollection := createCollection; cs_getAllCollections := getAllCollections |}.

(** ** The request handlers *)
Variable joi_validate : joi_schema → jsval → jsval.

(** The message an error takes from its argument. *)
Definition error_text (v : jsval) : string :=
  match v with Undef => "" | _ => to_string v end.

(** [error.details[0].message]. *)
Definition first_detail (error : jsval) : result jsval jsval :=
  details ← prop error "details";
  first ← match details with
          | Arr l => Ok (default Undef (l !! 0))
          | Undef => Err (TypeError "Cannot read properties of undefined (reading '0')")
          | Null => Err (TypeError "Cannot read properties of null (reading '0')")
          | _ => Ok Undef
          end;
  prop first "message".

(** The [try] blocks of the two handlers. *)
Definition create_request (req : jsval) : js unit :=
  body ← pure (prop req "body");
  error ← pure (prop (validateCollection joi_validate body) "error");
  (if truthy error then
     message ← pure (first_detail error);
     throw_js (AppError 400 (error_text message) true)
   else mret tt);;
  user ← pure (prop req "user");
  address ← pure (prop user "address");
  collection ← createCollection body address;
  note (Respond (int 201) (Obj [("status", Str "success"); ("data", collection)])).

Definition list_request (req : jsval) : js unit :=
  collections ← getAllCollections (Obj []);
  length ← pure (prop collections "length");
  note (Respond (int 200) (Obj [("status", Str "success"); ("results", length);
                                ("data", collections)])).

Definition handle_createCollection (req : jsval) : js unit :=
  try_catch (create_request req) (λ error, note (Next (Some error))).

Definition handle_getAllCollections (req : jsval) : js unit :=
  try_catch (list_request req) (λ error, note (Next (Some error))).

(** What src/controllers/collection.controller.js exports. *)
Record collection_exports := {
  x_createCollection : jsval → js unit;
  x_getAllCollections : jsval → js unit
}.
Definition collection_controller : collection_exports :=
  {| x_createCollection := handle_createCollection;
     x_getAllCollections := handle_getAllCollections |}.

(** ** Facts *)
Definition is_parse := is_invoke "interface" "parseLog".
Definition is_save := is_invoke "collection" "save".
Definition is_send := is_invoke "factory" "createCollection".

Lemma spends_find_event p logs :
  (∀ e, is_parse e = true → p e = false) → spends p (find_event logs) 0 0.
Proof.
  intros Hp. induction logs as [|l logs IH]; cbn; [count_js|].
  apply spends_bind0; [apply spends_perform; by apply Hp|]. intros x. apply spends_if; count_js.
Qed.

Lemma wrap_error_never {A} prefix e o h (a : A) h' : wrap_error prefix e o h ≠ (Ok a, h').
Proof. unfold wrap_error. run_js. by destruct (prop e "message"). Qed.

Definition parse_call (log : jsval) : event := Invoke "interface" "parseLog" [log].

(** The search stops at the first log that parses to a CollectionCreated event:
    it parses the logs up to it, each once, in order. *)
Lemma find_event_found logs o h event h' :
  find_event logs o h = (Ok event, h') → truthy event = true →
  ∃ pre post, logs = pre ++ event :: post ∧ h' = h ++ (parse_call <$> pre ++ [event]) ∧
    (∃ parsed, o (h ++ (parse_call <$> pre)) (parse_call event) = Ok parsed ∧
       prop_opt parsed "name" = Str "CollectionCreated") ∧
    ∀ k log, pre !! k = Some log → ∃ parsed,
      o (h ++ (parse_call <$> take k pre)) (parse_call log) = Ok parsed ∧
      prop_opt parsed "name" ≠ Str "CollectionCreated".
Proof.
  intros H Ht. revert h H. induction logs as [|l logs IH]; intros h H; cbn in H.
  { by apply js_ret_Ok in H as [-> _]. }
  apply js_bind_Ok in H as (p & h1 & [Hp ->]%perform_Ok & H).
  destruct (is_str _ _) eqn:Hn.
  - apply js_ret_Ok in H as [-> ->]. exists [], logs. cbn. rewrite app_nil_r.
    split_and!; [done|done|exists p; by rewrite <- is_str_eq|]. by intros [].
  - apply IH in H as (pre & post & -> & -> & Hfound & Hbefore). exists (l :: pre), post. cbn.
    rewrite <- !app_assoc in *. split_and!; [done|done|done|].
    intros [|k] log Hk; cbn in *.
    + injection Hk as ->. exists p. rewrite app_nil_r. split; [done|].
      intros E%is_str_eq. congruence.
    + destruct (Hbefore k log Hk) as (q & Hq & Hne). exists q. by rewrite <- app_assoc in Hq.
Qed.


Lemma throws_array P v : (∀ s, P (TypeError s)) → throws P (pure (array_of v)).
Proof. intros HP. apply throws_pure. intros x. by destruct v; intros [= <-]. Qed.
Lemma throws_document P data a u :
  (∀ s, P (TypeError s)) → throws P (pure (collection_document data a u)).
Proof. intros HP. apply throws_pure. intros x. by destruct data; cbn; intros [= <-]. Qed.
#[local] Hint Resolve throws_array throws_document : js_throws.

Lemma create_and_save_throws data user : throws is_object (create_and_save data user).
Proof.
  assert (Hfind : ∀ logs, throws is_object (find_event logs))
    by (induction logs as [|l logs IH]; cbn; throws_js).
  unfold create_and_save. throws_js.
Qed.

#[local] Hint Extern 1 (spends _ (find_event _) 0 0) =>
  apply spends_find_event; intros;
  first [by eapply is_invoke_other|by eapply is_invoke_answer] : js_count.

Lemma create_sends_once data user : at_most is_send (create_and_save data user) 1.
Proof.
  unfold create_and_save. do 5 (apply at_most_bind0; [count_js|intros ?]).
  apply (at_most_bind _ _ _ 1 0); [apply at_most_perform|intros ?].
  apply (at_most_spends _ _ 0 0); [count_js|done..].
Qed.

Lemma create_saves_once data user : at_most is_save (create_and_save data user) 1.
Proof.
  unfold create_and_save. do 10 (apply at_most_bind0; [count_js|intros ?]).
  apply at_most_if; [by apply (at_most_spends _ _ 0 0); [count_js|lia..]|].
  do 5 (apply at_most_bind0; [count_js|intros ?]).
  apply (at_most_bind _ _ _ 1 0); [apply at_most_perform|intros ?].
  apply (at_most_spends _ _ 0 0); [count_js|done..].
Qed.

(** C36: whatever goes wrong in [createCollection], the caller gets an
    operational AppError of status 500 whose message is "Failed to create
    collection: " and the original message; at most one transaction was sent
    and at most one document written. *)
Theorem createCollection_failure data user o h e h' :
  rejects_objects o → createCollection data user o h = (Err e, h') →
  (∃ cause, create_and_save data user o h = (Err cause, h') ∧
     e = AppError 500 ("Failed to create collection: " +:+ to_string (prop_opt cause "message"))
           true) ∧
  ∃ tr, h' = h ++ tr ∧ count is_send tr ≤ 1 ∧ count is_save tr ≤ 1.
Proof.
  intros Ho H. apply try_catch_Err in H as (cause & h1 & Hc & H).
  destruct (create_and_save_throws _ _ _ _ _ _ Ho Hc) as [fields ->].
  unfold wrap_error in H. cbn in H. injection H as <- <-. split; [by eexists|].
  pose proof (create_sends_once data user o h) as (tr & E & Hs).
  pose proof (create_saves_once data user o h) as (tr' & E' & Hs').
  rewrite Hc in E, E'. cbn in E, E'. exists tr. split; [done|]. split; [done|].
  rewrite E in E'. by apply app_inv_head in E' as ->.
Qed.

(** ** The request handlers *)
Lemma spends_wrap_error p {A} prefix e : spends p (wrap_error prefix e : js A) 0 0.
Proof. unfold wrap_error. count_js. Qed.
#[local] Hint Resolve spends_wrap_error : js_count.

Lemma spends_createCollection data user : spends is_answer (createCollection data user) 0 0.
Proof.
  apply (spends_try _ _ _ 0 0 0); [unfold create_and_save; count_js|count_js].
Qed.
Lemma spends_getAllCollections query : spends is_answer (getAllCollections query) 0 0.
Proof. apply (spends_try _ _ _ 0 0 0); count_js. Qed.
#[local] Hint Resolve spends_createCollection spends_getAllCollections : js_count.

(** Both handlers of the collection routes answer every request exactly
    once, with a response or by passing an error to [next], and never throw. *)
Theorem handlers_answer_once req o h :
  (let '(r, h') := handle_createCollection req o h in
   r = Ok tt ∧ ∃ tr, h' = h ++ tr ∧ count is_answer tr = 1) ∧
  (let '(r, h') := handle_getAllCollections req o h in
   r = Ok tt ∧ ∃ tr, h' = h ++ tr ∧ count is_answer tr = 1).
Proof.
  assert (H : ∀ m : js unit, spends is_answer m 1 0 →
    let '(r, h') := try_catch m (λ error, note (Next (Some error))) o h in
    r = Ok tt ∧ ∃ tr, h' = h ++ tr ∧ count is_answer tr = 1).
  { intros m Hm.
    destruct (spends_try is_answer m (λ error, note (Next (Some error))) 1 0 1 Hm
      ltac:(intros; by apply spends_note) o h) as (tr & E & Hc).
    destruct (try_catch _ _ o h) as [r h'] eqn:Hr. cbn in *.
    assert (r = Ok tt) as ->.
    { unfold try_catch in Hr. destruct (m o h) as [[[]|x] h1]; by injection Hr as <- _. }
    split; [done|]. exists tr. split; [done|]. rewrite Hc. done. }
  split; apply H; [unfold create_request|unfold list_request]; count_js.
Qed.

(** Nothing hides the cause of a failed creation: in production, for an
    accepted request whose creation fails with an error of some message, the
    client is sent that message, with status 500. *)
Theorem creation_failure_reaches_client req body user address cause message o h h1 :
  prop req "body" = Ok body → prop req "user" = Ok user → prop user "address" = Ok address →
  truthy (prop_opt (validateCollection joi_validate body) "error") = false →
  is_ok (prop (validateCollection joi_validate body) "error") = true →
  create_and_save body address o h = (Err (Obj cause), h1) →
  assoc "message" cause = Some (Str message) →
  let error := AppError 500 ("Failed to create collection: " +:+ message) true in
  handle_createCollection req o h = (Ok tt, h1 ++ [Next (Some error)]) ∧
  shown stack error 500 ("Failed to create collection: " +:+ message).
Proof.
  intros Hb Hu Ha Hv Hok Hc Hm error. split.
  - unfold handle_createCollection, create_request, createCollection. run_js. rewrite Hb.
    unfold prop_opt in Hv. destruct (prop (validateCollection joi_validate body) "error"); [|done].
    rewrite Hv, Hu, Ha, Hc. unfold wrap_error. run_js. cbn. by rewrite Hm.
  - eapply shown_when; [reflexivity|]. reflexivity.
Qed.
End service.

(** ** The properties at work *)
Definition sample_env (_ : string) : jsval := Str "x".
Definition sample_body : jsval :=
  Obj [("name", Str "Apes"); ("symbol", Str "APE"); ("category", Str "art")].

(** A chain and a database that do their work. *)
Definition working : oracle := λ h e,
  match e with
  | Invoke object method args =>
      if String.eqb method "wait" then Ok (Obj [("logs", Arr [Str "transfer"; Str "log"])])
      else if String.eqb method "parseLog" then
        if is_str (default Undef (head args)) "transfer" then Ok Null else
        Ok (Obj [("name", Str "CollectionCreated");
                 ("args", Obj [("collectionAddress", Str "0xabc")])])
      else if String.eqb method "new" then Ok (default Undef (head args))
      else Ok Undef
  | _ => Ok Undef
  end.

(** The same, with a database that refuses. *)
Definition refusing : oracle := λ h e,
  if is_save e then Err (Error_ "E11000 duplicate key") else working h e.


Lemma createCollection_failure_witness :
  ∃ e h', createCollection Undef sample_env sample_body (Str "0xuser") refusing [] = (Err e, h') ∧
    ∃ tr, h' = [] ++ tr ∧ count is_send tr ≤ 1 ∧ count is_save tr ≤ 1.
Proof.
  destruct (createCollection Undef sample_env sample_body (Str "0xuser") refusing [])
    as [[c|e] h'] eqn:H; [by vm_compute in H|].
  exists e, h'. split; [done|].
  apply createCollection_failure in H as [_ Htr]; [done|].
  intros h e' x Hx. unfold refusing in Hx. destruct (is_save e'); [injection Hx as <-; by eexists|].
  unfold working in Hx. destruct e'; try done. by repeat case_match.
Defined.

Lemma creation_failure_reaches_client_witness :
  let req := Obj [("body", sample_body); ("user", Obj [("address", Str "0xuser")])] in
  let error := AppError Undef 500 "Failed to create collection: E11000 duplicate key" true in
  shown Undef error 500 "Failed to create collection: E11000 duplicate key".
Proof.
  intros req error.
  destruct (create_and_save Undef sample_env sample_body (Str "0xuser") refusing [])
    as [r h1] eqn:H.
  assert (Hr : r = Err (Error_ "E11000 duplicate key")) by (vm_compute in H; by injection H).
  subst r.
  by destruct (creation_failure_reaches_client Undef sample_env (λ _ _, Obj []) req sample_body
    (Obj [("address", Str "0xuser")]) (Str "0xuser")
    [("name", Str "Error"); ("message", Str "E11000 duplicate key")] "E11000 duplicate key"
    refusing [] h1 eq_refl eq_refl eq_refl eq_refl eq_refl H eq_refl).
Defined.
