(* ===== verification/NftService.v ===== *)
(** * Minting through the back end

    src/services/nft.service.js, src/controllers/nft.controler.js,
    src/services/pinata.service.js with src/config/pinata.js, and the upload
    service kept as comments in src/services/ipfs.service.js, which exports
    nothing. *)

From stdpp Require Import base list strings numbers.
From Stdlib Require Import ZArith Lia Ascii.
From S2P Require Import Prelude Js Validation.

(** [throw new Error(`prefix${error.message}`)]. *)
Definition rethrow {A} (prefix : string) (error : jsval) : js A :=
  message ← pure (prop error "message");
  throw_js (Error_ (prefix +:+ to_string message)).

(** [`ipfs://${v}`]. *)
Definition ipfs_uri (v : jsval) : jsval := Str ("ipfs://" +:+ to_string v).

(** ** The Pinata service *)
Definition pinata (env : string → jsval) : js jsval :=
  invoke "pinata" "new" [env "PINATA_API_KEY"; env "PINATA_SECRET_KEY"].

Definition pinata_options (name : jsval) : jsval :=
  Obj [("pinataMetadata", Obj [("name", name)])].

Definition uploadImage (fileBuffer fileName : jsval) : js jsval :=
  try_catch
    (result ← invoke "pinata" "pinFileToIPFS" [fileBuffer; pinata_options fileName];
     hash ← pure (prop result "IpfsHash");
     mret (ipfs_uri hash))
    (λ error, note (Console "error" [Str "Pinata upload error:"; error]);;
              rethrow "Failed to upload to IPFS: " error).

Definition uploadMetadata (metadata : jsval) : js jsval :=
  try_catch
    (name ← pure (prop metadata "name");
     result ← invoke "pinata" "pinJSONToIPFS"
       [metadata; pinata_options (Str (to_string name +:+ "-metadata"))];
     hash ← pure (prop result "IpfsHash");
     mret (ipfs_uri hash))
    (λ error, note (Console "error" [Str "Pinata metadata upload error:"; error]);;
              rethrow "Failed to upload metadata to IPFS: " error).

(** [module.exports = new PinataService()]. *)
Record PinataService := {
  ps_uploadImage : jsval → jsval → js jsval;
  ps_uploadMetadata : jsval → js jsval
}.
Definition new_PinataService : js PinataService :=
  mret {| ps_uploadImage := uploadImage; ps_uploadMetadata := uploadMetadata |}.

(** ** The upload service in the comments of ipfs.service.js *)
Definition headers (env : string → jsval) : list (string * jsval) :=
  [("pinata_api_key", env "PINATA_API_KEY"); ("pinata_secret_api_key", env "PINATA_SECRET_KEY")].

Definition _uploadFileToIPFS (env : string → jsval) (fileBuffer : jsval) : js jsval :=
  try_catch
    (response ← invoke "axios" "post"
       [Str "https://api.pinata.cloud/pinning/pinFileToIPFS";
        Obj [("file", fileBuffer); ("filename", Str "nft-image.png")];
        Obj [("maxBodyLength", Num (Inf false)); ("headers", Obj (headers env))]];
     data ← pure (prop response "data");
     pure (prop data "IpfsHash"))
    (rethrow "File Upload Error: ").

Definition _uploadJSONToIPFS (env : string → jsval) (jsonData : jsval) : js jsval :=
  try_catch
    (response ← invoke "axios" "post"
       [Str "https://api.pinata.cloud/pinning/pinJSONToIPFS"; jsonData;
        Obj [("headers", Obj (headers env))]];
     data ← pure (prop response "data");
     pure (prop data "IpfsHash"))
    (rethrow "JSON Upload Error: ").

(** [typeof data === "string" || typeof data === "object"]. *)
Definition is_string_or_object (data : jsval) : bool :=
  match data with Str _ | Null | Obj _ | Arr _ | Buf _ => true | _ => false end.

Definition archived_uploadToIPFS (env : string → jsval) (data : jsval) : js jsval :=
  try_catch
    (match data with
     | Buf _ => _uploadFileToIPFS env data
     | _ => if is_string_or_object data then _uploadJSONToIPFS env data
            else throw_js (Error_ "Unsupported data type for IPFS upload")
     end)
    (rethrow "IPFS Upload Error: ").

Section service.
(** [const { uploadToIPFS } = require("./ipfs.service")]. *)
Variable uploadToIPFS : option (jsval → js jsval).

Definition call_uploadToIPFS (data : jsval) : js jsval :=
  match uploadToIPFS with
  | None => throw_js (TypeError "uploadToIPFS is not a function")
  | Some f => f data
  end.

Definition service_constructor (env : string → jsval) : js unit :=
  provider ← invoke "ethers" "JsonRpcProvider" [env "SEPOLIA_RPC_URL"];
  invoke "ethers" "Wallet" [env "PRIVATE_KEY"; provider];;
  mret tt.

(** [receipt.events.find((e) => e.event === "NFTMinted")]. *)
Fixpoint find_minted (events : list jsval) : result jsval jsval :=
  match events with
  | [] => Ok Undef
  | e :: events =>
      name ← prop e "event";
      if is_str name "NFTMinted" then Ok e else find_minted events
  end.

Definition events_of (receipt : jsval) : result jsval (list jsval) :=
  events ← prop receipt "events";
  match events with
  | Arr l => Ok l
  | Undef => Err (TypeError "Cannot read properties of undefined (reading 'find')")
  | Null => Err (TypeError "Cannot read properties of null (reading 'find')")
  | _ => Err (TypeError "receipt.events.find is not a function")
  end.

Definition token_metadata (nftData imageHash : jsval) : result jsval jsval :=
  name ← prop nftData "name"; description ← prop nftData "description";
  attributes ← prop nftData "attributes"; external_url ← prop nftData "external_url";
  background_color ← prop nftData "background_color";
  animation_url ← prop nftData "animation_url";
  Ok (Obj [("name", name); ("description", description); ("image", ipfs_uri imageHash);
           ("attributes", or_else attributes (Arr [])); ("external_url", external_url);
           ("background_color", background_color); ("animation_url", animation_url)]).

Definition nft_document (tokenId nftData imageHash collectionAddress creatorAddress tokenURI
    metadata : jsval) : result jsval jsval :=
  name ← prop nftData "name"; description ← prop nftData "description";
  Ok (Obj [("tokenId", tokenId); ("name", name); ("description", description);
           ("image", ipfs_uri imageHash); ("collectionAddress", collectionAddress);
           ("creator", creatorAddress); ("tokenURI", tokenURI); ("metadata", metadata)]).

(** The body of the try block of [mintNFT]. *)
Definition mint_body (collectionAddress nftData creatorAddress : jsval) : js jsval :=
  contract ← invoke "ethers" "Contract" [collectionAddress];
  creator ← invoke "contract" "creator" [contract];
  creator ← pure (call_toLowerCase creator);
  caller ← pure (call_toLowerCase creatorAddress);
  if negb (String.eqb creator caller)
  then throw_js (Error_ "Only collection creator can mint NFTs") else
  image ← pure (prop nftData "image");
  imageHash ← call_uploadToIPFS image;
  metadata ← pure (token_metadata nftData imageHash);
  metadataHash ← call_uploadToIPFS metadata;
  let tokenURI := ipfs_uri metadataHash in
  tx ← invoke "contract" "mint" [tokenURI];
  receipt ← invoke "tx" "wait" [tx];
  events ← pure (events_of receipt);
  event ← pure (find_minted events);
  args ← pure (prop event "args");
  tokenId ← pure (prop args "tokenId");
  tokenId ← invoke "BigNumber" "toNumber" [tokenId];
  doc ← pure (nft_document tokenId nftData imageHash collectionAddress creatorAddress tokenURI
                metadata);
  nft ← invoke "NFT" "new" [doc];
  invoke "nft" "save" [nft];;
  hash ← pure (prop receipt "transactionHash");
  mret (Obj [("success", Bool true); ("tokenId", tokenId); ("tokenURI", tokenURI);
             ("transactionHash", hash); ("nft", nft)]).

Definition mintNFT (collectionAddress nftData creatorAddress : jsval) : js jsval :=
  try_catch (mint_body collectionAddress nftData creatorAddress)
    (rethrow "Failed to mint NFT: ").

Definition getNFTMetadata (collectionAddress tokenId : jsval) : js jsval :=
  try_catch
    (nft ← invoke "NFT" "findOne"
       [Obj [("collectionAddress", collectionAddress); ("tokenId", tokenId)]];
     if negb (truthy nft) then throw_js (Error_ "NFT not found") else mret nft)
    (rethrow "Failed to get NFT metadata: ").

(** The class, and [module.exports = new NFTService()]. *)
Record NFTService := {
  ns_mintNFT : jsval → jsval → jsval → js jsval;
  ns_getNFTMetadata : jsval → jsval → js jsval
}.
Definition new_NFTService (env : string → jsval) : js NFTService :=
  service_constructor env;;
  mret {| ns_mintNFT := mintNFT; ns_getNFTMetadata := getNFTMetadata |}.

(** ** The request handlers *)
Definition handle_mint (req : jsval) : js unit :=
  try_catch
    (params ← pure (prop req "params");
     collectionAddress ← pure (prop params "collectionAddress");
     nftData ← pure (prop req "body");
     user ← pure (prop req "user");
     creatorAddress ← pure (prop user "address");
     validationError ← pure (validateNFTInput nftData);
     if truthy validationError then
       note (Respond (int 400) (Obj [("error", validationError)]))
     else
     file ← pure (prop req "file");
     nftData ← (if truthy file then
                  buffer ← pure (prop file "buffer");
                  mret (set_prop nftData "image" buffer)
                else mret nftData);
     result ← mintNFT collectionAddress nftData creatorAddress;
     note (Respond (int 201) result))
    (λ error,
     note (Console "error" [Str "Mint NFT Error:"; error]);;
     message ← pure (prop error "message");
     note (Respond (int 500) (Obj [("error", message)]))).

Definition handle_getNFTMetadata (req : jsval) : js unit :=
  try_catch
    (params ← pure (prop req "params");
     collectionAddress ← pure (prop params "collectionAddress");
     tokenId ← pure (prop params "tokenId");
     metadata ← getNFTMetadata collectionAddress tokenId;
     note (Respond (int 200) metadata))
    (λ error,
     message ← pure (prop error "message");
     note (Respond (int 404) (Obj [("error", message)]))).

(** [module.exports = new NFTController()]. *)
Record NFTController := {
  nc_mintNFT : jsval → js unit;
  nc_getNFTMetadata : jsval → js unit
}.
Definition new_NFTController : js NFTController :=
  mret {| nc_mintNFT := handle_mint; nc_getNFTMetadata := handle_getNFTMetadata |}.
End service.

(** ** Facts *)
(** ** Facts *)
Definition is_mint := is_invoke "contract" "mint".
Definition is_save := is_invoke "nft" "save".

Lemma rethrow_never {A} prefix e o h (a : A) h' : rethrow prefix e o h ≠ (Ok a, h').
Proof. unfold rethrow. run_js. by destruct (prop e "message"). Qed.

Lemma spends_rethrow p {A} prefix e k : spends p (rethrow prefix e : js A) k 0.
Proof. unfold rethrow. apply spends_bind0; [count_js|]. intros. apply spends_throw. Qed.
#[export] Hint Resolve spends_rethrow : js_count.

Section facts.
Implicit Types (o : oracle) (h : list event).

(** As the repository stands, [uploadToIPFS] is undefined, and minting
    through the back end always fails: no mint transaction is ever sent and no
    token is ever recorded, whatever the chain and the database answer. *)
Theorem minting_disabled collectionAddress nftData creatorAddress o h :
  let '(r, h') := mintNFT None collectionAddress nftData creatorAddress o h in
  is_ok r = false ∧
  ∃ tr, h' = h ++ tr ∧ count is_mint tr = 0 ∧ count is_save tr = 0.
Proof.
  assert (Hs : ∀ p, (∀ c, p (Invoke "ethers" "Contract" c) = false) →
    (∀ c, p (Invoke "contract" "creator" c) = false) →
    spends p (mintNFT None collectionAddress nftData creatorAddress) 0 0).
  { intros p H1 H2. apply (spends_try _ _ _ 0 0 0); [|count_js].
    unfold mint_body. do 2 (apply spends_bind0; [by apply spends_perform|intros ?]).
    do 2 (apply spends_bind0; [count_js|intros ?]). apply spends_if; [count_js|].
    apply spends_bind0; [count_js|intros ?].
    intros o' h2. exists []. by rewrite app_nil_r. }
  destruct (Hs is_mint ltac:(done) ltac:(done) o h) as (tr & E & Hm).
  destruct (Hs is_save ltac:(done) ltac:(done) o h) as (tr' & E' & Hv).
  destruct (mintNFT None _ _ _ o h) as [r h'] eqn:H. cbn in *. subst h'.
  apply app_inv_head in E' as <-. split.
  - destruct r as [a|]; [|done]. apply rethrow_Ok in H; [|intros; apply rethrow_never].
    unfold mint_body in H. inv_js. destruct (negb _); [discriminate H|]. inv_js.
    by match goal with H : call_uploadToIPFS None _ _ _ = _ |- _ => discriminate H end.
  - exists tr. split; [done|]. rewrite Hm, Hv. by destruct (is_ok r).
Qed.

(** The event found is the first one called NFTMinted. *)
Lemma find_minted_found events event args :
  find_minted events = Ok event → prop event "args" = Ok args →
  ∃ before after, events = before ++ event :: after ∧
    prop event "event" = Ok (Str "NFTMinted") ∧
    ∀ e, e ∈ before → ∃ name, prop e "event" = Ok name ∧ name ≠ Str "NFTMinted".
Proof.
  intros H Ha. induction events as [|e events IH]; cbn in H; [by injection H as <-|].
  destruct (prop e "event") as [name|] eqn:Hn; [|discriminate H]. cbn in H.
  destruct (is_str name "NFTMinted") eqn:Hs.
  - injection H as ->. exists [], events. apply is_str_eq in Hs as ->.
    split_and!; [done..|]. by intros e ?%not_elem_of_nil.
  - destruct (IH H) as (before & after & -> & He & Hb). exists (e :: before), after.
    split_and!; [done..|]. intros e' [->|He']%elem_of_cons; [|by apply Hb].
    exists name. split; [done|]. intros E%is_str_eq. congruence.
Qed.


(** The mint handler answers exactly once when it completes and not at all
    when it throws; a body the validation refuses is answered 400 with the
    complaint, before anything outside is called and whether or not a file was
    uploaded. *)
Theorem mint_handler_answers upload req o h :
  (∀ data, spends is_answer (upload data) 0 0) →
  (let '(r, h') := handle_mint (Some upload) req o h in
   ∃ tr, h' = h ++ tr ∧ count is_answer tr = if is_ok r then 1 else 0) ∧
  (∀ fields params user complaint, req = Obj fields →
     assoc "params" fields = Some (Obj params) → assoc "user" fields = Some (Obj user) →
     validateNFTInput (default Undef (assoc "body" fields)) = Ok (Str complaint) →
     complaint ≠ "" →
     handle_mint (Some upload) req o h =
       (Ok tt, h ++ [Respond (int 400) (Obj [("error", Str complaint)])])).
Proof.
  intros Hup. split.
  - assert (Hs : spends is_answer (handle_mint (Some upload) req) 1 0).
    { apply (spends_try _ _ _ 1 0 0).
      - do 6 (apply spends_bind0; [count_js|intros ?]). apply spends_if; [count_js|].
        apply spends_bind0; [count_js|intros ?].
        apply spends_bind0; [apply spends_if; count_js|intros ?].
        apply spends_bind0; [|intros; count_js].
        apply (spends_try _ _ _ 0 0 0); [|count_js]. unfold mint_body.
        do 4 (apply spends_bind0; [count_js|intros ?]). apply spends_if; [count_js|].
        apply spends_bind0; [count_js|intros ?].
        apply spends_bind0; [apply Hup|intros ?].
        apply spends_bind0; [count_js|intros ?].
        apply spends_bind0; [apply Hup|intros ?]. count_js.
      - intros x. count_js. }
    destruct (Hs o h) as (tr & E & Hc). destruct (handle_mint _ _ o h) as [r h'].
    cbn in *. eauto.
  - intros fields params user complaint -> Hp Hu Hv Hne. unfold handle_mint.
    run_js. cbn. rewrite Hp, Hu. cbn. rewrite Hv. cbn.
    by destruct (String.eqb_spec complaint "").
Qed.
End facts.

(** ** The properties at work *)
Definition sample_upload (data : jsval) : js jsval := λ o h, (Ok (Str "QmHash"), h).
Definition sample_nft : jsval := Obj [("name", Str "Ape #1"); ("image", Buf "png")].

(** A collection contract with a [creator] function and an NFTMinted event. *)
Definition minting_chain : oracle := λ h e,
  match e with
  | Invoke object method args =>
      if String.eqb method "creator" then Ok (Str "0xABC")
      else if String.eqb method "wait" then
        Ok (Obj [("events", Arr [Obj [("event", Str "Transfer")]; Obj [("event", Str "NFTMinted");
                                      ("args", Obj [("tokenId", BigInt 7)])]]);
                 ("transactionHash", Str "0xdead")])
      else if String.eqb method "toNumber" then Ok (int 7)
      else if String.eqb method "new" then Ok (default Undef (head args))
      else Ok Undef
  | _ => Ok Undef
  end.


Lemma mint_handler_answers_witness :
  let req := Obj [("params", Obj []); ("body", Obj [("name", Str "Ape #1")]);
                  ("user", Obj [("address", Str "0xabc")]);
                  ("file", Obj [("buffer", Buf "png")])] in
  handle_mint (Some sample_upload) req minting_chain [] =
    (Ok tt, [Respond (int 400) (Obj [("error", Str "Image or imageUrl is required")])]).
Proof.
  intros req.
  destruct (mint_handler_answers sample_upload req minting_chain []) as [_ H].
  - intros data o h. exists []. by rewrite app_nil_r.
  - exact (H _ [] [("address", Str "0xabc")] "Image or imageUrl is required" eq_refl eq_refl
      eq_refl eq_refl ltac:(done)).
Defined.
