(* ===== verification/Config.v ===== *)
(** * Configuration

    src/config/index.js, src/utils/logger.js, hardhat.config.js and
    helper-hardhat-config.js: the objects they export, as functions of the
    environment variables. *)

From stdpp Require Import base list strings numbers.
From Stdlib Require Import ZArith Lia Ascii.
From S2P Require Import Prelude Js.

(** ** src/config/index.js

    [env] is [process.env]: a variable is a string or undefined. *)
Definition db_options : jsval := Obj [
  ("useNewUrlParser", Bool true); ("useUnifiedTopology", Bool true);
  ("useCreateIndex", Bool true); ("useFindAndModify", Bool false) ].

Definition development (env : string → jsval) : jsval := Obj [
  ("env", Str "development");
  ("app", Obj [
      ("port", or_else (parseInt (env "DEV_APP_PORT")) (int 3000));
      ("jwtSecret", env "DEV_JWT_SECRET");
      ("jwtExpirationInterval", or_else (env "DEV_JWT_EXPIRATION_MINUTES") (int 30));
      ("corsOrigin", or_else (env "DEV_CORS_ORIGIN") (Str "http://localhost:3000")) ]);
  ("db", Obj [
      ("uri", env "DEV_MONGODB_URI");
      ("options", db_options) ]);
  ("blockchain", Obj [
      ("providerUrl", env "DEV_BLOCKCHAIN_PROVIDER_URL");
      ("networkId", or_else (parseInt (env "DEV_NETWORK_ID")) (int 1337));
      ("gasPrice", or_else (env "DEV_GAS_PRICE") (Str "20000000000"));
      ("gasLimit", or_else (parseInt (env "DEV_GAS_LIMIT")) (int 6721975));
      ("contractAddress", env "DEV_CONTRACT_ADDRESS") ]);
  ("ipfs", Obj [
      ("host", or_else (env "DEV_IPFS_HOST") (Str "ipfs.infura.io"));
      ("port", or_else (parseInt (env "DEV_IPFS_PORT")) (int 5001));
      ("protocol", or_else (env "DEV_IPFS_PROTOCOL") (Str "https")) ]);
  ("email", Obj [
      ("smtp", Obj [
          ("host", env "DEV_SMTP_HOST");
          ("port", or_else (parseInt (env "DEV_SMTP_PORT")) (int 587));
          ("auth", Obj [("user", env "DEV_SMTP_USERNAME"); ("pass", env "DEV_SMTP_PASSWORD")]) ]);
      ("secure", Bool (is_str (env "EMAIL_SECURE") "true"));
      ("from", env "DEV_EMAIL_FROM");
      ("clientUrl", env "CLIENT_URL") ]);
  ("logging", Obj [
      ("level", or_else (env "DEV_LOG_LEVEL") (Str "debug"));
      ("filename", or_else (env "DEV_LOG_FILENAME") (Str "app.log")) ]) ].

Definition test (env : string → jsval) : jsval := Obj [
  ("env", Str "test");
  ("app", Obj [
      ("port", or_else (parseInt (env "TEST_APP_PORT")) (int 3001));
      ("jwtSecret", env "TEST_JWT_SECRET");
      ("jwtExpirationInterval", or_else (env "TEST_JWT_EXPIRATION_MINUTES") (int 30));
      ("corsOrigin", or_else (env "TEST_CORS_ORIGIN") (Str "http://localhost:3001")) ]);
  ("db", Obj [
      ("uri", env "TEST_MONGODB_URI");
      ("options", db_options) ]);
  ("blockchain", Obj [
      ("providerUrl", env "TEST_BLOCKCHAIN_PROVIDER_URL");
      ("networkId", or_else (parseInt (env "TEST_NETWORK_ID")) (int 1337));
      ("gasPrice", or_else (env "TEST_GAS_PRICE") (Str "20000000000"));
      ("gasLimit", or_else (parseInt (env "TEST_GAS_LIMIT")) (int 6721975));
      ("contractAddress", env "TEST_CONTRACT_ADDRESS") ]);
  ("ipfs", Obj [
      ("host", or_else (env "TEST_IPFS_HOST") (Str "ipfs.infura.io"));
      ("port", or_else (parseInt (env "TEST_IPFS_PORT")) (int 5001));
      ("protocol", or_else (env "TEST_IPFS_PROTOCOL") (Str "https")) ]);
  ("email", Obj [
      ("smtp", Obj [
          ("host", env "TEST_SMTP_HOST");
          ("port", or_else (parseInt (env "TEST_SMTP_PORT")) (int 587));
          ("auth", Obj [("user", env "TEST_SMTP_USERNAME"); ("pass", env "TEST_SMTP_PASSWORD")]) ]);
      ("from", env "TEST_EMAIL_FROM") ]);
  ("logging", Obj [
      ("level", or_else (env "TEST_LOG_LEVEL") (Str "debug"));
      ("filename", or_else (env "TEST_LOG_FILENAME") (Str "test.log")) ]) ].

Definition production (env : string → jsval) : jsval := Obj [
  ("env", Str "production");
  ("app", Obj [
      ("port", or_else (parseInt (env "PROD_APP_PORT")) (int 3000));
      ("jwtSecret", env "PROD_JWT_SECRET");
      ("jwtExpirationInterval", or_else (env "PROD_JWT_EXPIRATION_MINUTES") (int 30));
      ("corsOrigin", env "PROD_CORS_ORIGIN") ]);
  ("db", Obj [
      ("uri", env "PROD_MONGODB_URI");
      ("options", db_options) ]);
  ("blockchain", Obj [
      ("providerUrl", env "PROD_BLOCKCHAIN_PROVIDER_URL");
      ("networkId", or_else (parseInt (env "PROD_NETWORK_ID")) (int 1));
      ("gasPrice", or_else (env "PROD_GAS_PRICE") (Str "20000000000"));
      ("gasLimit", or_else (parseInt (env "PROD_GAS_LIMIT")) (int 6721975));
      ("contractAddress", env "PROD_CONTRACT_ADDRESS") ]);
  ("ipfs", Obj [
      ("host", or_else (env "PROD_IPFS_HOST") (Str "ipfs.infura.io"));
      ("port", or_else (parseInt (env "PROD_IPFS_PORT")) (int 5001));
      ("protocol", or_else (env "PROD_IPFS_PROTOCOL") (Str "https")) ]);
  ("email", Obj [
      ("smtp", Obj [
          ("host", env "PROD_SMTP_HOST");
          ("port", or_else (parseInt (env "PROD_SMTP_PORT")) (int 587));
          ("auth", Obj [("user", env "PROD_SMTP_USERNAME"); ("pass", env "PROD_SMTP_PASSWORD")]) ]);
      ("from", env "PROD_EMAIL_FROM") ]);
  ("logging", Obj [
      ("level", or_else (env "PROD_LOG_LEVEL") (Str "info"));
      ("filename", or_else (env "PROD_LOG_FILENAME") (Str "app.log")) ]) ].

(** [config[env]], with [env = process.env.NODE_ENV || "development"]. *)
Definition load_config (env : string → jsval) : jsval :=
  let name := or_else (env "NODE_ENV") (Str "development") in
  let config := [("development", development env); ("test", test env);
                 ("production", production env)] in
  default Undef (assoc (to_string name) config).

(** The module: [load_env path process_env] is the environment after
    [dotenv.config({ path })], __dirname being the directory of the module. *)
Definition config_module (load_env : string → (string → jsval) → string → jsval)
    (process_env : string → jsval) : jsval :=
  load_config (load_env "../.env" process_env).

(** ** src/utils/logger.js *)
Inductive log_transport :=
| RotatingFile (filename datePattern : string) (level : option string)
    (maxSize maxFiles : string) (stacks : bool)
| ConsoleTransport (colored : bool).

(** The line a record is printed as: the stack when there is one. *)
Definition logFormat (timestamp level message stack : jsval) : string :=
  to_string timestamp +:+ " " +:+ to_string level +:+ ": "
    +:+ to_string (or_else stack message).

Definition errorLogRotateTransport : log_transport :=
  RotatingFile "logs/error-%DATE%.log" "YYYY-MM-DD" (Some "error") "20m" "14d" true.
Definition combinedLogRotateTransport : log_transport :=
  RotatingFile "logs/combined-%DATE%.log" "YYYY-MM-DD" None "20m" "14d" false.

Definition transports (env : string → jsval) : list log_transport :=
  [errorLogRotateTransport; combinedLogRotateTransport] ++
  (if negb (is_str (env "NODE_ENV") "production") then [ConsoleTransport true] else []).

Record logger_options := {
  l_level : jsval;
  l_transports : list log_transport;
  l_exceptionHandlers : list string;
  l_rejectionHandlers : list string;
  l_exitOnError : bool
}.

Definition logger (env : string → jsval) : logger_options := {|
  l_level := or_else (env "LOG_LEVEL") (Str "info");
  l_transports := transports env;
  l_exceptionHandlers := ["logs/exceptions.log"];
  l_rejectionHandlers := ["logs/rejections.log"];
  l_exitOnError := false
|}.

(** [logger.stream.write], which morgan calls with each access line. *)
Definition stream_write (message encoding : jsval) : js unit := note (Log "info" [message]).

(** What the module exports: the logger, with its stream. *)
Record logger_exports := {
  x_logger : logger_options;
  x_write : jsval → jsval → js unit
}.
Definition logger_module (env : string → jsval) : logger_exports :=
  {| x_logger := logger env; x_write := stream_write |}.

(** ** hardhat.config.js and helper-hardhat-config.js *)
Definition hardhat_config (env : string → jsval) : jsval := Obj [
  ("solidity", Obj [("version", Str "0.8.28");
                    ("settings", Obj [("optimizer", Obj [("enabled", Bool true);
                                                         ("runs", int 200)])])]);
  ("defaultNetwork", Str "hardhat");
  ("networks", Obj [
      ("hardhat", Obj [("chainId", int 31337)]);
      ("localhost", Obj [("chainId", int 31337)]);
      ("sepolia", Obj [
          ("url", or_else (env "SEPOLIA_RPC_URL") (Str ""));
          ("accounts", match env "PRIVATE_KEY" with
                       | Undef => Arr []
                       | key => Arr [key]
                       end);
          ("chainId", int 11155111);
          ("blockConfirmations", int 6);
          ("gasPrice", int 3000000000);
          ("gas", int 2100000);
          ("saveDeployments", Bool true) ]) ]);
  ("namedAccounts", Obj [("deployer", Obj [("default", int 0)]);
                         ("user", Obj [("default", int 1)])]);
  ("etherscan", Obj [("apiKey", or_else (env "ETHERSCAN_API_KEY") (Str ""))]);
  ("paths", Obj [("deploy", Str "deploy"); ("deployments", Str "deployment")]);
  ("mocha", Obj [("timeout", int 500000)]) ].

(** The configuration kept as comments at the top of hardhat.config.js. *)
Definition archived_hardhat_config (env : string → jsval) : jsval := Obj [
  ("solidity", Obj [("version", Str "0.8.28");
                    ("settings", Obj [("optimizer", Obj [("enabled", Bool true);
                                                         ("runs", int 200)]);
                                      ("viaIR", Bool true)])]);
  ("networks", Obj [
      ("sepolia", Obj [("url", env "SEPOLIA_RPC_URL");
                       ("accounts", Arr [env "PRIVATE_KEY"])])]);
  ("etherscan", Obj [("apiKey", env "ETHERSCAN_API_KEY")]);
  ("paths", Obj [("sources", Str "./contracts"); ("tests", Str "./test");
                 ("cache", Str "./cache"); ("artifacts", Str "./artifacts")]) ].

Definition networkConfig : list (Z * jsval) := [
  (31337%Z, Obj [("name", Str "localhost")]);
  (11155111%Z, Obj [("name", Str "sepolia"); ("blockConfirmations", int 6)]) ].

Definition developmentChains : list string := ["hardhat"; "localhost"].

(** ** Properties *)

(** [x || d] of a parsed number: the number when it is neither NaN nor zero. *)
Definition port_of (v : jsval) (d : Z) : jsnum :=
  match parse_int_string (to_string v) with
  | NaN | Fin 0 => Fin d
  | n => n
  end.

Lemma or_else_parseInt v d : or_else (parseInt v) (int d) = Num (port_of v d).
Proof.
  unfold or_else, parseInt, port_of. cbn.
  destruct (parse_int_string (to_string v)) as [| |[]|]; done.
Qed.

Lemma port_of_usable v d : d ≠ 0%Z → port_of v d ≠ NaN ∧ port_of v d ≠ Fin 0.
Proof.
  intros Hd. unfold port_of. destruct (parse_int_string (to_string v)) as [| |[]|];
    split; congruence.
Qed.

(** [v.k1.k2]. *)
Definition prop2 (v : jsval) (k1 k2 : string) : result jsval jsval := x ← prop v k1; prop x k2.

(** The environment names the configuration knows. *)
Definition env_prefix (name : string) : option (string * Z) :=
  if String.eqb name "development" then Some ("DEV", 3000)%Z
  else if String.eqb name "test" then Some ("TEST", 3001)%Z
  else if String.eqb name "production" then Some ("PROD", 3000)%Z
  else None.

(** NODE_ENV selects the configuration (unset or empty means development):
    the selected one carries its own name, and its port is the variable's number
    unless that is missing, not a number or zero, in which case it is the
    default; for any other name the configuration is undefined and reading
    [config.app] throws. *)
Theorem configuration_selected env :
  let name := to_string (or_else (env "NODE_ENV") (Str "development")) in
  let config := load_config env in
  match env_prefix name with
  | Some (prefix, port) =>
      prop config "env" = Ok (Str name) ∧
      prop2 config "app" "port" = Ok (Num (port_of (env (prefix +:+ "_APP_PORT")) port)) ∧
      port_of (env (prefix +:+ "_APP_PORT")) port ≠ NaN ∧
      port_of (env (prefix +:+ "_APP_PORT")) port ≠ Fin 0
  | None => config = Undef ∧ is_ok (prop2 config "app" "port") = false
  end.
Proof.
  intros name config. subst config. unfold load_config. fold name.
  unfold env_prefix. cbn [assoc].
  destruct (String.eqb_spec name "development") as [->|]; [|
  destruct (String.eqb_spec name "test") as [->|]; [|
  destruct (String.eqb_spec name "production") as [->|]; [|done]]].
  all: split_and!; [done| |by apply port_of_usable..].
  all: unfold prop2; cbn -[or_else parseInt]; by rewrite or_else_parseInt.
Qed.
