(* ===== verification/Email.v ===== *)
(** * src/services/email.service.js

    The mail service: its constructor, and the four mails it sends. *)

From stdpp Require Import base list strings numbers.
From Stdlib Require Import ZArith Lia Ascii.
From S2P Require Import Prelude Js Config.

Section email.
(** [require("../config")]. *)
Variable config : jsval.

(** [config.email.smtp.k]. *)
Definition smtp (k : string) : result jsval jsval :=
  email ← prop config "email"; smtp ← prop email "smtp"; prop smtp k.

Definition constructor_email : js jsval :=
  host ← pure (smtp "host");
  port ← pure (smtp "port");
  email ← pure (prop config "email");
  secure ← pure (prop email "secure");
  smtp ← pure (prop config "smtp");
  auth ← pure (prop smtp "auth");
  invoke "nodemailer" "createTransport"
    [Obj [("host", host); ("port", port); ("secure", secure); ("auth", auth)]].

Definition sendEmail (to subject html attachments : jsval) : js jsval :=
  try_catch
    (email ← pure (prop config "email");
     from ← pure (prop email "from");
     info ← invoke "transporter" "sendMail"
       [Obj [("from", from); ("to", to); ("subject", subject); ("html", html);
             ("attachments", attachments)]];
     messageId ← pure (prop info "messageId");
     note (Log "info" [Str ("Email sent: " +:+ to_string messageId)]);;
     mret info)
    (λ error,
     note (Log "error" [Str "Error sending email:"; error]);;
     throw_js (Error_ "Failed to send email")).

(** [__dirname] is the directory of the service. *)
Definition loadTemplate (templateName : string) : js jsval :=
  template ← invoke "fs" "readFile"
    [Str ("../templates/" +:+ templateName +:+ ".hbs"); Str "utf-8"];
  invoke "handlebars" "compile" [template].

(** [to.split("@")[0]]. *)
Definition recipient_name (to : jsval) : result jsval jsval :=
  match to with
  | Str s => Ok (Str (before "@" s))
  | Undef => Err (TypeError "Cannot read properties of undefined (reading 'split')")
  | Null => Err (TypeError "Cannot read properties of null (reading 'split')")
  | _ => Err (TypeError "to.split is not a function")
  end.

Definition attachment (filename path cid : string) : jsval :=
  Obj [("filename", Str filename); ("path", Str path); ("cid", Str cid)].

(** The shape the four methods share: load, fill, send; any error is logged
    and replaced. *)
Definition send_template (template : string) (fields : js (list (string * jsval)))
    (to : jsval) (subject : string) (attachments : list jsval) (what : string) : js unit :=
  try_catch
    (compiled ← loadTemplate template;
     name ← pure (recipient_name to);
     fields ← fields;
     html ← invoke "handlebars" "render" [compiled; Obj (("name", name) :: fields)];
     sendEmail to (Str subject) html (Arr attachments);;
     mret tt)
    (λ error,
     note (Log "error" [Str ("Error sending " +:+ what +:+ ":"); error]);;
     throw_js (Error_ ("Failed to send " +:+ what))).

Definition sendWelcomeEmail (to : jsval) : js unit :=
  send_template "welcome"
    (email ← pure (prop config "email");
     clientUrl ← pure (prop email "clientUrl");
     mret [("loginUrl", Str (to_string clientUrl +:+ "/login"))])
    to "Welcome to NFT Marketplace!"
    [attachment "welcome.jpg" "../assets/welcome.jpg" "welcome-image"] "welcome email".

Definition sendPasswordResetEmail (to resetLink : jsval) : js unit :=
  send_template "passwordReset"
    (mret [("resetLink", resetLink); ("expirationTime", Str "1 hour")])
    to "Reset Your NFT Marketplace Password" [] "password reset email".

Definition sendNFTSaleConfirmation (to nftDetails : jsval) : js unit :=
  send_template "nftSaleConfirmation"
    (nftName ← pure (prop nftDetails "name");
     price ← pure (prop nftDetails "price");
     buyer ← pure (prop nftDetails "buyer");
     transactionId ← pure (prop nftDetails "transactionId");
     clientUrl ← pure (prop config "clientUrl");
     mret [("nftName", nftName); ("price", price); ("buyer", buyer);
           ("transactionId", transactionId);
           ("marketplaceUrl", Str (to_string clientUrl +:+ "/marketplace"))])
    to "Your NFT Has Been Sold!"
    [attachment "nft-sold.jpg" "../assets/nft-sold.jpg" "nft-sold-image"]
    "NFT sale confirmation email".

Definition sendNewBidNotification (to bidDetails : jsval) : js unit :=
  send_template "newBidNotification"
    (nftName ← pure (prop bidDetails "nftName");
     bidAmount ← pure (prop bidDetails "bidAmount");
     bidder ← pure (prop bidDetails "bidder");
     auctionEndTime ← pure (prop bidDetails "auctionEndTime");
     clientUrl ← pure (prop config "clientUrl");
     nftId ← pure (prop bidDetails "nftId");
     mret [("nftName", nftName); ("bidAmount", bidAmount); ("bidder", bidder);
           ("auctionEndTime", auctionEndTime);
           ("nftUrl", Str (to_string clientUrl +:+ "/nft/" +:+ to_string nftId))])
    to "New Bid on Your NFT!" [] "new bid notification email".

(** The class, and [module.exports = new EmailService()]. *)
Record EmailService := {
  es_sendEmail : jsval → jsval → jsval → jsval → js jsval;
  es_loadTemplate : string → js jsval;
  es_sendWelcomeEmail : jsval → js unit;
  es_sendPasswordResetEmail : jsval → jsval → js unit;
  es_sendNFTSaleConfirmation : jsval → jsval → js unit;
  es_sendNewBidNotification : jsval → jsval → js unit
}.
Definition new_EmailService : js EmailService :=
  constructor_email;;
  mret {| es_sendEmail := sendEmail; es_loadTemplate := loadTemplate;
          es_sendWelcomeEmail := sendWelcomeEmail;
          es_sendPasswordResetEmail := sendPasswordResetEmail;
          es_sendNFTSaleConfirmation := sendNFTSaleConfirmation;
          es_sendNewBidNotification := sendNewBidNotification |}.

(** ** Facts *)
Definition is_mail := is_invoke "transporter" "sendMail".

Lemma at_most_sendEmail to subject html attachments :
  at_most is_mail (sendEmail to subject html attachments) 1.
Proof.
  unfold sendEmail. apply at_most_try.
  - do 2 (apply at_most_bind0; [count_js|intros ?]).
    apply (at_most_bind _ _ _ 1 0); [apply at_most_perform|intros ?].
    apply (at_most_spends _ _ 0 0); [count_js|done..].
  - intros x. count_js.
Qed.

Lemma at_most_send_template template fields to subject attachments what :
  spends is_mail fields 0 0 →
  at_most is_mail (send_template template fields to subject attachments what) 1.
Proof.
  intros Hf. unfold send_template. apply at_most_try; [|intros; count_js].
  apply at_most_bind0; [unfold loadTemplate; count_js|intros ?].
  apply at_most_bind0; [count_js|intros ?].
  apply at_most_bind0; [done|intros ?].
  apply at_most_bind0; [count_js|intros ?].
  apply (at_most_bind _ _ _ 1 0); [apply at_most_sendEmail|intros ?].
  apply (at_most_spends _ _ 0 0); [count_js|done..].
Qed.

(** The only error a mail method throws. *)
Lemma send_template_error template fields to subject attachments what o h e h' :
  send_template template fields to subject attachments what o h = (Err e, h') →
  e = Error_ ("Failed to send " +:+ what).
Proof.
  intros (cause & h1 & _ & H)%try_catch_Err. by injection H as <- _.
Qed.

(** A mail method that returned sent one mail, to the given address. *)
Lemma send_template_Ok template fields to subject attachments what o h u h' :
  send_template template fields to subject attachments what o h = (Ok u, h') →
  ∃ h1 from html, is_ok (o h1 (Invoke "transporter" "sendMail"
    [Obj [("from", from); ("to", to); ("subject", Str subject); ("html", html);
          ("attachments", Arr attachments)]])) = true.
Proof.
  intros H. apply rethrow_Ok in H; [|by intros]. inv_js.
  match goal with H : sendEmail _ _ _ _ _ _ = _ |- _ => rename H into Hs end.
  apply rethrow_Ok in Hs; [|by intros]. inv_js.
  match goal with H : o ?h1 (Invoke "transporter" "sendMail" [Obj [("from", ?f); _; _; ("html", ?x); _]]) = _
    |- _ => exists h1, f, x; by rewrite H end.
Qed.

(** Each of the four mails is sent at most once per call, and when the
    call returns it was sent, to the given address and under its subject;
    whatever goes wrong (template, recipient, transport), the caller gets one
    fixed message per kind of mail, and nothing of the cause. *)
Theorem mails_outcome to details o h :
  let outcome (m : js unit) (subject what : string) :=
    let '(r, h') := m o h in
    (∃ tr, h' = h ++ tr ∧ count is_mail tr ≤ 1) ∧
    match r with
    | Ok _ => ∃ h1 from html attachments, is_ok (o h1 (Invoke "transporter" "sendMail"
        [Obj [("from", from); ("to", to); ("subject", Str subject); ("html", html);
              ("attachments", attachments)]])) = true
    | Err e => e = Error_ ("Failed to send " +:+ what)
    end in
  outcome (sendWelcomeEmail to) "Welcome to NFT Marketplace!" "welcome email" ∧
  outcome (sendPasswordResetEmail to details) "Reset Your NFT Marketplace Password"
    "password reset email" ∧
  outcome (sendNFTSaleConfirmation to details) "Your NFT Has Been Sold!"
    "NFT sale confirmation email" ∧
  outcome (sendNewBidNotification to details) "New Bid on Your NFT!"
    "new bid notification email".
Proof.
  intros outcome.
  assert (H : ∀ template fields subject attachments what, spends is_mail fields 0 0 →
    outcome (send_template template fields to subject attachments what) subject what).
  { intros template fields subject attachments what Hf. unfold outcome.
    destruct (at_most_send_template template fields to subject attachments what Hf o h)
      as (tr & E & Hc).
    destruct (send_template _ _ _ _ _ _ o h) as [r h'] eqn:Hr. split; [by eauto|].
    destruct r as [u|e].
    - destruct (send_template_Ok _ _ _ _ _ _ _ _ _ _ Hr) as (h1 & from & html & Hok). eauto.
    - by eapply send_template_error. }
  clearbody outcome.
  unfold sendWelcomeEmail, sendPasswordResetEmail, sendNFTSaleConfirmation,
    sendNewBidNotification.
  split_and!; apply H; count_js.
Qed.
End email.

(** No environment gives the mail service a configuration it can start
    with: its constructor, which runs when the module is loaded, reads [config.smtp.auth], no configuration has an
    [smtp] of its own, and so it throws a TypeError before any transport is
    created. *)
Theorem mail_service_never_starts env o h :
  ∃ message, new_EmailService (load_config env) o h = (Err (TypeError message), h).
Proof.
  assert (Hc : load_config env = development env ∨ load_config env = test env ∨
               load_config env = production env ∨ load_config env = Undef).
  { unfold load_config. cbn [assoc].
    repeat (destruct (String.eqb _ _); [cbn; tauto|]). cbn. tauto. }
  destruct Hc as [-> | [-> | [-> | ->]]]; eexists; reflexivity.
Qed.
