(* ===== verification/Blockchain.v ===== *)
(** * Talking to the chain with web3

    src/config/blockchain.js: the cached provider and web3 objects, the gas
    price, and the retry loop of [sendTransaction]; src/services/blockchain.service.js:
    signing and sending a mint or a transfer. *)

From stdpp Require Import base list strings numbers.
From Stdlib Require Import ZArith Lia Ascii.
From S2P Require Import Prelude Js.

(** ** src/config/blockchain.js *)

(** The two variables of the module. *)
Record cache := { c_provider : option jsval; c_web3 : option jsval }.
Definition no_cache : cache := {| c_provider := None; c_web3 := None |}.

(** Code that may also assign the variables of the module; they keep what was
    assigned before an exception. *)
Definition cjs (A : Type) : Type :=
  cache → oracle → list event → result jsval A * cache * list event.
#[export] Instance cjs_ret : MRet cjs := λ A a c o h, (Ok a, c, h).
#[export] Instance cjs_bind : MBind cjs := λ A B f m c o h,
  match m c o h with
  | (Ok a, c', h') => f a c' o h'
  | (Err e, c', h') => (Err e, c', h')
  end.
Definition run_js_in {A} (m : js A) : cjs A := λ c o h,
  let '(r, h') := m o h in (r, c, h').
Definition read_cache : cjs cache := λ c o h, (Ok c, c, h).
Definition set_provider (p : jsval) : cjs unit := λ c o h,
  (Ok tt, {| c_provider := Some p; c_web3 := c_web3 c |}, h).
Definition set_web3 (w : jsval) : cjs unit := λ c o h,
  (Ok tt, {| c_provider := c_provider c; c_web3 := Some w |}, h).
Definition try_cached {A} (m : cjs A) (f : jsval → cjs A) : cjs A := λ c o h,
  match m c o h with
  | (Ok a, c', h') => (Ok a, c', h')
  | (Err e, c', h') => f e c' o h'
  end.

(** [Number(v)], which refuses a BigInt; an object is first made a string. *)
Definition to_number (v : jsval) : result jsval jsnum :=
  match v with
  | Undef => Ok NaN
  | Null => Ok (Fin 0)
  | Bool b => Ok (Fin (if b then 1 else 0))
  | Num n => Ok n
  | BigInt _ => Err (TypeError "Cannot convert a BigInt value to a number")
  | Str s => Ok (number_of_string s)
  | Arr _ | Obj _ | Buf _ => Ok (number_of_string (to_string v))
  end.

(** What a comparison with a number makes of the other side. *)
Definition compared (v : jsval) : jsnum :=
  match v with
  | BigInt z => Fin z
  | _ => match to_number v with Ok n => n | Err _ => NaN end
  end.

Section config.
Variable env : string → jsval.

Definition provider_options : jsval := Obj [
  ("mnemonic", env "MNEMONIC");
  ("providerOrUrl", Str ("https://" +:+ to_string (env "NETWORK") +:+ ".infura.io/v3/"
                           +:+ to_string (env "INFURA_PROJECT_ID")));
  ("addressIndex", int 0); ("numberOfAddresses", int 1); ("shareNonce", Bool true);
  ("derivationPath", Str "m/44'/60'/0'/0/") ].

Definition getProvider : cjs jsval :=
  c ← read_cache;
  match c_provider c with
  | Some p => mret p
  | None =>
      p ← run_js_in (invoke "HDWalletProvider" "new" [provider_options]);
      set_provider p;; mret p
  end.

Definition getWeb3 : cjs jsval :=
  c ← read_cache;
  match c_web3 c with
  | Some w => mret w
  | None =>
      provider ← getProvider;
      w ← run_js_in (invoke "Web3" "new" [provider]);
      set_web3 w;;
      run_js_in (invoke "web3.eth" "extend"
        [Obj [("name", Str "chainId"); ("call", Str "eth_chainId")]]);;
      mret w
  end.

Definition getGasPrice : cjs jsval :=
  getWeb3;;
  gasPrice ← run_js_in (invoke "web3.eth" "getGasPrice" []);
  cap ← run_js_in (invoke "utils" "toWei" [env "GAS_PRICE_GWEI"; Str "gwei"]);
  price ← run_js_in (pure (to_number gasPrice));
  limit ← run_js_in (pure (to_number cap));
  run_js_in (invoke "utils" "toBN" [Num (num_min price limit)]).

(** [RETRY_ATTEMPTS] as the comparisons of the loop convert it. *)
Definition retry_attempts : jsnum := compared (env "RETRY_ATTEMPTS").

Definition attempt (tx : jsval) : cjs jsval :=
  getWeb3;; run_js_in (invoke "web3.eth" "sendTransaction" [tx]).

Definition failed_message (attempts : Z) (message : jsval) : string :=
  "Transaction failed. Attempt " +:+ decimal (attempts + 1) +:+ "/"
    +:+ to_string (env "RETRY_ATTEMPTS") +:+ ". Error: " +:+ to_string message.

(** The loop; [None] when the fuel runs out. *)
Fixpoint send_loop (fuel : nat) (attempts : Z) (tx : jsval) : cjs (option jsval) :=
  match fuel with
  | O => mret None
  | S fuel =>
      if negb (num_lt (Fin attempts) retry_attempts) then mret (Some Undef) else
      sent ← try_cached
        (receipt ← attempt tx; mret (Some receipt))
        (λ error,
         message ← run_js_in (pure (prop error "message"));
         run_js_in (note (Log "warn" [Str (failed_message attempts message)]));;
         if negb (num_lt (Fin (attempts + 1)) retry_attempts)
         then run_js_in (throw_js error)
         else run_js_in (note (Timer "retry" (env "RETRY_INTERVAL")));; mret None);
      match sent with
      | Some receipt => mret (Some receipt)
      | None => send_loop fuel (attempts + 1) tx
      end
  end.

Definition sendTransaction (fuel : nat) (tx : jsval) : cjs (option jsval) := send_loop fuel 0 tx.

(** The object the module exports, apart from its functions. *)
Definition blockchain_config : jsval := Obj [
  ("CONTRACT_ADDRESS", env "CONTRACT_ADDRESS"); ("GAS_LIMIT", parseInt (env "GAS_LIMIT"));
  ("CHAIN_ID", parseInt (env "CHAIN_ID")) ].

(** The module: its variables when it is loaded, and what it exports. *)
Record blockchain_exports := {
  x_getWeb3 : cjs jsval;
  x_getGasPrice : cjs jsval;
  x_sendTransaction : nat → jsval → cjs (option jsval);
  x_values : jsval
}.
Definition blockchain_module : cache * blockchain_exports :=
  (no_cache,
   {| x_getWeb3 := getWeb3; x_getGasPrice := getGasPrice; x_sendTransaction := sendTransaction;
      x_values := blockchain_config |}).

(** ** Facts about the loop *)
Definition is_sent := is_invoke "web3.eth" "sendTransaction".
Definition is_pause (e : event) : bool :=
  match e with Timer "retry" _ => true | _ => false end.

Definition is_warning (e : event) : bool :=
  match e with Log level _ => String.eqb level "warn" | _ => false end.
(** What [getWeb3] calls while the module has no web3 object. *)
Definition is_setup (e : event) : bool :=
  is_invoke "HDWalletProvider" "new" e || is_invoke "Web3" "new" e ||
  is_invoke "web3.eth" "extend" e.

Definition send_event (tx : jsval) : event := Invoke "web3.eth" "sendTransaction" [tx].

(** How many times the loop is entered at most; [None] for no limit. *)
Definition max_tries (limit : jsnum) : option nat :=
  match limit with
  | NaN | Inf true => Some 0
  | Inf false => None
  | Fin z => Some (Z.to_nat z)
  | Frac m k => Some (Z.to_nat (- (- m / 2 ^ Zpos k)))%Z
  end.

Lemma num_lt_limit limit n a :
  max_tries limit = Some n → (0 ≤ a)%Z → num_lt (Fin a) limit = (a <? Z.of_nat n)%Z.
Proof.
  intros Hn Ha. destruct limit as [|[]|z|m k]; try discriminate Hn; injection Hn as <-.
  1,2: by destruct (Z.ltb_spec a (Z.of_nat 0)); [lia|].
  all: cbn [num_lt ratio]; apply Bool.eq_iff_eq_true; rewrite !Z.ltb_lt.
  - lia.
  - pose proof (Z.pow_pos_nonneg 2 (Zpos k) ltac:(lia) ltac:(lia)) as Hp.
    set (q := (2 ^ Zpos k)%Z) in *.
    pose proof (Z.div_mod (- m) q ltac:(lia)). pose proof (Z.mod_pos_bound (- m) q Hp). nia.
Qed.

(** Code that only calls what [getWeb3] calls, and throws what the last of its
    calls threw. *)
Definition sets_up {A} (m : cjs A) : Prop := ∀ c o h, ∃ tr,
  (m c o h).2 = h ++ tr ∧ Forall (λ e, is_setup e = true) tr ∧
  match (m c o h).1.1 with
  | Ok _ => True
  | Err x => ∃ pre e, tr = pre ++ [e] ∧ o (h ++ pre) e = Err x
  end.

Lemma sets_up_bind {A B} (m : cjs A) (f : A → cjs B) :
  sets_up m → (∀ a, sets_up (f a)) → sets_up (m ≫= f).
Proof.
  intros Hm Hf c o h. destruct (Hm c o h) as (tr & E & Htr & Hr).
  unfold mbind, cjs_bind. destruct (m c o h) as [[[a|x] c1] h1]; cbn in *; subst h1; [|by eauto].
  destruct (Hf a c1 o (h ++ tr)) as (tr' & -> & Htr' & Hr').
  exists (tr ++ tr'). split; [by rewrite app_assoc|]. split; [by apply Forall_app|].
  destruct (f a c1 o (h ++ tr)) as [[[b|x] c2] h2]; [done|].
  destruct Hr' as (pre & e & -> & Ho). exists (tr ++ pre), e. by rewrite !app_assoc in *.
Qed.

Lemma sets_up_quiet {A} (m : cjs A) :
  (∀ c o h, is_ok (m c o h).1.1 = true ∧ (m c o h).2 = h) → sets_up m.
Proof.
  intros Hm c o h. destruct (Hm c o h) as [Hr ->]. exists [].
  rewrite app_nil_r. split_and!; [done..|]. by destruct (m c o h).1.1.
Qed.

Lemma sets_up_invoke object method args :
  is_setup (Invoke object method args) = true → sets_up (run_js_in (invoke object method args)).
Proof.
  intros He c o h. exists [Invoke object method args]. split; [done|].
  split; [by constructor|]. cbn. destruct (o h _) eqn:Ho; [done|].
  exists [], (Invoke object method args). by rewrite app_nil_r.
Qed.

Lemma getWeb3_sets_up : sets_up getWeb3.
Proof.
  apply sets_up_bind; [by apply sets_up_quiet|intros c0].
  destruct (c_web3 c0); [by apply sets_up_quiet|].
  apply sets_up_bind; [|intros provider].
  { apply sets_up_bind; [by apply sets_up_quiet|intros c1].
    destruct (c_provider c1); [by apply sets_up_quiet|].
    apply sets_up_bind; [by apply sets_up_invoke|intros p].
    apply sets_up_bind; [by apply sets_up_quiet|intros _; by apply sets_up_quiet]. }
  apply sets_up_bind; [by apply sets_up_invoke|intros w].
  apply sets_up_bind; [by apply sets_up_quiet|intros _].
  apply sets_up_bind; [by apply sets_up_invoke|intros _]. by apply sets_up_quiet.
Qed.

Lemma setup_counts tr : Forall (λ e, is_setup e = true) tr →
  count is_sent tr = 0 ∧ count is_warning tr = 0 ∧ count is_pause tr = 0.
Proof.
  induction 1 as [|e tr He _ IH]; [done|]. rewrite <- (app_nil_l tr), !app_comm_cons, !count_app, !count_one.
  assert (is_sent e = false ∧ is_warning e = false ∧ is_pause e = false) as (-> & -> & ->); [|done].
  unfold is_setup in He. split; [|by destruct e].
  apply orb_true_iff in He as [[He|He]%orb_true_iff|He]; by eapply is_invoke_other.
Qed.

(** One try: the objects the module does not have yet are made, then the
    transaction is sent, unless one of those calls throws. *)
Lemma attempt_runs tx c o h :
  ∃ setup e c', attempt tx c o h = (o (h ++ setup) e, c', h ++ setup ++ [e]) ∧
    Forall (λ e, is_setup e = true) setup ∧
    (e = send_event tx ∨ is_setup e = true ∧ is_ok (o (h ++ setup) e) = false) ∧
    (c_web3 c ≠ None → setup = [] ∧ e = send_event tx ∧ c' = c).
Proof.
  destruct (c_web3 c) as [w|] eqn:Hw.
  { exists [], (send_event tx), c. rewrite app_nil_r.
    unfold attempt, getWeb3, mbind, cjs_bind, read_cache. rewrite Hw. split_and!; auto. }
  destruct (getWeb3_sets_up c o h) as (tr & E & Htr & Hr).
  unfold attempt, mbind at 1, cjs_bind at 1.
  destruct (getWeb3 c o h) as [[[w|x] c1] h1]; cbn in E, Hr; subst h1.
  - exists tr, (send_event tx), c1. rewrite app_assoc. split_and!; auto. done.
  - destruct Hr as (pre & e & -> & Ho). apply Forall_app in Htr as [Hpre He].
    exists pre, e, c1. rewrite Ho. split_and!; auto; [|done].
    right. split; [by apply Forall_inv in He|done].
Qed.

(** [finished n cached tx o h r h']: at most [n] tries from the history [h]
    ended in [r] with the history [h'].  With the web3 object there from the
    start ([cached]), every try sends. *)
Definition finished (n : nat) (cached : Prop) (tx : jsval) (o : oracle) (h : list event)
    (r : result jsval (option jsval)) (h' : list event) : Prop :=
  ∃ tr, h' = h ++ tr ∧
    match r with
    | Ok None => False
    | Ok (Some v) =>
        (n = 0 ∧ v = Undef ∧ tr = []) ∨
        (∃ pre, h' = pre ++ [send_event tx] ∧ o pre (send_event tx) = Ok v) ∧
        1 ≤ count is_sent tr ≤ S (count is_warning tr) ∧ count is_warning tr < n ∧
        count is_pause tr = count is_warning tr ∧
        (cached → count is_sent tr = S (count is_warning tr))
    | Err x =>
        (∃ pre e line, h' = pre ++ [e; Log "warn" [line]] ∧ o pre e = Err x ∧
           (e = send_event tx ∨ is_setup e = true)) ∧
        count is_sent tr ≤ n ∧ 0 < n ∧ count is_warning tr = n ∧ S (count is_pause tr) = n ∧
        (cached → count is_sent tr = n)
    end.

(** One failed try, which pauses, in front. *)
Lemma finished_retried n (cached cached' : Prop) tx o h tr r h' :
  0 < n → count is_warning tr = 1 → count is_pause tr = 1 → count is_sent tr ≤ 1 →
  (cached → count is_sent tr = 1 ∧ cached') →
  finished n cached' tx o (h ++ tr) r h' → finished (S n) cached tx o h r h'.
Proof.
  intros Hn Hw Hp Hs Hc (tr' & -> & H). exists (tr ++ tr'). split; [by rewrite app_assoc|].
  rewrite !count_app, Hw, Hp. destruct r as [[v|]|x]; [|done|].
  - destruct H as [(? & _)|(Hpre & H1 & H2 & H3 & H4)]; [lia|]. right. split; [done|].
    split_and!; try lia. intros K. destruct (Hc K) as [? K']. specialize (H4 K'). lia.
  - destruct H as (Hpre & H1 & H2 & H3 & H4 & H5). split; [done|].
    split_and!; try lia. intros K. destruct (Hc K) as [? K']. specialize (H5 K'). lia.
Qed.

(** One step of the loop, in terms of the try. *)
Lemma send_loop_step fuel attempts tx c o h n :
  max_tries retry_attempts = Some n → (0 ≤ attempts < Z.of_nat n)%Z → rejects_objects o →
  send_loop (S fuel) attempts tx c o h =
    match attempt tx c o h with
    | (Ok receipt, c', h') => (Ok (Some receipt), c', h')
    | (Err error, c', h') =>
        let line := Log "warn" [Str (failed_message attempts (prop_opt error "message"))] in
        if (attempts + 1 <? Z.of_nat n)%Z
        then send_loop fuel (attempts + 1) tx c' o (h' ++ [line; Timer "retry" (env "RETRY_INTERVAL")])
        else (Err error, c', h' ++ [line])
    end.
Proof.
  intros Hn Ha Ho. cbn [send_loop]. rewrite !(num_lt_limit _ _ _ Hn) by lia.
  rewrite (proj2 (Z.ltb_lt _ _)) by lia. cbn [negb].
  unfold mbind at 1, cjs_bind at 1, try_cached, mbind at 1, cjs_bind at 1.
  destruct (attempt_runs tx c o h) as (setup & e & c' & E & _). rewrite E.
  destruct (o (h ++ setup) e) as [receipt|error] eqn:He; [done|].
  destruct (Ho _ _ _ He) as [fields ->].
  unfold mbind, cjs_bind, run_js_in. run_js. cbn -[send_loop failed_message].
  destruct (attempts + 1 <? Z.of_nat n)%Z; cbn -[send_loop failed_message];
    rewrite <- ?app_assoc; done.
Qed.

Lemma send_loop_finished tx o n k c h :
  max_tries retry_attempts = Some n → rejects_objects o → k ≤ n →
  let '(r, _, h') := send_loop (S k) (Z.of_nat (n - k)) tx c o h in
  finished k (c_web3 c ≠ None) tx o h r h'.
Proof.
  intros Hn Ho. revert c h. induction k as [|k IH]; intros c h Hk.
  { cbn [send_loop]. rewrite (num_lt_limit _ _ _ Hn) by lia.
    rewrite (proj2 (Z.ltb_ge _ _)) by lia. cbn. exists []. rewrite app_nil_r. auto. }
  rewrite (send_loop_step _ _ _ _ _ _ n) by (done || lia).
  destruct (attempt_runs tx c o h) as (setup & e & c' & -> & Hsetup & He & Hcached).
  destruct (setup_counts setup Hsetup) as (Hs & Hw & Hp).
  assert (He' : count is_sent [e] ≤ 1 ∧ count is_warning [e] = 0 ∧ count is_pause [e] = 0).
  { rewrite !count_one. destruct He as [->|[He _]]; [cbn; auto|].
    apply (Forall_singleton (λ e, is_setup e = true)), setup_counts in He.
    rewrite !count_one in He. lia. }
  destruct (o (h ++ setup) e) as [receipt|error] eqn:Ho'.
  - destruct He as [->|[_ [=]]]. eexists. split; [done|]. right.
    rewrite !count_app, Hs, Hw, Hp, !count_one. cbn.
    split; [exists (h ++ setup); by rewrite app_assoc|]. split_and!; lia || done.
  - cbv zeta. set (line := Log "warn" _).
    destruct (Z.ltb_spec (Z.of_nat (n - S k) + 1) (Z.of_nat n)) as [Hlt|Hge].
    + replace (Z.of_nat (n - S k) + 1)%Z with (Z.of_nat (n - k)) by lia.
      specialize (IH c' ((h ++ setup ++ [e]) ++ [line; Timer "retry" (env "RETRY_INTERVAL")])
        ltac:(lia)).
      destruct (send_loop (S k) _ _ _ _ _) as [[r c2] h'].
      rewrite <- app_assoc in IH. revert IH. apply finished_retried; [lia|..];
        rewrite ?count_app, ?Hs, ?Hw, ?Hp.
      { by rewrite (proj1 (proj2 He')). }
      { by rewrite (proj2 (proj2 He')). }
      { rewrite (Nat.add_0_r (_ + _)). lia. }
      intros K. by destruct (Hcached K) as (_ & -> & ->).
    + assert (k = 0) as -> by lia. eexists. rewrite <- app_assoc. split; [done|].
      assert (Hl : count is_sent [line] = 0 ∧ count is_warning [line] = 1 ∧ count is_pause [line] = 0)
        by done. rewrite !count_app, Hs, Hw, Hp. split; [|split_and!; try lia].
      * exists (h ++ setup), e. eexists. rewrite <- !app_assoc. split_and!; [done|done|].
        destruct He as [->|[]]; auto.
      * intros K. by destruct (Hcached K) as (_ & -> & _).
Qed.


(** Without a usable RETRY_ATTEMPTS (unset, not a number, or not positive),
    [sendTransaction] returns undefined as if all were well, and the
    transaction is never sent. *)
Theorem sendTransaction_without_limit tx c o h fuel :
  max_tries retry_attempts = Some 0 →
  sendTransaction (S fuel) tx c o h = (Ok (Some Undef), c, h).
Proof.
  intros Hr. unfold sendTransaction. cbn [send_loop]. by rewrite (num_lt_limit _ _ _ Hr) by lia.
Qed.
End config.

(** ** src/services/blockchain.service.js *)
Section service.
(** [require("../config/blockchain")], and the address the contract object of
    the service was made for. *)
Variable config : jsval.

Definition constructor_blockchain : js jsval :=
  url ← pure (prop config "providerUrl");
  provider ← invoke "HttpProvider" "new" [url];
  invoke "Web3" "new" [provider];;
  address ← pure (prop config "contractAddress");
  invoke "eth.Contract" "new" [Str "NFTMarketplace.json"; address].

Variable contractAddress : jsval.

(** The block whose transaction count numbers the next transaction. *)
Definition nonce_block : jsval := Str "latest".

(** Signing and sending what the two methods build: the sender, the name of the
    key in the configuration, the contract method and its arguments. *)
Definition sign_and_send (sender : result jsval jsval) (key method : string)
    (args : list jsval) (done_message failed_message : string) : js jsval :=
  try_catch
    (from ← pure sender;
     nonce ← invoke "web3.eth" "getTransactionCount" [from; nonce_block];
     gasPrice ← invoke "web3.eth" "getGasPrice" [];
     data ← invoke "contract.methods" method args;
     let tx := Obj [("from", from); ("to", contractAddress); ("nonce", nonce);
                    ("gasPrice", gasPrice); ("gasLimit", int 500000); ("data", data)] in
     key ← pure (prop config key);
     signedTx ← invoke "eth.accounts" "signTransaction" [tx; key];
     raw ← pure (prop signedTx "rawTransaction");
     receipt ← invoke "web3.eth" "sendSignedTransaction" [raw];
     hash ← pure (prop receipt "transactionHash");
     note (Log "info" [Str (done_message +:+ to_string hash)]);;
     mret hash)
    (λ error, note (Log "error" [Str failed_message; error]);; throw_js error).

Definition mintNFT (tokenId ipfsHash creatorAddress : jsval) : js jsval :=
  sign_and_send (prop config "ownerAddress") "ownerPrivateKey" "mintNFT"
    [creatorAddress; tokenId; ipfsHash] "NFT minted: " "Error minting NFT:".

Definition transferNFT (fromAddress toAddress tokenId : jsval) : js jsval :=
  sign_and_send (Ok fromAddress) "userPrivateKey" "transferFrom"
    [fromAddress; toAddress; tokenId] "NFT transferred: " "Error transferring NFT:".


(** The class; the contract object is the one the constructor made. *)
Record BlockchainService := {
  bs_mintNFT : jsval → jsval → jsval → js jsval;
  bs_transferNFT : jsval → jsval → jsval → js jsval
}.
Definition service_methods : BlockchainService :=
  {| bs_mintNFT := mintNFT; bs_transferNFT := transferNFT |}.

(** What a successful call did, with the answers it got. *)
Lemma sign_and_send_Ok sender key method args done_message failed_message o h r h' :
  sign_and_send sender key method args done_message failed_message o h = (Ok r, h') →
  ∃ from nonce gasPrice data k signedTx raw line,
    let tx := Obj [("from", from); ("to", contractAddress); ("nonce", nonce);
                   ("gasPrice", gasPrice); ("gasLimit", int 500000); ("data", data)] in
    let h1 := h ++ [Invoke "web3.eth" "getTransactionCount" [from; nonce_block];
                    Invoke "web3.eth" "getGasPrice" [];
                    Invoke "contract.methods" method args] in
    let h2 := h1 ++ [Invoke "eth.accounts" "signTransaction" [tx; k]] in
    sender = Ok from ∧ prop config key = Ok k ∧
    o h (Invoke "web3.eth" "getTransactionCount" [from; nonce_block]) = Ok nonce ∧
    o h1 (Invoke "eth.accounts" "signTransaction" [tx; k]) = Ok signedTx ∧
    prop signedTx "rawTransaction" = Ok raw ∧
    is_ok (o h2 (Invoke "web3.eth" "sendSignedTransaction" [raw])) = true ∧
    h' = h2 ++ [Invoke "web3.eth" "sendSignedTransaction" [raw]; Log "info" [line]].
Proof.
  intros H. apply rethrow_Ok in H; [|by intros]. inv_js. cbv zeta in H. inv_js.
  do 8 eexists. cbv zeta. split; [first [eassumption|reflexivity]|].
  rewrite <- !app_assoc in *. cbn [app] in *.
  split_and!; try eassumption; [|reflexivity].
  by match goal with H : o _ (Invoke _ "sendSignedTransaction" _) = _ |- _ => rewrite H end.
Qed.
End service.

(** [module.exports = new BlockchainService()]. *)
Definition new_BlockchainService (config : jsval) : js BlockchainService :=
  constructor_blockchain config;;
  address ← pure (prop config "contractAddress");
  mret (service_methods config address).

(** The service signs with nothing: of the object src/config/blockchain.js
    exports it reads an owner address, an owner key and a user key that are not
    there, so every mint or transfer that returns was built with an undefined
    sender (mint), an undefined contract address and an undefined key. *)
Theorem service_signs_with_undefined env a1 a2 a3 o h r h' :
  let config := blockchain_config env in
  let contractAddress := prop_opt config "contractAddress" in
  let signed from h' := ∃ nonce gasPrice data,
    Invoke "eth.accounts" "signTransaction"
      [Obj [("from", from); ("to", Undef); ("nonce", nonce); ("gasPrice", gasPrice);
            ("gasLimit", int 500000); ("data", data)]; Undef] ∈ h' in
  (mintNFT config contractAddress a1 a2 a3 o h = (Ok r, h') → signed Undef h') ∧
  (transferNFT config contractAddress a1 a2 a3 o h = (Ok r, h') → signed a1 h').
Proof.
  intros config contractAddress signed.
  assert (Hu : ∀ k, k ≠ "CONTRACT_ADDRESS" → k ≠ "GAS_LIMIT" → k ≠ "CHAIN_ID" →
    prop config k = Ok Undef).
  { intros k H1 H2 H3. unfold config, blockchain_config. cbn [prop assoc].
    by rewrite !(proj2 (String.eqb_neq _ _)) by done. }
  assert (Ha : contractAddress = Undef) by (unfold contractAddress, prop_opt; by rewrite Hu).
  rewrite Ha. clearbody config contractAddress.
  unfold mintNFT, transferNFT. split; intros H;
    apply sign_and_send_Ok in H
      as (from & nonce & gasPrice & data & k & signedTx & raw & line & Hf & Hk & _ & _ & _ & _ & ->);
    rewrite Hu in Hk by done; injection Hk as <-; rewrite ?Hu in Hf by done;
    injection Hf as <-; exists nonce, gasPrice, data.
  all: apply elem_of_app; left; apply elem_of_app; right; by left.
Qed.

(** ** The properties at work *)
Definition sample_env (k : string) : jsval :=
  if String.eqb k "RETRY_ATTEMPTS" then Str "3" else Str "x".

(** The wallet cannot be opened at first, and the node refuses the first
    transaction. *)
Definition flaky : oracle := λ h e,
  if is_setup e && (length h <? 1) || is_sent e && (count is_sent h <? 1)
  then Err (Error_ "connection refused") else Ok (Str "receipt").


Lemma sendTransaction_without_limit_witness :
  sendTransaction (λ _, Str "-1") 1 (Str "tx") no_cache flaky [] = (Ok (Some Undef), no_cache, []).
Proof.
  refine (sendTransaction_without_limit (λ _, Str "-1") (Str "tx") no_cache flaky [] 0 _).
  vm_compute. reflexivity.
Defined.

Lemma service_signs_with_undefined_witness :
  let node : oracle := λ _ _, Ok (Obj [("rawTransaction", Str "0x"); ("transactionHash", Str "0x1")]) in
  ∃ h', mintNFT (blockchain_config sample_env) Undef (int 1) (Str "Qm") (Str "0xabc") node []
          = (Ok (Str "0x1"), h') ∧
    ∃ nonce gasPrice data,
      Invoke "eth.accounts" "signTransaction"
        [Obj [("from", Undef); ("to", Undef); ("nonce", nonce); ("gasPrice", gasPrice);
              ("gasLimit", int 500000); ("data", data)]; Undef] ∈ h'.
Proof.
  intros node.
  destruct (mintNFT (blockchain_config sample_env) Undef (int 1) (Str "Qm") (Str "0xabc") node [])
    as [r h'] eqn:E.
  assert (r = Ok (Str "0x1")) as -> by (vm_compute in E; by injection E).
  exists h'. split; [done|].
  destruct (service_signs_with_undefined sample_env (int 1) (Str "Qm") (Str "0xabc") node []
    (Str "0x1") h') as [H _].
  by apply H.
Defined.
