(* ===== verification/Nonces.v ===== *)
(** * Two mints at the same time

    BlockchainService numbers a transaction with the count of the account's
    transactions in the "latest" block, which leaves out those that are still
    pending.  Two requests served at the same time interleave their calls; a
    schedule is one list of the calls of both, with the answers of one node, and
    of what the node does in between.  Two mints that both read the count before
    the transaction of either is mined cannot both succeed. *)

From stdpp Require Import base list sets strings numbers.
From Stdlib Require Import ZArith Lia Ascii.
From S2P Require Import Prelude Js Blockchain.

(** ** Schedules *)

(** A call a request made, and what it was answered. *)
Record entry := Entry { e_thread : nat; e_event : event; e_answer : result jsval jsval }.

(** An item of a schedule: a call of a request, at the moment of its answer; the
    transaction of a request reaching the node, and being mined; other
    transactions of the account being mined, replaced or dropped. *)
Inductive item :=
| Call (x : entry)
| Submit (i : nat) (raw : jsval)
| Mine (i : nat) (raw : jsval)
| Traffic.

(** The calls of one request. *)
Definition call_of (i : nat) (it : item) : option entry :=
  match it with Call x => if decide (e_thread x = i) then Some x else None | _ => None end.
Definition seen (i : nat) (G : list item) : list entry := omap (call_of i) G.

(** In the schedule [G], request [i] is a run of [m] that ended with [r]. *)
Definition plays {A} (m : js A) (r : result jsval A) (i : nat) (G : list item) : Prop :=
  ∃ o, m o [] = (r, e_event <$> seen i G) ∧
    ∀ pre x post, seen i G = pre ++ x :: post → o (e_event <$> pre) (e_event x) = e_answer x.

Lemma seen_in i G x : x ∈ seen i G → Call x ∈ G ∧ e_thread x = i.
Proof.
  unfold seen. rewrite list_elem_of_omap. intros ([y| | |] & Hy & E); try discriminate E.
  cbn in E. case_decide; by simplify_eq.
Qed.

(** ** The node

    What Ethereum documents of the nonce of an account.  A transaction is mined
    only when it carries the number of those mined before it.  The node counts
    the mined ones when asked about the "latest" block, and also the pending ones
    that follow them when asked about the "pending" block.  It refuses a
    transaction it knows already or whose nonce is used up, keeps at most one
    for a nonce, and answers the sender when the transaction is mined.
    [nonce_of] reads the nonce of a signed transaction of the account. *)
Section node.
Variable account : jsval.
Variable nonce_of : jsval → option Z.

Definition is_count := is_invoke "web3.eth" "getTransactionCount".
Definition is_sign := is_invoke "eth.accounts" "signTransaction".
Definition is_submit := is_invoke "web3.eth" "sendSignedTransaction".

(** The account's mined transactions, and those of the requests, with who sent
    them, that wait and that are mined. *)
Record node := Node {
  n_count : Z; n_pool : list (nat * jsval); n_mined : list (nat * jsval) }.

Definition waiting (s : node) (n : Z) : Prop :=
  ∃ x, x ∈ n_pool s ∧ nonce_of x.2 = Some n.

(** The number of the first transaction that is neither mined nor waiting. *)
Definition pending_count (s : node) (n : Z) : Prop :=
  (n_count s ≤ n)%Z ∧ ¬ waiting s n ∧ ∀ m, (n_count s ≤ m < n)%Z → waiting s m.

Definition count_call (args : list jsval) : event := Invoke "web3.eth" "getTransactionCount" args.
Definition send_call (raw : jsval) : event := Invoke "web3.eth" "sendSignedTransaction" [raw].

Inductive node_step (s : node) : item → node → Prop :=
| ns_latest i :
    node_step s (Call (Entry i (count_call [account; Str "latest"]) (Ok (int (n_count s))))) s
| ns_pending i n : pending_count s n →
    node_step s (Call (Entry i (count_call [account; Str "pending"]) (Ok (int n)))) s
| ns_block i block a : block ≠ Str "latest" → block ≠ Str "pending" →
    node_step s (Call (Entry i (count_call [account; block]) a)) s
| ns_count_other i args a : (∀ block, args ≠ [account; block]) →
    node_step s (Call (Entry i (count_call args) a)) s
| ns_sign i tx key signed raw n :
    prop tx "from" = Ok account → prop tx "nonce" = Ok (int n) →
    prop signed "rawTransaction" = Ok raw → nonce_of raw = Some n →
    node_step s (Call (Entry i (Invoke "eth.accounts" "signTransaction" [tx; key]) (Ok signed))) s
| ns_sign_other i tx key signed raw : prop tx "from" ≠ Ok account →
    prop signed "rawTransaction" = Ok raw → nonce_of raw = None →
    node_step s (Call (Entry i (Invoke "eth.accounts" "signTransaction" [tx; key]) (Ok signed))) s
| ns_submit i raw n :
    nonce_of raw = Some n → (n_count s ≤ n)%Z → raw ∉ (n_pool s).*2 →
    node_step s (Submit i raw)
      (Node (n_count s) ((i, raw) :: filter (λ x, nonce_of x.2 ≠ Some n) (n_pool s)) (n_mined s))
| ns_submit_refused i raw : node_step s (Submit i raw) s
| ns_mine i raw : (i, raw) ∈ n_pool s → nonce_of raw = Some (n_count s) →
    node_step s (Mine i raw)
      (Node (n_count s + 1) (filter (λ x, nonce_of x.2 ≠ Some (n_count s)) (n_pool s))
         ((i, raw) :: n_mined s))
| ns_traffic c pool : (n_count s ≤ c)%Z → pool ⊆ n_pool s →
    node_step s Traffic (Node c pool (n_mined s))
| ns_mined i raw receipt : (i, raw) ∈ n_mined s →
    node_step s (Call (Entry i (send_call raw) (Ok receipt))) s
| ns_mined_other i raw receipt : nonce_of raw = None →
    node_step s (Call (Entry i (send_call raw) (Ok receipt))) s
| ns_refused i e x : node_step s (Call (Entry i e (Err x))) s
| ns_other i e a : is_count e = false → is_sign e = false → is_submit e = false →
    node_step s (Call (Entry i e a)) s.

(** A schedule the node can have lived through. *)
Inductive node_run : node → list item → node → Prop :=
| nr_nil s : node_run s [] s
| nr_cons s it s1 G s2 : node_step s it s1 → node_run s1 G s2 → node_run s (it :: G) s2.

Lemma node_step_mono s it s' :
  node_step s it s' → (n_count s ≤ n_count s')%Z ∧ n_mined s ⊆ n_mined s'.
Proof. destruct 1; cbn; (split; [lia|set_solver]). Qed.

Lemma node_run_mono s G s' :
  node_run s G s' → (n_count s ≤ n_count s')%Z ∧ n_mined s ⊆ n_mined s'.
Proof.
  induction 1 as [|s it s1 G s2 Hs _ [IH1 IH2]]; [done|].
  apply node_step_mono in Hs as [H1 H2]. split; [lia|by etrans].
Qed.

Lemma node_run_app s G G' s' :
  node_run s (G ++ G') s' → ∃ s1, node_run s G s1 ∧ node_run s1 G' s'.
Proof.
  revert s. induction G as [|it G IH]; intros s H; cbn in H.
  - exists s. split; [constructor|done].
  - inversion H as [|? ? s1 ? ? Hs Hr]; subst. apply IH in Hr as (s2 & H1 & H2).
    exists s2. split; [by econstructor|done].
Qed.

(** The node at one call. *)
Lemma node_run_at s G s' it :
  node_run s G s' → it ∈ G → ∃ s1 s2, node_step s1 it s2 ∧
    (n_count s ≤ n_count s1)%Z ∧ (n_count s2 ≤ n_count s')%Z ∧ n_mined s2 ⊆ n_mined s'.
Proof.
  intros H Hx. apply list_elem_of_split in Hx as (pre & post & ->).
  apply node_run_app in H as (s1 & H1 & H2). inversion H2 as [|? ? s2 ? ? Hs Hr]; subst.
  apply node_run_mono in H1 as [H1 _]. apply node_run_mono in Hr as [Hr1 Hr2]. by exists s1, s2.
Qed.

(** No two transactions are mined with one nonce. *)
Definition mined_once (s : node) : Prop :=
  (∀ x, x ∈ n_mined s → ∃ n, nonce_of x.2 = Some n ∧ (n < n_count s)%Z) ∧
  ∀ x y, x ∈ n_mined s → y ∈ n_mined s → nonce_of x.2 = nonce_of y.2 → x = y.

Lemma node_step_once s it s' : node_step s it s' → mined_once s → mined_once s'.
Proof.
  intros Hs [H1 H2]. destruct Hs; try done; cbn in *; (split; cbn).
  - intros x [->|Hx]%elem_of_cons; cbn; [eexists; split; [done|lia]|].
    destruct (H1 x Hx) as (m & ? & ?). exists m. split; [done|lia].
  - intros x y [->|Hx]%elem_of_cons [->|Hy]%elem_of_cons E; cbn in *; auto.
    + destruct (H1 y Hy) as (m & Hm & ?). rewrite Hm in E. assert (m = n_count s) by congruence. lia.
    + destruct (H1 x Hx) as (m & Hm & ?). rewrite Hm in E. assert (m = n_count s) by congruence. lia.
  - intros x Hx. destruct (H1 x Hx) as (m & ? & ?). exists m. split; [done|lia].
  - done.
Qed.

Lemma node_run_once s G s' : node_run s G s' → mined_once s → mined_once s'.
Proof. induction 1; eauto using node_step_once. Qed.

(** What is mined at the end was mined before, or carries a number from the
    count at the start on. *)
Lemma node_run_mined s G s' x :
  node_run s G s' → x ∈ n_mined s' →
  x ∈ n_mined s ∨ Mine x.1 x.2 ∈ G ∧ ∃ n, nonce_of x.2 = Some n ∧ (n_count s ≤ n)%Z.
Proof.
  induction 1 as [|s it s1 G s2 Hs _ IH]; [by left|]. intros Hx.
  destruct (IH Hx) as [H|(Hin & n & Hn & Hle)].
  - destruct Hs; try by left. cbn in H. apply elem_of_cons in H as [->|H]; [|by left].
    right. split; [by left|]. by eexists.
  - right. split; [by right|]. exists n. apply node_step_mono in Hs as [Hs _]. split; [done|lia].
Qed.
End node.

(** ** Two mints *)
Section mints.
Variable config contractAddress account : jsval.
Variable nonce_of : jsval → option Z.
Hypothesis owner : prop config "ownerAddress" = Ok account.

Abbreviation mintNFT := (mintNFT config contractAddress).
Abbreviation node_run := (node_run account nonce_of).

(** A mint that succeeded read one number, signed with it, and was mined. *)
Record minted (i : nat) (G : list item) (nonce raw : jsval) (read sign sent : entry) : Prop := {
  mi_read : read ∈ seen i G ∧ e_answer read = Ok nonce ∧
    e_event read = count_call [account; Str "latest"];
  mi_sign : sign ∈ seen i G ∧ ∃ tx key signed,
    e_event sign = Invoke "eth.accounts" "signTransaction" [tx; key] ∧ e_answer sign = Ok signed ∧
    prop tx "from" = Ok account ∧ prop tx "nonce" = Ok nonce ∧
    prop signed "rawTransaction" = Ok raw;
  mi_sent : sent ∈ seen i G ∧ is_ok (e_answer sent) = true ∧ e_event sent = send_call raw
}.

Lemma plays_minted a1 a2 a3 r i G :
  plays (mintNFT a1 a2 a3) (Ok r) i G →
  ∃ nonce raw read sign sent, minted i G nonce raw read sign sent.
Proof.
  intros (o & Hm & Ho). unfold Blockchain.mintNFT in Hm. apply sign_and_send_Ok in Hm
    as (from & nonce & gasPrice & data & k & signed & raw & line & Hf & _ & H0 & H3 & Hraw & H4 & E).
  rewrite owner in Hf. injection Hf as <-.
  destruct (seen i G) as [|x0 [|x1 [|x2 [|x3 [|x4 [|x5 [|]]]]]]] eqn:Hs; try discriminate E.
  cbn in E, H3, H4. injection E as E0 E1 E2 E3 E4 E5.
  pose proof (Ho [] x0 _ eq_refl) as A0. pose proof (Ho [x0; x1; x2] x3 _ eq_refl) as A3.
  pose proof (Ho [x0; x1; x2; x3] x4 _ eq_refl) as A4. cbn in A0, A3, A4.
  rewrite E0 in A0. rewrite E0, E1, E2, E3 in A3. rewrite E0, E1, E2, E3, E4 in A4.
  rewrite H0 in A0. rewrite H3 in A3.
  exists nonce, raw, x0, x3, x4. split; rewrite ?Hs.
  - split; [by left|]. by split.
  - split; [by do 3 right; left|]. do 3 eexists. split; [exact E3|].
    split; [by symmetry|]. by split_and!.
  - split; [by do 4 right; left|]. by rewrite <- A4.
Qed.

(** The transaction of such a mint carries the count at the reading, and was
    mined. *)
Lemma minted_mined s G s' i nonce raw read sign sent :
  node_run s G s' → minted i G nonce raw read sign sent →
  ∃ n, nonce = int n ∧ nonce_of raw = Some n ∧ (i, raw) ∈ n_mined s'.
Proof.
  intros Hr [(Hx & Ha & He) (Hx' & tx & key & signed & He' & Ha' & Hfrom & Hn & Hraw)
             (Hx'' & Hok & He'')].
  apply seen_in in Hx as [Hx _]. apply seen_in in Hx' as [Hx' _]. apply seen_in in Hx'' as [Hx'' Ht].
  destruct (node_run_at _ _ _ _ _ _ Hr Hx) as (s1 & s2 & Hst & _).
  destruct (node_run_at _ _ _ _ _ _ Hr Hx') as (d1 & d2 & Hst' & _).
  destruct (node_run_at _ _ _ _ _ _ Hr Hx'') as (f1 & f2 & Hst'' & _ & _ & Hsub).
  destruct read as [t ev an], sign as [t' ev' an'], sent as [t'' ev'' an'']. cbn in *. subst.
  assert (∃ n, nonce = int n) as [n ->].
  { inversion Hst; subst; try done; [by eexists|naive_solver]. }
  exists n. split; [done|].
  assert (Hnonce : nonce_of raw = Some n).
  { inversion Hst'; subst; try done; simplify_eq/=; congruence. }
  split; [done|]. destruct an''; [|done].
  inversion Hst''; subst; try done; [|congruence]. by apply Hsub.
Qed.

(** C38: two mints in flight cannot both succeed.  However the calls of two
    requests interleave, with each other and with any other traffic, when both
    read the transaction count of the owner before the transaction of either is
    mined (it may be with the node already), one of the two mints fails. *)
Theorem concurrent_mints_collide a1 a2 a3 b1 b2 b3 i j r1 r2 G1 G2 s s' :
  i ≠ j → n_mined s = [] → node_run s (G1 ++ G2) s' →
  plays (mintNFT a1 a2 a3) r1 i (G1 ++ G2) → plays (mintNFT b1 b2 b3) r2 j (G1 ++ G2) →
  (∀ k raw, k = i ∨ k = j → Mine k raw ∉ G1) →
  (∀ x, Call x ∈ G2 → e_thread x = i ∨ e_thread x = j → is_count (e_event x) = false) →
  is_ok r1 = false ∨ is_ok r2 = false.
Proof.
  intros Hij H0 Hr P1 P2 Hmine Hcnt.
  destruct r1 as [r1|]; [|by left]. destruct r2 as [r2|]; [|by right]. exfalso.
  apply node_run_app in Hr as Hsplit. destruct Hsplit as (S & Hr1 & Hr2).
  assert (Hone : ∀ a1 a2 a3 r k, k = i ∨ k = j → plays (mintNFT a1 a2 a3) (Ok r) k (G1 ++ G2) →
    ∃ raw, (k, raw) ∈ n_mined s' ∧ nonce_of raw = Some (n_count S)).
  { intros d1 d2 d3 r k Hk Hp. apply plays_minted in Hp as (nonce & raw & read & sign & sent & Hm).
    destruct (minted_mined _ _ _ _ _ _ _ _ _ Hr Hm) as (n & -> & Hn & Hmined).
    exists raw. split; [done|]. rewrite Hn. f_equal.
    destruct Hm as [(Hread & Ha & He) _ _].
    apply seen_in in Hread as [[Hread|Hread]%elem_of_app Ht];
      [|specialize (Hcnt read Hread); rewrite He, Ht in Hcnt; by specialize (Hcnt Hk)].
    assert (n ≤ n_count S)%Z.
    { destruct (node_run_at _ _ _ _ _ _ Hr1 Hread) as (s1 & s2 & Hst & _ & Hle & _).
      destruct read as [t ev an]. cbn in *. subst. clear -Hst Hle. inversion Hst; subst; naive_solver. }
    destruct (node_run_mined _ _ _ _ _ _ Hr2 Hmined) as [Hin|(_ & m & Hm & Hle)];
      [|cbn in Hm; simplify_eq; lia].
    destruct (node_run_mined _ _ _ _ _ _ Hr1 Hin) as [H'|[H' _]]; [|by destruct (Hmine k raw Hk)].
    rewrite H0 in H'. by apply not_elem_of_nil in H'. }
  destruct (Hone _ _ _ _ i (or_introl eq_refl) P1) as (x & Hx & Nx).
  destruct (Hone _ _ _ _ j (or_intror eq_refl) P2) as (y & Hy & Ny).
  assert (Ho : mined_once nonce_of s').
  { eapply node_run_once; [exact Hr|].
    split; rewrite H0; intros x0 *; by intros ?%not_elem_of_nil. }
  destruct Ho as [_ Ho]. specialize (Ho (i, x) (j, y) Hx Hy). cbn in Ho.
  rewrite Nx, Ny in Ho. by specialize (Ho eq_refl) as [= ? _].
Qed.
End mints.

(** ** The property at work *)
Definition answers (l : list (result jsval jsval)) : oracle := λ h _,
  default (Err Undef) (l !! length h).

Lemma plays_answers {A} (m : js A) r i G :
  m (answers (e_answer <$> seen i G)) [] = (r, e_event <$> seen i G) → plays m r i G.
Proof.
  intros H. eexists. split; [exact H|]. intros pre x post E. unfold answers.
  rewrite E, !fmap_app, length_fmap. cbn.
  rewrite lookup_app_r, length_fmap, Nat.sub_diag by (by rewrite length_fmap). done.
Qed.

Definition owner_config : jsval :=
  Obj [("ownerAddress", Str "0xowner"); ("ownerPrivateKey", Str "key")].

Definition signed_nonce (raw : jsval) : option Z :=
  match raw with Str _ => Some 7%Z | _ => None end.

(** The seven-transaction owner mints two tokens at once. *)
Definition unsigned (data : string) : jsval := Obj [
  ("from", Str "0xowner"); ("to", Str "0xmarket"); ("nonce", int 7); ("gasPrice", int 1);
  ("gasLimit", int 500000); ("data", Str data) ].
Definition reading (i : nat) : item :=
  Call $ Entry i (Invoke "web3.eth" "getTransactionCount" [Str "0xowner"; Str "latest"]) (Ok (int 7)).
Definition pricing (i : nat) : item := Call $ Entry i (Invoke "web3.eth" "getGasPrice" []) (Ok (int 1)).
Definition encoding (i : nat) (id : Z) (data : string) : item :=
  Call $ Entry i (Invoke "contract.methods" "mintNFT" [Str "0xcreator"; int id; Str "Qm"]) (Ok (Str data)).
Definition signing (i : nat) (data raw : string) : item :=
  Call $ Entry i (Invoke "eth.accounts" "signTransaction" [unsigned data; Str "key"])
    (Ok (Obj [("rawTransaction", Str raw)])).
(** The first transaction is with the node when the second request reads. *)
Definition before_mining : list item := [
  reading 0; pricing 0; encoding 0 1 "a"; signing 0 "a" "0xa"; Submit 0 (Str "0xa"); reading 1 ].
Definition too_low : jsval := Error_ "nonce too low".
Definition from_mining : list item := [
  pricing 1; encoding 1 2 "b"; signing 1 "b" "0xb"; Mine 0 (Str "0xa"); Submit 1 (Str "0xb");
  Call (Entry 0 (send_call (Str "0xa")) (Ok (Obj [("transactionHash", Str "0x1")])));
  Call (Entry 1 (send_call (Str "0xb")) (Err too_low));
  Call (Entry 0 (Log "info" [Str "NFT minted: 0x1"]) (Ok Undef));
  Call (Entry 1 (Log "error" [Str "Error minting NFT:"; too_low]) (Ok Undef)) ].

Abbreviation fresh_node := (Node 7 [] []).

Lemma schedule_possible : ∃ s,
  node_run (Str "0xowner") signed_nonce fresh_node (before_mining ++ from_mining) s.
Proof.
  eexists.
  eapply nr_cons; [apply (ns_latest _ _ fresh_node)|].
  do 2 (eapply nr_cons; [by apply ns_other|]).
  eapply nr_cons; [by eapply ns_sign|].
  eapply nr_cons; [by eapply (ns_submit _ _ _ _ _ 7); [|cbn; lia|apply not_elem_of_nil]|].
  eapply nr_cons; [apply (ns_latest _ _ (Node 7 _ _))|].
  do 2 (eapply nr_cons; [by apply ns_other|]).
  eapply nr_cons; [by eapply ns_sign|].
  eapply nr_cons; [by eapply ns_mine; [left|]|].
  eapply nr_cons; [apply ns_submit_refused|].
  eapply nr_cons; [by eapply ns_mined; left|].
  eapply nr_cons; [by apply ns_refused|].
  do 2 (eapply nr_cons; [by apply ns_other|]). apply nr_nil.
Qed.

Lemma concurrent_mints_collide_witness :
  plays (mintNFT owner_config (Str "0xmarket") (int 1) (Str "Qm") (Str "0xcreator"))
    (Ok (Str "0x1")) 0 (before_mining ++ from_mining) ∧
  plays (mintNFT owner_config (Str "0xmarket") (int 2) (Str "Qm") (Str "0xcreator"))
    (Err too_low) 1 (before_mining ++ from_mining) ∧
  (is_ok (Ok (Str "0x1") : result jsval jsval) = false ∨ is_ok (Err too_low : result jsval jsval) = false).
Proof.
  assert (P0 : plays (mintNFT owner_config (Str "0xmarket") (int 1) (Str "Qm") (Str "0xcreator"))
    (Ok (Str "0x1")) 0 (before_mining ++ from_mining)) by (apply plays_answers; by vm_compute).
  assert (P1 : plays (mintNFT owner_config (Str "0xmarket") (int 2) (Str "Qm") (Str "0xcreator"))
    (Err too_low) 1 (before_mining ++ from_mining)) by (apply plays_answers; by vm_compute).
  split; [exact P0|]. split; [exact P1|].
  destruct schedule_possible as [s Hs].
  refine (concurrent_mints_collide owner_config (Str "0xmarket") (Str "0xowner") signed_nonce
    eq_refl _ _ _ _ _ _ 0 1 _ _ _ _ fresh_node s _ eq_refl Hs P0 P1 _ _); [done|..].
  - intros k raw _ Hx. unfold before_mining in Hx. rewrite !elem_of_cons, elem_of_nil in Hx.
    by destruct_or?.
  - intros x Hx _. unfold from_mining in Hx. rewrite !elem_of_cons, elem_of_nil in Hx.
    repeat destruct Hx as [Hx|Hx]; try done; by injection Hx as ->.
Defined.
