(* ===== verification/App.v ===== *)
(** * The HTTP application

    src/server.js, src/app.js, src/routes/index.js, src/routes/api/v1/*.js and
    src/config/database.js: which modules load, the layers a request goes
    through, starting and stopping, and the database connection with its
    listeners. *)

From stdpp Require Import base list strings numbers.
From Stdlib Require Import ZArith Lia Ascii FunctionalExtensionality.
From S2P Require Import Prelude Js ErrorMiddleware Validation CollectionService Config.

(** ** Modules

    The modules of the repository each file requires, in the order of the file
    (packages left out), as paths below src/. *)
Definition server_requires : list string :=
  ["src/utils/logger"; "src/config/index"; "src/app"].
Definition app_requires : list string :=
  ["docs/api/swagger.json"; "src/routes/index"; "src/middlewares/error.middleware";
   "src/utils/logger"; "src/config/database"].
Definition routes_requires : list string :=
  ["src/routes/api/v1/auth.route"; "src/routes/api/v1/collection.route"].
Definition collection_route_requires : list string :=
  ["src/controllers/collection.controller"; "src/middlewares/auth.middleware"].
Definition collection_controller_requires : list string :=
  ["src/services/collection.service"; "src/validators/collection.validator";
   "src/middlewares/error.middleware"].
Definition nft_route_requires : list string := ["src/controllers/nft.controler"].
Definition nft_controller_requires : list string :=
  ["src/services/nft.service"; "src/middlewares/validation.middleware"].
Definition nft_service_requires : list string := ["src/models/nft.model"; "src/services/ipfs.service"].
Definition collection_service_requires : list string :=
  ["src/models/collection.model"; "src/middlewares/error.middleware"].
Definition email_service_requires : list string := ["src/config/index"; "src/utils/logger"].

(** The files there are, with what each requires. *)
Definition repository : list (string * list string) := [
  ("docs/api/swagger.json", []);
  ("src/server", server_requires); ("src/app", app_requires);
  ("src/routes/index", routes_requires);
  ("src/routes/api/v1/collection.route", collection_route_requires);
  ("src/routes/api/v1/nft.route", nft_route_requires);
  ("src/controllers/collection.controller", collection_controller_requires);
  ("src/controllers/nft.controler", nft_controller_requires);
  ("src/services/collection.service", collection_service_requires);
  ("src/services/nft.service", nft_service_requires);
  ("src/services/ipfs.service", []);
  ("src/services/pinata.service", ["src/config/pinata"]);
  ("src/services/email.service", email_service_requires);
  ("src/services/blockchain.service", ["src/config/blockchain"; "src/utils/logger"]);
  ("src/config/index", []); ("src/config/pinata", []);
  ("src/config/database", ["src/utils/logger"]);
  ("src/config/blockchain", ["src/utils/logger"]);
  ("src/middlewares/error.middleware", ["src/utils/logger"]);
  ("src/middlewares/validation.middleware", []); ("src/middlewares/upload.middleware", []);
  ("src/validators/collection.validator", []);
  ("src/models/collection.model", []); ("src/models/nft.model", []); ("src/models/user.model", []);
  ("src/utils/logger", []) ].

(** Loading a module loads what it requires, in order, and stops at the first
    file that is not there; [None] when the fuel runs out. *)
Fixpoint load (files : list (string * list string)) (fuel : nat) (path : string)
    : option (result jsval unit) :=
  match fuel with
  | O => None
  | S fuel =>
      match assoc path files with
      | None => Some (Err (Error_ ("Cannot find module '" +:+ path +:+ "'")))
      | Some requires =>
          (fix load_all requires :=
             match requires with
             | [] => Some (Ok tt)
             | r :: requires =>
                 match load files fuel r with
                 | Some (Ok _) => load_all requires
                 | other => other
                 end
             end) requires
      end
  end.

(** ** Requests and layers *)
Record request := { q_method : string; q_path : string; q_value : jsval }.

(** The same request with the request object as a middleware left it. *)
Definition with_value (r : request) (v : jsval) : request :=
  {| q_method := q_method r; q_path := q_path r; q_value := v |}.

(** What comes next: given the request object as it is by then, and the error
    [next] was called with, if any. *)
Definition next_fn : Type := jsval → option jsval → js unit.
Definition handler : Type := request → next_fn → js unit.

Inductive layer :=
| Use (path : string) (f : handler)
| Route (method path : string) (f : handler)
| Router (path : string) (layers : list layer).

(** What Express documents of the order of layers: the first that matches the
    request is run, [next()] goes on with those after it, [next(err)] leaves
    them all; a router mounted on a path sees the rest of the path; which layers
    match depends on the method and the path only. *)
Class Express := {
  matches : layer → request → bool;
  rest_of_path : string → request → request;
  serve : list layer → request → next_fn → js unit;
  serve_nil r k : serve [] r k = k (q_value r) None;
  serve_skip l ls r k : matches l r = false → serve (l :: ls) r k = serve ls r k;
  serve_use path f ls r k : matches (Use path f) r = true →
    serve (Use path f :: ls) r k = f r (λ v e,
      match e with None => serve ls (with_value r v) k | Some err => k v (Some err) end);
  serve_route method path f ls r k : matches (Route method path f) r = true →
    serve (Route method path f :: ls) r k = f r (λ v e,
      match e with None => serve ls (with_value r v) k | Some err => k v (Some err) end);
  serve_router path inner ls r k : matches (Router path inner) r = true →
    serve (Router path inner :: ls) r k = serve inner (rest_of_path path r) (λ v e,
      match e with None => serve ls (with_value r v) k | Some err => k v (Some err) end);
  matches_value l r v : matches l (with_value r v) = matches l r;
  matches_root_use f r : matches (Use "/" f) r = true;
  matches_root_router inner r : matches (Router "/" inner) r = true;
  rest_of_root r : rest_of_path "/" r = r;
  rest_of_value path r : q_value (rest_of_path path r) = q_value r;
  rest_with_value path r v :
    rest_of_path path (with_value r v) = with_value (rest_of_path path r) v
}.

Section app.
Context `{Express}.
Variable stack : jsval.
Variable env : string → jsval.
Variable joi_validate : joi_schema → jsval → jsval.
(** The middleware that comes from packages, and the two handlers of the
    modules that are missing, by name. *)
Variable package : string → handler.

(** [next(error)] is the last thing a handler of the repository does; [v] is the
    request object. *)
Definition with_next (m : js unit) (v : jsval) (next : next_fn) : js unit := λ o h,
  let '(r, h') := m o h in
  match h' !! (length h' - 1) with
  | Some (Next (Some error)) => next v (Some error) o h'
  | _ => (r, h')
  end.

(** *** src/routes *)
Definition health : handler := λ r next,
  note (Respond (int 200) (Obj [("status", Str "OK"); ("message", Str "Server is running")])).

Definition routes_not_found : handler := λ r next,
  note (Respond (int 404) (Obj [("error", Str "Not Found")])).

Definition collection_route : list layer := [
  Route "POST" "/" (λ r next,
    package "authenticate" r (λ v e,
      match e with
      | None => with_next (handle_createCollection stack env joi_validate v) v next
      | Some error => next v (Some error)
      end));
  Route "GET" "/" (λ r next,
    with_next (handle_getAllCollections stack (q_value r)) (q_value r) next) ].

Definition nft_route (mint : jsval → js unit) : list layer := [
  Route "POST" "/:collectionAddress/mint" (λ r next,
    package "upload.single" r (λ v e,
      match e with
      | None => with_next (mint v) v next
      | Some error => next v (Some error)
      end)) ].

Definition routes : list layer := [
  Route "GET" "/health" health;
  Router "/api/v1/collections" collection_route;
  Use "/" routes_not_found ].

(** *** src/app.js *)
Definition before_routes : list layer := [
  Use "/" (package "helmet"); Use "/" (package "cors"); Use "/" (package "express.json");
  Use "/" (package "express.urlencoded"); Use "/" (package "compression");
  Use "/" (package "morgan"); Use "/" (package "mongoSanitize"); Use "/" (package "xss");
  Use "/" (package "hpp"); Use "/api" (package "rateLimit");
  Use "/api-docs" (package "swaggerUi.serve"); Use "/api-docs" (package "swaggerUi.setup") ].

Definition app_not_found : handler := λ r next,
  url ← pure (prop (q_value r) "originalUrl");
  next (q_value r) (Some (set_prop (Error_ ("Not Found - " +:+ to_string url)) "status" (int 404))).

Definition app_layers (not_found : handler) : list layer :=
  before_routes ++ [Router "/" routes; Use "/" not_found].

(** What is left goes to the error middleware. *)
Definition app (not_found : handler) (r : request) : js unit :=
  serve (app_layers not_found) r (λ v e,
    match e with
    | Some error => errorMiddleware stack (env "NODE_ENV") error v
    | None => mret tt
    end).

(** ** Facts *)

Lemma routes_404 r k :
  serve [Use "/" routes_not_found] r k =
    note (Respond (int 404) (Obj [("error", Str "Not Found")])).
Proof. by rewrite serve_use by apply matches_root_use. Qed.

(** The router answers everything it gets: it never hands the request on. *)
Lemma routes_end r k k' :
  (∀ v e, k v (Some e) = k' v (Some e)) → serve routes r k = serve routes r k'.
Proof.
  intros Hk. unfold routes.
  assert (Hrest : serve [Router "/api/v1/collections" collection_route; Use "/" routes_not_found] r k =
                  serve [Router "/api/v1/collections" collection_route; Use "/" routes_not_found] r k').
  { destruct (matches (Router "/api/v1/collections" collection_route) r) eqn:Hm.
    - rewrite !serve_router by done. f_equal. apply functional_extensionality. intros v.
      apply functional_extensionality. intros [e|]; [apply Hk|]. by rewrite !routes_404.
    - rewrite !(serve_skip (Router _ _)) by done. by rewrite !routes_404. }
  destruct (matches (Route "GET" "/health" health) r) eqn:Hm.
  - rewrite !serve_route by done. reflexivity.
  - by rewrite !(serve_skip (Route "GET" "/health" health)) by done.
Qed.

Lemma serve_prefix_ext (ls ls' pre : list layer) r k :
  (∀ r k, serve ls r k = serve ls' r k) →
  (∀ l, l ∈ pre → ∃ path f, l = Use path f) →
  serve (pre ++ ls) r k = serve (pre ++ ls') r k.
Proof.
  intros Hls. revert r k. induction pre as [|l pre IH]; intros r k Hpre; [apply Hls|]. cbn.
  assert (Htail : ∀ r k, serve (pre ++ ls) r k = serve (pre ++ ls') r k).
  { intros r' k'. apply IH. intros l' Hl. apply Hpre. by right. }
  destruct (matches l r) eqn:Hm; [|by rewrite !(serve_skip l)].
  destruct (Hpre l) as (path & f & ->); [by left|]. rewrite !serve_use by done.
  f_equal. apply functional_extensionality. intros v.
  apply functional_extensionality. intros [e|]; [done|apply Htail].
Qed.

Lemma before_routes_use l : l ∈ before_routes → ∃ path f, l = Use path f.
Proof. unfold before_routes. rewrite !elem_of_cons, elem_of_nil. naive_solver. Qed.

(** The 404 handler of app.js is dead code: whatever it is replaced with,
    every request is answered the same way, because the router mounted before
    it ends with a handler that answers everything. *)
Theorem app_not_found_unreachable g g' r : app g r = app g' r.
Proof.
  unfold app, app_layers. apply serve_prefix_ext; [|apply before_routes_use].
  intros r' k. rewrite !serve_router by apply matches_root_router. rewrite rest_of_root.
  apply routes_end. done.
Qed.

(** [let_through o ls r h v h']: from the history [h], each of the layers [ls]
    that matches the request calls [next()], without having responded; the
    request object is [v] then, and the history [h']. *)
Inductive let_through (o : oracle) : list layer → request → list event → jsval → list event → Prop :=
| through_none r h : let_through o [] r h (q_value r) h
| through_other l ls r h v h' :
    matches l r = false → let_through o ls r h v h' → let_through o (l :: ls) r h v h'
| through_use path f ls r h v1 tr v h' :
    matches (Use path f) r = true → count is_respond tr = 0 →
    (∀ next, f r next o h = next v1 None o (h ++ tr)) →
    let_through o ls (with_value r v1) (h ++ tr) v h' →
    let_through o (Use path f :: ls) r h v h'.

Lemma let_through_serve o ls ls' r h v h' k :
  let_through o ls r h v h' → serve (ls ++ ls') r k o h = serve ls' (with_value r v) k o h'.
Proof.
  induction 1 as [r h|l ls r h v h' Hm _ IH|path f ls r h v1 tr v h' Hm _ Hf _ IH]; cbn.
  - by destruct r.
  - by rewrite serve_skip.
  - rewrite serve_use by done. by rewrite Hf, IH.
Qed.

Lemma let_through_silent o ls r h v h' :
  let_through o ls r h v h' → ∃ tr, h' = h ++ tr ∧ count is_respond tr = 0.
Proof.
  induction 1 as [r h|l ls r h v h' _ _ IH|path f ls r h v1 tr v h' _ Hc _ _ (tr' & -> & Hc')].
  - exists []. by rewrite app_nil_r.
  - done.
  - exists (tr ++ tr'). rewrite app_assoc, count_app, Hc, Hc'. by split.
Qed.

(** When the packages let a request through, the health check is answered
    200, and a request no route matches is answered 404 with the router's own
    body: never with the error the last handler of app.js would make. *)
Theorem unknown_path_answered r g o h v h' :
  let_through o before_routes r h v h' →
  (matches (Route "GET" "/health" health) r = true →
     app g r o h = (Ok tt, h' ++ [Respond (int 200)
       (Obj [("status", Str "OK"); ("message", Str "Server is running")])])) ∧
  (matches (Route "GET" "/health" health) r = false →
   matches (Router "/api/v1/collections" collection_route) r = false →
     app g r o h = (Ok tt, h' ++ [Respond (int 404) (Obj [("error", Str "Not Found")])])).
Proof.
  intros Hp. unfold app, app_layers. rewrite (let_through_serve _ _ _ _ _ _ _ _ Hp).
  rewrite serve_router by apply matches_root_router. rewrite rest_of_root. unfold routes.
  split.
  - intros Hm. rewrite serve_route by (by rewrite matches_value). reflexivity.
  - intros Hh Hc. rewrite (serve_skip (Route _ _ _)), (serve_skip (Router _ _))
      by (by rewrite matches_value).
    by rewrite routes_404.
Qed.
End app.

(** ** Starting and stopping: src/server.js *)
Section server.
Variable env : string → jsval.

(** Creating the server; [config] is the configuration object. *)
Definition start_server (config : jsval) : js unit :=
  app_ ← pure (prop config "app");
  origin ← pure (prop app_ "corsOrigin");
  invoke "socket.io" "Server"
    [Obj [("cors", Obj [("origin", origin); ("methods", Arr [Str "GET"; Str "POST"])])]];;
  port ← pure (prop app_ "port");
  invoke "httpServer" "listen" [port];;
  note (Log "info" [Str ("Server running in " +:+ to_string (env "NODE_ENV") +:+ " mode on port "
                           +:+ to_string port)]);;
  note (Listen "process" "SIGTERM");;
  note (Listen "process" "unhandledRejection").

(** The SIGTERM handler, each callback called when its operation is done. *)
Definition on_SIGTERM : js unit :=
  note (Log "info" [Str "SIGTERM signal received. Closing HTTP server."]);;
  invoke "httpServer" "close" [];;
  note (Log "info" [Str "HTTP server closed."]);;
  invoke "mongoose.connection" "close" [Bool false];;
  note (Log "info" [Str "MongoDB connection closed."]);;
  note (Exit 0).

Definition on_unhandledRejection (reason promise : jsval) : js unit :=
  note (Log "error" [Str "Unhandled Rejection at:"; promise; Str "reason:"; reason]);;
  invoke "httpServer" "close" [];;
  note (Exit 1).
End server.

(** ** The database connection: src/config/database.js *)
Section database.
Variable env : string → jsval.

Definition options : jsval := Obj [
  ("autoIndex", Bool (is_str (env "NODE_ENV") "development")); ("connectTimeoutMS", int 10000);
  ("socketTimeoutMS", int 45000); ("family", int 4) ].

Definition uri : jsval :=
  Str ("mongodb+srv://" +:+ to_string (env "MONGO_USERNAME") +:+ ":"
         +:+ to_string (env "MONGO_PASSWORD")
         +:+ "@cluster0.uzy9p.mongodb.net/test?retryWrites=true&w=majority&appName=Cluster0").

(** Every successful connection registers the three listeners again. *)
Definition connect : js unit :=
  try_catch
    (invoke "mongoose" "connect" [uri; options];;
     note (Log "info" [Str "MongoDB connected successfully"]);;
     note (Listen "mongoose.connection" "error");;
     note (Listen "mongoose.connection" "disconnected");;
     note (Listen "process" "SIGINT"))
    (λ err,
     note (Log "error" [Str ("MongoDB connection error: " +:+ to_string err)]);;
     note (Exit 1)).

Definition on_error (err : jsval) : js unit :=
  note (Log "error" [Str ("MongoDB connection error: " +:+ to_string err)]).

Definition on_disconnected : js unit :=
  note (Log "warn" [Str "MongoDB disconnected. Attempting to reconnect..."]);;
  note (Timer "connect" (int 5000)).

Definition on_SIGINT : js unit :=
  invoke "mongoose.connection" "close" [];;
  note (Log "info" [Str "MongoDB connection closed due to app termination"]);;
  note (Exit 0).

Fixpoint times (n : nat) (m : js unit) : js unit :=
  match n with O => mret tt | S n => m;; times n m end.

Definition is_reconnector (e : event) : bool :=
  match e with Listen "mongoose.connection" "disconnected" => true | _ => false end.
Definition is_connection := is_invoke "mongoose" "connect".

(** The connection is lost once: every registered listener runs, and then every
    timer it set. *)
Definition lose_connection : js unit := λ o h,
  let n := count is_reconnector h in
  (times n on_disconnected;; times n connect) o h.

(** ** Facts *)
Definition always_connects (o : oracle) : Prop :=
  ∀ h, is_ok (o h (Invoke "mongoose" "connect" [uri; options])) = true.

Lemma connect_run o h :
  always_connects o →
  connect o h = (Ok tt, h ++ [Invoke "mongoose" "connect" [uri; options];
    Log "info" [Str "MongoDB connected successfully"]; Listen "mongoose.connection" "error";
    Listen "mongoose.connection" "disconnected"; Listen "process" "SIGINT"]).
Proof.
  intros Ho. unfold connect. run_js. specialize (Ho h).
  destruct (o h _); [|done]. by rewrite <- !app_assoc.
Qed.

Lemma times_count p m k n o h :
  (∀ h, ∃ tr, m o h = (Ok tt, h ++ tr) ∧ count p tr = k) →
  ∃ tr, times n m o h = (Ok tt, h ++ tr) ∧ count p tr = n * k.
Proof.
  intros Hm. revert h. induction n as [|n IH]; intros h; cbn.
  - exists []. by rewrite app_nil_r.
  - unfold mbind, js_bind. destruct (Hm h) as (tr & -> & Hc).
    destruct (IH (h ++ tr)) as (tr' & -> & Hc').
    exists (tr ++ tr'). rewrite app_assoc, count_app, Hc, Hc'. split; [done|lia].
Qed.

Lemma lose_connection_count o h :
  always_connects o →
  let n := count is_reconnector h in
  let '(r, h') := lose_connection o h in
  r = Ok tt ∧ count is_reconnector h' = n + n ∧ count is_connection h' = count is_connection h + n.
Proof.
  intros Ho n. unfold lose_connection. fold n. unfold mbind, js_bind.
  assert (Hd : ∀ h, ∃ tr, on_disconnected o h = (Ok tt, h ++ tr) ∧
    count is_reconnector tr = 0 ∧ count is_connection tr = 0).
  { intros h0. eexists. split; [|shelve]. unfold on_disconnected. run_js. rewrite <- app_assoc.
    reflexivity. Unshelve. by split. }
  assert (Hc : ∀ h, ∃ tr, connect o h = (Ok tt, h ++ tr) ∧
    count is_reconnector tr = 1 ∧ count is_connection tr = 1).
  { intros h0. eexists. split; [by apply connect_run|by split]. }
  destruct (times_count is_reconnector on_disconnected 0 n o h) as (t1 & E1 & C1).
  { intros h0. destruct (Hd h0) as (tr & ? & ? & ?). eauto. }
  destruct (times_count is_connection on_disconnected 0 n o h) as (t1' & E1' & C1').
  { intros h0. destruct (Hd h0) as (tr & ? & ? & ?). eauto. }
  rewrite E1 in E1'. injection E1' as E1'. apply app_inv_head in E1' as <-. rewrite E1.
  destruct (times_count is_reconnector connect 1 n o (h ++ t1)) as (t2 & E2 & C2).
  { intros h0. destruct (Hc h0) as (tr & ? & ? & ?). eauto. }
  destruct (times_count is_connection connect 1 n o (h ++ t1)) as (t2' & E2' & C2').
  { intros h0. destruct (Hc h0) as (tr & ? & ? & ?). eauto. }
  rewrite E2 in E2'. injection E2' as E2'. apply app_inv_head in E2' as <-. rewrite E2.
  rewrite !count_app. subst n. split_and!; [done|lia|lia].
Qed.

(** Reconnecting leaks listeners: starting from one connection, after the
    connection is lost n times (and always comes back), 2^n listeners wait for
    the next loss, and the database has been connected to 2^n times. *)
Theorem listeners_double o n :
  always_connects o →
  let '(r, h) := (connect;; times n lose_connection) o [] in
  r = Ok tt ∧ count is_reconnector h = 2 ^ n ∧ count is_connection h = 2 ^ n.
Proof.
  intros Ho.
  assert (Hn : ∀ k h, count is_reconnector h = count is_connection h →
    let '(r, h') := times k lose_connection o h in
    r = Ok tt ∧ count is_reconnector h' = 2 ^ k * count is_reconnector h ∧
    count is_connection h' = 2 ^ k * count is_reconnector h).
  { induction k as [|k IH]; intros h Heq; cbn [times].
    - cbn. split_and!; [done|lia|lia].
    - unfold mbind, js_bind. pose proof (lose_connection_count o h Ho) as H. cbn zeta in H.
      destruct (lose_connection o h) as [r h1]. destruct H as (-> & H1 & H2).
      specialize (IH h1 ltac:(lia)). destruct (times k lose_connection o h1) as [r' h2].
      rewrite Nat.pow_succ_r'. destruct IH as (-> & -> & ->). rewrite H1. split_and!; [done|lia|lia]. }
  unfold mbind, js_bind. rewrite connect_run by done.
  specialize (Hn n ([] ++ [Invoke "mongoose" "connect" [uri; options];
    Log "info" [Str "MongoDB connected successfully"]; Listen "mongoose.connection" "error";
    Listen "mongoose.connection" "disconnected"; Listen "process" "SIGINT"]) eq_refl).
  destruct (times n lose_connection o _) as [r h]. destruct Hn as (-> & -> & ->).
  change (count is_reconnector _) with 1. split_and!; [done|lia|lia].
Qed.
End database.

(** ** Express as documented, and the properties at work *)
Definition prefix_of (path : string) (r : request) : bool :=
  String.eqb path "/" || String.eqb path (q_path r) || starts_with (path +:+ "/") (q_path r).

Definition simple_matches (l : layer) (r : request) : bool :=
  match l with
  | Use path _ | Router path _ => prefix_of path r
  | Route method path _ => String.eqb method (q_method r) && String.eqb path (q_path r)
  end.

Fixpoint drop_string (n : nat) (s : string) : string :=
  match n, s with S n, String _ s => drop_string n s | _, _ => s end.

Definition simple_rest (path : string) (r : request) : request :=
  if String.eqb path "/" then r else
  let rest := drop_string (String.length path) (q_path r) in
  {| q_method := q_method r; q_path := if String.eqb rest "" then "/" else rest;
     q_value := q_value r |}.

Definition serve_with (run : layer → request → next_fn → js unit) :=
  fix go (ls : list layer) (r : request) (k : next_fn) : js unit :=
    match ls with
    | [] => k (q_value r) None
    | l :: ls =>
        if simple_matches l r
        then run l r (λ v e,
          match e with None => go ls (with_value r v) k | Some err => k v (Some err) end)
        else go ls r k
    end.

Fixpoint run_layer (l : layer) (r : request) (k : next_fn) : js unit :=
  match l with
  | Use _ f | Route _ _ f => f r k
  | Router path inner => serve_with run_layer inner (simple_rest path r) k
  end.

#[local] Program Instance simple_express : Express := {|
  matches := simple_matches;
  rest_of_path := simple_rest;
  serve := serve_with run_layer
|}.
Next Obligation. done. Qed.
Next Obligation. intros l ls r k Hm. cbn. by rewrite Hm. Qed.
Next Obligation. intros path f ls r k Hm. cbn [serve_with]. by rewrite Hm. Qed.
Next Obligation. intros method path f ls r k Hm. cbn [serve_with]. by rewrite Hm. Qed.
Next Obligation. intros path inner ls r k Hm. cbn [serve_with]. by rewrite Hm. Qed.
Next Obligation. by intros []. Qed.
Next Obligation. done. Qed.
Next Obligation. done. Qed.
Next Obligation. done. Qed.
Next Obligation. intros path r. unfold simple_rest. by destruct (String.eqb path "/"). Qed.
Next Obligation. intros path r v. unfold simple_rest. by destruct (String.eqb path "/"). Qed.

(** Packages that all call [next()], and what they do with a request. *)
Definition pass (_ : string) : handler := λ r next, next (q_value r) None.

Lemma pass_through o r h :
  let_through (H := simple_express) o (before_routes pass) r h (q_value r) h.
Proof.
  assert (Hpass : ∀ ls r, (∀ l, l ∈ ls → ∃ path name, l = Use path (pass name)) →
    let_through (H := simple_express) o ls r h (q_value r) h).
  { intros ls. induction ls as [|l ls IH]; intros r' Hls; [apply through_none|].
    destruct (Hls l) as (path & name & ->); [by left|].
    assert (IH' : let_through (H := simple_express) o ls r' h (q_value r') h).
    { apply IH. intros l Hl. apply Hls. by right. }
    destruct (matches (Express := simple_express) (Use path (pass name)) r') eqn:Hm;
      [|by apply through_other].
    eapply (through_use (H := simple_express) o _ _ _ _ h (q_value r') []); [done|done|..].
    - intros next. by rewrite app_nil_r.
    - rewrite app_nil_r. by destruct r'. }
  apply Hpass. intros l Hl. unfold before_routes in Hl. rewrite !elem_of_cons, elem_of_nil in Hl.
  destruct_or?; subst; eauto.
Qed.

Lemma unknown_path_answered_witness :
  let r := {| q_method := "GET"; q_path := "/api/v1/nfts"; q_value := Obj [] |} in
  app Undef (λ _, Undef) (λ _ _, Undef) pass app_not_found r (λ _ _, Ok Undef) [] =
  (Ok tt, [Respond (int 404) (Obj [("error", Str "Not Found")])]).
Proof.
  intros r.
  destruct (unknown_path_answered Undef (λ _, Undef) (λ _ _, Undef) pass r
    app_not_found (λ _ _, Ok Undef) [] (Obj []) [] (pass_through _ r [])) as [_ H].
  by apply H.
Defined.

Lemma listeners_double_witness :
  let '(r, h) := (connect (λ _, Undef);; times 5 (lose_connection (λ _, Undef)))
                   (λ _ _, Ok Undef) [] in
  r = Ok tt ∧ count is_reconnector h = 32 ∧ count is_connection h = 32.
Proof. by apply (listeners_double (λ _, Undef) (λ _ _, Ok Undef) 5). Defined.

(** The server cannot be started: a module its routes require is missing. *)
Lemma server_never_loads :
  load repository 10 "src/server" =
    Some (Err (Error_ "Cannot find module 'src/routes/api/v1/auth.route'")).
Proof. reflexivity. Qed.
