(* ===== verification/Requests.v ===== *)
(** * A request from end to end

    The layers of App, the collection handlers, the services and the error
    middleware together: every request that reaches the application is answered
    exactly once, whatever the chain and the database do, and a refused body is
    answered with what the validation said. *)

From stdpp Require Import base list strings numbers.
From Stdlib Require Import ZArith Lia Ascii.
From S2P Require Import Prelude Js ErrorMiddleware Validation CollectionService Config App.

(** ** The error middleware on errors that are not the database's *)
Definition answerable (err : jsval) : Prop :=
  ∃ fields, err = Obj fields ∧
    is_int (default Undef (assoc "code" fields)) 11000 = false ∧
    is_str (default Undef (assoc "name" fields)) "ValidationError" = false.

Lemma answerable_TypeError s : answerable (TypeError s).
Proof. eexists. split; [reflexivity|]. by vm_compute. Qed.

Lemma answerable_AppError stack code message op :
  answerable (new_AppError stack code message op).
Proof. eexists. split; [reflexivity|]. by split_and!. Qed.
#[export] Hint Resolve answerable_TypeError answerable_AppError : js_throws.

Lemma client_error_answerable stack fields :
  is_int (default Undef (assoc "code" fields)) 11000 = false →
  is_str (default Undef (assoc "name" fields)) "ValidationError" = false →
  ∃ fields', client_error stack (Obj fields) = Ok (Obj fields').
Proof.
  intros Hc Hn. unfold client_error, on_validation, on_duplicate, on_token, on_expired. cbn.
  rewrite Hn. cbn. rewrite Hc. cbn. case_match; cbn; [by eexists|].
  case_match; by eexists.
Qed.

(** The two environments in which errors are answered. *)
Definition deployed_env (node_env : jsval) : Prop :=
  node_env = Str "development" ∨ node_env = Str "production".

(** [m] completes and responds once. *)
Definition answered (m : js unit) (o : oracle) (h : list event) : Prop :=
  ∃ tr, m o h = (Ok tt, h ++ tr) ∧ count is_respond tr = 1.

Lemma answered_after m m' o h tr :
  m o h = m' o (h ++ tr) → count is_respond tr = 0 → answered m' o (h ++ tr) → answered m o h.
Proof.
  intros E Hc (tr' & E' & Hc'). exists (tr ++ tr').
  rewrite E, E', app_assoc, count_app, Hc, Hc'. by split.
Qed.

Lemma error_answered stack node_env err req o h :
  deployed_env node_env → answerable err → request_ok req →
  answered (errorMiddleware stack node_env err req) o h.
Proof.
  intros Hn (fields & -> & Hcode & Hname) Hr. unfold answered, errorMiddleware.
  destruct (with_defaults_obj fields) as (fields' & E & Hk & _).
  rewrite <- (Hk "code") in Hcode by done. rewrite <- (Hk "name") in Hname by done.
  destruct (log_entry_ok fields' req Hr) as [entry He].
  destruct (client_error_answerable stack fields' Hcode Hname) as [fields'' Hce].
  run_js. rewrite E, He, Hce.
  destruct Hn as [-> | ->]; cbn; unfold sendErrorDev, sendErrorProd; run_js; cbn.
  - eexists. rewrite <- app_assoc. by split.
  - destruct (truthy _); cbn; eexists; rewrite <- !app_assoc; by split.
Qed.

(** In production an AppError is logged and shown. *)
Lemma AppError_shown stack code message req o h :
  truthy (int code) = true → message ≠ "" → request_ok req →
  ∃ entry, errorMiddleware stack (Str "production") (new_AppError stack code message true) req o h =
    (Ok tt, h ++ [Log "error" [entry];
                  Respond (int code) (Obj [("status", Str "error"); ("message", Str message)])]).
Proof.
  intros Hc Hm Hr. assert (Ht : truthy (Str message) = true) by (by destruct message).
  assert (Hd : with_defaults (new_AppError stack code message true) =
               Ok (new_AppError stack code message true)).
  { unfold with_defaults. cbn -[truthy]. unfold or_else. by rewrite Hc, Ht. }
  unfold errorMiddleware. run_js. rewrite Hd.
  destruct (log_entry_ok [("name", Str "Error"); ("message", Str message);
    ("statusCode", int code); ("isOperational", Bool true); ("stack", stack)] req Hr) as [entry He].
  exists entry. unfold new_AppError. rewrite He, client_error_plain by done.
  cbn. unfold sendErrorProd. run_js. cbn. by rewrite <- app_assoc.
Qed.

(** ** Handlers

    A handler of the repository: a body that responds once when it ends well,
    in a [try] that gives what it throws to [next]. *)
Definition is_next (e : event) : bool := match e with Next _ => true | _ => false end.

Record handler_body (m : js unit) : Prop := {
  hb_responds : spends is_respond m 1 0;
  hb_silent : spends is_next m 0 0;
  hb_throws : throws answerable m
}.

Lemma last_not_next tr h :
  count is_next tr = 0 → tr ≠ [] →
  ∀ e, (h ++ tr) !! (length (h ++ tr) - 1) ≠ Some (Next e).
Proof.
  intros Hc Hne e Hl. destruct (exists_last Hne) as (tr' & x & ->).
  rewrite count_app, count_one in Hc.
  rewrite app_assoc, length_app, Nat.add_sub in Hl. cbn in Hl.
  rewrite lookup_app_r, Nat.sub_diag in Hl by done. injection Hl as ->. cbn in Hc. lia.
Qed.

(** A handler and the error middleware answer once between them. *)
Lemma handler_answers m v (next : next_fn) o h :
  handler_body m → rejects_objects o →
  (∀ err h, answerable err → answered (next v (Some err)) o h) →
  answered (with_next (try_catch m (λ error, note (Next (Some error)))) v next) o h.
Proof.
  intros [Hr Hs Ht] Ho Hnext. unfold answered, with_next, try_catch.
  destruct (Hr o h) as (tr & E & Hc). destruct (Hs o h) as (tr' & E' & Hc').
  rewrite E in E'. apply app_inv_head in E' as <-. specialize (Ht o h).
  destruct (m o h) as [[[]|err] h1] eqn:Hm; cbn in *; subst h1.
  - exists tr. split; [|done].
    assert (Hne : tr ≠ []) by (intros ->; done).
    pose proof (last_not_next tr h Hc' Hne) as Hl.
    destruct (_ !! _) as [e|] eqn:El; [|done]. destruct e; try done.
    exfalso. by eapply Hl.
  - rewrite length_app, Nat.add_sub, lookup_app_r, Nat.sub_diag by done. cbn.
    destruct (Hnext err ((h ++ tr) ++ [Next (Some err)])) as (tr2 & -> & Hc2).
    { by eapply Ht. }
    eexists. rewrite <- !app_assoc. split; [reflexivity|].
    rewrite !count_app, Hc, Hc2. done.
Qed.

(** ** The collection handlers *)
Section collection.
Variable stack : jsval.
Variable env : string → jsval.
Variable joi_validate : joi_schema → jsval → jsval.

Lemma spends_find p logs :
  (∀ e, is_parse e = true → p e = false) → spends p (find_event logs) 0 0.
Proof. apply spends_find_event. Qed.

Lemma parse_not_respond e : is_parse e = true → is_respond e = false.
Proof. by destruct e. Qed.
Lemma parse_not_next e : is_parse e = true → is_next e = false.
Proof. by destruct e. Qed.
#[local] Hint Resolve parse_not_respond parse_not_next : js_count.
#[local] Hint Resolve spends_find : js_count.

Lemma wrap_error_counts p {A} prefix e : spends p (wrap_error stack prefix e : js A) 0 0.
Proof. unfold wrap_error. count_js. Qed.
#[local] Hint Resolve wrap_error_counts : js_count.

Lemma service_counts p data user query :
  p = is_respond ∨ p = is_next →
  spends p (createCollection stack env data user) 0 0 ∧
  spends p (getAllCollections stack query) 0 0.
Proof.
  intros [-> | ->]; (split; apply (spends_try _ _ _ 0 0 0); [|count_js|..]);
    unfold create_and_save; count_js.
Qed.

Lemma service_throws data user query :
  throws answerable (createCollection stack env data user) ∧
  throws answerable (getAllCollections stack query).
Proof.
  split; apply (throws_try _ _ _ is_object);
    try apply create_and_save_throws; try (by throws_js);
    intros e _; unfold wrap_error; throws_js.
Qed.

Lemma first_detail_throws error : throws answerable (pure (first_detail error)).
Proof.
  apply throws_pure. intros x H. enough (∃ s, x = TypeError s) as [s ->] by auto with js_throws.
  unfold first_detail in H.
  destruct (prop error "details") as [details|y] eqn:E; cbn in H.
  - destruct details; try (injection H as <-; by eexists); by eapply prop_Err.
  - injection H as <-. by eapply prop_Err.
Qed.
#[local] Hint Resolve first_detail_throws : js_throws.

Lemma create_request_ok req : handler_body (create_request stack env joi_validate req).
Proof.
  split; unfold create_request.
  - pose proof (λ d u, proj1 (service_counts is_respond d u Undef (or_introl eq_refl))). count_js.
  - pose proof (λ d u, proj1 (service_counts is_next d u Undef (or_intror eq_refl))). count_js.
  - pose proof (λ d u, proj1 (service_throws d u Undef)). unfold AppError. throws_js.
Qed.

Lemma list_request_ok req : handler_body (list_request stack req).
Proof.
  split; unfold list_request.
  - pose proof (λ q, proj2 (service_counts is_respond Undef Undef q (or_introl eq_refl))). count_js.
  - pose proof (λ q, proj2 (service_counts is_next Undef Undef q (or_intror eq_refl))). count_js.
  - pose proof (λ q, proj2 (service_throws Undef Undef q)). throws_js.
Qed.
End collection.

(** ** Packages

    What Express documents of a middleware: it ends the request by answering it,
    or calls [next()], or [next(err)].  The request object it leaves is still one,
    and the errors it gives are not the database's. *)
Inductive conduct (f : handler) (r : request) (o : oracle) (h : list event) : Prop :=
| answers tr :
    count is_respond tr = 1 → (∀ next, f r next o h = (Ok tt, h ++ tr)) → conduct f r o h
| passes tr v :
    count is_respond tr = 0 → request_ok v →
    (∀ next, f r next o h = next v None o (h ++ tr)) → conduct f r o h
| refuses tr v err :
    count is_respond tr = 0 → request_ok v → answerable err →
    (∀ next, f r next o h = next v (Some err) o (h ++ tr)) → conduct f r o h.

Lemma conduct_answered f r next o h :
  conduct f r o h →
  (∀ v h, request_ok v → answered (next v None) o h) →
  (∀ v err h, request_ok v → answerable err → answered (next v (Some err)) o h) →
  answered (f r next) o h.
Proof.
  intros [tr Hc Hf|tr v Hc Hv Hf|tr v err Hc Hv He Hf] Hnone Hsome.
  - by exists tr.
  - eapply answered_after; [apply Hf|done|by apply Hnone].
  - eapply answered_after; [apply Hf|done|by apply Hsome].
Qed.

(** ** The application *)
Section requests.
Context `{Express}.
Variable stack : jsval.
Variable env : string → jsval.
Variable joi_validate : joi_schema → jsval → jsval.
Variable package : string → handler.

Abbreviation app := (app stack env joi_validate package).
Abbreviation collection_route := (collection_route stack env joi_validate package).
Abbreviation routes := (routes stack env joi_validate package).

(** What goes to the error middleware. *)
Definition at_end (g : handler) : next_fn := λ v e,
  match e with
  | Some error => errorMiddleware stack (env "NODE_ENV") error v
  | None => mret tt
  end.

(** Requests under the collections. *)
Lemma collections_route r k :
  matches (Route "GET" "/health" health) r = false →
  matches (Router "/api/v1/collections" collection_route) r = true →
  serve routes r k =
  serve collection_route (rest_of_path "/api/v1/collections" r) (λ v e,
    match e with
    | None => serve [Use "/" routes_not_found] (with_value r v) k
    | Some err => k v (Some err)
    end).
Proof.
  intros Hh Hc. unfold App.routes. by rewrite (serve_skip (Route _ _ _)), serve_router by done.
Qed.

Section any_package.
Hypothesis packages_conduct : ∀ name r o h,
  request_ok (q_value r) → rejects_objects o → conduct (package name) r o h.

(** The layers of packages before the rest. *)
Lemma packages_answered ls rest r k o h :
  (∀ l, l ∈ ls → ∃ path name, l = Use path (package name)) →
  request_ok (q_value r) → rejects_objects o →
  (∀ v h, request_ok v → answered (serve rest (with_value r v) k) o h) →
  (∀ v err h, request_ok v → answerable err → answered (k v (Some err)) o h) →
  answered (serve (ls ++ rest) r k) o h.
Proof.
  intros Hls Hr Ho Hrest Hk. revert r h Hr Hrest. induction ls as [|l ls IH]; intros r h Hr Hrest.
  { destruct r as [m p v]. by apply (Hrest v). }
  assert (Htail : ∀ l, l ∈ ls → ∃ path name, l = Use path (package name)).
  { intros l' Hl. apply Hls. by right. }
  destruct (Hls l) as (path & name & ->); [by left|]. cbn.
  destruct (matches (Use path (package name)) r) eqn:Hm; [|rewrite serve_skip by done; by apply IH].
  rewrite serve_use by done. apply conduct_answered; [by apply packages_conduct|..].
  - intros v h' Hv. apply IH; [done|done|]. intros v' h2 Hv'. by apply Hrest.
  - intros v err h' Hv He. by apply Hk.
Qed.

(** The routes answer what reaches them. *)
Lemma routes_answered r k o h :
  request_ok (q_value r) → rejects_objects o →
  (∀ v err h, request_ok v → answerable err → answered (k v (Some err)) o h) →
  answered (serve routes r k) o h.
Proof.
  intros Hr Ho Hk.
  assert (H404 : ∀ r h, answered (serve [Use "/" routes_not_found] r k) o h).
  { intros r' h'. rewrite routes_404. by eexists. }
  destruct (matches (Route "GET" "/health" health) r) eqn:Hh.
  { unfold App.routes. rewrite serve_route by done. by eexists. }
  destruct (matches (Router "/api/v1/collections" collection_route) r) eqn:Hc.
  2: { unfold App.routes. rewrite (serve_skip (Route _ _ _)), (serve_skip (Router _ _)) by done.
       apply H404. }
  rewrite collections_route by done. unfold App.collection_route.
  set (r' := rest_of_path _ r).
  assert (Hr' : request_ok (q_value r')) by (unfold r'; by rewrite rest_of_value).
  match goal with |- context [serve (?post :: ?get :: []) r' _] =>
    destruct (matches post r') eqn:Hpost; [|destruct (matches get r') eqn:Hget] end.
  - rewrite serve_route by done. apply conduct_answered; [by apply packages_conduct|..].
    + intros v h' Hv. apply handler_answers; [apply create_request_ok|done|].
      intros err h2 He. by apply Hk.
    + intros v err h' Hv He. by apply Hk.
  - rewrite (serve_skip (Route "POST" _ _)), serve_route by done.
    apply handler_answers; [apply (list_request_ok stack env)|done|].
    intros err h' He. by apply Hk.
  - rewrite (serve_skip (Route "POST" _ _)), (serve_skip (Route "GET" _ _)), serve_nil by done.
    apply H404.
Qed.

End any_package.

(** The error Joi gives for the body of a request. *)
Definition refused_with (req : jsval) (message : string) : Prop :=
  ∃ body error, prop req "body" = Ok body ∧
    prop (validateCollection joi_validate body) "error" = Ok error ∧
    truthy error = true ∧ first_detail error = Ok (Str message).

Lemma refused_request req message o h :
  refused_with req message →
  create_request stack env joi_validate req o h =
    (Err (new_AppError stack 400 message true), h).
Proof.
  intros (body & error & Hb & He & Ht & Hd). unfold create_request. run_js.
  by rewrite Hb, He, Ht, Hd.
Qed.

(** C34: in production a collection the validation refuses costs nothing: a
    request to create one that the packages, authentication included, let through
    is answered with status 400 and the first message of the validation, and from
    then on nothing is asked of the chain or of the database.  ([v] is the request
    object the packages leave, with the body parsed, and [v2] the one
    authentication leaves.) *)
Theorem refused_collection_answered r g o h v h1 v2 tr2 message :
  env "NODE_ENV" = Str "production" →
  matches (Route "GET" "/health" health) r = false →
  matches (Router "/api/v1/collections" collection_route) r = true →
  (∀ f, matches (Route "POST" "/" f) (rest_of_path "/api/v1/collections" r) = true) →
  let_through o (before_routes package) r h v h1 →
  count is_respond tr2 = 0 →
  (∀ next, package "authenticate" (rest_of_path "/api/v1/collections" (with_value r v)) next o h1 =
     next v2 None o (h1 ++ tr2)) →
  request_ok v2 → refused_with v2 message → message ≠ "" →
  ∃ tr1 tr, h1 ++ tr2 = h ++ tr1 ∧ count is_respond tr1 = 0 ∧
    app g r o h = (Ok tt, (h ++ tr1) ++ tr) ∧
    responses tr = [Respond (int 400) (Obj [("status", Str "error"); ("message", Str message)])] ∧
    ∀ object method args, Invoke object method args ∉ tr.
Proof.
  intros Hn Hh Hc Hp Hthrough Hc2 Hauth Hr Hb Hm.
  destruct (let_through_silent _ _ _ _ _ _ Hthrough) as (tr1 & -> & Hc1).
  exists (tr1 ++ tr2). rewrite count_app, Hc1, Hc2, <- app_assoc.
  assert (∃ tr, app g r o h = (Ok tt, ((h ++ tr1) ++ tr2) ++ tr) ∧
    responses tr = [Respond (int 400) (Obj [("status", Str "error"); ("message", Str message)])] ∧
    ∀ object method args, Invoke object method args ∉ tr) as (tr & E & Htr & Hinv);
    [|exists tr; by rewrite <- !app_assoc in *].
  unfold App.app, app_layers. rewrite (let_through_serve _ _ _ _ _ _ _ _ Hthrough).
  rewrite serve_router, rest_of_root by apply matches_root_router.
  rewrite collections_route by (by rewrite matches_value).
  unfold App.collection_route. rewrite serve_route by (by rewrite rest_with_value, matches_value).
  rewrite Hauth. unfold with_next, handle_createCollection, try_catch.
  rewrite (refused_request _ message) by done. cbn [note].
  rewrite length_app, Nat.add_sub, lookup_app_r, Nat.sub_diag by done. cbn [lookup list_lookup].
  rewrite Hn. destruct (AppError_shown stack 400 message v2 o
    (((h ++ tr1) ++ tr2) ++ [Next (Some (new_AppError stack 400 message true))]))
    as [entry ->]; [done..|].
  eexists. rewrite <- app_assoc. split; [reflexivity|]. split; [done|].
  intros object method args. cbn. rewrite !elem_of_cons, elem_of_nil. naive_solver.
Qed.
End requests.

(** ** The properties at work *)
(** Packages as deployed: preflights answered, a client over its limit refused
    by an answer, requests without a token refused with an error; the body parsed
    and the user set on the others. *)
Definition deployed (name : string) : handler := λ r next o h,
  if String.eqb name "cors" && String.eqb (q_method r) "OPTIONS" then
    note (Respond (int 204) Undef) o h
  else if String.eqb name "rateLimit" && (100 <? length h) then
    note (Respond (int 429) (Str "Too many requests from this IP, please try again later.")) o h
  else if String.eqb name "swaggerUi.setup" then note (Respond (int 200) (Str "<html>")) o h
  else if String.eqb name "express.json" then
    next (set_prop (q_value r) "body" (Obj [("name", Str "Apes")])) None o h
  else if String.eqb name "authenticate" then
    if truthy (prop_opt (q_value r) "token")
    then next (set_prop (q_value r) "user" (Obj [("address", Str "0xuser")])) None o h
    else next (q_value r) (Some (error_object "JsonWebTokenError" "jwt must be provided")) o h
  else next (q_value r) None o h.

Lemma request_ok_set v k x : request_ok v → k ≠ "user" → request_ok (set_prop v k x).
Proof.
  intros (fields & -> & Hu) Hk. eexists. split; [reflexivity|]. by rewrite assoc_set_ne.
Qed.

(** A branch of [deployed] run by its conditions. *)
#[local] Ltac runs Hnil := intros next; unfold deployed;
  repeat match goal with E : ?b = _ |- context [?b] => rewrite E end;
  first [reflexivity | apply Hnil].

Lemma deployed_conduct name r o h : request_ok (q_value r) → conduct (deployed name) r o h.
Proof.
  intros Hr.
  assert (Hnil : ∀ v e (next : next_fn), next v e o h = next v e o (h ++ [])).
  { intros v e next. by rewrite app_nil_r. }
  destruct (String.eqb name "cors" && String.eqb (q_method r) "OPTIONS") eqn:E1;
    [eapply answers; [|runs Hnil]; done|].
  destruct (String.eqb name "rateLimit" && (100 <? length h)) eqn:E2;
    [eapply answers; [|runs Hnil]; done|].
  destruct (String.eqb name "swaggerUi.setup") eqn:E3; [eapply answers; [|runs Hnil]; done|].
  destruct (String.eqb name "express.json") eqn:E4;
    [eapply (passes _ _ _ _ []); [done| |runs Hnil]; by apply request_ok_set|].
  destruct (String.eqb name "authenticate") eqn:E5;
    [destruct (truthy (prop_opt (q_value r) "token")) eqn:E6|].
  - eapply (passes _ _ _ _ []); [done| |runs Hnil].
    destruct Hr as (fields & -> & _). eexists. split; [reflexivity|]. right. eexists.
    apply assoc_set_eq.
  - eapply (refuses _ _ _ _ []); [done|exact Hr| |runs Hnil].
    eexists. split; [reflexivity|]. by vm_compute.
  - eapply (passes _ _ _ _ []); [done|exact Hr|runs Hnil].
Qed.

Definition production (_ : string) : jsval := Str "production".
(** A validation that finds the symbol missing. *)
Definition complaining (_ : joi_schema) (_ : jsval) : jsval :=
  Obj [("error", Obj [("details",
    Arr [Obj [("message", Str "symbol is required")]])])].
Definition sample_post : request :=
  {| q_method := "POST"; q_path := "/api/v1/collections"; q_value := Obj [("token", Str "jwt")] |}.
Definition sample_parsed : jsval :=
  Obj [("token", Str "jwt"); ("body", Obj [("name", Str "Apes")])].
Definition sample_authenticated : jsval :=
  Obj [("token", Str "jwt"); ("body", Obj [("name", Str "Apes")]);
       ("user", Obj [("address", Str "0xuser")])].

Lemma refusing_objects : rejects_objects refusing.
Proof.
  intros h e x Hx. unfold refusing in Hx.
  destruct (is_save e); [injection Hx as <-; by eexists|].
  unfold working in Hx. destruct e; try done. by repeat case_match.
Qed.

(** Created, refused for want of a token, a preflight, the documentation. *)
Definition sample_requests : list request := [
  sample_post;
  {| q_method := "POST"; q_path := "/api/v1/collections"; q_value := Obj [] |};
  {| q_method := "OPTIONS"; q_path := "/api/v1/collections"; q_value := Obj [] |};
  {| q_method := "GET"; q_path := "/api-docs"; q_value := Obj [] |} ].


Lemma sample_through :
  let_through (H := simple_express) working (before_routes deployed) sample_post [] sample_parsed [].
Proof.
  repeat first
    [ apply (through_none (H := simple_express) working (with_value sample_post sample_parsed))
    | apply (through_other (H := simple_express)); [reflexivity|]
    | eapply (through_use (H := simple_express) working _ _ _ _ _ _ []);
        [reflexivity|done|reflexivity|] ].
Qed.

Lemma refused_collection_answered_witness :
  ∃ tr, app (H := simple_express) Undef production complaining deployed app_not_found sample_post
          working [] = (Ok tt, tr) ∧
    responses tr = [Respond (int 400)
      (Obj [("status", Str "error"); ("message", Str "symbol is required")])].
Proof.
  destruct (refused_collection_answered (H := simple_express) Undef production complaining deployed
    sample_post app_not_found working [] sample_parsed [] sample_authenticated [] "symbol is required")
    as (tr1 & tr & E1 & _ & E & Hr & _); [done|done|done|done|apply sample_through|done|done| | |done|].
  - eexists. split; [reflexivity|]. right. by eexists.
  - exists (Obj [("name", Str "Apes")]).
    exists (Obj [("details", Arr [Obj [("message", Str "symbol is required")]])]).
    by split_and!.
  - destruct tr1; [|done]. by exists tr.
Defined.
