(* ===== verification/Scripts.v ===== *)
(** * Deployment and client scripts

    deploy/01_deploy_marketplace.js, utils/verify.js, scripts/createMarketItem.js,
    scripts/createMarketSale.js and scripts/interact.js.  The client scripts run
    against the chain of [Chain]: a transaction is one call of the chain, a read
    is a view of the contracts. *)

From stdpp Require Import base list gmap strings numbers.
From Stdlib Require Import ZArith Lia Ascii.
From S2P Require Import Prelude Evm Erc721 NFTCollection MarketStorage Marketplace Chain Trace Search.
From S2P Require Import Js.

(** ** deploy/01_deploy_marketplace.js and utils/verify.js *)

(** [e.message.toLowerCase().includes("already verified")]. *)
Definition already_verified (e : jsval) : result jsval bool :=
  message ← prop e "message"; text ← call_toLowerCase message;
  Ok (includes text "already verified").

Definition verify (contractAddress args : jsval) : js unit :=
  note (Console "log" [Str "Verifying contract..."]);;
  try_catch
    (invoke "hre" "run" [Str "verify:verify";
       Obj [("address", contractAddress); ("constructorArguments", args)]];;
     mret tt)
    (λ e,
     done_ ← pure (already_verified e);
     if done_ : bool then note (Console "log" [Str "Already verified!"])
     else note (Console "log" [e])).

(** [network] is hardhat's: its name and its configuration. *)
Definition deploy_marketplace (network_name : string) (network_config : jsval) : js unit :=
  accounts ← invoke "hre" "getNamedAccounts" [];
  deployer ← pure (prop accounts "deployer");
  note (Console "log" [Str "Deploying contracts with account:"; deployer]);;
  confirmations ← pure (prop network_config "blockConfirmations");
  marketplace ← invoke "deployments" "deploy" [Str "NFTMarketplace";
    Obj [("from", deployer); ("args", Arr []); ("log", Bool true);
         ("waitConfirmations", or_else confirmations (int 1))]];
  address ← pure (prop marketplace "address");
  note (Console "log" [Str "NFTMarketplace deployed to:"; address]);;
  if negb (String.eqb network_name "hardhat") && negb (String.eqb network_name "localhost") then
    try_catch
      (invoke "hre" "run" [Str "verify:verify";
         Obj [("address", address); ("constructorArguments", Arr [])]];;
       mret tt)
      (λ error,
       done_ ← pure (already_verified error);
       if done_ : bool then note (Console "log" [Str "Contract already verified!"])
       else note (Console "error" [Str "Error verifying contract:"; error]))
  else mret tt.

(** ** Client scripts

    The chain, and what was printed; neither is undone by an exception. *)
Definition script (A : Type) : Type :=
  World → list event → result jsval A * World * list event.
#[export] Instance script_ret : MRet script := λ A a w out, (Ok a, w, out).
#[export] Instance script_bind : MBind script := λ A B f m w out,
  match m w out with
  | (Ok a, w', out') => f a w' out'
  | (Err e, w', out') => (Err e, w', out')
  end.
Definition fail {A} (e : jsval) : script A := λ w out, (Err e, w, out).
Definition value {A} (r : result jsval A) : script A := λ w out, (r, w, out).
Definition print (args : list jsval) : script unit := λ w out,
  (Ok tt, w, out ++ [Console "log" args]).
Definition try_script {A} (m : script A) (f : jsval → script A) : script A := λ w out,
  match m w out with
  | (Ok a, w', out') => (Ok a, w', out')
  | (Err e, w', out') => f e w' out'
  end.

Definition CALL_EXCEPTION : jsval := error_object "Error" "execution reverted".

Section scripts.
Variable this : address.
Variable create_address : N → address.
Variable accepts_ether : address → bool.
(** The time of the block each transaction is mined in. *)
Variable now : Z.
(** [String(address)], and ethers' [formatEther]. *)
Variable show_address : address → string.
Variable formatEther : Z → string.

Definition shown_address (a : address) : jsval := Str (show_address a).

(** [await (await contract.connect(who).f(..., { value })).wait()]. *)
Definition send (who : address) (v : Z) (f : call) : script unit := λ w out,
  match transact this create_address accepts_ether (Msg who v now) f w with
  | Some w' => (Ok tt, w', out)
  | None => (Err CALL_EXCEPTION, w, out)
  end.

(** A view of the marketplace, and of a collection. *)
Definition view {A} (f : MarketStorage → result evm_error A) : script A := λ w out,
  match f (m_store w) with
  | Ok a => (Ok a, w, out)
  | Err _ => (Err CALL_EXCEPTION, w, out)
  end.
Definition nft_view {A} (c : address) (f : NFTCollection → result evm_error A) : script A :=
  λ w out,
  match view_nft c f (m_env w) with
  | Ok a => (Ok a, w, out)
  | Err _ => (Err CALL_EXCEPTION, w, out)
  end.
Definition has_code_at (c : address) : script bool := λ w out,
  (Ok (code_at this (m_env w) c), w, out).

(** What ethers returns for the structs of the contract. *)
Definition collection_value (c : Collection) : jsval := Obj [
  ("collectionAddress", shown_address (c_collectionAddress c)); ("name", Str (c_name c));
  ("symbol", Str (c_symbol c)); ("category", Str (c_category c));
  ("owner", shown_address (c_owner c)); ("isActive", Bool (c_isActive c));
  ("createdAt", BigInt (c_createdAt c)); ("baseURI", Str (c_baseURI c));
  ("totalSupply", BigInt (c_totalSupply c)) ].
Definition details_value (d : CollectionDetails) : jsval := Obj [
  ("basic", collection_value (d_basic d)); ("floorPrice", BigInt (d_floorPrice d));
  ("totalVolume", BigInt (d_totalVolume d)); ("ownerCount", BigInt (d_ownerCount d)) ].
Definition item_value (i : MarketItem) : jsval := Obj [
  ("tokenId", BigInt (i_tokenId i)); ("nftContract", shown_address (i_nftContract i));
  ("seller", shown_address (i_seller i)); ("owner", shown_address (i_owner i));
  ("price", BigInt (i_price i)); ("isOnSale", Bool (i_isOnSale i));
  ("isAuction", Bool (i_isAuction i)); ("tokenURI", Str (i_tokenURI i)) ].

(** *** scripts/createMarketItem.js and scripts/createMarketSale.js

    ethers resolves an address argument: [resolve] answers the account, or
    throws. *)
Variable resolve : jsval → result jsval address.

(** [collections[collections.length - 1].collectionAddress]. *)
Definition last_collectionAddress (collections : list CollectionDetails) : result jsval jsval :=
  prop (last_of (Arr (details_value <$> collections))) "collectionAddress".

Definition createMarketItem_main (deployer : address) : script unit :=
  print [Str "Creating market item with account:"; shown_address deployer];;
  print [Str "Creating new collection..."];;
  send deployer 0 (ToMarket (CreateCollection "NFT Collection" "MNC"
    "ipfs://QmQ4uN6aPnaMSktcajD1m9U6rnrrgYGVWN6bDi24NXED1p" "Art"));;
  collections ← view fetchCollections;
  collectionAddress ← value (last_collectionAddress collections);
  print [Str "Collection created at:"; collectionAddress];;
  collection ← value (resolve collectionAddress);
  print [Str "Minting NFT..."];;
  send deployer 0 (ToNft collection (Mint deployer "ipfs://your-token-uri"));;
  let tokenId := 1%Z in
  print [Str "Minted NFT with tokenId:"; int tokenId];;
  print [Str "Approving marketplace..."];;
  send deployer 0 (ToNft collection (Approve this tokenId));;
  let price := (10 ^ 17)%Z in
  listingFee ← view (λ s, Ok (listingFee s));
  print [Str "Creating market item..."];;
  send deployer listingFee (ToMarket (CreateMarketItem collection tokenId price));;
  print [Str "Market item created successfully!"];;
  items ← view (λ s, fetchCollectionItems s collection);
  print [Str "Collection items:"; Arr (item_value <$> items)].

Definition createMarketSale_main (buyer : address) : script unit :=
  print [Str "Buyer account:"; shown_address buyer];;
  collections ← view fetchCollections;
  collectionAddress ← value (last_collectionAddress collections);
  print [Str "Collection address:"; collectionAddress];;
  collection ← value (resolve collectionAddress);
  items ← view (λ s, fetchCollectionItems s collection);
  print [Str "Available items in collection:"; Arr (item_value <$> items)].

(** The rest of createMarketSale.js is kept as comments: buying the first item
    of the collection. *)
Definition archived_purchase (buyer : address) (collection : address) (items : list MarketItem)
    (balance : Z) : script unit :=
  match items with
  | [] => print [Str "No items available for sale"]
  | item :: _ =>
      if negb (i_isOnSale item) then print [Str "Item is not for sale"] else
      if (balance <? i_price item)%Z then print [Str "Insufficient balance to buy item"] else
      if bool_decide (i_seller item = buyer) then print [Str "Buyer cannot be the seller"] else
      print [Str "Buying item:"; BigInt (i_tokenId item); Str (formatEther (i_price item));
             shown_address (i_seller item)];;
      print [Str "Creating market sale..."];;
      send buyer (i_price item) (ToMarket (CreateMarketSale collection (i_tokenId item)));;
      print [Str "Market sale completed!"];;
      newOwner ← nft_view collection (λ n, ownerOf (erc721 n) (i_tokenId item));
      print [Str "New owner of token:"; shown_address newOwner];;
      print [Str "Expected owner (buyer):"; shown_address buyer];;
      print [Str "Sale successful:"; Bool (bool_decide (newOwner = buyer))]
  end.

(** *** scripts/interact.js *)
Definition print_collection (d : CollectionDetails) (index : Z) : script unit :=
  print [Str ("Collection " +:+ decimal (index + 1) +:+ ":")];;
  print [Str "- Address:"; shown_address (c_collectionAddress (d_basic d))];;
  print [Str "- Name:"; Str (c_name (d_basic d))];;
  print [Str "- Symbol:"; Str (c_symbol (d_basic d))];;
  print [Str "- Category:"; Str (c_category (d_basic d))];;
  print [Str "- Base URI:"; Str (c_baseURI (d_basic d))];;
  print [Str "- Floor Price:"; Str (formatEther (d_floorPrice d))];;
  print [Str "- Total Volume:"; Str (formatEther (d_totalVolume d))];;
  print [Str "- Owner Count:"; Str (decimal (d_ownerCount d))].

Fixpoint for_each {A} (f : A → Z → script unit) (l : list A) (index : Z) : script unit :=
  match l with
  | [] => mret tt
  | x :: l => f x index;; for_each f l (index + 1)
  end.

Definition print_item (item : MarketItem) (index : Z) : script unit :=
  print [Str ("Item " +:+ decimal (index + 1) +:+ ":")];;
  print [Str "- Token ID:"; Str (decimal (i_tokenId item))];;
  print [Str "- Token Uri:"; Str (i_tokenURI item)];;
  print [Str "- Price:"; Str (formatEther (i_price item))];;
  print [Str "- Seller:"; shown_address (i_seller item)];;
  print [Str "- Is on sale:"; Bool (i_isOnSale item)].

Definition print_purchase (item : MarketItem) (index : Z) : script unit :=
  print [Str ("Purchased Item " +:+ decimal (index + 1) +:+ ":")];;
  print [Str "- Collection Address:"; shown_address (i_nftContract item)];;
  print [Str "- Token ID:"; Str (decimal (i_tokenId item))];;
  print [Str "- Price Paid:"; Str (formatEther (i_price item)); Str "ETH"];;
  print [Str "- Token URI:"; Str (i_tokenURI item)].

Definition test_uri : string := "ipfs://QmQ4uN6aPnaMSktcajD1m9U6rnrrgYGVWN6bDi24NXED1p".
Definition token_uri : string := "ipfs://QmaFuGuPyjK5aB7DK2GpZid4rwPmmvwECEaqyYJkhqNo6B".

(** Two collections, and the lists of them; the last one is worked with. *)
Definition create_and_list (deployer : address) : script address :=
  print [Str "Fetching categories..."];;
  categories ← view (λ s, Ok (getCategories s));
  print [Str "Available categories:"; Arr (Str <$> categories)];;
  print [Str "Creating new collection..."];;
  send deployer 0 (ToMarket (CreateCollection "Test Collection" "TEST" test_uri "Art"));;
  print [Str "Creating second test collection..."];;
  send deployer 0 (ToMarket (CreateCollection "Test Collection 2" "TEST2" test_uri "Gaming"));;
  print [Str "Fetching collections created by deployer..."];;
  userCollections ← view (λ s, fetchUserCreatedCollections s deployer);
  print [Str ("Total collections created by user: "
                +:+ decimal (Z.of_nat (length userCollections)))];;
  print [Str "User Created Collections:"];;
  for_each (λ d i, print_collection d i;;
                   print [Str "- Created At:"; BigInt (c_createdAt (d_basic d))])
    userCollections 0;;
  print [Str "Fetching collections..."];;
  collections ← view fetchCollections;
  print [Str "Total collections found:"; int (Z.of_nat (length collections))];;
  match collections !! (length collections - 1) with
  | None => fail (Error_ "No collections found after creation")
  | Some lastCollection =>
      for_each print_collection collections 0;;
      let collectionAddress := c_collectionAddress (d_basic lastCollection) in
      print [Str "Using collection at address:"; shown_address collectionAddress];;
      code ← has_code_at collectionAddress;
      if code : bool then mret collectionAddress
      else fail (Error_ "No contract found at the collection address")
  end.

(** Two mints, and the comparison of the supplies. *)
Definition mint_two (deployer c : address) : script unit :=
  print [Str "Checking initial total supply..."];;
  initial ← view (λ s, getCollectionDetails s c);
  print [Str "Initial total supply:"; Str (decimal (c_totalSupply initial))];;
  print [Str "Minting first NFT..."];;
  send deployer 0 (ToNft c (Mint deployer token_uri));;
  first ← view (λ s, getCollectionDetails s c);
  print [Str "Total supply after first mint:"; Str (decimal (c_totalSupply first))];;
  print [Str "Minting second NFT..."];;
  send deployer 0 (ToNft c (Mint deployer token_uri));;
  second ← view (λ s, getCollectionDetails s c);
  print [Str "Total supply after second mint:"; Str (decimal (c_totalSupply second))];;
  supply ← nft_view c (λ n, Ok (totalSupply n));
  print [Str "NFT Contract total supply:"; Str (decimal supply)];;
  print [Str "Marketplace collection total supply:"; Str (decimal (c_totalSupply second))];;
  if negb (String.eqb (decimal supply) (decimal (c_totalSupply second)))
  then fail (Error_ "Total supply mismatch between NFT contract and marketplace!")
  else print [Str "Total supply is consistent between NFT contract and marketplace"].

(** Listing the first token and buying it from the second account. *)
Definition list_and_buy (deployer buyer c : address) : script unit :=
  owner1 ← nft_view c (λ n, ownerOf (erc721 n) 1);
  owner2 ← nft_view c (λ n, ownerOf (erc721 n) 2);
  print [Str "First NFT owner:"; shown_address owner1];;
  print [Str "Second NFT owner:"; shown_address owner2];;
  print [Str "Approving marketplace..."];;
  send deployer 0 (ToNft c (Approve this 1));;
  approved ← nft_view c (λ n, getApproved (erc721 n) 1);
  print [Str "Approved address:"; shown_address approved];;
  print [Str "Creating market item..."];;
  listingFee ← view (λ s, Ok (listingFee s));
  print [Str "Listing fee:"; Str (formatEther listingFee); Str "ETH"];;
  send deployer listingFee (ToMarket (CreateMarketItem c 1 (10 ^ 17)));;
  print [Str "Fetching collection items..."];;
  items ← view (λ s, fetchCollectionItems s c);
  print [Str "Market items found:"; int (Z.of_nat (length items))];;
  for_each print_item items 0;;
  print [Str "Making purchase with buyer account..."];;
  send buyer (10 ^ 17) (ToMarket (CreateMarketSale c 1));;
  newOwner ← nft_view c (λ n, ownerOf (erc721 n) 1);
  print [Str "New NFT owner:"; shown_address newOwner];;
  print [Str "Buyer address:"; shown_address buyer];;
  print [Str "Fetching buyer's purchased items..."];;
  purchased ← view (λ s, fetchUserPurchasedItems s buyer);
  print [Str "Total items purchased by buyer:"; int (Z.of_nat (length purchased))];;
  for_each print_purchase purchased 0.

Definition formatSearchResults (results : list SearchResult) : jsval :=
  Arr ((λ r, Obj [("address", shown_address (r_collectionAddress r)); ("name", Str (r_name r));
                  ("symbol", Str (r_symbol r)); ("category", Str (r_category r));
                  ("totalSupply", Str (decimal (r_totalSupply r)));
                  ("floorPrice", Str (formatEther (r_floorPrice r)));
                  ("isActive", Bool (r_isActive r))]) <$> results).

Definition print_error (what : string) (error : jsval) : script unit := λ w out,
  (Ok tt, w, out ++ [Console "error" [Str what]; Console "error" [error]]).

Definition search_tests : script unit :=
  print [Str "=== Testing Search Functionality ==="];;
  print [Str "Testing basic search by name 'Test'..."];;
  basic ← view (λ s, searchCollections s "Test");
  print [Str "Basic search results:"; formatSearchResults basic];;
  all_ ← view (λ s, searchCollections s "");
  print [Str "All collections search results:"; formatSearchResults all_];;
  symbol ← view (λ s, searchCollections s "TEST");
  print [Str "Symbol search results:"; formatSearchResults symbol];;
  try_script
    (allCollections ← view fetchCollections;
     print [Str "Total collections available:"; int (Z.of_nat (length allCollections))];;
     searchResults ← view (λ s, fetchCollectionsByCategory s "Art");
     print [Str "Search results:"; int (Z.of_nat (length searchResults))];;
     (match searchResults with
      | [] => print [Str "No collections found matching the search criteria"]
      | _ => for_each (λ c i, print [Str ("Result " +:+ decimal (i + 1) +:+ ":");
                                     collection_value c]) searchResults 0
      end);;
     artCollections ← view (λ s, fetchCollectionsByCategory s "Art");
     print [Str "Art category collections:"; int (Z.of_nat (length artCollections))];;
     (match artCollections with
      | [] => print [Str "No Art collections found"]
      | _ => for_each (λ c i, print [Str ("Art Collection " +:+ decimal (i + 1) +:+ ":");
                                     Str (c_name c); Str (c_category c);
                                     BigInt (c_totalSupply c)]) artCollections 0
      end))
    (print_error "Error during search testing:").

Definition interact_main (deployer buyer : address) : script unit :=
  print [Str "Interacting with contracts with account:"; shown_address deployer];;
  try_script
    (print [Str "Using marketplace at address:"; shown_address this];;
     c ← create_and_list deployer;
     mint_two deployer c;;
     list_and_buy deployer buyer c;;
     search_tests)
    (print_error "Error during interaction:").
End scripts.
