(* ===== verification/ScriptFacts.v ===== *)
(** * What the client scripts do to the chain *)

From stdpp Require Import base list gmap strings numbers.
From Stdlib Require Import ZArith Lia Ascii.
From S2P Require Import Prelude Evm Erc721 NFTCollection MarketStorage Marketplace Chain Trace ChainFacts.
From S2P Require Import EnvLaws MarketFacts Steps Invariants Money Purchases Safety Sales Supply.
From S2P Require Import Search Js Validation Scripts.

(** ** Runs of scripts *)
Lemma script_bind_inv {A B} (m : script A) (f : A → script B) w out r w' out' :
  (m ≫= f) w out = (r, w', out') →
  (∃ e, m w out = (Err e, w', out') ∧ r = Err e) ∨
  ∃ a w1 out1, m w out = (Ok a, w1, out1) ∧ f a w1 out1 = (r, w', out').
Proof.
  unfold mbind, script_bind. destruct (m w out) as [[[a|e] w1] out1].
  - right. by exists a, w1, out1.
  - intros [= <- <- <-]. left. by exists e.
Qed.

Section facts.
Variable this : address.
Variable create_address : N → address.
Variable accepts_ether : address → bool.
Variable now : Z.
Variable show_address : address → string.
Variable formatEther : Z → string.

Abbreviation reachable := (reachable this create_address accepts_ether).
Abbreviation owner_of := (owner_of this create_address accepts_ether).
Abbreviation send := (send this create_address accepts_ether now).

Lemma send_run who v f w out :
  (∃ w', send who v f w out = (Ok tt, w', out) ∧
     transact this create_address accepts_ether (Msg who v now) f w = Some w') ∨
  send who v f w out = (Err CALL_EXCEPTION, w, out).
Proof.
  unfold Scripts.send. destruct (transact _ _ _ _ _ _) as [w'|]; [left|by right].
  by exists w'.
Qed.

Lemma transact_reachable m f w w' :
  reachable w → transact this create_address accepts_ether m f w = Some w' → reachable w'.
Proof. intros Hr Ht. eapply reachable_evolves; [done|by eapply transact_evolves]. Qed.

(** A view that answers leaves the chain alone. *)
Lemma view_inv {A} (f : MarketStorage → result evm_error A) w out r w' out' :
  view f w out = (r, w', out') → w' = w ∧ out' = out ∧
    match r with Ok a => f (m_store w) = Ok a | Err e => e = CALL_EXCEPTION end.
Proof. unfold view. destruct (f (m_store w)); by intros [= <- <- <-]. Qed.
Lemma nft_view_inv {A} c (f : NFTCollection → result evm_error A) w out r w' out' :
  nft_view c f w out = (r, w', out') → w' = w ∧ out' = out ∧
    match r with Ok a => view_nft c f (m_env w) = Ok a | Err e => e = CALL_EXCEPTION end.
Proof. unfold nft_view. destruct (view_nft c f (m_env w)); by intros [= <- <- <-]. Qed.

(** Statements that can only fail by a refused call of the chain, and keep the
    chain reachable. *)
Definition chain_only {A} (m : script A) : Prop := ∀ w out r w' out',
  reachable w → m w out = (r, w', out') →
  reachable w' ∧ ∀ e, r = Err e → e = CALL_EXCEPTION.

Lemma chain_only_bind {A B} (m : script A) (f : A → script B) :
  chain_only m → (∀ a, chain_only (f a)) → chain_only (m ≫= f).
Proof.
  intros Hm Hf w out r w' out' Hw [(e & H & ->)|(a & w1 & out1 & H & Hf')]%script_bind_inv.
  - destruct (Hm _ _ _ _ _ Hw H) as [? He]. split; [done|]. intros e' [= <-]. by apply He.
  - destruct (Hm _ _ _ _ _ Hw H) as [Hw1 _]. by eapply Hf.
Qed.
Lemma chain_only_print args : chain_only (print args).
Proof. intros w out r w' out' Hw [= <- <- <-]. done. Qed.
Lemma chain_only_send who v f : chain_only (send who v f).
Proof.
  intros w out r w' out' Hw H. destruct (send_run who v f w out) as [(w1 & E & Ht)|E];
    rewrite E in H; injection H as <- <- <-.
  - split; [by eapply transact_reachable|done].
  - split; [done|]. by intros e [= <-].
Qed.
Lemma chain_only_view {A} (f : MarketStorage → result evm_error A) : chain_only (view f).
Proof.
  intros w out r w' out' Hw (-> & _ & Hr)%view_inv. split; [done|]. intros e ->. done.
Qed.

(** The check of scripts/interact.js holds on every reachable chain: minting
    two tokens of a collection and comparing its supply with the marketplace's
    never ends in "Total supply mismatch"; the only error possible is a call
    the chain refuses. *)
Theorem supply_check_passes deployer c w out :
  this ≠ 0%N → reachable w →
  let '(r, w', _) := mint_two this create_address accepts_ether now deployer c w out in
  reachable w' ∧ ∀ e, r = Err e → e = CALL_EXCEPTION.
Proof.
  intros H0 Hw. destruct (mint_two _ _ _ _ _ _ w out) as [[r w'] out'] eqn:Hrun.
  revert w out r w' out' Hw Hrun. fold (chain_only (mint_two this create_address accepts_ether now deployer c)).
  unfold mint_two.
  do 9 (apply chain_only_bind;
    [first [apply chain_only_print|apply chain_only_send|apply chain_only_view]|intros ?]).
  intros w out r w' out' Hw [(e & H & ->)|(d & w1 & out1 & H & Hrun)]%script_bind_inv.
  { apply view_inv in H as (-> & _ & ->). split; [done|]. by intros e [= <-]. }
  apply view_inv in H as (-> & -> & Hd).
  apply script_bind_inv in Hrun as [(e & H & ->)|(u & w1 & out1 & H & Hrun)]; [by injection H|].
  injection H as _ <- <-.
  apply script_bind_inv in Hrun as [(e & H & ->)|(n & w1 & out2 & H & Hrun)].
  { apply nft_view_inv in H as (-> & _ & ->). split; [done|]. by intros e [= <-]. }
  apply nft_view_inv in H as (-> & -> & Hn).
  do 2 (apply script_bind_inv in Hrun as [(e & H & ->)|(? & w1 & ? & H & Hrun)]; [by injection H|];
        injection H as _ <- <-).
  assert (Hsame : n = c_totalSupply d).
  { unfold getCollectionDetails in Hd.
    destruct (c_isActive (collections (m_store w)).[c]) eqn:Ha; [|done]. injection Hd as <-.
    destruct (reachable_inv _ _ _ H0 _ Hw) as [_ Hreg _ _ _].
    assert (Hin : c ∈ collectionAddresses (m_store w)) by by apply (reg_active _ _ Hreg).
    pose proof (reachable_supply this create_address accepts_ether w c H0 Hw Hin) as Hs.
    change (view_nft c (λ n, Ok (totalSupply n)) (m_env w) =
      Ok (c_totalSupply (collections (m_store w)).[c])) in Hs. congruence. }
  rewrite Hsame, String.eqb_refl in Hrun. cbn in Hrun. injection Hrun as <- <- <-. done.
Qed.

Variable resolve : jsval → result jsval address.

(** What creating a collection leaves alone. *)
Lemma transact_create name symbol uri category m w w' :
  this ≠ 0%N → reachable w →
  transact this create_address accepts_ether m
    (ToMarket (CreateCollection name symbol uri category)) w = Some w' →
  (∀ c id, owner_of w' c id = owner_of w c id) ∧
  collectionTokenIds (m_store w') = collectionTokenIds (m_store w) ∧
  length (collectionAddresses (m_store w')) ≤ S (length (collectionAddresses (m_store w))).
Proof.
  intros H0 Hw Ht. unfold transact in Ht. case_decide as Hv; [destruct Hv as [Hv _]|done].
  destruct (exec _ _ _ _ _ _ w) as [[u w1]|] eqn:He; [|done]. injection Ht as ->.
  destruct (reachable_inv _ _ _ H0 _ Hw) as [[Hok _ _] _ _ _ _].
  destruct (market_effect this create_address accepts_ether m
    (CreateCollection name symbol uri category) w u w' Hv Hok He) as [_ (a & _ & _ & Hst & Hown & _)].
  split_and!; [done|by rewrite Hst|]. rewrite Hst. unfold created. cbn.
  rewrite length_app. cbn. lia.
Qed.

(** Scripts/createMarketItem.js never mints nor lists: it reads
    [collectionAddress] from the details of a collection, where it is inside
    [basic], gets undefined, and the library refuses that as an address.  All
    it can leave behind is the new, empty collection; the error is a refused
    call, or the library's. *)
Theorem createMarketItem_stops deployer w out refusal :
  this ≠ 0%N → reachable w → resolve Undef = Err refusal →
  let '(r, w', _) := createMarketItem_main this create_address accepts_ether now show_address
                       resolve deployer w out in
  is_ok r = false ∧
  (∀ c id, owner_of w' c id = owner_of w c id) ∧
  collectionTokenIds (m_store w') = collectionTokenIds (m_store w) ∧
  length (collectionAddresses (m_store w')) ≤ S (length (collectionAddresses (m_store w))).
Proof.
  intros H0 Hw Hres. destruct (createMarketItem_main _ _ _ _ _ _ _ w out) as [[r w'] out'] eqn:H.
  unfold createMarketItem_main in H.
  do 2 (apply script_bind_inv in H as [(e & He & ->)|(? & w1 & out1 & He & H)]; [by injection He|];
        injection He as _ <- <-).
  set (f := ToMarket (CreateCollection _ _ _ _)) in H.
  apply script_bind_inv in H as [(e & He & ->)|(? & w1 & out1 & He & H)].
  { match type of He with send _ _ _ _ ?out1 = _ =>
      destruct (send_run deployer 0 f w out1) as [(w1 & E & _)|E] end;
      rewrite E in He; [discriminate He|].
    injection He as _ <- _. split_and!; [done..|lia]. }
  assert (Hw1 : (∀ c id, owner_of w1 c id = owner_of w c id) ∧
    collectionTokenIds (m_store w1) = collectionTokenIds (m_store w) ∧
    length (collectionAddresses (m_store w1)) ≤ S (length (collectionAddresses (m_store w)))).
  { match type of He with send _ _ _ _ ?out1 = _ =>
      destruct (send_run deployer 0 f w out1) as [(w2 & E & Ht)|E] end;
      rewrite E in He; [|discriminate He]. injection He as _ <- _.
    by apply (transact_create _ _ _ _ _ _ _ H0 Hw Ht). }
  assert (Hend : is_ok r = false ∧ w' = w1); [|destruct Hend as [-> ->]; by destruct Hw1].
  clear Hw1 He. apply script_bind_inv in H as [(e & He & ->)|(cs & w2 & out2 & He & H)].
  { apply view_inv in He as (-> & _). done. }
  apply view_inv in He as (-> & -> & _).
  apply script_bind_inv in H as [(e & He & ->)|(a & w2 & out2 & He & H)]; [by injection He as _ <- _|].
  injection He as Ha <- <-.
  assert (a = Undef) as ->.
  { unfold last_collectionAddress in Ha. cbn in Ha.
    destruct ((details_value show_address <$> cs) !! _) as [d|] eqn:Hd; cbn in Ha; [|done].
    apply list_lookup_fmap_Some in Hd as (d' & -> & _). cbn in Ha. by injection Ha. }
  apply script_bind_inv in H as [(e & He & ->)|(? & w2 & out2 & He & H)]; [by injection He|].
  injection He as _ <- <-.
  apply script_bind_inv in H as [(e & He & ->)|(? & w2 & out2 & He & H)].
  - by injection He as _ <- _.
  - unfold value in He. rewrite Hres in He. discriminate He.
Qed.
End facts.

(** ** The categories of the back end and of the contract *)
Section categories.
Variable this : address.
Variable create_address : N → address.
Variable accepts_ether : address → bool.

(** A collection the back end's validation accepts has a category the
    contract refuses: in every reachable state whose categories are still those
    of the deployment, [createCollection] with that category reverts with
    "Invalid category". *)
Theorem validated_category_refused joi_validate data w m name symbol uri :
  this ≠ 0%N → joi_respects_valid joi_validate →
  truthy (prop_opt (validateCollection joi_validate data) "error") = false →
  reachable this create_address accepts_ether w → getCategories (m_store w) = initial_categories →
  ∃ category, prop data "category" = Ok (Str category) ∧
    market_exec this create_address accepts_ether m (CreateCollection name symbol uri category) w =
      Err (if (msg_value m =? 0)%Z then Revert "Invalid category" else NotPayable).
Proof.
  intros H0 Hj Hv Hr Hc.
  destruct (Hj _ _ Hv "category" {| j_required := true; j_min := None; j_max := None;
    j_valid := ["art"; "gaming"; "music"; "sports"; "photography"]; j_uri := false |})
    as (category & Hp & Hin); [|done..|].
  { unfold collection_schema. rewrite !elem_of_cons. tauto. }
  exists category. split; [done|].
  assert (Hx : (categoryExists (m_store w)).[category] = false).
  { destruct (reachable_inv _ _ _ H0 _ Hr) as [_ Hreg _ _ _].
    pose proof (reg_categories _ _ Hreg category) as Hk.
    change (categories (m_store w) = initial_categories) in Hc. rewrite Hc in Hk.
    destruct ((categoryExists (m_store w)).[category]); [|done].
    assert (Hno : category ∈ initial_categories) by by apply Hk.
    cbn [j_valid] in Hin. revert Hno. unfold initial_categories.
    rewrite !elem_of_cons, elem_of_nil in *.
    intuition (subst; discriminate). }
  unfold market_exec. cbn [payable]. unfold mbind, M_bind, ensure.
  destruct (msg_value m =? 0)%Z; [|done]. cbn [market_body].
  unfold createCollection, store. run_block. by rewrite Hx.
Qed.
End categories.

(** ** The properties at work *)
Section witnesses.
Import demo.

Definition sample_show (a : address) : string := decimal (Z.of_N a).

Lemma supply_check_passes_witness :
  let '(r, w', _) := mint_two this create_address accepts_ether 3000 alice apes w_sold [] in
  Chain.reachable this create_address accepts_ether w' ∧ ∀ e, r = Err e → e = CALL_EXCEPTION.
Proof.
  apply (supply_check_passes this create_address accepts_ether); [done|apply w_sold_reachable].
Defined.

Lemma createMarketItem_stops_witness :
  let '(r, w', _) := createMarketItem_main this create_address accepts_ether 3000 sample_show
    (λ v, match v with Str _ => Ok apes | _ => Err (TypeError "invalid address") end)
    alice w_listed [] in
  is_ok r = false.
Proof.
  pose proof (createMarketItem_stops this create_address accepts_ether 3000 sample_show
    (λ v, match v with Str _ => Ok apes | _ => Err (TypeError "invalid address") end)
    alice w_listed [] (TypeError "invalid address") ltac:(done) w_listed_reachable eq_refl) as H.
  destruct (createMarketItem_main _ _ _ _ _ _ _ _ _) as [[r w'] out]. exact (proj1 H).
Defined.

(** A validator that looks at required and valid keys only. *)
Definition sample_joi (schema : joi_schema) (data : jsval) : jsval :=
  if forallb (λ '(k, f), negb (j_required f) || match j_valid f with [] => true | _ =>
       match prop data k with
       | Ok (Str s) => existsb (String.eqb s) (j_valid f)
       | _ => false
       end end) schema
  then Obj [] else Obj [("error", Obj [])].

Lemma sample_joi_ok : joi_respects_valid sample_joi.
Proof.
  intros schema data H k f Hk Hreq Hne. unfold sample_joi in H.
  destruct (forallb _ schema) eqn:Hall; [|done].
  assert (Hkf := proj1 (forallb_forall _ _) Hall (k, f) (proj1 (list_elem_of_In _ _) Hk)).
  cbn in Hkf. rewrite Hreq in Hkf. cbn in Hkf.
  destruct (j_valid f) as [|v vs] eqn:Hvs; [done|].
  destruct (prop data k) as [[]|]; try done. exists s. split; [done|].
  apply existsb_exists in Hkf as (t & Ht & ->%String.eqb_eq). by apply list_elem_of_In.
Qed.

Lemma validated_category_refused_witness :
  let data := Obj [("name", Str "Apes"); ("symbol", Str "APE"); ("category", Str "art")] in
  ∃ category, prop data "category" = Ok (Str category) ∧
    market_exec this create_address accepts_ether (Msg alice 0 2000)
      (CreateCollection "Apes" "APE" "ipfs://apes" category) deployed =
    Err (Revert "Invalid category").
Proof.
  intros data.
  apply (validated_category_refused this create_address accepts_ether sample_joi data deployed
    (Msg alice 0 2000)); [done|apply sample_joi_ok|reflexivity| |by vm_compute].
  exists deployed. split; [apply deployed_genesis|apply ev_refl].
Defined.

Definition is_error_line (e : event) : bool :=
  match e with Console "error" _ => true | _ => false end.

(** Scripts/interact.js runs to its end on a fresh deployment with two
    funded accounts: nothing is reported as an error, the buyer owns the token
    and it is the one item on the buyer's page, the seller has the price, and
    the marketplace keeps the listing fee. *)
Theorem interact_succeeds :
  let '(r, w, out) := interact_main this create_address accepts_ether 3000 sample_show
                        (λ z, decimal z) alice bob deployed [] in
  r = Ok tt ∧ existsb is_error_line out = false ∧
  Steps.owner_of this create_address accepts_ether w 1002 1 = bob ∧
  (length <$> fetchUserPurchasedItems (m_store w) bob) = Ok 1 ∧
  (e_ether (m_env w)).[alice] = (100 * ether_ - fee + 10 ^ 17)%Z ∧
  (e_ether (m_env w)).[bob] = (100 * ether_ - 10 ^ 17)%Z ∧
  held this w = fee.
Proof. vm_compute. repeat split. Qed.
End witnesses.
