(* ===== verification/Archive.v ===== *)
(** * The archived marketplace contract

    services/nft.service.js, blockchain.service.js and collection.service.js
    carry, commented out below their live code, the auction contract the
    services were written against (the same text in each of them).  This file
    translates it: storage, every external function, and the dispatcher a
    transaction goes through.  The live contract is the one of [Marketplace];
    this one has no other trace in the repository.

    The contract runs in [AM]: its storage, its ether, the ether it has paid
    out and the rest of the chain.  The collection factory and the ERC721
    contracts it calls are not in the repository and are the operations of
    [ArchiveEnv]. *)

From stdpp Require Import base list gmap strings numbers.
From Stdlib Require Import ZArith Lia.
From S2P Require Import Prelude Evm.

(** ** Structs and enums *)
Record MarketItem := {
  itemId : Z;
  nftContract : address;
  tokenId : Z;
  seller : address;
  owner : address;
  price : Z;
  isAuction : bool;
  auctionEndTime : Z;
  highestBidder : address;
  highestBid : Z;
  sold : bool
}.

Record Offer := {
  offer_buyer : address;
  offer_price : Z;
  expirationTime : Z
}.

Inductive PriceActionType := LISTING | SALE | AUCTION_BID | AUCTION_END | OFFER_ACCEPTED.
Inductive SaleType := ALL | FIXED_PRICE | AUCTION.
Inductive SortOrder := PRICE_LOW_TO_HIGH | PRICE_HIGH_TO_LOW | NEWEST_FIRST | OLDEST_FIRST.

Record PriceHistory := {
  h_timestamp : Z;
  h_price : Z;
  h_seller : address;
  h_buyer : address;
  h_actionType : PriceActionType
}.

(** An item nobody created reads as zeros. *)
#[export] Instance MarketItem_zero : SolZero MarketItem :=
  {| itemId := 0; nftContract := 0; tokenId := 0; seller := 0; owner := 0; price := 0;
     isAuction := false; auctionEndTime := 0; highestBidder := 0; highestBid := 0;
     sold := false |}.

Inductive archive_event :=
| MarketItemCreated (id : Z) (contract : address) (token : Z) (seller_ owner_ : address)
    (price_ : Z) (auction : bool) (endTime : Z)
| AuctionBid (id : Z) (bidder : address) (bid : Z)
| AuctionEnded (id : Z) (winner : address) (amount : Z)
| OfferCreated (id : Z) (buyer : address) (price_ expiration : Z)
| OfferAccepted (id : Z) (buyer : address) (price_ : Z).

(** ** Constants and storage *)
Definition AUCTION_DURATION : Z := 7 * 24 * 60 * 60.
Definition MIN_AUCTION_INCREMENT : Z := 10 ^ 16.
Definition LISTING_PRICE : Z := 5 * 10 ^ 14.

Record Storage := {
  contract_owner : address;
  entered : bool;
  factoryAddress : address;
  _itemIds : Z;
  _itemsSold : Z;
  _idToMarketItem : gmap Z MarketItem;
  _auctionPendingReturns : gmap (Z * address) Z;
  _itemOffers : gmap Z (list Offer);
  _itemPriceHistory : gmap Z (list PriceHistory)
}.

Definition set_contract_owner (v : address) (s : Storage) : Storage :=
  {| contract_owner := v; entered := entered s; factoryAddress := factoryAddress s;
     _itemIds := _itemIds s; _itemsSold := _itemsSold s;
     _idToMarketItem := _idToMarketItem s;
     _auctionPendingReturns := _auctionPendingReturns s; _itemOffers := _itemOffers s;
     _itemPriceHistory := _itemPriceHistory s |}.
Definition set_entered (v : bool) (s : Storage) : Storage :=
  {| contract_owner := contract_owner s; entered := v; factoryAddress := factoryAddress s;
     _itemIds := _itemIds s; _itemsSold := _itemsSold s;
     _idToMarketItem := _idToMarketItem s;
     _auctionPendingReturns := _auctionPendingReturns s; _itemOffers := _itemOffers s;
     _itemPriceHistory := _itemPriceHistory s |}.
Definition set_itemIds (v : Z) (s : Storage) : Storage :=
  {| contract_owner := contract_owner s; entered := entered s;
     factoryAddress := factoryAddress s;
     _itemIds := v; _itemsSold := _itemsSold s; _idToMarketItem := _idToMarketItem s;
     _auctionPendingReturns := _auctionPendingReturns s; _itemOffers := _itemOffers s;
     _itemPriceHistory := _itemPriceHistory s |}.
Definition set_itemsSold (v : Z) (s : Storage) : Storage :=
  {| contract_owner := contract_owner s; entered := entered s;
     factoryAddress := factoryAddress s;
     _itemIds := _itemIds s; _itemsSold := v; _idToMarketItem := _idToMarketItem s;
     _auctionPendingReturns := _auctionPendingReturns s; _itemOffers := _itemOffers s;
     _itemPriceHistory := _itemPriceHistory s |}.
Definition set_item (id : Z) (v : MarketItem) (s : Storage) : Storage :=
  {| contract_owner := contract_owner s; entered := entered s;
     factoryAddress := factoryAddress s;
     _itemIds := _itemIds s; _itemsSold := _itemsSold s;
     _idToMarketItem := <[id := v]> (_idToMarketItem s);
     _auctionPendingReturns := _auctionPendingReturns s; _itemOffers := _itemOffers s;
     _itemPriceHistory := _itemPriceHistory s |}.
Definition set_pending (id : Z) (a : address) (v : Z) (s : Storage) : Storage :=
  {| contract_owner := contract_owner s; entered := entered s;
     factoryAddress := factoryAddress s;
     _itemIds := _itemIds s; _itemsSold := _itemsSold s;
     _idToMarketItem := _idToMarketItem s;
     _auctionPendingReturns := <[(id, a) := v]> (_auctionPendingReturns s);
     _itemOffers := _itemOffers s; _itemPriceHistory := _itemPriceHistory s |}.
Definition push_offer (id : Z) (o : Offer) (s : Storage) : Storage :=
  {| contract_owner := contract_owner s; entered := entered s;
     factoryAddress := factoryAddress s;
     _itemIds := _itemIds s; _itemsSold := _itemsSold s;
     _idToMarketItem := _idToMarketItem s;
     _auctionPendingReturns := _auctionPendingReturns s;
     _itemOffers := <[id := (_itemOffers s).[id] ++ [o]]> (_itemOffers s);
     _itemPriceHistory := _itemPriceHistory s |}.
Definition push_history (id : Z) (h : PriceHistory) (s : Storage) : Storage :=
  {| contract_owner := contract_owner s; entered := entered s;
     factoryAddress := factoryAddress s;
     _itemIds := _itemIds s; _itemsSold := _itemsSold s;
     _idToMarketItem := _idToMarketItem s;
     _auctionPendingReturns := _auctionPendingReturns s; _itemOffers := _itemOffers s;
     _itemPriceHistory :=
       <[id := (_itemPriceHistory s).[id] ++ [h]]> (_itemPriceHistory s) |}.

(** Writes through a [MarketItem storage] pointer. *)
Definition with_sale (buyer : address) (i : MarketItem) : MarketItem :=
  {| itemId := itemId i; nftContract := nftContract i; tokenId := tokenId i;
     seller := seller i; owner := buyer; price := price i; isAuction := isAuction i;
     auctionEndTime := auctionEndTime i; highestBidder := highestBidder i;
     highestBid := highestBid i; sold := true |}.
Definition with_bid (bidder : address) (bid : Z) (i : MarketItem) : MarketItem :=
  {| itemId := itemId i; nftContract := nftContract i; tokenId := tokenId i;
     seller := seller i; owner := owner i; price := price i; isAuction := isAuction i;
     auctionEndTime := auctionEndTime i; highestBidder := bidder; highestBid := bid;
     sold := sold i |}.

(** ** The rest of the chain *)
Class ArchiveEnv (E : Type) := {
  (** [factory.collections(collection)]: the third component, [nftContract] *)
  factory_collections : E → address → address → result evm_error address;
  (** [factory.updateCollectionStats(collection, price, isSale)] *)
  factory_updateCollectionStats : address → address → Z → bool → M evm_error E unit;
  (** [IERC721(contract).transferFrom(from, to, tokenId)] sent by the marketplace *)
  erc721_transferFrom : address → address → address → Z → M evm_error E unit;
  (** whether the account takes ether sent with [transfer] *)
  receives : E → address → bool
}.

Record AState (E : Type) := {
  a_store : Storage;
  a_balance : Z;                       (* the ether the contract holds *)
  a_paid : list (address * Z);         (* the transfers it has made *)
  a_env : E;
  a_logs : list archive_event
}.
Arguments a_store {_} _.
Arguments a_balance {_} _.
Arguments a_paid {_} _.
Arguments a_env {_} _.
Arguments a_logs {_} _.
Arguments Build_AState {_} _ _ _ _ _.

(** ** Operations *)
Section operations.
Context {E : Type} `{!ArchiveEnv E}.
(** The address the contract is deployed at. *)
Variable this : address.

Definition AM := M evm_error (AState E).

Definition store {A} (f : Storage → A) : AM A := gets (λ s, f (a_store s)).
Definition update (f : Storage → Storage) : AM unit :=
  modify (λ s, Build_AState (f (a_store s)) (a_balance s) (a_paid s) (a_env s) (a_logs s)).
Definition emit (e : archive_event) : AM unit :=
  modify (λ s, Build_AState (a_store s) (a_balance s) (a_paid s) (a_env s) (a_logs s ++ [e])).
Definition external {A} (m : M evm_error E A) : AM A := λ s,
  match m (a_env s) with
  | Ok (a, e) => Ok (a, Build_AState (a_store s) (a_balance s) (a_paid s) e (a_logs s))
  | Err x => Err x
  end.
Definition external_view {A} (f : E → result evm_error A) : AM A := λ s,
  match f (a_env s) with Ok a => Ok (a, s) | Err x => Err x end.

(** [payable(to).transfer(amount)]. *)
Definition transfer (to : address) (amount : Z) : AM unit := λ s,
  if (amount <=? a_balance s)%Z && receives (a_env s) to then
    Ok (tt, Build_AState (a_store s) (a_balance s - amount) (a_paid s ++ [(to, amount)])
              (a_env s) (a_logs s))
  else Err (SendFailed to).

Definition nonReentrant {A} (body : AM A) : AM A :=
  e ← store entered;
  ensure (negb e) ReentrancyGuardReentrantCall;;
  update (set_entered true);;
  r ← body;
  update (set_entered false);;
  mret r.

(** A payable function keeps [msg.value]; any other refuses it. *)
Definition payable {A} (m : msg) (body : AM A) : AM A :=
  modify (λ s, Build_AState (a_store s) (a_balance s + msg_value m) (a_paid s)
                 (a_env s) (a_logs s));;
  body.
Definition nonpayable {A} (m : msg) (body : AM A) : AM A :=
  ensure (msg_value m =? 0)%Z NotPayable;; body.

Definition item_at (s : Storage) (id : Z) : MarketItem := (_idToMarketItem s).[id].

Definition init (deployer factory : address) : Storage :=
  {| contract_owner := deployer; entered := false; factoryAddress := factory;
     _itemIds := 0; _itemsSold := 0; _idToMarketItem := ∅; _auctionPendingReturns := ∅;
     _itemOffers := ∅; _itemPriceHistory := ∅ |}.

Definition _addPriceHistory (m : msg) (id price_ : Z) (seller_ buyer : address)
    (actionType : PriceActionType) : AM unit :=
  update (push_history id
    {| h_timestamp := block_timestamp m; h_price := price_; h_seller := seller_;
       h_buyer := buyer; h_actionType := actionType |}).

(** [uint256 itemId = _itemIds++] and [_itemsSold++]. *)
Definition next_itemId : AM Z :=
  id ← store _itemIds;
  n ← checked_add id 1;
  update (set_itemIds n);;
  mret id.
Definition count_sold : AM unit :=
  n ← store _itemsSold;
  n' ← checked_add n 1;
  update (set_itemsSold n').

Definition createMarketItem (m : msg) (collectionAddress : address) (token price_ : Z)
    : AM unit :=
  payable m (nonReentrant (
    ensure (0 <? price_)%Z (Revert "Price must be greater than 0");;
    ensure (msg_value m =? LISTING_PRICE)%Z (Revert "Must pay listing price");;
    factory ← store factoryAddress;
    contract ← external_view (λ e, factory_collections e factory collectionAddress);
    ensure (bool_decide (contract ≠ 0%N)) (Revert "Collection does not exist");;
    id ← next_itemId;
    update (set_item id
      {| itemId := id; nftContract := collectionAddress; tokenId := token;
         seller := msg_sender m; owner := 0; price := price_; isAuction := false;
         auctionEndTime := 0; highestBidder := 0; highestBid := 0; sold := false |});;
    external (erc721_transferFrom collectionAddress (msg_sender m) this token);;
    external (factory_updateCollectionStats factory collectionAddress price_ false);;
    _addPriceHistory m id price_ (msg_sender m) 0 LISTING;;
    emit (MarketItemCreated id contract token (msg_sender m) 0%N price_ false 0))).

Definition getListingPrice : Z := LISTING_PRICE.

Definition createMarketSale (m : msg) (collectionAddress : address) (id : Z) : AM unit :=
  payable m (nonReentrant (
    item ← store (λ s, item_at s id);
    ensure (negb (isAuction item)) (Revert "Cannot buy auction items directly");;
    ensure (msg_value m =? price item)%Z (Revert "Please submit the asking price");;
    ensure (negb (sold item)) (Revert "Item already sold");;
    transfer (seller item) (msg_value m);;
    external (erc721_transferFrom collectionAddress this (msg_sender m) (tokenId item));;
    update (set_item id (with_sale (msg_sender m) item));;
    count_sold;;
    factory ← store factoryAddress;
    external (factory_updateCollectionStats factory collectionAddress (price item) true);;
    _addPriceHistory m id (price item) (seller item) (msg_sender m) SALE;;
    o ← store contract_owner;
    transfer o LISTING_PRICE)).

Definition createAuction (m : msg) (contract : address) (token startingPrice : Z) : AM unit :=
  payable m (nonReentrant (
    ensure (0 <? startingPrice)%Z (Revert "Starting price must be greater than 0");;
    ensure (msg_value m =? LISTING_PRICE)%Z (Revert "Must pay listing price");;
    id ← next_itemId;
    auctionEnd ← checked_add (block_timestamp m) AUCTION_DURATION;
    update (set_item id
      {| itemId := id; nftContract := contract; tokenId := token; seller := msg_sender m;
         owner := 0; price := startingPrice; isAuction := true;
         auctionEndTime := auctionEnd; highestBidder := 0; highestBid := 0;
         sold := false |});;
    external (erc721_transferFrom contract (msg_sender m) this token);;
    emit (MarketItemCreated id contract token (msg_sender m) 0%N startingPrice true auctionEnd))).

(** What [placeBid] does with the bid it replaces. *)
Definition refund_previous (id : Z) (item : MarketItem) : AM unit :=
  if bool_decide (highestBidder item ≠ 0%N) then
    p ← store (λ s, (_auctionPendingReturns s).[(id, highestBidder item)]);
    p' ← checked_add p (highestBid item);
    update (set_pending id (highestBidder item) p')
  else mret tt.

Definition placeBid (m : msg) (id : Z) : AM unit :=
  payable m (nonReentrant (
    item ← store (λ s, item_at s id);
    ensure (isAuction item) (Revert "Item is not an auction");;
    ensure (block_timestamp m <? auctionEndTime item)%Z (Revert "Auction ended");;
    least ← checked_add (price item) MIN_AUCTION_INCREMENT;
    ensure (least <=? msg_value m)%Z (Revert "Bid too low");;
    refund_previous id item;;
    update (set_item id (with_bid (msg_sender m) (msg_value m) item));;
    _addPriceHistory m id (msg_value m) (seller item) (msg_sender m) AUCTION_BID;;
    emit (AuctionBid id (msg_sender m) (msg_value m)))).

Definition endAuction (m : msg) (id : Z) : AM unit :=
  nonpayable m (nonReentrant (
    item ← store (λ s, item_at s id);
    ensure (isAuction item) (Revert "Not an auction");;
    ensure (auctionEndTime item <=? block_timestamp m)%Z (Revert "Auction not ended");;
    ensure (negb (sold item)) (Revert "Auction already ended");;
    update (set_item id (with_sale (highestBidder item) item));;
    count_sold;;
    (if bool_decide (highestBidder item ≠ 0%N) then
       transfer (seller item) (highestBid item);;
       external (erc721_transferFrom (nftContract item) this (highestBidder item) (tokenId item))
     else
       external (erc721_transferFrom (nftContract item) this (seller item) (tokenId item)));;
    o ← store contract_owner;
    transfer o LISTING_PRICE;;
    emit (AuctionEnded id (highestBidder item) (highestBid item)))).

Definition withdrawBid (m : msg) (id : Z) : AM unit :=
  nonpayable m (nonReentrant (
    amount ← store (λ s, (_auctionPendingReturns s).[(id, msg_sender m)]);
    ensure (0 <? amount)%Z (Revert "No funds to withdraw");;
    update (set_pending id (msg_sender m) 0);;
    transfer (msg_sender m) amount)).

Definition makeOffer (m : msg) (id expiration : Z) : AM unit :=
  payable m (nonReentrant (
    ensure (0 <? msg_value m)%Z (Revert "Offer must be greater than 0");;
    ensure (block_timestamp m <? expiration)%Z (Revert "Expiration must be in future");;
    item ← store (λ s, item_at s id);
    ensure (negb (sold item)) (Revert "Item already sold");;
    ensure (negb (isAuction item)) (Revert "Cannot make offers on auctions");;
    update (push_offer id {| offer_buyer := msg_sender m; offer_price := msg_value m;
                             expirationTime := expiration |});;
    emit (OfferCreated id (msg_sender m) (msg_value m) expiration))).

(** The loop of [acceptOffer] over [_itemOffers[itemId]], from index [i] on. *)
Fixpoint refund_others (now : Z) (offerIndex i : nat) (offers : list Offer) : AM unit :=
  match offers with
  | [] => mret tt
  | o :: offers =>
      (if bool_decide (i ≠ offerIndex) && (now <=? expirationTime o)%Z
       then transfer (offer_buyer o) (offer_price o) else mret tt);;
      refund_others now offerIndex (S i) offers
  end.

Definition acceptOffer (m : msg) (id : Z) (offerIndex : nat) : AM unit :=
  nonpayable m (nonReentrant (
    item ← store (λ s, item_at s id);
    ensure (bool_decide (msg_sender m = seller item)) (Revert "Only seller can accept");;
    ensure (negb (sold item)) (Revert "Item already sold");;
    offers ← store (λ s, (_itemOffers s).[id]);
    offer ← lift (array_get offers offerIndex);
    ensure (block_timestamp m <=? expirationTime offer)%Z (Revert "Offer expired");;
    update (set_item id (with_sale (offer_buyer offer) item));;
    count_sold;;
    external (erc721_transferFrom (nftContract item) this (offer_buyer offer) (tokenId item));;
    transfer (seller item) (offer_price offer);;
    o ← store contract_owner;
    transfer o LISTING_PRICE;;
    refund_others (block_timestamp m) offerIndex 0 offers;;
    emit (OfferAccepted id (offer_buyer offer) (offer_price offer)))).

(** Inherited from Ownable. *)
Definition onlyOwner (m : msg) : AM unit :=
  o ← store contract_owner;
  ensure (bool_decide (o = msg_sender m)) (OwnableUnauthorizedAccount (msg_sender m)).
Definition transferOwnership (m : msg) (newOwner : address) : AM unit :=
  nonpayable m (
    onlyOwner m;;
    ensure (bool_decide (newOwner ≠ 0%N)) (OwnableInvalidOwner 0%N);;
    update (set_contract_owner newOwner)).
Definition renounceOwnership (m : msg) : AM unit :=
  nonpayable m (onlyOwner m;; update (set_contract_owner 0%N)).

(** The state-changing entry points, and the dispatch of a transaction. *)
Inductive call :=
| CCreateMarketItem (collectionAddress : address) (token price_ : Z)
| CCreateMarketSale (collectionAddress : address) (id : Z)
| CCreateAuction (contract : address) (token startingPrice : Z)
| CPlaceBid (id : Z)
| CEndAuction (id : Z)
| CWithdrawBid (id : Z)
| CMakeOffer (id expiration : Z)
| CAcceptOffer (id : Z) (offerIndex : nat)
| CTransferOwnership (newOwner : address)
| CRenounceOwnership.

Definition exec (m : msg) (c : call) : AM unit :=
  match c with
  | CCreateMarketItem a t p => createMarketItem m a t p
  | CCreateMarketSale a id => createMarketSale m a id
  | CCreateAuction a t p => createAuction m a t p
  | CPlaceBid id => placeBid m id
  | CEndAuction id => endAuction m id
  | CWithdrawBid id => withdrawBid m id
  | CMakeOffer id e => makeOffer m id e
  | CAcceptOffer id i => acceptOffer m id i
  | CTransferOwnership o => transferOwnership m o
  | CRenounceOwnership => renounceOwnership m
  end.
End operations.

(** ** Views *)

(** The items [0 .. n-1], as the loops read them. *)
Definition items_below (s : Storage) (n : Z) : list MarketItem :=
  item_at s <$> seqZ 0 n.

(** [items[currentIndex] = currentItem; currentIndex++] for the items that pass
    the loop's test. *)
Fixpoint fill (p : MarketItem → bool) (l : list MarketItem)
    (items : list MarketItem) (currentIndex : nat) : result evm_error (list MarketItem) :=
  match l with
  | [] => Ok items
  | i :: l =>
      if p i then
        items' ← array_set items currentIndex i;
        fill p l items' (S currentIndex)
      else fill p l items currentIndex
  end.

(** The counting loop in front of it. *)
Definition count (p : MarketItem → bool) (l : list MarketItem) : nat :=
  foldl (λ itemCount i, if p i then S itemCount else itemCount) 0 l.

Definition fetchMarketItems (s : Storage) : result evm_error (list MarketItem) :=
  if (_itemsSold s <=? _itemIds s)%Z then
    let unsoldItemCount := Z.to_nat (_itemIds s - _itemsSold s) in
    fill (λ i, negb (sold i)) (items_below s (_itemIds s))
      (replicate unsoldItemCount sol_zero) 0
  else Err PanicOverflow.

Definition count_and_fill (s : Storage) (p : MarketItem → bool)
    : result evm_error (list MarketItem) :=
  let l := items_below s (_itemIds s) in
  fill p l (replicate (count p l) sol_zero) 0.

Definition fetchMyNFTs (m : msg) (s : Storage) : result evm_error (list MarketItem) :=
  count_and_fill s (λ i, bool_decide (owner i = msg_sender m)).
Definition fetchMyListedNFTs (m : msg) (s : Storage) : result evm_error (list MarketItem) :=
  count_and_fill s (λ i, bool_decide (seller i = msg_sender m)).
Definition fetchActiveAuctions (m : msg) (s : Storage) : result evm_error (list MarketItem) :=
  count_and_fill s
    (λ i, isAuction i && negb (sold i) && (block_timestamp m <? auctionEndTime i)%Z).

Definition fetchMarketItem (s : Storage) (id : Z) : MarketItem := item_at s id.
Definition fetchItemOffers (s : Storage) (id : Z) : list Offer := (_itemOffers s).[id].
Definition fetchPriceHistory (s : Storage) (id : Z) : list PriceHistory :=
  (_itemPriceHistory s).[id].

(** "Only consider actual sales, not listings". *)
Definition is_sale_action (a : PriceActionType) : bool :=
  match a with SALE | AUCTION_END | OFFER_ACCEPTED => true | _ => false end.

Record PriceStats := {
  lowestPrice : Z;
  highestPrice : Z;
  averagePrice : Z;
  totalSales : Z
}.

(** The loop of [getItemPriceStats]: lowest, highest, total and count so far. *)
Fixpoint stats_loop (history : list PriceHistory) (lowest highest total salesCount : Z)
    : result evm_error (Z * Z * Z * Z) :=
  match history with
  | [] => Ok (lowest, highest, total, salesCount)
  | h :: history =>
      if is_sale_action (h_actionType h) then
        let p := h_price h in
        let lowest' := if (p <? lowest)%Z then p else lowest in
        let highest' := if (highest <? p)%Z then p else highest in
        if (total + p <=? uint256_max)%Z
        then stats_loop history lowest' highest' (total + p) (salesCount + 1)
        else Err PanicOverflow
      else stats_loop history lowest highest total salesCount
  end.

Definition getItemPriceStats (s : Storage) (id : Z) : result evm_error PriceStats :=
  '(lowest, highest, total, salesCount) ←
    stats_loop (_itemPriceHistory s).[id] uint256_max 0 0 0;
  mret {| lowestPrice := if (lowest =? uint256_max)%Z then 0 else lowest;
          highestPrice := highest;
          averagePrice := if (0 <? salesCount)%Z then total / salesCount else 0;
          totalSales := salesCount |}.

(** [for (i = history.length; i > 0; i--)]. *)
Fixpoint find_price_loop (history : list PriceHistory) (targetTime : Z) (i : nat)
    : result evm_error Z :=
  match i with
  | 0 => Ok 0%Z
  | S j =>
      h ← array_get history j;
      if (h_timestamp h <=? targetTime)%Z then Ok (h_price h)
      else find_price_loop history targetTime j
  end.
Definition _findPriceAtTime (history : list PriceHistory) (targetTime : Z)
    : result evm_error Z :=
  find_price_loop history targetTime (length history).

(** The view calls of a client, in one type. *)
Inductive view :=
| VListingPrice | VMarketItems | VMyNFTs | VMyListedNFTs | VActiveAuctions
| VMarketItem (id : Z) | VItemOffers (id : Z) | VPriceHistory (id : Z) | VPriceStats (id : Z).
Inductive view_answer :=
| AnNumber (n : Z)
| AnItems (l : list MarketItem)
| AnOffers (l : list Offer)
| AnHistory (l : list PriceHistory)
| AnStats (st : PriceStats).

Definition answer (m : msg) (s : Storage) (v : view) : result evm_error view_answer :=
  match v with
  | VListingPrice => Ok (AnNumber getListingPrice)
  | VMarketItems => AnItems <$> fetchMarketItems s
  | VMyNFTs => AnItems <$> fetchMyNFTs m s
  | VMyListedNFTs => AnItems <$> fetchMyListedNFTs m s
  | VActiveAuctions => AnItems <$> fetchActiveAuctions m s
  | VMarketItem id => Ok (AnItems [fetchMarketItem s id])
  | VItemOffers id => Ok (AnOffers (fetchItemOffers s id))
  | VPriceHistory id => Ok (AnHistory (fetchPriceHistory s id))
  | VPriceStats id => AnStats <$> getItemPriceStats s id
  end.
