(* ===== verification/ArchiveFacts.v ===== *)
(** * Facts of the archived marketplace contract

    What each successful call of [Archive] does to the storage and the ether,
    the accounting of the ether the contract owes, and the invariant of the
    histories in which sales name items that were created. *)

From stdpp Require Import base list gmap strings numbers.
From Stdlib Require Import ZArith Lia.
From S2P Require Import Prelude Evm Archive.

(** ** Sums over the items [0 .. n-1] *)
Definition below (m : gmap Z MarketItem) (n : Z) : list MarketItem :=
  (λ k, m.[k]) <$> seqZ 0 n.

Lemma items_below_eq s n : items_below s n = below (_idToMarketItem s) n.
Proof. reflexivity. Qed.

Lemma below_succ m n : (0 ≤ n)%Z → below m (n + 1) = below m n ++ [m.[n]].
Proof. intros. unfold below. by rewrite seqZ_snoc, fmap_app. Qed.

Lemma below_insert_out m n id v :
  ¬ (0 ≤ id < n)%Z → below (<[id := v]> m) n = below m n.
Proof.
  intros Hid. unfold below. apply list_fmap_ext. intros i k Hk.
  apply lookup_seqZ in Hk. apply mget_insert_ne. lia.
Qed.

Lemma sum_below_insert (f : MarketItem → Z) m n id v :
  (0 ≤ id < n)%Z →
  sum_Z f (below (<[id := v]> m) n) = (sum_Z f (below m n) + f v - f (m.[id]))%Z.
Proof.
  intros [H0 Hn]. assert (∃ j, n = id + 1 + Z.of_nat j)%Z as [j ->].
  { exists (Z.to_nat (n - id - 1)). lia. }
  clear Hn. induction j as [|j IH].
  - replace (id + 1 + Z.of_nat 0)%Z with (id + 1)%Z by lia.
    rewrite !below_succ, below_insert_out by lia.
    rewrite !sum_Z_snoc, mget_insert_eq. lia.
  - replace (id + 1 + Z.of_nat (S j))%Z with (id + 1 + Z.of_nat j + 1)%Z by lia.
    rewrite !below_succ, !sum_Z_snoc, IH, mget_insert_ne by lia. lia.
Qed.

Lemma below_in m n i : i ∈ below m n ↔ ∃ id, (0 ≤ id < n)%Z ∧ i = m.[id].
Proof.
  unfold below. rewrite list_elem_of_fmap. setoid_rewrite elem_of_seqZ.
  split; intros (id & ? & ?); exists id; (split; [done || lia|done || lia]).
Qed.

(** ** Sums over a mapping, key by key *)
Definition ksum {A} (f : Z → A → Z) (m : gmap Z A) : Z :=
  map_fold (λ k a acc, (f k a + acc)%Z) 0%Z m.

Section ksum.
Context {A : Type}.
Implicit Types (f g : Z → A → Z) (m : gmap Z A).

Lemma ksum_fresh f m k v :
  m !! k = None → ksum f (<[k := v]> m) = (f k v + ksum f m)%Z.
Proof. intros. unfold ksum. rewrite map_fold_insert_L; [done|lia|done]. Qed.

Lemma ksum_ext f g m :
  (∀ k v, m !! k = Some v → f k v = g k v) → ksum f m = ksum g m.
Proof.
  induction m as [|k v m Hk IH] using map_ind; intros H; [done|].
  rewrite !ksum_fresh by done. rewrite (H k v) by apply lookup_insert_eq.
  rewrite IH; [done|]. intros k' v' Hk'. apply H. rewrite lookup_insert_ne; congruence.
Qed.

Lemma ksum_delete f m k v :
  m !! k = Some v → ksum f m = (f k v + ksum f (delete k m))%Z.
Proof.
  intros Hk. rewrite <- (insert_delete_id m k v Hk) at 1.
  by rewrite ksum_fresh by apply lookup_delete_eq.
Qed.

(** Two summands that agree except at [k]. *)
Lemma ksum_change `{!SolZero A} f g m k :
  (∀ k' v, k' ≠ k → f k' v = g k' v) → f k sol_zero = 0%Z → g k sol_zero = 0%Z →
  ksum g m = (ksum f m + g k (m.[k]) - f k (m.[k]))%Z.
Proof.
  intros Hne Hf Hg.
  assert (ksum g (delete k m) = ksum f (delete k m)) as Hd.
  { apply ksum_ext. intros k' v Hk'. symmetry. apply Hne.
    intros ->. by rewrite lookup_delete_eq in Hk'. }
  unfold mget. destruct (m !! k) as [v|] eqn:Hk; cbn.
  - rewrite !(ksum_delete _ m k v Hk), Hd. lia.
  - rewrite Hf, Hg. rewrite !delete_id in Hd by done. lia.
Qed.

Lemma ksum_insert `{!SolZero A} f m k v :
  f k sol_zero = 0%Z → ksum f (<[k := v]> m) = (ksum f m + f k v - f k (m.[k]))%Z.
Proof.
  intros H0. unfold mget. destruct (m !! k) as [w|] eqn:Hk; cbn.
  - rewrite (ksum_delete f m k w Hk), (ksum_delete f (<[k := v]> m) k v)
      by apply lookup_insert_eq.
    rewrite delete_insert_eq. lia.
  - rewrite H0, ksum_fresh by done. lia.
Qed.

Lemma ksum_nonneg f m : (∀ k v, m !! k = Some v → 0 ≤ f k v)%Z → (0 ≤ ksum f m)%Z.
Proof.
  induction m as [|k v m Hk IH] using map_ind; intros H; [done|].
  rewrite ksum_fresh by done.
  assert (0 ≤ f k v)%Z by (apply H, lookup_insert_eq).
  assert (0 ≤ ksum f m)%Z; [|lia]. apply IH. intros k' v' Hk'. apply H.
  rewrite lookup_insert_ne; congruence.
Qed.

Lemma ksum_mget `{!SolZero A} f m k :
  f k sol_zero = 0%Z → (∀ j v, m !! j = Some v → 0 ≤ f j v)%Z → (f k (m.[k]) ≤ ksum f m)%Z.
Proof.
  intros H0 Hm. unfold mget. destruct (m !! k) as [v|] eqn:Hk; cbn.
  - rewrite (ksum_delete f m k v Hk). assert (0 ≤ ksum f (delete k m))%Z; [|lia].
    apply ksum_nonneg. intros j w [_ Hj]%lookup_delete_Some. by eapply Hm.
  - rewrite H0. by apply ksum_nonneg.
Qed.
End ksum.

(** ** What the contract owes *)

(** The ether held for one item at time [now]: the listing fee until it is
    sold, and the highest bid until the auction is settled. *)
Definition locked (now : Z) (i : MarketItem) : Z :=
  (if sold i then 0 else LISTING_PRICE) +
  (if sold i && (auctionEndTime i <=? now)%Z then 0 else highestBid i).

Definition offers_total (l : list Offer) : Z := sum_Z offer_price l.
Definition open_offers (items : gmap Z MarketItem) (id : Z) (l : list Offer) : Z :=
  if sold items.[id] then 0 else offers_total l.

Definition owed (now : Z) (s : Storage) : Z :=
  sum_Z (locked now) (below (_idToMarketItem s) (_itemIds s)) +
  map_sum id (_auctionPendingReturns s) +
  ksum (open_offers (_idToMarketItem s)) (_itemOffers s).

(** What holds of a storage between two transactions. *)
Record wf (s : Storage) : Prop := {
  wf_ids : (0 ≤ _itemIds s ≤ uint256_max)%Z;
  wf_fresh : ∀ id, ¬ (0 ≤ id < _itemIds s)%Z → item_at s id = sol_zero;
  wf_seller : ∀ id, (0 ≤ id < _itemIds s)%Z → seller (item_at s id) ≠ 0%N;
  wf_bids : ∀ id, (0 ≤ highestBid (item_at s id))%Z;
  wf_fixed : ∀ id, isAuction (item_at s id) = false → highestBid (item_at s id) = 0%Z;
  wf_pending : ∀ k, (0 ≤ (_auctionPendingReturns s).[k])%Z;
  wf_offers : ∀ id o, o ∈ (_itemOffers s).[id] → (0 ≤ offer_price o)%Z;
  wf_sold : _itemsSold s =
    sum_Z (λ i, if sold i then 1 else 0)%Z (below (_idToMarketItem s) (_itemIds s))
}.

Lemma sum_Z_mono {A} (f g : A → Z) l :
  (∀ a, a ∈ l → f a ≤ g a)%Z → (sum_Z f l ≤ sum_Z g l)%Z.
Proof.
  induction l as [|a l IH]; intros H; [done|]. cbn.
  assert (f a ≤ g a)%Z by (apply H; by left).
  assert (sum_Z f l ≤ sum_Z g l)%Z; [|unfold sum_Z in *; lia].
  apply IH. intros. apply H. by right.
Qed.

(** Waiting only settles auctions. *)
Lemma owed_time now now' s : wf s → (now ≤ now')%Z → (owed now' s ≤ owed now s)%Z.
Proof.
  intros W Hn. unfold owed.
  assert (sum_Z (locked now') (below (_idToMarketItem s) (_itemIds s)) ≤
          sum_Z (locked now) (below (_idToMarketItem s) (_itemIds s)))%Z; [|lia].
  apply sum_Z_mono. intros i (id & _ & ->)%below_in. pose proof (wf_bids _ W id) as Hb.
  unfold locked. fold (item_at s id).
  destruct (sold (item_at s id)); cbn; [|lia].
  destruct (Z.leb_spec (auctionEndTime (item_at s id)) now),
    (Z.leb_spec (auctionEndTime (item_at s id)) now'); lia.
Qed.

Lemma offers_total_nonneg s id : wf s → (0 ≤ offers_total (_itemOffers s).[id])%Z.
Proof. intros W. apply sum_Z_nonneg. intros o Ho. exact (wf_offers _ W id o Ho). Qed.

Lemma open_offers_unsold items id l :
  sold items.[id] = false → open_offers items id l = offers_total l.
Proof. unfold open_offers. by intros ->. Qed.
Lemma open_offers_sold items id l :
  sold items.[id] = true → open_offers items id l = 0%Z.
Proof. unfold open_offers. by intros ->. Qed.

(** ** The five ways a call changes the accounts *)

(** *** Writes that do not concern them *)
Lemma wf_entered b s : wf s → wf (set_entered b s).
Proof. intros []. by constructor. Qed.
Lemma wf_contract_owner o s : wf s → wf (set_contract_owner o s).
Proof. intros []. by constructor. Qed.
Lemma wf_history id h s : wf s → wf (push_history id h s).
Proof. intros []. by constructor. Qed.
#[export] Hint Resolve wf_entered wf_contract_owner wf_history : sol.

(** *** A new item *)
Definition create_item (v : MarketItem) (s : Storage) : Storage :=
  set_item (_itemIds s) v (set_itemIds (_itemIds s + 1) s).

Lemma item_at_set_item s id v id' :
  item_at (set_item id v s) id' = if decide (id = id') then v else item_at s id'.
Proof. apply mget_insert. Qed.

Lemma create_wf v s :
  wf s → (_itemIds s + 1 ≤ uint256_max)%Z → seller v ≠ 0%N → highestBid v = 0%Z → sold v = false → wf (create_item v s).
Proof.
  intros W Hmax Hs Hb Hv. destruct W as [H1 H2 H3 H4 H5 H6 H7 H8].
  constructor; unfold create_item; try done.
  - cbn. lia.
  - intros id Hid. cbn in Hid. rewrite item_at_set_item.
    rewrite decide_False by lia. apply H2. lia.
  - intros id Hid. cbn in Hid. rewrite item_at_set_item. case_decide; [done|]. apply H3. lia.
  - intros id. rewrite item_at_set_item. case_decide; [lia|]. apply H4.
  - intros id. rewrite item_at_set_item. case_decide; [done|]. apply H5.
  - cbn. rewrite below_succ, below_insert_out, sum_Z_snoc, mget_insert_eq, Hv by lia. lia.
Qed.

Lemma create_owed now v s :
  wf s → highestBid v = 0%Z → sold v = false →
  owed now (create_item v s) = (owed now s + LISTING_PRICE)%Z.
Proof.
  intros W Hb Hv. pose proof (wf_ids _ W). unfold owed, create_item. cbn.
  rewrite below_succ, below_insert_out, sum_Z_snoc, mget_insert_eq by lia.
  rewrite (ksum_change (open_offers (_idToMarketItem s)) _ _ (_itemIds s)); cycle 1.
  - intros k' l Hk. unfold open_offers. by rewrite mget_insert_ne.
  - unfold open_offers. by case_match.
  - unfold open_offers. by case_match.
  - rewrite !open_offers_unsold.
    + unfold locked. rewrite Hv, Hb. cbn. lia.
    + assert ((_idToMarketItem s).[_itemIds s] = sol_zero) as -> by (apply (wf_fresh _ W); lia).
      reflexivity.
    + by rewrite mget_insert_eq.
Qed.

(** *** An item sold *)
Definition settle (id : Z) (buyer : address) (s : Storage) : Storage :=
  set_itemsSold (_itemsSold s + 1) (set_item id (with_sale buyer (item_at s id)) s).

Lemma settle_wf id buyer s :
  wf s → (0 ≤ id < _itemIds s)%Z → sold (item_at s id) = false → wf (settle id buyer s).
Proof.
  intros W Hid Hs. destruct W as [H1 H2 H3 H4 H5 H6 H7 H8].
  assert (∀ id', item_at (settle id buyer s) id' =
    if decide (id = id') then with_sale buyer (item_at s id) else item_at s id') as Hi
    by (intros; apply mget_insert).
  constructor; try done.
  - intros id' Hid'. rewrite Hi. cbn in Hid'. rewrite decide_False by lia. by apply H2.
  - intros id' Hid'. rewrite Hi. case_decide; [cbn; by apply H3|by apply H3].
  - intros id'. rewrite Hi. case_decide; [cbn|]; apply H4.
  - intros id'. rewrite Hi. case_decide; [cbn|]; apply H5.
  - cbn. rewrite sum_below_insert by done. cbn. fold (item_at s id). rewrite Hs. lia.
Qed.

Lemma settle_owed now id buyer s :
  wf s → (0 ≤ id < _itemIds s)%Z → sold (item_at s id) = false →
  owed now (settle id buyer s) =
    (owed now s - LISTING_PRICE - offers_total (_itemOffers s).[id]
     - if auctionEndTime (item_at s id) <=? now then highestBid (item_at s id) else 0)%Z.
Proof.
  intros W Hid Hs. unfold owed, settle. cbn.
  rewrite sum_below_insert by done. fold (item_at s id).
  rewrite (ksum_change (open_offers (_idToMarketItem s)) _ _ id); cycle 1.
  - intros k' l Hk. unfold open_offers. by rewrite mget_insert_ne.
  - unfold open_offers. by case_match.
  - unfold open_offers. by case_match.
  - rewrite open_offers_sold by (by rewrite mget_insert_eq).
    rewrite open_offers_unsold by done.
    unfold locked at 2 3. rewrite Hs. cbn. case_match; lia.
Qed.

(** *** A bid *)
Lemma pending_wf id a v s : wf s → (0 ≤ v)%Z → wf (set_pending id a v s).
Proof.
  intros W Hv. destruct W as [H1 H2 H3 H4 H5 H6 H7 H8]. constructor; try done.
  intros k. cbn. rewrite mget_insert. by case_decide.
Qed.
Lemma pending_owed now id a v s :
  owed now (set_pending id a v s) =
    (owed now s + v - (_auctionPendingReturns s).[(id, a)])%Z.
Proof.
  unfold owed. cbn.
  rewrite (map_sum_insert_mget (@Datatypes.id Z)) by reflexivity. cbn. lia.
Qed.

Lemma bid_wf id bidder bid s :
  wf s → isAuction (item_at s id) = true → (0 ≤ bid)%Z →
  wf (set_item id (with_bid bidder bid (item_at s id)) s).
Proof.
  intros W Ha Hb.
  assert (0 ≤ id < _itemIds s)%Z as Hid.
  { destruct (decide (0 ≤ id < _itemIds s)%Z) as [|Hout]; [done|].
    by rewrite (wf_fresh _ W id Hout) in Ha. }
  destruct W as [H1 H2 H3 H4 H5 H6 H7 H8]. constructor; try done.
  - intros id' Hid'. cbn in Hid'. rewrite item_at_set_item, decide_False; [by apply H2|].
    intros ->. by apply Hid'.
  - intros id' Hid'. rewrite item_at_set_item. case_decide; cbn; by apply H3.
  - intros id'. rewrite item_at_set_item. case_decide; cbn; [done|apply H4].
  - intros id'. rewrite item_at_set_item. case_decide; cbn; [congruence|apply H5].
  - cbn. rewrite sum_below_insert by done. cbn. fold (item_at s id). lia.
Qed.

Lemma bid_owed now id bidder bid s :
  wf s → isAuction (item_at s id) = true → (now < auctionEndTime (item_at s id))%Z →
  owed now (set_item id (with_bid bidder bid (item_at s id)) s) =
    (owed now s + bid - highestBid (item_at s id))%Z.
Proof.
  intros W Ha Hn.
  assert (0 ≤ id < _itemIds s)%Z as Hid.
  { destruct (decide (0 ≤ id < _itemIds s)%Z) as [|Hout]; [done|].
    by rewrite (wf_fresh _ W id Hout) in Ha. }
  unfold owed. cbn. rewrite sum_below_insert by done. fold (item_at s id).
  rewrite (ksum_ext (open_offers (<[id := _]> _)) (open_offers (_idToMarketItem s))).
  - unfold locked at 2 3. cbn. rewrite (proj2 (Z.leb_gt _ _) Hn), andb_false_r. lia.
  - intros k l _. unfold open_offers. rewrite mget_insert. case_decide; [by subst|done].
Qed.

(** *** An offer *)
Lemma offer_wf id o s : wf s → (0 ≤ offer_price o)%Z → wf (push_offer id o s).
Proof.
  intros W Ho. destruct W as [H1 H2 H3 H4 H5 H6 H7 H8]. constructor; try done.
  intros id' o'. cbn. rewrite mget_insert. case_decide as Hd; [subst|apply H7].
  intros [Hin| ->]%elem_of_snoc; [by eapply H7|done].
Qed.
Lemma offer_owed now id o s :
  sold (item_at s id) = false →
  owed now (push_offer id o s) = (owed now s + offer_price o)%Z.
Proof.
  intros Hs. unfold owed. cbn.
  rewrite ksum_insert by (unfold open_offers; by case_match).
  rewrite !open_offers_unsold by done. unfold offers_total. rewrite sum_Z_snoc. lia.
Qed.

(** ** Running the operations *)
Section run.
Context {E : Type} `{!ArchiveEnv E} (this : address).
Implicit Types (s : AState E) (m : msg).

Lemma archived_external_Ok {A} (f : M evm_error E A) s a s' :
  external f s = Ok (a, s') ↔
  ∃ e, f (a_env s) = Ok (a, e) ∧
       s' = Build_AState (a_store s) (a_balance s) (a_paid s) e (a_logs s).
Proof.
  unfold external. destruct (f (a_env s)) as [[b e]|]; [|naive_solver].
  split; [intros [= <- <-]; eauto | intros (? & [= <- <-] & ->); done].
Qed.

Lemma archived_external_view_Ok {A} (f : E → result evm_error A) s a s' :
  external_view f s = Ok (a, s') ↔ f (a_env s) = Ok a ∧ s' = s.
Proof.
  unfold external_view. destruct (f (a_env s)); [|naive_solver].
  split; [by intros [= <- <-] | by intros [[= <-] ->]].
Qed.

Lemma archived_transfer_Ok to amount s u s' :
  transfer to amount s = Ok (u, s') ↔
  (amount ≤ a_balance s)%Z ∧ receives (a_env s) to = true ∧
  s' = Build_AState (a_store s) (a_balance s - amount) (a_paid s ++ [(to, amount)])
         (a_env s) (a_logs s).
Proof.
  unfold transfer. destruct (Z.leb_spec amount (a_balance s)); cbn; [|naive_solver lia].
  destruct (receives _ _), u; [|naive_solver].
  split; [by intros [= <-] | by intros (_ & _ & ->)].
Qed.
End run.

(** The entries of the price history. *)
Definition listing_entry (time : Z) (i : MarketItem) : PriceHistory :=
  {| h_timestamp := time; h_price := price i; h_seller := seller i; h_buyer := 0;
     h_actionType := LISTING |}.
Definition sale_entry (time : Z) (buyer : address) (i : MarketItem) : PriceHistory :=
  {| h_timestamp := time; h_price := price i; h_seller := seller i; h_buyer := buyer;
     h_actionType := SALE |}.
Definition bid_entry (time : Z) (bidder : address) (bid : Z) (i : MarketItem) : PriceHistory :=
  {| h_timestamp := time; h_price := bid; h_seller := seller i; h_buyer := bidder;
     h_actionType := AUCTION_BID |}.

(** [open_run H] opens the hypothesis that a call succeeded, statement by
    statement; what is left are its guards and its writes. *)
Ltac open_step :=
  match goal with
  | H : external _ _ = Ok _ |- _ => apply archived_external_Ok in H; destruct H as (? & ? & ->)
  | H : external_view _ _ = Ok _ |- _ => apply archived_external_view_Ok in H; destruct H as [? ->]
  | H : transfer _ _ _ = Ok _ |- _ => apply archived_transfer_Ok in H; destruct H as (? & ? & ->)
  | H : checked_add _ _ _ = Ok _ |- _ => apply checked_add_Ok in H; destruct H as (? & -> & ->)
  | _ => progress inv_run
  end.
Ltac open_run H :=
  unfold payable, nonpayable, nonReentrant, onlyOwner, next_itemId, count_sold,
    refund_previous, _addPriceHistory, store, update, emit in H;
  repeat (open_step; cbn in * |-); bool_to_prop;
  repeat match goal with
  | H : context [item_at (set_entered ?b ?s) ?i] |- _ =>
      change (item_at (set_entered b s) i) with (item_at s i) in H
  end.

Section calls.
Context {E : Type} `{!ArchiveEnv E} (this : address).
Implicit Types (s : AState E) (m : msg).

Lemma archived_createMarketItem_Ok m a token p s u s' :
  createMarketItem this m a token p s = Ok (u, s') →
  ∃ v,
    a_store s' = set_entered false
      (push_history (_itemIds (a_store s)) (listing_entry (block_timestamp m) v)
         (create_item v (set_entered true (a_store s)))) ∧
    (_itemIds (a_store s) + 1 ≤ uint256_max)%Z ∧ msg_value m = LISTING_PRICE ∧
    seller v = msg_sender m ∧ isAuction v = false ∧ highestBidder v = 0%N ∧
    highestBid v = 0%Z ∧ sold v = false ∧
    a_balance s' = (a_balance s + msg_value m)%Z ∧ a_paid s' = a_paid s ∧
    nftContract v = a ∧ tokenId v = token ∧ price v = p ∧ (0 < p)%Z.
Proof.
  intros H. unfold createMarketItem in H. open_run H.
  eexists {| itemId := _; price := p |}. split; [reflexivity|]. split_and!; first [eassumption|reflexivity].
Qed.

Lemma archived_createAuction_Ok m a token p s u s' :
  createAuction this m a token p s = Ok (u, s') →
  ∃ v,
    a_store s' = set_entered false (create_item v (set_entered true (a_store s))) ∧
    (_itemIds (a_store s) + 1 ≤ uint256_max)%Z ∧ msg_value m = LISTING_PRICE ∧
    seller v = msg_sender m ∧ isAuction v = true ∧ highestBidder v = 0%N ∧
    highestBid v = 0%Z ∧ sold v = false ∧
    a_balance s' = (a_balance s + msg_value m)%Z ∧ a_paid s' = a_paid s ∧
    nftContract v = a ∧ tokenId v = token ∧ price v = p ∧ (0 < p)%Z ∧
    auctionEndTime v = (block_timestamp m + AUCTION_DURATION)%Z.
Proof.
  intros H. unfold createAuction in H. open_run H.
  eexists _. split; [reflexivity|]. split_and!; first [eassumption|reflexivity].
Qed.

Lemma archived_createMarketSale_Ok m a id s u s' :
  createMarketSale this m a id s = Ok (u, s') →
  let item := item_at (a_store s) id in
  isAuction item = false ∧ msg_value m = price item ∧ sold item = false ∧
  a_store s' = set_entered false
    (push_history id (sale_entry (block_timestamp m) (msg_sender m) item)
       (settle id (msg_sender m) (set_entered true (a_store s)))) ∧
  a_balance s' = (a_balance s - LISTING_PRICE)%Z ∧
  a_paid s' = a_paid s ++ [(seller item, msg_value m); (contract_owner (a_store s), LISTING_PRICE)].
Proof.
  intros H. unfold createMarketSale in H. open_run H.
  split_and!; try assumption.
  - reflexivity.
  - cbn. lia.
  - cbn. by rewrite <- app_assoc.
Qed.

Lemma archived_placeBid_Ok m id s u s' :
  placeBid m id s = Ok (u, s') →
  let item := item_at (a_store s) id in
  isAuction item = true ∧ (block_timestamp m < auctionEndTime item)%Z ∧
  (price item + MIN_AUCTION_INCREMENT ≤ msg_value m)%Z ∧
  a_balance s' = (a_balance s + msg_value m)%Z ∧ a_paid s' = a_paid s ∧
  ∃ σ, a_store s' = set_entered false
         (push_history id (bid_entry (block_timestamp m) (msg_sender m) (msg_value m) item)
            (set_item id (with_bid (msg_sender m) (msg_value m) item) σ)) ∧
         (highestBidder item = 0%N ∧ σ = set_entered true (a_store s) ∨
          highestBidder item ≠ 0%N ∧
          σ = set_pending id (highestBidder item)
                ((_auctionPendingReturns (a_store s)).[(id, highestBidder item)]
                  + highestBid item) (set_entered true (a_store s))).
Proof.
  intros H. unfold placeBid in H. open_run H.
  assert (∀ b σ i, item_at (set_entered b σ) i = item_at σ i) as Hi by reflexivity.
  rewrite ?Hi. destruct (bool_decide _) eqn:Hd in H11; open_run H11;
    (split_and!; [assumption..|cbn; lia|reflexivity|]);
    (eexists; split; [reflexivity|]).
  - by right.
  - left. split; [|reflexivity]. by apply dec_stable.
Qed.

Lemma archived_endAuction_Ok m id s u s' :
  endAuction this m id s = Ok (u, s') →
  let item := item_at (a_store s) id in
  msg_value m = 0%Z ∧ isAuction item = true ∧ (auctionEndTime item ≤ block_timestamp m)%Z ∧
  sold item = false ∧
  a_store s' = set_entered false (settle id (highestBidder item) (set_entered true (a_store s))) ∧
  (highestBidder item = 0%N ∧ a_balance s' = (a_balance s - LISTING_PRICE)%Z ∧
   a_paid s' = a_paid s ++ [(contract_owner (a_store s), LISTING_PRICE)] ∧
   (∃ u e, erc721_transferFrom (nftContract item) this (seller item) (tokenId item) (a_env s)
           = Ok (u, e)) ∨
   highestBidder item ≠ 0%N ∧ a_balance s' = (a_balance s - highestBid item - LISTING_PRICE)%Z ∧
   a_paid s' = a_paid s ++ [(seller item, highestBid item); (contract_owner (a_store s), LISTING_PRICE)] ∧
   (∃ u e, erc721_transferFrom (nftContract item) this (highestBidder item) (tokenId item) (a_env s)
           = Ok (u, e))).
Proof.
  intros H. unfold endAuction in H. open_run H.
  destruct (bool_decide _) eqn:Hd in H12; open_run H12;
    (split_and!; [assumption..|reflexivity|]).
  - right. cbn. rewrite <- app_assoc.
    split_and!; [assumption|lia|reflexivity|eexists _, _; eassumption].
  - left. cbn.
    split_and!; [by apply dec_stable|lia|reflexivity|eexists _, _; eassumption].
Qed.

Lemma archived_withdrawBid_Ok m id s u s' :
  withdrawBid m id s = Ok (u, s') →
  let amount := (_auctionPendingReturns (a_store s)).[(id, msg_sender m)] in
  (0 < amount)%Z ∧
  a_store s' = set_entered false (set_pending id (msg_sender m) 0 (set_entered true (a_store s))) ∧
  a_balance s' = (a_balance s - amount)%Z ∧ a_paid s' = a_paid s ++ [(msg_sender m, amount)].
Proof.
  intros H. unfold withdrawBid in H. open_run H.
  split_and!; first [assumption|reflexivity].
Qed.

Lemma archived_makeOffer_Ok m id expiration s u s' :
  makeOffer m id expiration s = Ok (u, s') →
  let o := {| offer_buyer := msg_sender m; offer_price := msg_value m;
              expirationTime := expiration |} in
  (0 < msg_value m)%Z ∧ (block_timestamp m < expiration)%Z ∧
  sold (item_at (a_store s) id) = false ∧ isAuction (item_at (a_store s) id) = false ∧
  a_store s' = set_entered false (push_offer id o (set_entered true (a_store s))) ∧
  a_balance s' = (a_balance s + msg_value m)%Z ∧ a_paid s' = a_paid s.
Proof.
  intros H. unfold makeOffer in H. open_run H.
  split_and!; first [assumption|reflexivity].
Qed.

(** The transfers of the refund loop of [acceptOffer]. *)
Fixpoint refunds (now : Z) (offerIndex i : nat) (offers : list Offer) : list (address * Z) :=
  match offers with
  | [] => []
  | o :: offers =>
      (if bool_decide (i ≠ offerIndex) && (now <=? expirationTime o)%Z
       then [(offer_buyer o, offer_price o)] else []) ++
      refunds now offerIndex (S i) offers
  end.

Lemma archived_refund_others_Ok now k i offers s u s' :
  refund_others now k i offers s = Ok (u, s') →
  a_store s' = a_store s ∧ a_env s' = a_env s ∧
  a_balance s' = (a_balance s - sum_Z snd (refunds now k i offers))%Z ∧
  a_paid s' = a_paid s ++ refunds now k i offers.
Proof.
  revert i s. induction offers as [|o offers IH]; intros i s H; cbn in H.
  - inv_run. rewrite app_nil_r. cbn. split_and!; [done|done|lia|done].
  - inv_run. cbn [refunds].
    destruct (_ && _); open_run H0; apply IH in H as (-> & -> & -> & ->); cbn;
      rewrite <- ?app_assoc; unfold sum_Z; cbn; split_and!; (reflexivity || lia).
Qed.

Lemma refunds_before now k i offers :
  (∀ o, o ∈ offers → 0 ≤ offer_price o)%Z →
  (sum_Z snd (refunds now k i offers) ≤ offers_total offers)%Z.
Proof.
  revert i. induction offers as [|o offers IH]; intros i Ho; [done|]. cbn [refunds].
  rewrite sum_Z_app. assert (0 ≤ offer_price o)%Z by (apply Ho; by left).
  assert (sum_Z snd (refunds now k (S i) offers) ≤ offers_total offers)%Z
    by (apply IH; intros; apply Ho; by right).
  unfold offers_total in *. cbn -[sum_Z] in *. destruct (_ && _); cbn; unfold sum_Z in *; lia.
Qed.

(** The refunds leave the accepted offer's price in the contract. *)
Lemma refunds_spare now k i offers o :
  (∀ o, o ∈ offers → 0 ≤ offer_price o)%Z → offers !! k = Some o →
  (sum_Z snd (refunds now (i + k) i offers) ≤ offers_total offers - offer_price o)%Z.
Proof.
  revert i k. induction offers as [|o' offers IH]; intros i k Ho Hk; [done|].
  assert (0 ≤ offer_price o')%Z by (apply Ho; by left).
  cbn [refunds]. rewrite sum_Z_app. unfold offers_total. destruct k as [|k]; cbn in Hk.
  - simplify_eq. rewrite bool_decide_false by (intros Hn; apply Hn; lia). cbn.
    pose proof (refunds_before now (i + 0) (S i) offers) as Hb.
    unfold offers_total, sum_Z in *. specialize (Hb ltac:(intros; apply Ho; by right)). lia.
  - replace (i + S k) with (S i + k) by lia.
    assert (sum_Z snd (refunds now (S i + k) (S i) offers) ≤ offers_total offers - offer_price o)%Z
      by (apply IH; [intros; apply Ho; by right|done]).
    rewrite sum_Z_cons.
    destruct (_ && _); rewrite ?sum_Z_cons, ?sum_Z_nil; cbn [snd]; unfold offers_total in *; lia.
Qed.

Lemma archived_acceptOffer_Ok m id k s u s' :
  acceptOffer this m id k s = Ok (u, s') →
  let item := item_at (a_store s) id in
  let offers := (_itemOffers (a_store s)).[id] in
  ∃ offer, offers !! k = Some offer ∧
    msg_sender m = seller item ∧ sold item = false ∧
    (block_timestamp m ≤ expirationTime offer)%Z ∧
    a_store s' = set_entered false (settle id (offer_buyer offer) (set_entered true (a_store s))) ∧
    a_balance s' = (a_balance s - offer_price offer - LISTING_PRICE
                    - sum_Z snd (refunds (block_timestamp m) k 0 offers))%Z ∧
    a_paid s' = a_paid s ++ (seller item, offer_price offer)
                  :: (contract_owner (a_store s), LISTING_PRICE)
                  :: refunds (block_timestamp m) k 0 offers.
Proof.
  intros H. unfold acceptOffer in H. open_run H.
  apply archived_refund_others_Ok in H18 as (Hst & _ & Hb & Hp). cbn in Hst, Hb, Hp.
  exists x19. cbn. rewrite Hst, Hb, Hp, <- !app_assoc.
  split_and!; try assumption; [|reflexivity..].
  unfold array_get in H10. destruct (_ !! k); [by simplify_eq|done].
Qed.

Lemma archived_transferOwnership_Ok m o s u s' :
  transferOwnership m o s = Ok (u, s') →
  msg_value m = 0%Z ∧ a_store s' = set_contract_owner o (a_store s) ∧
  a_balance s' = a_balance s ∧ a_paid s' = a_paid s ∧ contract_owner (a_store s) = msg_sender m.
Proof. intros H. unfold transferOwnership in H. open_run H. done. Qed.
Lemma archived_renounceOwnership_Ok m s u s' :
  renounceOwnership m s = Ok (u, s') →
  msg_value m = 0%Z ∧ a_store s' = set_contract_owner 0%N (a_store s) ∧
  a_balance s' = a_balance s ∧ a_paid s' = a_paid s ∧ contract_owner (a_store s) = msg_sender m.
Proof. intros H. unfold renounceOwnership in H. open_run H. done. Qed.

(** ** Histories *)

(** A sale names an item that was created: [createMarketSale] does not ask. *)
Definition names_item (s : AState E) (c : call) : Prop :=
  match c with CCreateMarketSale _ id => (0 ≤ id < _itemIds (a_store s))%Z | _ => True end.

(** [reached deployer factory t s]: the contract is in state [s] at time [t].
    Between its transactions the rest of the chain does what it likes, and may
    force ether on the contract. *)
Inductive reached (deployer factory : address) : Z → AState E → Prop :=
| reached_deploy t e : reached deployer factory t (Build_AState (init deployer factory) 0 [] e [])
| reached_exec t s m c s' :
    reached deployer factory t s →
    (t ≤ block_timestamp m)%Z → msg_sender m ≠ 0%N → (0 ≤ msg_value m)%Z →
    names_item s c → exec this m c s = Ok (tt, s') →
    reached deployer factory (block_timestamp m) s'
| reached_wait t s t' b e :
    reached deployer factory t s → (t ≤ t')%Z → (a_balance s ≤ b)%Z →
    reached deployer factory t' (Build_AState (a_store s) b (a_paid s) e (a_logs s)).

Definition good (t : Z) (s : AState E) : Prop :=
  wf (a_store s) ∧ (owed t (a_store s) ≤ a_balance s)%Z ∧ entered (a_store s) = false.

Lemma owed_entered t b σ : owed t (set_entered b σ) = owed t σ.
Proof. reflexivity. Qed.
Lemma owed_history t id h σ : owed t (push_history id h σ) = owed t σ.
Proof. reflexivity. Qed.

Lemma createMarketItem_good t m a token p s u s' :
  good t s → (t ≤ block_timestamp m)%Z → msg_sender m ≠ 0%N →
  createMarketItem this m a token p s = Ok (u, s') → good (block_timestamp m) s'.
Proof.
  intros (W & Ho & _) Ht Hm (v & Es & Hmax & Hv & Hs & _ & _ & Hb & Hsold & Hbal & _)%archived_createMarketItem_Ok.
  pose proof (owed_time _ _ _ W Ht). rewrite <- Hs in Hm.
  unfold good. rewrite Es. split_and!; [|rewrite owed_entered, owed_history, create_owed|done].
  - auto using wf_entered, wf_history, create_wf.
  - rewrite owed_entered. lia.
  - auto with sol.
  - done.
  - done.
Qed.

Lemma createAuction_good t m a token p s u s' :
  good t s → (t ≤ block_timestamp m)%Z → msg_sender m ≠ 0%N →
  createAuction this m a token p s = Ok (u, s') → good (block_timestamp m) s'.
Proof.
  intros (W & Ho & _) Ht Hm (v & Es & Hmax & Hv & Hs & _ & _ & Hb & Hsold & Hbal & _)%archived_createAuction_Ok.
  pose proof (owed_time _ _ _ W Ht). rewrite <- Hs in Hm.
  unfold good. rewrite Es. split_and!; [|rewrite owed_entered, create_owed|done].
  - auto using wf_entered, create_wf.
  - rewrite owed_entered. lia.
  - auto with sol.
  - done.
  - done.
Qed.

Lemma createMarketSale_good t m a id s u s' :
  good t s → (t ≤ block_timestamp m)%Z → (0 ≤ id < _itemIds (a_store s))%Z →
  createMarketSale this m a id s = Ok (u, s') → good (block_timestamp m) s'.
Proof.
  intros (W & Ho & _) Ht Hid (Ha & Hp & Hs & Es & Hb & _)%archived_createMarketSale_Ok.
  pose proof (owed_time _ _ _ W Ht) as Ho'. pose proof (offers_total_nonneg _ id W).
  pose proof (wf_bids _ W id).
  unfold good. rewrite Es. split_and!; [|rewrite owed_entered, owed_history, settle_owed|done].
  - auto using wf_entered, wf_history, settle_wf.
  - rewrite owed_entered. cbn. fold (item_at (a_store s) id).
    change (item_at (set_entered true (a_store s)) id) with (item_at (a_store s) id).
    case_match; lia.
  - auto with sol.
  - done.
  - done.
Qed.

Lemma placeBid_good t m id s u s' :
  good t s → (t ≤ block_timestamp m)%Z → (0 ≤ msg_value m)%Z →
  placeBid m id s = Ok (u, s') → good (block_timestamp m) s'.
Proof.
  intros (W & Ho & _) Ht Hm (Ha & Hend & _ & Hb & _ & σ & Es & Hσ)%archived_placeBid_Ok.
  pose proof (owed_time _ _ _ W Ht) as Ho'. pose proof (wf_bids _ W id).
  pose proof (wf_pending _ W (id, highestBidder (item_at (a_store s) id))).
  assert (wf σ ∧ item_at σ id = item_at (a_store s) id ∧
    owed (block_timestamp m) σ ≤ owed (block_timestamp m) (a_store s) + highestBid (item_at (a_store s) id))%Z
    as (Wσ & Hi & Hσo).
  { destruct Hσ as [[_ ->]|[_ ->]].
    - split_and!; [auto with sol|reflexivity|]. rewrite owed_entered. lia.
    - split_and!; [apply pending_wf; [auto with sol|lia]|reflexivity|].
      rewrite pending_owed, owed_entered. cbn. lia. }
  unfold good. rewrite Es, <- Hi.
  split_and!; [|rewrite owed_entered, owed_history, bid_owed|done].
  - apply wf_entered, wf_history, bid_wf; [done|by rewrite Hi|done].
  - rewrite Hi. lia.
  - done.
  - by rewrite Hi.
  - by rewrite Hi.
Qed.
End calls.
