(* ===== verification/ArchiveSafety.v ===== *)
(** * What the archived marketplace guarantees

    The invariant of its histories and its consequences: refunds of outbid
    bidders are always covered and paid, the listing page shows exactly the
    unsold items, and the runs of a sale and of the end of an auction; what
    goes wrong when a sale names an item nobody created. *)

From stdpp Require Import base list gmap strings numbers.
From Stdlib Require Import ZArith Lia.
From S2P Require Import Prelude Evm Archive ArchiveFacts.

Section safety.
Context {E : Type} `{!ArchiveEnv E} (this : address).
Implicit Types (s : AState E) (m : msg).

Lemma auction_created s id :
  wf (a_store s) → isAuction (item_at (a_store s) id) = true → (0 ≤ id < _itemIds (a_store s))%Z.
Proof.
  intros W Ha. destruct (decide (0 ≤ id < _itemIds (a_store s))%Z) as [|Hout]; [done|].
  by rewrite (wf_fresh _ W id Hout) in Ha.
Qed.

Lemma endAuction_good t m id s u s' :
  good t s → (t ≤ block_timestamp m)%Z →
  endAuction this m id s = Ok (u, s') → good (block_timestamp m) s'.
Proof.
  intros (W & Ho & _) Ht (_ & Ha & Hend & Hs & Es & Hpay)%archived_endAuction_Ok.
  pose proof (owed_time _ _ _ W Ht) as Ho'. pose proof (offers_total_nonneg _ id W).
  pose proof (wf_bids _ W id). pose proof (auction_created s id W Ha) as Hid.
  unfold good. rewrite Es. split_and!; [|rewrite owed_entered, settle_owed|done].
  - auto using wf_entered, settle_wf.
  - rewrite owed_entered. cbn.
    change (item_at (set_entered true (a_store s)) id) with (item_at (a_store s) id).
    rewrite (proj2 (Z.leb_le _ _) Hend).
    destruct Hpay as [(_ & Hb & _)|(_ & Hb & _)]; lia.
  - auto with sol.
  - done.
  - done.
Qed.

Lemma withdrawBid_good t m id s u s' :
  good t s → (t ≤ block_timestamp m)%Z →
  withdrawBid m id s = Ok (u, s') → good (block_timestamp m) s'.
Proof.
  intros (W & Ho & _) Ht (Ha & Es & Hb & _)%archived_withdrawBid_Ok.
  pose proof (owed_time _ _ _ W Ht).
  unfold good. rewrite Es. split_and!; [|rewrite owed_entered, pending_owed|done].
  - apply wf_entered, pending_wf; [auto with sol|done].
  - rewrite owed_entered. cbn in *. lia.
Qed.

Lemma makeOffer_good t m id expiration s u s' :
  good t s → (t ≤ block_timestamp m)%Z →
  makeOffer m id expiration s = Ok (u, s') → good (block_timestamp m) s'.
Proof.
  intros (W & Ho & _) Ht (Hv & _ & Hs & _ & Es & Hb & _)%archived_makeOffer_Ok.
  pose proof (owed_time _ _ _ W Ht).
  unfold good. rewrite Es. split_and!; [|rewrite owed_entered, offer_owed|done].
  - apply wf_entered, offer_wf; [auto with sol|cbn; lia].
  - rewrite owed_entered. cbn in *. lia.
  - done.
Qed.

Lemma acceptOffer_good t m id k s u s' :
  good t s → (t ≤ block_timestamp m)%Z → msg_sender m ≠ 0%N →
  acceptOffer this m id k s = Ok (u, s') → good (block_timestamp m) s'.
Proof.
  intros (W & Ho & _) Ht Hm (o & Hk & Hsel & Hs & _ & Es & Hb & _)%archived_acceptOffer_Ok.
  pose proof (owed_time _ _ _ W Ht) as Ho'. pose proof (wf_bids _ W id).
  assert (0 ≤ id < _itemIds (a_store s))%Z as Hid.
  { destruct (decide (0 ≤ id < _itemIds (a_store s))%Z) as [|Hout]; [done|].
    by rewrite (wf_fresh _ W id Hout) in Hsel. }
  pose proof (refunds_spare (block_timestamp m) k 0 _ o (wf_offers _ W id) Hk) as Hr. cbn in Hr.
  unfold good. rewrite Es. split_and!; [|rewrite owed_entered, settle_owed|done].
  - auto using wf_entered, settle_wf.
  - rewrite owed_entered. cbn.
    change (item_at (set_entered true (a_store s)) id) with (item_at (a_store s) id).
    case_match; lia.
  - auto with sol.
  - done.
  - done.
Qed.

Lemma exec_good t m c s s' :
  good t s → (t ≤ block_timestamp m)%Z → msg_sender m ≠ 0%N → (0 ≤ msg_value m)%Z →
  names_item s c → exec this m c s = Ok (tt, s') → good (block_timestamp m) s'.
Proof.
  intros G Ht Hm Hv Hn H. destruct c; cbn in H, Hn.
  - by eapply createMarketItem_good.
  - by eapply createMarketSale_good.
  - by eapply createAuction_good.
  - by eapply placeBid_good.
  - by eapply endAuction_good.
  - by eapply withdrawBid_good.
  - by eapply makeOffer_good.
  - by eapply acceptOffer_good.
  - apply archived_transferOwnership_Ok in H as (_ & Es & Hb & _). destruct G as (W & Ho & He).
    pose proof (owed_time _ _ _ W Ht). unfold good. rewrite Es, Hb.
    split_and!; [auto with sol|unfold owed in *; cbn in *; lia|done].
  - apply archived_renounceOwnership_Ok in H as (_ & Es & Hb & _). destruct G as (W & Ho & He).
    pose proof (owed_time _ _ _ W Ht). unfold good. rewrite Es, Hb.
    split_and!; [auto with sol|unfold owed in *; cbn in *; lia|done].
Qed.

Lemma init_good t deployer factory (e : E) :
  good t (Build_AState (init deployer factory) 0 [] e []).
Proof.
  split_and!; [|done|done]. constructor; try done.
  - intros id Hid. cbn in Hid. lia.
  - intros id o Ho. by apply elem_of_nil in Ho.
Qed.

Lemma reached_good deployer factory t s : reached this deployer factory t s → good t s.
Proof.
  induction 1 as [t e|t s m c s' Hr IH Ht Hm Hv Hn H|t s t' b e Hr (W & Ho & He) Ht Hb].
  - apply init_good.
  - by eapply exec_good.
  - pose proof (owed_time _ _ _ W Ht). split_and!; cbn; [done|lia|done].
Qed.

(** ** Refunds *)

Lemma pending_nonneg σ :
  wf σ → ∀ k v, _auctionPendingReturns σ !! k = Some v → (0 ≤ Datatypes.id v)%Z.
Proof.
  intros W k v Hk. pose proof (wf_pending _ W k) as Hp. unfold mget in Hp. by rewrite Hk in Hp.
Qed.

Lemma owed_parts t σ :
  wf σ →
  (0 ≤ sum_Z (locked t) (below (_idToMarketItem σ) (_itemIds σ)) ∧
   0 ≤ map_sum Datatypes.id (_auctionPendingReturns σ) ∧
   0 ≤ ksum (open_offers (_idToMarketItem σ)) (_itemOffers σ))%Z.
Proof.
  intros W. split_and!.
  - apply sum_Z_nonneg. intros i (id & _ & ->)%below_in. pose proof (wf_bids _ W id) as Hb.
    unfold item_at in Hb. unfold locked, LISTING_PRICE. repeat case_match; lia.
  - by apply map_sum_nonneg, pending_nonneg.
  - apply ksum_nonneg. intros id l Hl. unfold open_offers. case_match; [done|].
    pose proof (offers_total_nonneg _ id W) as Hn. unfold mget in Hn. by rewrite Hl in Hn.
Qed.

Lemma sum_Z_elem {A} (f : A → Z) l a :
  (∀ a, a ∈ l → 0 ≤ f a)%Z → a ∈ l → (f a ≤ sum_Z f l)%Z.
Proof.
  intros Hl (l1 & l2 & ->)%list_elem_of_split. rewrite sum_Z_app, sum_Z_cons.
  assert (0 ≤ sum_Z f l1)%Z by (apply sum_Z_nonneg; set_solver).
  assert (0 ≤ sum_Z f l2)%Z by (apply sum_Z_nonneg; set_solver). lia.
Qed.

Lemma pending_covered t s k :
  good t s → ((_auctionPendingReturns (a_store s)).[k] ≤ a_balance s)%Z.
Proof.
  intros (W & Ho & _). pose proof (owed_parts t _ W).
  assert ((_auctionPendingReturns (a_store s)).[k] ≤
    map_sum Datatypes.id (_auctionPendingReturns (a_store s)))%Z.
  { apply (map_sum_mget Datatypes.id); [done|by apply pending_nonneg]. }
  unfold owed in Ho. lia.
Qed.

Lemma locked_covered t σ id :
  wf σ → (0 ≤ id < _itemIds σ)%Z →
  (locked t (item_at σ id) ≤ sum_Z (locked t) (below (_idToMarketItem σ) (_itemIds σ)))%Z.
Proof.
  intros W Hid. apply sum_Z_elem.
  - intros i (id' & _ & ->)%below_in. pose proof (wf_bids _ W id') as Hb.
    unfold item_at in Hb. unfold locked, LISTING_PRICE. repeat case_match; lia.
  - apply below_in. by exists id.
Qed.

(** The fee, the bid and the offers of an unsold item are in the contract. *)
Lemma unsold_owed t s id :
  good t s → (0 ≤ id < _itemIds (a_store s))%Z → sold (item_at (a_store s) id) = false →
  (highestBid (item_at (a_store s) id) + LISTING_PRICE
   + offers_total (_itemOffers (a_store s)).[id] ≤ a_balance s)%Z.
Proof.
  intros (W & Ho & _) Hid Hs.
  assert (offers_total (_itemOffers (a_store s)).[id] ≤
    ksum (open_offers (_idToMarketItem (a_store s))) (_itemOffers (a_store s)))%Z.
  { rewrite <- (open_offers_unsold (_idToMarketItem (a_store s)) id) by done.
    apply ksum_mget; [unfold open_offers; by case_match|].
    intros j l Hl. unfold open_offers. case_match; [done|].
    pose proof (offers_total_nonneg _ j W) as Hn. unfold mget in Hn. by rewrite Hl in Hn. }
  pose proof (owed_parts t _ W) as (_ & Hp & _). pose proof (locked_covered t _ id W Hid) as Hl.
  unfold locked at 1 in Hl. rewrite Hs in Hl. cbn in Hl. unfold owed in Ho. lia.
Qed.

Lemma unsold_covered t s id :
  good t s → (0 ≤ id < _itemIds (a_store s))%Z → sold (item_at (a_store s) id) = false →
  (highestBid (item_at (a_store s) id) + LISTING_PRICE ≤ a_balance s)%Z.
Proof.
  intros G Hid Hs. pose proof (unsold_owed t s id G Hid Hs). destruct G as (W & _).
  pose proof (offers_total_nonneg _ id W). lia.
Qed.

(** The withdrawal of a credit that is covered goes through. *)
Lemma withdrawBid_run m id s :
  let amount := (_auctionPendingReturns (a_store s)).[(id, msg_sender m)] in
  entered (a_store s) = false → msg_value m = 0%Z → (0 < amount ≤ a_balance s)%Z →
  receives (a_env s) (msg_sender m) = true →
  ∃ s', exec this m (CWithdrawBid id) s = Ok (tt, s') ∧
    a_paid s' = a_paid s ++ [(msg_sender m, amount)] ∧
    (_auctionPendingReturns (a_store s')).[(id, msg_sender m)] = 0%Z ∧
    exec this m (CWithdrawBid id) s' = Err (Revert "No funds to withdraw").
Proof.
  intros amount He Hv [Hp Hb] Hr. cbn [exec]. unfold withdrawBid, nonpayable, nonReentrant.
  rewrite Hv. unfold store, update, transfer. run_block. rewrite He. cbn. fold amount.
  rewrite (proj2 (Z.ltb_lt _ _) Hp). cbn. rewrite (proj2 (Z.leb_le _ _) Hb), Hr. cbn.
  eexists. split; [reflexivity|]. cbn. by rewrite mget_insert_eq.
Qed.

(** C27: a bidder who was outbid always gets the money back. In any history of
    the archived contract whose sales name created items, whoever has a pending
    return on an item and accepts ether can withdraw it: the call succeeds, pays
    exactly that amount, and leaves nothing to withdraw a second time. *)
Theorem withdrawBid_pays deployer factory t s m id :
  reached this deployer factory t s → msg_value m = 0%Z →
  (0 < (_auctionPendingReturns (a_store s)).[(id, msg_sender m)])%Z →
  receives (a_env s) (msg_sender m) = true →
  ∃ s', exec this m (CWithdrawBid id) s = Ok (tt, s') ∧
    a_paid s' = a_paid s ++ [(msg_sender m, (_auctionPendingReturns (a_store s)).[(id, msg_sender m)])] ∧
    (_auctionPendingReturns (a_store s')).[(id, msg_sender m)] = 0%Z ∧
    exec this m (CWithdrawBid id) s' = Err (Revert "No funds to withdraw").
Proof.
  intros G%reached_good Hv Hp Hr. pose proof (pending_covered _ _ (id, msg_sender m) G) as Hb.
  destruct G as (_ & _ & He). by apply withdrawBid_run.
Qed.

(** ** Pages *)

Lemma fill_filter (p : MarketItem → bool) l d rest :
  length (filter (λ i, p i = true) l) ≤ length rest →
  fill p l (d ++ rest) (length d) =
    Ok (d ++ filter (λ i, p i = true) l ++ drop (length (filter (λ i, p i = true) l)) rest).
Proof.
  revert d rest. induction l as [|i l IH]; intros d rest Hlen; cbn; [done|].
  rewrite filter_cons in *. destruct (decide (p i = true)) as [Hp|Hp]; cbn in Hlen.
  - rewrite Hp. destruct rest as [|z rest]; cbn in Hlen; [lia|].
    unfold array_set. rewrite decide_True by (rewrite length_app; cbn; lia). cbn.
    rewrite insert_app_r_alt, Nat.sub_diag by lia. cbn.
    specialize (IH (d ++ [i]) rest). rewrite length_app, <- !app_assoc in IH. cbn in IH.
    rewrite Nat.add_1_r in IH. rewrite IH by lia. done.
  - destruct (p i); [done|]. apply IH. lia.
Qed.

Lemma fill_exact (p : MarketItem → bool) l n :
  n = length (filter (λ i, p i = true) l) →
  fill p l (replicate n sol_zero) 0 = Ok (filter (λ i, p i = true) l).
Proof.
  intros ->. pose proof (fill_filter p l [] (replicate
    (length (filter (λ i, p i = true) l)) sol_zero)) as H.
  rewrite length_replicate in H. specialize (H (Nat.le_refl _)). cbn [app length] in H.
  by rewrite H, drop_ge, app_nil_r by (by rewrite length_replicate).
Qed.

Lemma archived_fill_overflow (p : MarketItem → bool) l d rest :
  length rest < length (filter (λ i, p i = true) l) →
  fill p l (d ++ rest) (length d) = Err PanicBounds.
Proof.
  revert d rest. induction l as [|i l IH]; intros d rest Hlen; cbn; [cbn in Hlen; lia|].
  rewrite filter_cons in Hlen. destruct (decide (p i = true)) as [Hp|Hp]; cbn in Hlen.
  - rewrite Hp. unfold array_set. destruct rest as [|z rest]; cbn in Hlen.
    + rewrite decide_False by (rewrite app_nil_r; lia). done.
    + rewrite decide_True by (rewrite length_app; cbn; lia). cbn.
      rewrite insert_app_r_alt, Nat.sub_diag by lia. cbn.
      specialize (IH (d ++ [i]) rest). rewrite length_app, <- !app_assoc in IH. cbn in IH.
      rewrite Nat.add_1_r in IH. rewrite IH by lia. done.
  - destruct (p i); [done|]. apply IH. lia.
Qed.

Lemma count_filter (p : MarketItem → bool) l :
  count p l = length (filter (λ i, p i = true) l).
Proof.
  unfold count. assert (∀ n, foldl (λ c i, if p i then S c else c) n l =
    n + length (filter (λ i, p i = true) l)) as H; [|apply H].
  induction l as [|i l IH]; intros n; [cbn; lia|cbn [foldl]].
  rewrite IH, filter_cons. case_decide as Hp; [rewrite Hp; cbn; lia|].
  destruct (p i); [done|lia].
Qed.

Lemma count_and_fill_filter σ p :
  count_and_fill σ p = Ok (filter (λ i, p i = true) (items_below σ (_itemIds σ))).
Proof.
  unfold count_and_fill. rewrite count_filter. by apply fill_exact.
Qed.

(** The items on sale are those created less those sold. *)
Lemma unsold_count σ :
  wf σ → (_itemIds σ - _itemsSold σ)%Z =
    Z.of_nat (length (filter (λ i, negb (sold i) = true) (items_below σ (_itemIds σ)))).
Proof.
  intros W. rewrite (wf_sold _ W), items_below_eq. pose proof (wf_ids _ W) as [H0 _].
  assert (∀ l, Z.of_nat (length l) - sum_Z (λ i, if sold i then 1 else 0) l =
    Z.of_nat (length (filter (λ i, negb (sold i) = true) l)))%Z as Hl.
  { induction l as [|i l IH]; [done|]. rewrite filter_cons, sum_Z_cons. cbn [length].
    case_decide as Hd; cbn [length]; destruct (sold i); cbn in Hd; (done || lia). }
  rewrite <- Hl. unfold below at 2. rewrite length_fmap, length_seqZ. lia.
Qed.

(** C28: the pages of the archived contract show what they say.  In any history
    whose sales name created items, [fetchMarketItems] returns exactly the
    unsold items in the order of their creation, and never runs over the array
    it sized from [_itemIds - _itemsSold]; the two "my items" pages and the
    active auctions are the items that pass their test. *)
Theorem pages_exact deployer factory t s m :
  reached this deployer factory t s →
  let σ := a_store s in let all := items_below σ (_itemIds σ) in
  fetchMarketItems σ = Ok (filter (λ i, negb (sold i) = true) all) ∧
  fetchMyNFTs m σ = Ok (filter (λ i, bool_decide (owner i = msg_sender m) = true) all) ∧
  fetchMyListedNFTs m σ = Ok (filter (λ i, bool_decide (seller i = msg_sender m) = true) all) ∧
  fetchActiveAuctions m σ = Ok (filter (λ i, isAuction i && negb (sold i) &&
    (block_timestamp m <? auctionEndTime i)%Z = true) all).
Proof.
  intros (W & _)%reached_good σ all.
  split_and!; [|apply count_and_fill_filter..].
  pose proof (unsold_count σ W) as Hu. unfold fetchMarketItems.
  rewrite (proj2 (Z.leb_le _ _)) by lia. apply fill_exact. rewrite Hu. apply Nat2Z.id.
Qed.

(** [_itemsSold++] has room while an item is unsold. *)
Lemma sold_room t s id :
  good t s → (0 ≤ id < _itemIds (a_store s))%Z → sold (item_at (a_store s) id) = false →
  (_itemsSold (a_store s) + 1 ≤ uint256_max)%Z.
Proof.
  intros (W & _) Hid Hs. pose proof (unsold_count _ W) as Hu. pose proof (wf_ids _ W).
  assert (item_at (a_store s) id ∈ filter (λ i, negb (sold i) = true)
    (items_below (a_store s) (_itemIds (a_store s)))) as Hin.
  { apply list_elem_of_filter. rewrite Hs. split; [done|]. rewrite items_below_eq.
    apply below_in. by exists id. }
  destruct (filter _ _) as [|i l]; [by apply elem_of_nil in Hin|]. cbn in Hu. lia.
Qed.

(** ** A sale of an item nobody created *)

Lemma archived_sale_run m a id s e e' :
  let item := item_at (a_store s) id in
  entered (a_store s) = false → isAuction item = false → sold item = false →
  msg_value m = price item → (_itemsSold (a_store s) + 1 ≤ uint256_max)%Z →
  erc721_transferFrom a this (msg_sender m) (tokenId item) (a_env s) = Ok (tt, e) →
  factory_updateCollectionStats (factoryAddress (a_store s)) a (price item) true e = Ok (tt, e') →
  receives (a_env s) (seller item) = true → receives e' (contract_owner (a_store s)) = true →
  (LISTING_PRICE ≤ a_balance s)%Z →
  ∃ s', exec this m (CCreateMarketSale a id) s = Ok (tt, s') ∧
    a_store s' = set_entered false (push_history id
      (sale_entry (block_timestamp m) (msg_sender m) item)
      (settle id (msg_sender m) (set_entered true (a_store s)))) ∧
    a_paid s' = a_paid s ++ [(seller item, msg_value m); (contract_owner (a_store s), LISTING_PRICE)] ∧
    a_env s' = e'.
Proof.
  intros item He Ha Hu Hv Hmax Ht Hf Hrs Hro Hb.
  cbn [exec]. unfold createMarketSale, payable, nonReentrant, count_sold, _addPriceHistory,
    store, update, external, transfer, checked_add. run_block. rewrite He. cbn.
  change (item_at (set_entered true (a_store s)) id) with item.
  rewrite Ha, Hu, Hv, Z.eqb_refl. cbn.
  rewrite (proj2 (Z.leb_le (price item) _)), Hrs by (unfold LISTING_PRICE in *; lia). cbn.
  rewrite Ht. cbn. rewrite (proj2 (Z.leb_le _ uint256_max) Hmax). cbn. rewrite Hf. cbn.
  rewrite Hro, (proj2 (Z.leb_le LISTING_PRICE _)) by lia. cbn.
  eexists. split; [reflexivity|]. cbn. split_and!; [done|by rewrite <- app_assoc|done].
Qed.

(** [createMarketSale] does not ask whether the item exists.  Anybody can
    "buy" an id that was never created, at its price zero, from any collection
    whose token 0 the contract holds: the token is handed over for nothing, a
    listing fee somebody else deposited goes to the contract's owner, and from
    then on the page of items on sale reverts. *)
Theorem phantom_sale deployer factory t s m a id e e' :
  reached this deployer factory t s → (_itemIds (a_store s) ≤ id)%Z →
  (_itemIds (a_store s) < uint256_max)%Z → msg_value m = 0%Z →
  erc721_transferFrom a this (msg_sender m) 0 (a_env s) = Ok (tt, e) →
  factory_updateCollectionStats (factoryAddress (a_store s)) a 0 true e = Ok (tt, e') →
  receives (a_env s) 0%N = true → receives e' (contract_owner (a_store s)) = true →
  (LISTING_PRICE ≤ a_balance s)%Z →
  ∃ s', exec this m (CCreateMarketSale a id) s = Ok (tt, s') ∧ a_env s' = e' ∧
    a_paid s' = a_paid s ++ [(0%N, 0%Z); (contract_owner (a_store s), LISTING_PRICE)] ∧
    ∀ items, fetchMarketItems (a_store s') ≠ Ok items.
Proof.
  intros (W & _ & He)%reached_good Hid Hmax Hv Ht Hf H0 Ho Hb.
  pose proof (unsold_count (a_store s) W) as Hu.
  assert (Hi : item_at (a_store s) id = sol_zero) by (apply (wf_fresh _ W); lia).
  destruct (archived_sale_run m a id s e e') as (s' & Hs' & Es & Hp & Ee);
    rewrite ?Hi; try done.
  - lia.
  - rewrite Hi, Hv in Hp. exists s'. split_and!; [done..|]. intros items. rewrite Es.
    unfold fetchMarketItems. cbn. rewrite items_below_eq. cbn. rewrite below_insert_out by lia.
    rewrite items_below_eq in Hu. set (l := below _ _) in *.
    destruct (Z.leb_spec (_itemsSold (a_store s) + 1) (_itemIds (a_store s))); [|done].
    pose proof (archived_fill_overflow (λ i, negb (sold i)) l [] (replicate
      (Z.to_nat (_itemIds (a_store s) - (_itemsSold (a_store s) + 1))) sol_zero)) as Hfull.
    cbn [app length] in Hfull. rewrite length_replicate in Hfull.
    rewrite Hfull by lia. done.
Qed.

(** ** Auctions *)

Lemma endAuction_again m id s :
  let item := item_at (a_store s) id in
  msg_value m = 0%Z → entered (a_store s) = false → isAuction item = true →
  (auctionEndTime item ≤ block_timestamp m)%Z → sold item = true →
  endAuction this m id s = Err (Revert "Auction already ended").
Proof.
  intros item Hv He Ha Hend Hs.
  unfold endAuction, nonpayable, nonReentrant, store, update. rewrite Hv. run_block.
  rewrite He. cbn. change (item_at (set_entered true (a_store s)) id) with item.
  by rewrite Ha, (proj2 (Z.leb_le _ _) Hend), Hs.
Qed.

Lemma endAuction_run m id s e :
  let item := item_at (a_store s) id in
  entered (a_store s) = false → msg_value m = 0%Z →
  isAuction item = true → sold item = false → (auctionEndTime item ≤ block_timestamp m)%Z →
  (_itemsSold (a_store s) + 1 ≤ uint256_max)%Z →
  (0 ≤ highestBid item)%Z → (highestBid item + LISTING_PRICE ≤ a_balance s)%Z →
  erc721_transferFrom (nftContract item) this
    (if bool_decide (highestBidder item = 0%N) then seller item else highestBidder item)
    (tokenId item) (a_env s) = Ok (tt, e) →
  (highestBidder item ≠ 0%N → receives (a_env s) (seller item) = true) →
  receives e (contract_owner (a_store s)) = true →
  ∃ s', endAuction this m id s = Ok (tt, s') ∧ a_env s' = e ∧
    a_paid s' = a_paid s ++
      (if bool_decide (highestBidder item = 0%N) then [] else [(seller item, highestBid item)]) ++
      [(contract_owner (a_store s), LISTING_PRICE)] ∧
    a_store s' = set_entered false (settle id (highestBidder item) (set_entered true (a_store s))).
Proof.
  intros item He Hv Ha Hs Hend Hmax H0 Hbal Hnft Hrs Hro.
  unfold endAuction, nonpayable, nonReentrant, count_sold, store, update, emit.
  rewrite Hv. run_block. rewrite He. cbn.
  change (item_at (set_entered true (a_store s)) id) with item.
  rewrite Ha, Hs, (proj2 (Z.leb_le _ _) Hend). cbn. unfold checked_add.
  rewrite (proj2 (Z.leb_le _ uint256_max) Hmax). cbn.
  unfold transfer, external.
  destruct (decide (highestBidder item = 0%N)) as [Hb|Hb].
  - rewrite (bool_decide_true _ Hb) in Hnft |- *.
    rewrite (bool_decide_false (highestBidder item ≠ 0%N)) by (intros Hn; by apply Hn). cbn.
    rewrite Hnft. cbn. rewrite Hro, (proj2 (Z.leb_le LISTING_PRICE _)) by lia. cbn.
    eexists. split; [reflexivity|]. by split_and!.
  - rewrite (bool_decide_false _ Hb) in Hnft |- *. rewrite (bool_decide_true (highestBidder item ≠ 0%N)) by done. cbn.
    rewrite (Hrs Hb), (proj2 (Z.leb_le (highestBid item) _)) by (unfold LISTING_PRICE in *; lia). cbn.
    rewrite Hnft. cbn. rewrite Hro, (proj2 (Z.leb_le LISTING_PRICE _)) by lia. cbn.
    eexists. split; [reflexivity|]. split_and!; cbn; [done|by rewrite <- app_assoc|done].
Qed.

(** Once its end time has come, anybody can end an auction that is not sold,
    provided the token can be moved. *)
Lemma endAuction_outcome deployer factory t s m id e :
  let item := item_at (a_store s) id in
  reached this deployer factory t s → (t ≤ block_timestamp m)%Z → msg_value m = 0%Z →
  isAuction item = true → sold item = false → (auctionEndTime item ≤ block_timestamp m)%Z →
  erc721_transferFrom (nftContract item) this
    (if bool_decide (highestBidder item = 0%N) then seller item else highestBidder item)
    (tokenId item) (a_env s) = Ok (tt, e) →
  receives (a_env s) (seller item) = true → receives e (contract_owner (a_store s)) = true →
  ∃ s', exec this m (CEndAuction id) s = Ok (tt, s') ∧ a_env s' = e ∧
    sold (item_at (a_store s') id) = true ∧
    owner (item_at (a_store s') id) = highestBidder item ∧
    a_paid s' = a_paid s ++
      (if bool_decide (highestBidder item = 0%N) then [] else [(seller item, highestBid item)]) ++
      [(contract_owner (a_store s), LISTING_PRICE)] ∧
    exec this m (CEndAuction id) s' = Err (Revert "Auction already ended").
Proof.
  intros item G%reached_good Ht Hv Ha Hs Hend Hnft Hrs Hro.
  pose proof (auction_created s id ltac:(apply G) Ha) as Hid.
  pose proof (unsold_covered t s id G Hid Hs) as Hbal. pose proof (sold_room t s id G Hid Hs) as Hmax.
  destruct G as (W & _ & He).
  assert (0 ≤ highestBid item)%Z by apply W.
  destruct (endAuction_run m id s e) as (s' & Hr & Ee & Hp & Es); try done.
  assert (item_at (a_store s') id = with_sale (highestBidder item) item) as Hi.
  { rewrite Es. apply mget_insert_eq. }
  exists s'. rewrite Hi. split_and!; try done. apply endAuction_again; rewrite ?Hi; try done.
  by rewrite Es.
Qed.

(** [placeBid] compares a bid with the starting price, not with the highest
    bid: while the auction runs, a bid that is lower than the highest one but
    [MIN_AUCTION_INCREMENT] above the starting price is taken, and the lower
    bidder becomes the highest bidder. *)
Theorem lower_bid_wins deployer factory t s m id :
  let item := item_at (a_store s) id in
  reached this deployer factory t s → isAuction item = true →
  (block_timestamp m < auctionEndTime item)%Z →
  (price item + MIN_AUCTION_INCREMENT ≤ msg_value m < highestBid item)%Z →
  ((_auctionPendingReturns (a_store s)).[(id, highestBidder item)] + highestBid item
     ≤ uint256_max)%Z →
  ∃ s', exec this m (CPlaceBid id) s = Ok (tt, s') ∧
    highestBidder (item_at (a_store s') id) = msg_sender m ∧
    highestBid (item_at (a_store s') id) = msg_value m.
Proof.
  intros item (W & _ & He)%reached_good Ha Hend [Hlow Hhigh] Hmax.
  pose proof (wf_pending _ W (id, highestBidder item)).
  cbn [exec]. unfold placeBid, payable, nonReentrant, refund_previous, _addPriceHistory,
    store, update, emit, checked_add.
  run_block. rewrite He. cbn.
  change (item_at (set_entered true (a_store s)) id) with item.
  rewrite Ha, (proj2 (Z.ltb_lt _ _) Hend). cbn.
  rewrite (proj2 (Z.leb_le (price item + _) uint256_max)) by lia. cbn.
  rewrite (proj2 (Z.leb_le _ _) Hlow). cbn.
  destruct (bool_decide (highestBidder item ≠ 0%N)); cbn.
  - rewrite (proj2 (Z.leb_le _ _) Hmax). cbn.
    eexists. split; [reflexivity|]. cbn. unfold item_at. cbn. by rewrite mget_insert_eq.
  - eexists. split; [reflexivity|]. cbn. unfold item_at. cbn. by rewrite mget_insert_eq.
Qed.
End safety.

(** ** Price statistics *)
Definition sale_prices (σ : Storage) (id : Z) : list Z :=
  h_price <$> filter (λ h, is_sale_action (h_actionType h) = true) (_itemPriceHistory σ).[id].

Lemma stats_loop_run history lo hi total n :
  let sales := h_price <$> filter (λ h, is_sale_action (h_actionType h) = true) history in
  (∀ p, p ∈ sales → 0 ≤ p)%Z → (total + sum_Z Datatypes.id sales ≤ uint256_max)%Z →
  stats_loop history lo hi total n =
    Ok (foldl (λ a p, Z.min p a) lo sales, foldl (λ a p, Z.max p a) hi sales,
        (total + sum_Z Datatypes.id sales)%Z, (n + Z.of_nat (length sales))%Z).
Proof.
  revert lo hi total n. induction history as [|h history IH]; intros lo hi total n sales Hp Hsum.
  - cbn. by rewrite !Z.add_0_r.
  - subst sales. rewrite filter_cons in *. cbn [stats_loop].
    case_decide as Hs; [|destruct (is_sale_action _); [done|by apply IH]].
    rewrite Hs. rewrite fmap_cons in *. rewrite sum_Z_cons in *.
    change (Datatypes.id (h_price h)) with (h_price h) in *.
    assert (0 ≤ sum_Z Datatypes.id (h_price <$> filter (λ h, is_sale_action (h_actionType h) = true) history))%Z.
    { apply sum_Z_nonneg. intros p Hin. apply Hp. by right. }
    rewrite (proj2 (Z.leb_le _ _)) by lia.
    rewrite IH; [|intros; apply Hp; by right|lia]. cbn [foldl length].
    replace (Z.min (h_price h) lo) with (if (h_price h <? lo)%Z then h_price h else lo)
      by (destruct (Z.ltb_spec (h_price h) lo); lia).
    replace (Z.max (h_price h) hi) with (if (hi <? h_price h)%Z then h_price h else hi)
      by (destruct (Z.ltb_spec hi (h_price h)); lia).
    apply (f_equal Ok). repeat match goal with |- (_, _) = (_, _) => f_equal end; lia.
Qed.

Lemma foldl_min l a :
  foldl (λ a p, Z.min p a) a l ∈ a :: l ∧ ∀ p, p ∈ a :: l → (foldl (λ a p, Z.min p a) a l ≤ p)%Z.
Proof.
  revert a. induction l as [|x l IH]; intros a; cbn.
  - split; [by left|]. intros p Hp. apply list_elem_of_singleton in Hp. lia.
  - destruct (IH (Z.min x a)) as [Hin Hle]. split.
    + apply elem_of_cons in Hin as [Hin|Hin]; [|by do 2 right].
      destruct (Z.min_spec x a) as [[_ Hm]|[_ Hm]]; rewrite Hin, Hm; [right|]; by left.
    + intros p Hp. assert (foldl (λ a p, Z.min p a) (Z.min x a) l ≤ Z.min x a)%Z by (apply Hle; by left).
      apply elem_of_cons in Hp as [->|[->|Hp]%elem_of_cons]; [lia|lia|]. apply Hle. by right.
Qed.

Lemma foldl_max l a :
  foldl (λ a p, Z.max p a) a l ∈ a :: l ∧ ∀ p, p ∈ a :: l → (p ≤ foldl (λ a p, Z.max p a) a l)%Z.
Proof.
  revert a. induction l as [|x l IH]; intros a; cbn.
  - split; [by left|]. intros p Hp. apply list_elem_of_singleton in Hp. lia.
  - destruct (IH (Z.max x a)) as [Hin Hle]. split.
    + apply elem_of_cons in Hin as [Hin|Hin]; [|by do 2 right].
      destruct (Z.max_spec x a) as [[_ Hm]|[_ Hm]]; rewrite Hin, Hm; [|right]; by left.
    + intros p Hp. assert (Z.max x a ≤ foldl (λ a p, Z.max p a) (Z.max x a) l)%Z by (apply Hle; by left).
      apply elem_of_cons in Hp as [->|[->|Hp]%elem_of_cons]; [lia|lia|]. apply Hle. by right.
Qed.

(** [getItemPriceStats] reports the sales of an item.  When its sale prices
    are positive, below the largest word, and do not overflow when added, the
    call succeeds; the count and the average are those of the sales, the lowest
    and the highest are prices of sales and bound all of them, and an item
    without sales reports zeros. *)
Theorem getItemPriceStats_exact σ id :
  (∀ p, p ∈ sale_prices σ id → 0 < p < uint256_max)%Z →
  (sum_Z Datatypes.id (sale_prices σ id) ≤ uint256_max)%Z →
  ∃ st, getItemPriceStats σ id = Ok st ∧
    totalSales st = Z.of_nat (length (sale_prices σ id)) ∧
    averagePrice st = (sum_Z Datatypes.id (sale_prices σ id) / totalSales st)%Z ∧
    (sale_prices σ id = [] → lowestPrice st = 0%Z ∧ highestPrice st = 0%Z) ∧
    (sale_prices σ id ≠ [] → lowestPrice st ∈ sale_prices σ id ∧ highestPrice st ∈ sale_prices σ id) ∧
    ∀ p, p ∈ sale_prices σ id → (lowestPrice st ≤ p ≤ highestPrice st)%Z.
Proof.
  intros Hp Hsum. unfold getItemPriceStats.
  rewrite stats_loop_run; [|intros p Hin; apply Hp in Hin; lia|exact Hsum].
  fold (sale_prices σ id). set (l := sale_prices σ id) in *. cbn [mbind result_bind].
  destruct (foldl_min l uint256_max) as [Hmi Hml], (foldl_max l 0) as [Hxi Hxl].
  set (lo := foldl _ uint256_max l) in *. set (hi := foldl _ 0%Z l) in *.
  eexists. split; [reflexivity|]. cbn [lowestPrice highestPrice averagePrice totalSales].
  assert (∀ p, p ∈ l → lo ≤ p)%Z as Hlo by (intros p Hin; apply Hml; by right).
  assert (∀ p, p ∈ l → p ≤ hi)%Z as Hhi by (intros p Hin; apply Hxl; by right).
  rewrite !Z.add_0_l. split_and!.
  - done.
  - destruct (Z.ltb_spec 0 (Z.of_nat (length l))); [done|].
    assert (length l = 0) as -> by lia. by rewrite Z.div_0_r.
  - intros Hl. subst lo hi. rewrite Hl. by vm_compute.
  - intros Hl. destruct l as [|p l']; [done|].
    assert (0 < p < uint256_max)%Z by (apply Hp; by left).
    assert (lo ≤ p)%Z by (apply Hlo; by left). assert (p ≤ hi)%Z by (apply Hhi; by left).
    rewrite (proj2 (Z.eqb_neq lo uint256_max)) by lia.
    apply elem_of_cons in Hmi as [?|Hmi]; [lia|]. by apply elem_of_cons in Hxi as [?|Hxi]; [lia|].
  - intros p Hin. specialize (Hp p Hin). split; [|by apply Hhi].
    destruct (Z.eqb_spec lo uint256_max); [lia|]. by apply Hlo.
Qed.

Lemma find_price_loop_app l k targetTime i :
  i ≤ length l → find_price_loop (l ++ k) targetTime i = find_price_loop l targetTime i.
Proof.
  induction i as [|i IH]; intros Hi; [done|]. cbn. unfold array_get.
  rewrite lookup_app_l by lia. destruct (l !! i); [|done]. cbn.
  destruct (_ <=? _)%Z; [done|]. apply IH. lia.
Qed.

(** [_findPriceAtTime] is the price of the last entry that is not later
    than the time asked for, zero without one; it never reads out of bounds. *)
Lemma findPriceAtTime_run history targetTime :
  _findPriceAtTime history targetTime =
    Ok (default 0%Z (h_price <$>
          list.last (filter (λ h, (h_timestamp h <=? targetTime)%Z = true) history))).
Proof.
  unfold _findPriceAtTime.
  induction history as [|h history IH] using rev_ind; [done|].
  rewrite length_app, Nat.add_1_r. cbn [find_price_loop]. unfold array_get.
  rewrite list_lookup_middle by done. cbn [mbind result_bind].
  rewrite find_price_loop_app, filter_snoc by done. case_decide as Hd.
  - by rewrite Hd, list.last_snoc.
  - rewrite app_nil_r. destruct (h_timestamp h <=? targetTime)%Z; [done|]. exact IH.
Qed.

(** ** Witnesses

    A chain whose only state is who owns which token of which contract. *)
Definition demo_tokens := gmap (address * Z) address.
Definition demo_env : ArchiveEnv demo_tokens := {|
  factory_collections := λ _ _ collection, Ok collection;
  factory_updateCollectionStats := λ _ _ _ _, mret tt;
  erc721_transferFrom := λ contract from to token e,
    if bool_decide (e !! (contract, token) = Some from)
    then Ok (tt, <[(contract, token) := to]> e)
    else Err (ERC721IncorrectOwner from token 0%N);
  receives := λ _ _, true
|}.

(** Runs a list of transactions, checking what [reached] asks of them. *)
Fixpoint demo_run (l : list (msg * call)) (t : Z) (s : AState demo_tokens)
    : option (Z * AState demo_tokens) :=
  match l with
  | [] => Some (t, s)
  | (m, c) :: l =>
      if (t <=? block_timestamp m)%Z && bool_decide (msg_sender m ≠ 0%N) && (0 <=? msg_value m)%Z
         && match c with
            | CCreateMarketSale _ id => (0 <=? id)%Z && (id <? _itemIds (a_store s))%Z
            | _ => true
            end
      then match exec (ArchiveEnv0 := demo_env) 99%N m c s with
           | Ok (tt, s') => demo_run l (block_timestamp m) s'
           | Err _ => None
           end
      else None
  end.

Lemma demo_run_reached d f l t s t' s' :
  reached (ArchiveEnv0 := demo_env) 99%N d f t s → demo_run l t s = Some (t', s') →
  reached (ArchiveEnv0 := demo_env) 99%N d f t' s'.
Proof.
  revert t s. induction l as [|[m c] l IH]; intros t s Hr H; cbn in H; [by simplify_eq|].
  destruct (_ && _) eqn:Hg in H; [|done]. bool_to_prop.
  destruct (exec _ _ _ _) as [[[] s1]|] eqn:Hx in H; [|done].
  apply (IH (block_timestamp m) s1); [|done].
  apply (reached_exec (ArchiveEnv0 := demo_env) _ d f t s m c s1); try done.
  destruct c; cbn; try done. bool_to_prop. lia.
Qed.

(** Account 10 lists token 0 and auctions token 3 of collection 7; account 12
    outbids account 11. *)
Definition demo_msg (sender : address) (value time : Z) : msg :=
  {| msg_sender := sender; msg_value := value; block_timestamp := time |}.
Definition demo_start : AState demo_tokens :=
  Build_AState (init 1 50) 0 [] {[(7%N, 0%Z) := 10%N; (7%N, 3%Z) := 10%N]} [].
Definition demo_history : list (msg * call) :=
  [(demo_msg 10 LISTING_PRICE 100, CCreateMarketItem 7 0 (10 ^ 17));
   (demo_msg 10 LISTING_PRICE 100, CCreateAuction 7 3 (10 ^ 17));
   (demo_msg 11 (5 * 10 ^ 17) 110, CPlaceBid 1);
   (demo_msg 12 (6 * 10 ^ 17) 120, CPlaceBid 1)].
Definition demo_state : AState demo_tokens :=
  match demo_run demo_history 0 demo_start with Some (_, s) => s | None => demo_start end.

Lemma demo_reached : reached (ArchiveEnv0 := demo_env) 99%N 1%N 50%N 120%Z demo_state.
Proof.
  apply (demo_run_reached 1 50 demo_history 0 demo_start 120 demo_state).
  - apply (reached_deploy (ArchiveEnv0 := demo_env)).
  - by vm_compute.
Qed.

Lemma withdrawBid_pays_witness :
  ∃ s', exec (ArchiveEnv0 := demo_env) 99%N (demo_msg 11 0 130) (CWithdrawBid 1) demo_state
          = Ok (tt, s') ∧ a_paid s' = [(11%N, 5 * 10 ^ 17)%Z].
Proof.
  destruct (withdrawBid_pays (ArchiveEnv0 := demo_env) 99 1 50 120 demo_state
    (demo_msg 11 0 130) 1 demo_reached) as (s' & H & Hp & _); [by vm_compute..|].
  exists s'. split; [exact H|]. rewrite Hp. by vm_compute.
Defined.

Lemma pages_exact_witness :
  fetchMarketItems (a_store demo_state) =
    Ok [item_at (a_store demo_state) 0; item_at (a_store demo_state) 1].
Proof.
  destruct (pages_exact (ArchiveEnv0 := demo_env) 99 1 50 120 demo_state
    (demo_msg 11 0 130) demo_reached) as [H _].
  etransitivity; [exact H|]. by vm_compute.
Defined.

Lemma phantom_sale_witness :
  ∃ s', exec (ArchiveEnv0 := demo_env) 99%N (demo_msg 66 0 130) (CCreateMarketSale 7 5) demo_state
          = Ok (tt, s') ∧ a_env s' !! (7%N, 0%Z) = Some 66%N.
Proof.
  destruct (phantom_sale (ArchiveEnv0 := demo_env) 99 1 50 120 demo_state (demo_msg 66 0 130)
    7 5 (<[(7%N, 0%Z) := 66%N]> (a_env demo_state)) (<[(7%N, 0%Z) := 66%N]> (a_env demo_state))
    demo_reached) as (s' & H & He & _); [by vm_compute..|].
  exists s'. split; [exact H|]. rewrite He. by vm_compute.
Defined.

Lemma lower_bid_wins_witness :
  ∃ s', exec (ArchiveEnv0 := demo_env) 99%N (demo_msg 13 (2 * 10 ^ 17) 130) (CPlaceBid 1) demo_state
          = Ok (tt, s') ∧ highestBidder (item_at (a_store s') 1) = 13%N.
Proof.
  destruct (lower_bid_wins (ArchiveEnv0 := demo_env) 99 1 50 120 demo_state
    (demo_msg 13 (2 * 10 ^ 17) 130) 1 demo_reached) as (s' & H & Hb & _); [by vm_compute..|].
  exists s'. split; [exact H|exact Hb].
Defined.

(** Account 14 buys token 0. *)
Definition demo_sold : AState demo_tokens :=
  match demo_run [(demo_msg 14 (10 ^ 17) 130, CCreateMarketSale 7 0)] 120 demo_state with
  | Some (_, s) => s | None => demo_state
  end.

Lemma getItemPriceStats_exact_witness :
  ∃ st, getItemPriceStats (a_store demo_sold) 0 = Ok st ∧ totalSales st = 1%Z ∧
    (lowestPrice st ≤ 10 ^ 17 ≤ highestPrice st)%Z.
Proof.
  assert (sale_prices (a_store demo_sold) 0 = [10 ^ 17]%Z) as Hs by by vm_compute.
  destruct (getItemPriceStats_exact (a_store demo_sold) 0) as (st & H & Ht & _ & _ & _ & Hb).
  - intros p Hp. rewrite Hs in Hp. apply list_elem_of_singleton in Hp as ->. clear Hs; split; reflexivity.
  - by vm_compute.
  - exists st. rewrite Hs in Ht, Hb. split; [exact H|]. split; [exact Ht|].
    exact (Hb _ (list_elem_of_here _ _)).
Defined.
