(* ===== verification/ArchiveHistory.v ===== *)
(** * The life of an item of the archived marketplace

    What a call does to one item and its price history ([item_change]), the
    story an item's history tells in every reached state, what the price views
    answer from it, and what can no longer happen to an item once it is sold. *)

From Stdlib Require Import ZArith Lia Sorting.Sorted.
From stdpp Require Import base list gmap strings numbers.
From S2P Require Import Prelude Evm Archive ArchiveFacts ArchiveSafety.

(** ** One item, one call *)

(** [item_change m i l i' l']: during a call with message [m] an item goes from
    [i] to [i'] and its price history from [l] to [l']. *)
Inductive item_change (m : msg) (i : MarketItem) (l : list PriceHistory)
  : MarketItem → list PriceHistory → Prop :=
| ch_none : item_change m i l i l
| ch_bought : isAuction i = false → sold i = false →
    item_change m i l (with_sale (msg_sender m) i)
      (l ++ [sale_entry (block_timestamp m) (msg_sender m) i])
| ch_bid : isAuction i = true → (block_timestamp m < auctionEndTime i)%Z →
    item_change m i l (with_bid (msg_sender m) (msg_value m) i)
      (l ++ [bid_entry (block_timestamp m) (msg_sender m) (msg_value m) i])
| ch_settled buyer : sold i = false →
    item_change m i l (with_sale buyer i) l.

(** What a call creates, with the first entries of its history. *)
Inductive item_created (m : msg) : MarketItem → list PriceHistory → Prop :=
| cr_listed i : isAuction i = false → sold i = false → highestBidder i = 0%N →
    item_created m i [listing_entry (block_timestamp m) i]
| cr_auctioned i : isAuction i = true → sold i = false → highestBidder i = 0%N →
    item_created m i [].

Definition created (σ : Storage) (id : Z) : Prop := (0 ≤ id < _itemIds σ)%Z.
Definition history (σ : Storage) (id : Z) : list PriceHistory := (_itemPriceHistory σ).[id].

(** An item nobody created has no history. *)
Definition fresh_clean (σ : Storage) : Prop := ∀ id, ¬ created σ id → history σ id = [].

(** Every item of the new storage is an old one that changed, or is new. *)
Definition items_change (m : msg) (σ σ' : Storage) : Prop :=
  (_itemIds σ ≤ _itemIds σ')%Z ∧ fresh_clean σ' ∧
  ∀ id, created σ' id →
    created σ id ∧ item_change m (item_at σ id) (history σ id) (item_at σ' id) (history σ' id) ∨
    ¬ created σ id ∧ item_created m (item_at σ' id) (history σ' id).

Lemma history_push id h σ id' :
  history (push_history id h σ) id' =
    if decide (id = id') then history σ id ++ [h] else history σ id'.
Proof. apply mget_insert. Qed.

(** Storages that have the same items and histories, which is all
    [items_change] looks at. *)
Lemma items_change_same m σ σ' :
  fresh_clean σ → _itemIds σ' = _itemIds σ → _idToMarketItem σ' = _idToMarketItem σ →
  _itemPriceHistory σ' = _itemPriceHistory σ → items_change m σ σ'.
Proof.
  intros Hf En Ei Eh.
  unfold items_change, fresh_clean, created, history, item_at. rewrite En, Ei, Eh.
  split_and!; [done|exact Hf|]. intros id Hid. left. split; [done|constructor].
Qed.

(** One created item changes. *)
Lemma items_change_one m σ σ' id :
  fresh_clean σ → created σ id → _itemIds σ' = _itemIds σ →
  (∀ id', id' ≠ id → item_at σ' id' = item_at σ id' ∧ history σ' id' = history σ id') →
  item_change m (item_at σ id) (history σ id) (item_at σ' id) (history σ' id) →
  items_change m σ σ'.
Proof.
  intros Hf Hid En Hne Hch. unfold items_change, fresh_clean, created. rewrite En.
  split_and!; [done|..].
  - intros id' Hid'. destruct (Hne id') as [_ ->]; [by intros ->|by apply Hf].
  - intros id' Hid'. left. split; [done|].
    destruct (decide (id' = id)) as [->|Hd]; [done|].
    destruct (Hne id' Hd) as [-> ->]. constructor.
Qed.

(** One item is created. *)
Lemma items_change_new m σ σ' :
  fresh_clean σ → (0 ≤ _itemIds σ)%Z → _itemIds σ' = (_itemIds σ + 1)%Z →
  (∀ id', id' ≠ _itemIds σ → item_at σ' id' = item_at σ id' ∧ history σ' id' = history σ id') →
  item_created m (item_at σ' (_itemIds σ)) (history σ' (_itemIds σ)) →
  items_change m σ σ'.
Proof.
  intros Hf H0 En Hne Hcr. unfold items_change, fresh_clean, created. rewrite En.
  split_and!; [lia|..].
  - intros id' Hid'. destruct (Hne id') as [_ ->]; [lia|]. apply Hf. unfold created. lia.
  - intros id' Hid'. destruct (decide (id' = _itemIds σ)) as [->|Hd].
    + right. split; [lia|done].
    + left. split; [lia|]. destruct (Hne id' Hd) as [-> ->]. constructor.
Qed.

(** ** The story of an item *)

(** The history of an item that was created: a listing and perhaps the sale
    that ended it, or the bids of an auction, the last one standing. *)
Inductive story (i : MarketItem) : list PriceHistory → Prop :=
| story_listed t : isAuction i = false → story i [listing_entry t i]
| story_bought t t' : isAuction i = false → sold i = true →
    story i [listing_entry t i; sale_entry t' (owner i) i]
| story_no_bid : isAuction i = true → highestBidder i = 0%N → story i []
| story_bids l t : isAuction i = true →
    Forall (λ h, ∃ t b v, h = bid_entry t b v i) l →
    story i (l ++ [bid_entry t (highestBidder i) (highestBid i) i]).

(** In the order of time, up to [t]. *)
Definition in_order (t : Z) (l : list PriceHistory) : Prop :=
  StronglySorted (λ h h', h_timestamp h ≤ h_timestamp h')%Z l ∧
  Forall (λ h, h_timestamp h ≤ t)%Z l.

Lemma in_order_later t t' l : (t ≤ t')%Z → in_order t l → in_order t' l.
Proof. intros Ht [Hs Hl]. split; [done|]. eapply Forall_impl; [|exact Hl]. cbn. lia. Qed.

Lemma StronglySorted_snoc {A} (R : A → A → Prop) l a :
  StronglySorted R l → Forall (λ b, R b a) l → StronglySorted R (l ++ [a]).
Proof.
  induction 1 as [|b l Hl IH Hb]; intros Ha; cbn; [by repeat constructor|].
  apply Forall_cons_iff in Ha as [Hba Ha]. constructor; [by apply IH|].
  apply Forall_app. by repeat constructor.
Qed.

Lemma in_order_snoc t l h :
  in_order t l → (t ≤ h_timestamp h)%Z → in_order (h_timestamp h) (l ++ [h]).
Proof.
  intros [Hs Hl] Ht. split.
  - apply StronglySorted_snoc; [done|]. eapply Forall_impl; [|exact Hl]. cbn. lia.
  - apply Forall_app. split; [eapply Forall_impl; [|exact Hl]; cbn; lia|by repeat constructor].
Qed.

Record item_ok (t : Z) (i : MarketItem) (l : list PriceHistory) : Prop := {
  ok_story : story i l;
  ok_order : in_order t l
}.

Lemma item_created_ok m i l : item_created m i l → item_ok (block_timestamp m) i l.
Proof.
  destruct 1; split; try by constructor.
  - split; by repeat constructor.
  - split; constructor.
Qed.

(** A story does not look at who bought an item, except when it was bought
    directly. *)
Lemma story_settled buyer i l : sold i = false → story i l → story (with_sale buyer i) l.
Proof.
  intros Hs [t Ha|t t' Ha Hs'|Ha Hh|l' t Ha Hl]; [| |by constructor|].
  - exact (story_listed (with_sale buyer i) t Ha).
  - congruence.
  - exact (story_bids (with_sale buyer i) l' t Ha Hl).
Qed.

Lemma story_change m i l i' l' : item_change m i l i' l' → story i l → story i' l'.
Proof.
  intros [|Ha Hs|Ha _|buyer Hs] H; [done| | |by apply story_settled].
  - destruct H as [t _|t t' _ Hs'|Ha' _|k t Ha' _]; try congruence.
    exact (story_bought (with_sale (msg_sender m) i) t (block_timestamp m) Ha eq_refl).
  - set (j := with_bid _ _ i).
    assert (Forall (λ h, ∃ t b v, h = bid_entry t b v j) l) as Hl.
    { destruct H as [t Ha'|t t' Ha'|_ _|k t _ Hk]; try congruence; [constructor|].
      apply Forall_app. split; [exact Hk|]. constructor; [by do 3 eexists|constructor]. }
    exact (story_bids j l (block_timestamp m) Ha Hl).
Qed.

Lemma item_change_ok t m i l i' l' :
  (t ≤ block_timestamp m)%Z → item_change m i l i' l' → item_ok t i l →
  item_ok (block_timestamp m) i' l'.
Proof.
  intros Ht Hc [Hs Ho]. split; [by eapply story_change|].
  destruct Hc; try (eapply in_order_later; [exact Ht|done]).
  - by apply (in_order_snoc t _ (sale_entry _ _ _)).
  - by apply (in_order_snoc t _ (bid_entry _ _ _ _)).
Qed.

(** The invariant of a storage at time [t]. *)
Definition histories_ok (t : Z) (σ : Storage) : Prop :=
  fresh_clean σ ∧ ∀ id, created σ id → item_ok t (item_at σ id) (history σ id).

Lemma items_change_ok t m σ σ' :
  (t ≤ block_timestamp m)%Z → items_change m σ σ' → histories_ok t σ →
  histories_ok (block_timestamp m) σ'.
Proof.
  intros Ht (_ & Hf & Hc) [_ Hok]. split; [done|]. intros id Hid.
  destruct (Hc id Hid) as [[Hold Hch]|[_ Hcr]].
  - eapply item_change_ok; [done..|by apply Hok].
  - by apply item_created_ok.
Qed.

(** ** What the price views read in it *)

Lemma stats_loop_no_sale l lo hi total n :
  Forall (λ h, is_sale_action (h_actionType h) = false) l →
  stats_loop l lo hi total n = Ok (lo, hi, total, n).
Proof. induction 1 as [|h l Hh Hl IH]; [done|]. cbn. by rewrite Hh. Qed.

(** Statistics without a sale, and with one sale at [p]. *)
Definition no_sale : PriceStats :=
  {| lowestPrice := 0; highestPrice := 0; averagePrice := 0; totalSales := 0 |}.
Definition one_sale (p : Z) : PriceStats :=
  {| lowestPrice := p; highestPrice := p; averagePrice := p; totalSales := 1 |}.
Definition has_sale (l : list PriceHistory) : bool :=
  existsb (λ h, is_sale_action (h_actionType h)) l.

Lemma has_sale_false l : Forall (λ h, is_sale_action (h_actionType h) = false) l → has_sale l = false.
Proof. induction 1 as [|h l Hh Hl IH]; [done|]. cbn. by rewrite Hh. Qed.

Lemma bids_no_sale i l t b v :
  Forall (λ h, ∃ t b v, h = bid_entry t b v i) l →
  Forall (λ h, is_sale_action (h_actionType h) = false) (l ++ [bid_entry t b v i]).
Proof.
  intros Hl. apply Forall_app. split; [|by repeat constructor].
  eapply Forall_impl; [|exact Hl]. by intros h (t' & b' & v' & ->).
Qed.

Lemma story_has_sale i l : story i l → has_sale l = true → isAuction i = false ∧ sold i = true.
Proof.
  intros [t Ha|t t' Ha Hs|Ha Hh|k t Ha Hk]; [done|done|done|].
  by rewrite has_sale_false by by apply bids_no_sale.
Qed.

Lemma getItemPriceStats_no_sale σ id :
  has_sale (history σ id) = false → getItemPriceStats σ id = Ok no_sale.
Proof.
  intros Hs. unfold getItemPriceStats. fold (history σ id).
  rewrite stats_loop_no_sale; [done|]. revert Hs. generalize (history σ id).
  induction l as [|h l IH]; [constructor|]. cbn. intros [Hh Hl]%orb_false_iff.
  constructor; [exact Hh|by apply IH].
Qed.

Lemma getItemPriceStats_story σ id :
  story (item_at σ id) (history σ id) → (0 < price (item_at σ id) < uint256_max)%Z →
  getItemPriceStats σ id =
    Ok (if has_sale (history σ id) then one_sale (price (item_at σ id)) else no_sale).
Proof.
  intros H Hp. destruct (has_sale (history σ id)) eqn:Hs; [|by apply getItemPriceStats_no_sale].
  unfold getItemPriceStats. fold (history σ id). revert H Hs Hp.
  generalize (item_at σ id), (history σ id).
  intros i l [t Ha|t t' Ha Hsold|Ha Hh|k t Ha Hk] Hs Hp; [done| |done|].
  - cbn -[uint256_max Z.add]. rewrite !Z.add_0_l.
    rewrite (proj2 (Z.ltb_lt (price i) uint256_max)), (proj2 (Z.ltb_lt 0 (price i))) by lia.
    rewrite (proj2 (Z.leb_le (price i) uint256_max)) by lia. cbn -[uint256_max].
    rewrite (proj2 (Z.eqb_neq (price i) uint256_max)), Z.div_1_r by lia. done.
  - by rewrite has_sale_false in Hs by by apply bids_no_sale.
Qed.

(** A history in order splits at every time. *)
Lemma in_order_split t l target :
  in_order t l →
  ∃ before after, l = before ++ after ∧
    filter (λ h, (h_timestamp h <=? target)%Z = true) l = before ∧
    Forall (λ h, h_timestamp h ≤ target)%Z before ∧ Forall (λ h, target < h_timestamp h)%Z after.
Proof.
  intros [Hs _]. induction Hs as [|h l Hs IH Hh]; [by exists [], []|].
  rewrite filter_cons. destruct (Z.leb_spec (h_timestamp h) target) as [Hle|Hlt].
  - destruct IH as (b & a & -> & Hf & Hb & Ha). exists (h :: b), a.
    rewrite Hf. split_and!; [done|done|by constructor|done].
  - exists [], (h :: l).
    assert (Forall (λ h', target < h_timestamp h')%Z (h :: l)) as Hall.
    { constructor; [done|]. eapply Forall_impl; [|exact Hh]. cbn. lia. }
    split_and!; [done| |constructor|exact Hall].
    rewrite decide_False by done. apply Forall_cons_iff in Hall as [_ Hall].
    clear -Hall. induction Hall as [|h' l Hh' _ IH]; [done|]. rewrite filter_cons.
    rewrite decide_False; [exact IH|]. apply not_true_iff_false, Z.leb_gt, Hh'.
Qed.

(** ** What stays of an item *)

(** Its terms: everything but the standing bid and the sale. *)
Definition same_terms (i i' : MarketItem) : Prop :=
  itemId i' = itemId i ∧ nftContract i' = nftContract i ∧ tokenId i' = tokenId i ∧
  seller i' = seller i ∧ price i' = price i ∧ isAuction i' = isAuction i ∧
  auctionEndTime i' = auctionEndTime i.

(** No bid is taken any more at time [t]. *)
Definition closed (t : Z) (i : MarketItem) : Prop :=
  isAuction i = true → (auctionEndTime i ≤ t)%Z.

(** [kept t i l i' l']: from time [t] on, [i] with history [l] became [i'] with
    history [l']. *)
Record kept (t : Z) (i : MarketItem) (l : list PriceHistory) (i' : MarketItem)
    (l' : list PriceHistory) : Prop := {
  kept_terms : same_terms i i';
  kept_history : l `prefix_of` l';
  kept_sold : sold i = true → sold i' = true ∧ owner i' = owner i;
  kept_closed : sold i = true → closed t i → i' = i ∧ l' = l
}.

Lemma kept_refl t i l : kept t i l i l.
Proof. by split. Qed.

Lemma kept_trans t1 t2 i1 l1 i2 l2 i3 l3 :
  (t1 ≤ t2)%Z → kept t1 i1 l1 i2 l2 → kept t2 i2 l2 i3 l3 → kept t1 i1 l1 i3 l3.
Proof.
  intros Ht [T1 P1 S1 C1] [T2 P2 S2 C2]. split.
  - unfold same_terms in *. intuition congruence.
  - by etrans.
  - intros [Hs Ho]%S1. apply S2 in Hs as [Hs' Ho']. split; congruence.
  - intros Hs Hc. destruct (C1 Hs Hc) as [-> ->]. apply C2; [done|].
    intros Ha. specialize (Hc Ha). lia.
Qed.

Lemma item_change_kept t m i l i' l' :
  (t ≤ block_timestamp m)%Z → item_change m i l i' l' → kept t i l i' l'.
Proof.
  intros Ht [|Ha Hs|Ha Hend|buyer Hs]; [apply kept_refl|..]; split;
    try done; try congruence; try by eexists.
  intros Hs Hc. specialize (Hc Ha). lia.
Qed.

(** The calls that would sell item [id]. *)
Definition sells (id : Z) (c : call) : Prop :=
  match c with
  | CCreateMarketSale _ id' | CEndAuction id' | CAcceptOffer id' _ => id' = id
  | _ => False
  end.

Section life.
Context {E : Type} `{!ArchiveEnv E} (this : address).
Implicit Types (s : AState E) (m : msg).

(** Reading items and histories after the writes of a call. *)
Ltac read_item :=
  intros; unfold history, item_at, settle, create_item; cbn;
  rewrite ?mget_insert_ne, ?mget_insert_eq by done; try done.

Lemma exec_changes m c s s' :
  wf (a_store s) → fresh_clean (a_store s) → msg_sender m ≠ 0%N → names_item s c →
  exec this m c s = Ok (tt, s') → items_change m (a_store s) (a_store s').
Proof.
  intros W Hf Hm Hn H. pose proof (wf_ids _ W) as [H0 _].
  assert (Hnew : (_itemPriceHistory (a_store s)).[_itemIds (a_store s)] = [])
    by (apply Hf; unfold created; lia).
  destruct c; cbn in H, Hn.
  - apply archived_createMarketItem_Ok in H as (v & Es & _ & _ & _ & Ha & Hh & _ & Hv & _).
    apply items_change_new; rewrite ?Es; try done; read_item.
    rewrite Hnew. by constructor.
  - apply archived_createMarketSale_Ok in H as (Ha & _ & Hs & Es & _).
    apply (items_change_one _ _ _ id); rewrite ?Es; try done; read_item. by constructor.
  - apply archived_createAuction_Ok in H as (v & Es & _ & _ & _ & Ha & Hh & _ & Hv & _).
    apply items_change_new; rewrite ?Es; try done; read_item.
    rewrite Hnew. by constructor.
  - apply archived_placeBid_Ok in H as (Ha & Ht & _ & _ & _ & σ & Es & Hσ).
    apply (items_change_one _ _ _ id); rewrite ?Es; try done; [by apply auction_created| | |];
      destruct Hσ as [[_ ->]|[_ ->]]; read_item; by constructor.
  - apply archived_endAuction_Ok in H as (_ & Ha & _ & Hs & Es & _).
    apply (items_change_one _ _ _ id); rewrite ?Es; try done; [by apply auction_created|..];
      read_item. by constructor.
  - apply archived_withdrawBid_Ok in H as (_ & Es & _). by apply items_change_same; rewrite ?Es.
  - apply archived_makeOffer_Ok in H as (_ & _ & _ & _ & Es & _).
    by apply items_change_same; rewrite ?Es.
  - apply archived_acceptOffer_Ok in H as (o & _ & Hsel & Hs & _ & Es & _).
    apply (items_change_one _ _ _ id); rewrite ?Es; try done; [|read_item..].
    + apply dec_stable. intros Hid. by rewrite (wf_fresh _ W id Hid) in Hsel.
    + by constructor.
  - apply archived_transferOwnership_Ok in H as (_ & Es & _).
    by apply items_change_same; rewrite ?Es.
  - apply archived_renounceOwnership_Ok in H as (_ & Es & _).
    by apply items_change_same; rewrite ?Es.
Qed.

Lemma reached_histories deployer factory t s :
  reached this deployer factory t s → histories_ok t (a_store s).
Proof.
  induction 1 as [t e|t s m c s' Hr IH Ht Hm Hv Hn H|t s t' b e Hr [Hf Hok] Ht Hb].
  - split; [done|]. intros id Hid. unfold created in Hid. cbn in Hid. lia.
  - apply reached_good in Hr as (W & _). eapply items_change_ok; [done| |done].
    eapply exec_changes; [done|apply IH|done..].
  - split; [exact Hf|]. intros id Hid. destruct (Hok id Hid) as [Hs Ho].
    split; [done|by eapply in_order_later].
Qed.

(** C30: in any history of the archived contract whose sales name created items,
    the price history of an item tells the story of the item, in the order of time
    and nothing later than now: an item nobody created has none; a fixed-price item has its listing, followed at most by
    one direct sale, by its seller to its owner; an auction has its bids and
    nothing else, the last one standing on the item. *)
Theorem history_tells_story deployer factory t s id :
  reached this deployer factory t s →
  (¬ created (a_store s) id → fetchPriceHistory (a_store s) id = []) ∧
  (created (a_store s) id →
     story (fetchMarketItem (a_store s) id) (fetchPriceHistory (a_store s) id) ∧
     in_order t (fetchPriceHistory (a_store s) id)).
Proof.
  intros [Hf Hok]%reached_histories. split; [apply Hf|]. by intros [Hs Ho]%Hok.
Qed.

(** Ending an auction or accepting an offer records nothing. *)
Lemma settled_history m c s s' id :
  c = CEndAuction id ∨ (∃ k, c = CAcceptOffer id k) → exec this m c s = Ok (tt, s') →
  sold (item_at (a_store s) id) = false ∧ history (a_store s') id = history (a_store s) id.
Proof.
  intros [->|[k ->]] H; cbn in H.
  - apply archived_endAuction_Ok in H as (_ & _ & _ & Hs & Es & _). by rewrite Es.
  - apply archived_acceptOffer_Ok in H as (o & _ & _ & Hs & _ & Es & _). by rewrite Es.
Qed.

(** In every reached state the price statistics of a created item report at
    most one sale, the direct one, at the asking price; then the item is sold
    and was no auction.  Ending an auction or accepting an offer leaves the
    statistics without any sale, although the code means to count them. *)
Theorem price_stats_of_item deployer factory t s id :
  let item := item_at (a_store s) id in
  reached this deployer factory t s → created (a_store s) id →
  (0 < price item < uint256_max)%Z →
  getItemPriceStats (a_store s) id =
    Ok (if has_sale (fetchPriceHistory (a_store s) id) then one_sale (price item) else no_sale) ∧
  (has_sale (fetchPriceHistory (a_store s) id) = true → isAuction item = false ∧ sold item = true) ∧
  (∀ m c s', c = CEndAuction id ∨ (∃ k, c = CAcceptOffer id k) →
     exec this m c s = Ok (tt, s') → getItemPriceStats (a_store s') id = Ok no_sale).
Proof.
  intros item [_ Hok]%reached_histories [Hs _]%Hok Hp. split_and!.
  - by apply getItemPriceStats_story.
  - by apply story_has_sale.
  - intros m c s' Hc H. destruct (settled_history _ _ _ _ _ Hc H) as [Hsold Hh].
    apply getItemPriceStats_no_sale. rewrite Hh. apply not_true_iff_false. intros Hx.
    destruct (story_has_sale _ _ Hs Hx) as [_ Hy]. congruence.
Qed.

(** [_findPriceAtTime] answers the price in force: it cuts the history of an
    item in two, what was recorded up to the time asked for and what came
    after, and gives the price of the last entry of the first part, zero when
    there is none. *)
Theorem price_in_force deployer factory t s id target :
  reached this deployer factory t s →
  ∃ before after, fetchPriceHistory (a_store s) id = before ++ after ∧
    Forall (λ h, h_timestamp h ≤ target)%Z before ∧
    Forall (λ h, target < h_timestamp h)%Z after ∧
    _findPriceAtTime (fetchPriceHistory (a_store s) id) target =
      Ok (default 0%Z (h_price <$> list.last before)).
Proof.
  intros [Hf Hok]%reached_histories.
  assert (in_order t (fetchPriceHistory (a_store s) id)) as Ho.
  { destruct (decide (created (a_store s) id)) as [Hid|Hid]; [by apply Hok|].
    change (in_order t (history (a_store s) id)). rewrite (Hf id Hid). split; constructor. }
  destruct (in_order_split t _ target Ho) as (b & a & Hl & Hb & Hb1 & Ha).
  exists b, a. split_and!; [done..|]. by rewrite findPriceAtTime_run, Hb.
Qed.

(** [later t0 s0 t s]: from state [s0] at time [t0] the contract came to state
    [s] at time [t], as [reached] goes. *)
Inductive later (t0 : Z) (s0 : AState E) : Z → AState E → Prop :=
| later_now : later t0 s0 t0 s0
| later_exec t s m c s' :
    later t0 s0 t s → (t ≤ block_timestamp m)%Z → msg_sender m ≠ 0%N →
    (0 ≤ msg_value m)%Z → names_item s c → exec this m c s = Ok (tt, s') →
    later t0 s0 (block_timestamp m) s'
| later_wait t s t' b e :
    later t0 s0 t s → (t ≤ t')%Z → (a_balance s ≤ b)%Z →
    later t0 s0 t' (Build_AState (a_store s) b (a_paid s) e (a_logs s)).

Lemma later_reached deployer factory t0 s0 t s :
  reached this deployer factory t0 s0 → later t0 s0 t s → reached this deployer factory t s.
Proof. intros Hr. induction 1; [done|by eapply reached_exec|by eapply reached_wait]. Qed.

Lemma later_time t0 s0 t s : later t0 s0 t s → (t0 ≤ t)%Z.
Proof. induction 1; lia. Qed.

Lemma later_kept deployer factory t0 s0 t s id :
  reached this deployer factory t0 s0 → later t0 s0 t s → created (a_store s0) id →
  created (a_store s) id ∧
  kept t0 (item_at (a_store s0) id) (history (a_store s0) id)
          (item_at (a_store s) id) (history (a_store s) id).
Proof.
  intros Hr Hl Hid. induction Hl as [|t s m c s' Hl [Hids Hk] Ht Hm Hv Hn H|t s t' b e Hl IH];
    [by split; [|apply kept_refl]| |exact IH].
  pose proof (later_reached _ _ _ _ _ _ Hr Hl) as Hs.
  pose proof (reached_histories _ _ _ _ Hs) as [Hf _].
  pose proof (reached_good _ _ _ _ _ Hs) as (W & _).
  destruct (exec_changes m c s s' W Hf Hm Hn H) as (Hn' & _ & Hch).
  assert (Hid' : created (a_store s') id) by (unfold created in *; lia).
  split; [done|]. destruct (Hch id Hid') as [[_ Hc]|[Hx _]]; [|done].
  eapply kept_trans; [by eapply later_time|done|by eapply item_change_kept].
Qed.

Lemma sold_not_resold m c s id :
  sold (item_at (a_store s) id) = true → sells id c → is_ok (exec this m c s) = false.
Proof.
  intros Hs Hc. destruct (exec this m c s) as [[[] s']|] eqn:H; [exfalso|done].
  destruct c; cbn in Hc; try done; subst; cbn in H.
  - apply archived_createMarketSale_Ok in H as (_ & _ & H & _). congruence.
  - apply archived_endAuction_Ok in H as (_ & _ & _ & H & _). congruence.
  - apply archived_acceptOffer_Ok in H as (? & _ & _ & H & _). congruence.
Qed.

(** C29: in any history of the archived contract whose sales name created items,
    an item that was created keeps its terms (seller, token, price, kind, end of
    the auction) and its price history only grows; once it is sold it stays sold
    to the same owner, whoever makes the later calls: every call that would sell
    it again reverts; and once no bid is taken either, nothing about it changes
    any more. *)
Theorem sold_item_final deployer factory t0 s0 t s id :
  let item := item_at (a_store s0) id in
  let item' := item_at (a_store s) id in
  reached this deployer factory t0 s0 → created (a_store s0) id → later t0 s0 t s →
  same_terms item item' ∧
  fetchPriceHistory (a_store s0) id `prefix_of` fetchPriceHistory (a_store s) id ∧
  (sold item = true →
     sold item' = true ∧ owner item' = owner item ∧
     (∀ m c, sells id c → is_ok (exec this m c s) = false) ∧
     (closed t0 item →
        item' = item ∧ fetchPriceHistory (a_store s) id = fetchPriceHistory (a_store s0) id)).
Proof.
  intros item item' Hr Hid Hl.
  destruct (later_kept _ _ _ _ _ _ id Hr Hl Hid) as [_ [Ht Hp Hs Hc]].
  split_and!; [done..|]. intros Hsold. destruct (Hs Hsold) as [Hsold' Ho].
  split_and!; [done|done| |by apply Hc]. intros m c. by apply sold_not_resold.
Qed.

(** *** A bid that is lost *)

(** The refund counter of an item only grows with a bid on it. *)
Lemma exec_pending m c s s' id a :
  wf (a_store s) → closed (block_timestamp m) (item_at (a_store s) id) →
  exec this m c s = Ok (tt, s') →
  ((_auctionPendingReturns (a_store s')).[(id, a)] ≤ (_auctionPendingReturns (a_store s)).[(id, a)])%Z.
Proof.
  intros W Hc H. destruct c; cbn in H.
  - apply archived_createMarketItem_Ok in H as (v & Es & _). by rewrite Es.
  - apply archived_createMarketSale_Ok in H as (_ & _ & _ & Es & _). by rewrite Es.
  - apply archived_createAuction_Ok in H as (v & Es & _). by rewrite Es.
  - apply archived_placeBid_Ok in H as (Ha & Hend & _ & _ & _ & σ & Es & Hσ). rewrite Es.
    destruct Hσ as [[_ ->]|[_ ->]]; cbn; [done|]. rewrite mget_insert.
    case_decide as Hd; [|done]. injection Hd as <- _. specialize (Hc Ha). lia.
  - apply archived_endAuction_Ok in H as (_ & _ & _ & _ & Es & _). by rewrite Es.
  - apply archived_withdrawBid_Ok in H as (_ & Es & _). rewrite Es. cbn. rewrite mget_insert.
    case_decide; [apply W|done].
  - apply archived_makeOffer_Ok in H as (_ & _ & _ & _ & Es & _). by rewrite Es.
  - apply archived_acceptOffer_Ok in H as (o & _ & _ & _ & _ & Es & _). by rewrite Es.
  - apply archived_transferOwnership_Ok in H as (_ & Es & _). by rewrite Es.
  - apply archived_renounceOwnership_Ok in H as (_ & Es & _). by rewrite Es.
Qed.

Lemma later_pending deployer factory t0 s0 t s id a :
  reached this deployer factory t0 s0 → created (a_store s0) id →
  closed t0 (item_at (a_store s0) id) → later t0 s0 t s →
  ((_auctionPendingReturns (a_store s)).[(id, a)] ≤ (_auctionPendingReturns (a_store s0)).[(id, a)])%Z.
Proof.
  intros Hr Hid Hc Hl.
  induction Hl as [|t s m c s' Hl IH Ht Hm Hv Hn H|t s t' b e Hl IH]; [done| |exact IH].
  etrans; [|exact IH]. destruct (later_kept _ _ _ _ _ _ id Hr Hl Hid) as [_ [Hterms _ _ _]].
  destruct (reached_good _ _ _ _ _ (later_reached _ _ _ _ _ _ Hr Hl)) as (W & _).
  eapply exec_pending; [done| |done]. pose proof (later_time _ _ _ _ Hl).
  destruct Hterms as (_ & _ & _ & _ & _ & Ha & He). unfold closed in *. rewrite Ha, He.
  intros Hauction. specialize (Hc Hauction). lia.
Qed.

(** The bid that stands on a finished auction whose item went to somebody whose
    offer was accepted is lost.  Ever after, [endAuction], which alone pays a
    standing bid out, reverts; the item keeps naming the bidder and the bid;
    and nothing is added to what the bidder can withdraw. *)
Theorem offer_strands_bid deployer factory t0 s0 t s id :
  let item := item_at (a_store s0) id in
  reached this deployer factory t0 s0 → created (a_store s0) id →
  sold item = true → closed t0 item → later t0 s0 t s →
  (∀ m, is_ok (exec this m (CEndAuction id) s) = false) ∧
  item_at (a_store s) id = item ∧
  ((_auctionPendingReturns (a_store s)).[(id, highestBidder item)] ≤
   (_auctionPendingReturns (a_store s0)).[(id, highestBidder item)])%Z.
Proof.
  intros item Hr Hid Hs Hc Hl.
  destruct (later_kept _ _ _ _ _ _ id Hr Hl Hid) as [_ [_ _ Hsold Hcl]]. split_and!.
  - intros m. apply (sold_not_resold m (CEndAuction id) s id); [by apply Hsold|done].
  - by apply Hcl.
  - by eapply later_pending.
Qed.
End life.

(** ** Witnesses *)

(** Closes a goal about a concrete state by evaluation alone. *)
Ltac by_eval := vm_compute; repeat split; first [reflexivity | intros; discriminate].

Abbreviation demo_later := (later (ArchiveEnv0 := demo_env) 99%N).

Lemma demo_sold_reached : reached (ArchiveEnv0 := demo_env) 99%N 1%N 50%N 130%Z demo_sold.
Proof.
  apply (demo_run_reached 1 50 [(demo_msg 14 (10 ^ 17) 130, CCreateMarketSale 7 0)]
    120 demo_state); [apply demo_reached|]. by vm_compute.
Qed.

Lemma history_tells_story_witness :
  story (fetchMarketItem (a_store demo_sold) 0) (fetchPriceHistory (a_store demo_sold) 0) ∧
  length (fetchPriceHistory (a_store demo_sold) 0) = 2 ∧
  story (fetchMarketItem (a_store demo_sold) 1) (fetchPriceHistory (a_store demo_sold) 1) ∧
  length (fetchPriceHistory (a_store demo_sold) 1) = 2 ∧
  fetchPriceHistory (a_store demo_sold) 2 = [].
Proof.
  assert (C0 : created (a_store demo_sold) 0) by by_eval.
  assert (C1 : created (a_store demo_sold) 1) by by_eval.
  assert (C2 : (_itemIds (a_store demo_sold) ≤ 2)%Z) by by_eval.
  assert (L0 : length (fetchPriceHistory (a_store demo_sold) 0) = 2) by by_eval.
  assert (L1 : length (fetchPriceHistory (a_store demo_sold) 1) = 2) by by_eval.
  destruct (history_tells_story (ArchiveEnv0 := demo_env) 99 1 50 130 demo_sold 0
    demo_sold_reached) as [_ H0].
  destruct (history_tells_story (ArchiveEnv0 := demo_env) 99 1 50 130 demo_sold 1
    demo_sold_reached) as [_ H1].
  destruct (history_tells_story (ArchiveEnv0 := demo_env) 99 1 50 130 demo_sold 2
    demo_sold_reached) as [H2 _].
  split; [exact (proj1 (H0 C0))|]. split; [exact L0|].
  split; [exact (proj1 (H1 C1))|]. split; [exact L1|].
  apply H2. unfold created. lia.
Defined.

Lemma price_stats_of_item_witness :
  getItemPriceStats (a_store demo_sold) 0 = Ok (one_sale (10 ^ 17)) ∧
  getItemPriceStats (a_store demo_sold) 1 = Ok no_sale.
Proof.
  assert (C0 : created (a_store demo_sold) 0) by by_eval.
  assert (C1 : created (a_store demo_sold) 1) by by_eval.
  assert (P0 : price (item_at (a_store demo_sold) 0) = (10 ^ 17)%Z) by by_eval.
  assert (P1 : price (item_at (a_store demo_sold) 1) = (10 ^ 17)%Z) by by_eval.
  assert (S0 : has_sale (fetchPriceHistory (a_store demo_sold) 0) = true) by by_eval.
  assert (S1 : has_sale (fetchPriceHistory (a_store demo_sold) 1) = false) by by_eval.
  assert (Hp : (0 < 10 ^ 17 < uint256_max)%Z) by by_eval.
  split.
  - destruct (price_stats_of_item (ArchiveEnv0 := demo_env) 99 1 50 130 demo_sold 0
      demo_sold_reached C0) as [H _]; rewrite P0 in *; [exact Hp|]. by rewrite H, S0.
  - destruct (price_stats_of_item (ArchiveEnv0 := demo_env) 99 1 50 130 demo_sold 1
      demo_sold_reached C1) as [H _]; rewrite P1 in *; [exact Hp|]. by rewrite H, S1.
Defined.

(** After the sale account 11 takes its refund. *)
Definition demo_refunded : AState demo_tokens :=
  match demo_run [(demo_msg 11 0 140, CWithdrawBid 1)] 130 demo_sold with
  | Some (_, s) => s | None => demo_sold
  end.

Lemma demo_sold_refunded : demo_later 130%Z demo_sold 140%Z demo_refunded.
Proof.
  apply (later_exec (ArchiveEnv0 := demo_env) 99 130 demo_sold 130 demo_sold
    (demo_msg 11 0 140) (CWithdrawBid 1)); [apply later_now|by vm_compute..].
Qed.

Lemma sold_item_final_witness :
  item_at (a_store demo_refunded) 0 = item_at (a_store demo_sold) 0 ∧
  is_ok (exec (ArchiveEnv0 := demo_env) 99%N (demo_msg 15 (10 ^ 17) 150)
           (CCreateMarketSale 7 0) demo_refunded) = false.
Proof.
  assert (C0 : created (a_store demo_sold) 0) by by_eval.
  assert (S0 : sold (item_at (a_store demo_sold) 0) = true) by by_eval.
  assert (A0 : isAuction (item_at (a_store demo_sold) 0) = false) by by_eval.
  assert (Cl : closed 130 (item_at (a_store demo_sold) 0))
    by (intros Ha; rewrite A0 in Ha; discriminate Ha).
  destruct (sold_item_final (ArchiveEnv0 := demo_env) 99 1 50 130 demo_sold 140 demo_refunded 0
    demo_sold_reached C0 demo_sold_refunded) as (_ & _ & H).
  destruct (H S0) as (_ & _ & Hc & Hf).
  split; [exact (proj1 (Hf Cl))|exact (Hc _ (CCreateMarketSale 7 0) eq_refl)].
Defined.

(** Account 11 offers a little for item 0 before there is one; account 10 then
    auctions token 3 as item 0, account 12 bids, and account 10 accepts the
    offer. *)
Definition demo_stranded_run : list (msg * call) :=
  [(demo_msg 11 (10 ^ 15) 50, CMakeOffer 0 1000);
   (demo_msg 10 LISTING_PRICE 100, CCreateAuction 7 3 (10 ^ 17));
   (demo_msg 12 (5 * 10 ^ 17) 110, CPlaceBid 0);
   (demo_msg 10 0 120, CAcceptOffer 0 0)].
Definition demo_stranded : AState demo_tokens :=
  match demo_run demo_stranded_run 0 demo_start with Some (_, s) => s | None => demo_start end.

(** The offerer has the token; when the auction is over the bidder's ether is in
    the contract and no call of the bidder or anybody brings it back. *)
Example stranded_bid :
  a_env demo_stranded !! (7%N, 3%Z) = Some 11%N ∧
  a_balance demo_stranded = (5 * 10 ^ 17)%Z ∧
  highestBidder (item_at (a_store demo_stranded) 0) = 12%N ∧
  exec (ArchiveEnv0 := demo_env) 99%N (demo_msg 12 0 1000000) (CEndAuction 0) demo_stranded
    = Err (Revert "Auction already ended") ∧
  exec (ArchiveEnv0 := demo_env) 99%N (demo_msg 12 0 1000000) (CWithdrawBid 0) demo_stranded
    = Err (Revert "No funds to withdraw").
Proof. by_eval. Qed.
