(* ===== verification/ArchiveEscrow.v ===== *)
(** * The escrow of the archived marketplace

    With token contracts that behave as ERC721 says ([ArchiveEnvLaws]), the
    contract holds the token of every unsold item, one item per token, so
    neither a sale nor the end of an auction can fail for want of the token. *)

From stdpp Require Import base list gmap strings numbers.
From Stdlib Require Import ZArith Lia.
From S2P Require Import Prelude Evm Archive ArchiveFacts ArchiveSafety ArchiveHistory.

(** ** What the contract relies on

    [token_owner e c id] is [IERC721(c).ownerOf(id)].  A transfer sent by the
    marketplace moves one token, from its owner, and succeeds when the
    marketplace owns the token; recording statistics moves none; neither changes
    which accounts take ether. *)
Class ArchiveEnvLaws (this : address) (E : Type) `{!ArchiveEnv E} := {
  token_owner : E → address → Z → address;
  transferFrom_moves e c from to id u e' :
    erc721_transferFrom c from to id e = Ok (u, e') →
    token_owner e c id = from ∧
    (∀ c' id', token_owner e' c' id' =
       if decide (c = c' ∧ id = id') then to else token_owner e c' id') ∧
    (∀ a, receives e' a = receives e a);
  transferFrom_own e c to id :
    token_owner e c id = this → to ≠ 0%N →
    ∃ e', erc721_transferFrom c this to id e = Ok (tt, e');
  updateCollectionStats_keeps e factory c p b u e' :
    factory_updateCollectionStats factory c p b e = Ok (u, e') →
    (∀ c' id', token_owner e' c' id' = token_owner e c' id') ∧
    (∀ a, receives e' a = receives e a)
}.

Section escrow.
Context {E : Type} `{!ArchiveEnv E} (this : address) `{!ArchiveEnvLaws this E}.
Implicit Types (s : AState E) (m : msg) (e : E).

(** ** The tokens a call moves *)
Definition moves m (c : call) s s' : Prop :=
  let item id := item_at (a_store s) id in
  match c with
  | CCreateMarketItem a token p => ∃ e,
      erc721_transferFrom a (msg_sender m) this token (a_env s) = Ok (tt, e) ∧
      factory_updateCollectionStats (factoryAddress (a_store s)) a p false e = Ok (tt, a_env s') ∧
      nftContract (item_at (a_store s') (_itemIds (a_store s))) = a ∧
      tokenId (item_at (a_store s') (_itemIds (a_store s))) = token
  | CCreateAuction a token _ =>
      erc721_transferFrom a (msg_sender m) this token (a_env s) = Ok (tt, a_env s') ∧
      nftContract (item_at (a_store s') (_itemIds (a_store s))) = a ∧
      tokenId (item_at (a_store s') (_itemIds (a_store s))) = token
  | CCreateMarketSale a id => ∃ e,
      erc721_transferFrom a this (msg_sender m) (tokenId (item id)) (a_env s) = Ok (tt, e) ∧
      factory_updateCollectionStats (factoryAddress (a_store s)) a (price (item id)) true e
        = Ok (tt, a_env s')
  | CEndAuction id =>
      erc721_transferFrom (nftContract (item id)) this
        (if bool_decide (highestBidder (item id) ≠ 0%N) then highestBidder (item id)
         else seller (item id)) (tokenId (item id)) (a_env s) = Ok (tt, a_env s')
  | CAcceptOffer id k => ∃ offer, (_itemOffers (a_store s)).[id] !! k = Some offer ∧
      erc721_transferFrom (nftContract (item id)) this (offer_buyer offer) (tokenId (item id))
        (a_env s) = Ok (tt, a_env s')
  | CPlaceBid _ | CWithdrawBid _ | CMakeOffer _ _ | CTransferOwnership _ | CRenounceOwnership =>
      a_env s' = a_env s
  end.

Ltac units := repeat match goal with x : unit |- _ => destruct x end.

Lemma exec_moves m c s s' : exec this m c s = Ok (tt, s') → moves m c s s'.
Proof.
  intros H. destruct c; cbn in H |- *.
  - unfold createMarketItem in H. open_run H. units. eexists. split_and!; [eassumption..| |];
      unfold item_at; cbn; by rewrite mget_insert_eq.
  - unfold createMarketSale in H. open_run H. units. eexists. split; eassumption.
  - unfold createAuction in H. open_run H. units. split_and!; [eassumption..| |];
      unfold item_at; cbn; by rewrite mget_insert_eq.
  - unfold placeBid in H. open_run H.
    destruct (bool_decide _) in H11; by open_run H11.
  - unfold endAuction in H. open_run H.
    destruct (bool_decide _) in H12 |- *; open_run H12; units; eassumption.
  - unfold withdrawBid in H. by open_run H.
  - unfold makeOffer in H. by open_run H.
  - unfold acceptOffer in H. open_run H. units.
    apply archived_refund_others_Ok in H18 as (_ & He & _). cbn in *. rewrite He.
    eexists. split; [|eassumption].
    unfold array_get in H10. destruct (_ !! offerIndex); [by simplify_eq|done].
  - unfold transferOwnership in H. by open_run H.
  - unfold renounceOwnership in H. by open_run H.
Qed.

(** ** Histories with escrow

    As [reached], with two more conditions: a buyer names the item's own
    collection ([createMarketSale] does not ask), and the rest of the chain
    takes no token the contract holds, which never approves anybody. *)
Definition own_collection s (c : call) : Prop :=
  names_item s c ∧
  match c with CCreateMarketSale a id => a = nftContract (item_at (a_store s) id) | _ => True end.

Inductive escrow_reached (deployer factory : address) : Z → AState E → Prop :=
| er_deploy t e : escrow_reached deployer factory t (Build_AState (init deployer factory) 0 [] e [])
| er_exec t s m c s' :
    escrow_reached deployer factory t s →
    (t ≤ block_timestamp m)%Z → msg_sender m ≠ 0%N → msg_sender m ≠ this → (0 ≤ msg_value m)%Z →
    own_collection s c → exec this m c s = Ok (tt, s') →
    escrow_reached deployer factory (block_timestamp m) s'
| er_wait t s t' b e :
    escrow_reached deployer factory t s → (t ≤ t')%Z → (a_balance s ≤ b)%Z →
    (∀ c id, token_owner (a_env s) c id = this → token_owner e c id = this) →
    escrow_reached deployer factory t' (Build_AState (a_store s) b (a_paid s) e (a_logs s)).

Lemma escrow_reached_reached deployer factory t s :
  escrow_reached deployer factory t s → reached this deployer factory t s.
Proof.
  induction 1 as [t e|t s m c s' _ IH Ht Hm _ Hv [Hn _] H|t s t' b e _ IH Ht Hb _].
  - apply reached_deploy.
  - by eapply reached_exec.
  - by apply (reached_wait this deployer factory t s).
Qed.

(** ** The escrow *)
Definition unsold (σ : Storage) (id : Z) : Prop := created σ id ∧ sold (item_at σ id) = false.
Definition same_token (i j : MarketItem) : Prop :=
  nftContract i = nftContract j ∧ tokenId i = tokenId j.

Record escrowed (σ : Storage) (e : E) : Prop := {
  esc_held id : unsold σ id →
    token_owner e (nftContract (item_at σ id)) (tokenId (item_at σ id)) = this;
  esc_once id id' : unsold σ id → unsold σ id' →
    same_token (item_at σ id) (item_at σ id') → id = id'
}.

Lemma item_change_unsold m i l i' l' :
  item_change m i l i' l' → sold i' = false → sold i = false ∧ same_token i i'.
Proof. by intros [|Ha Hs|Ha Ht|buyer Hs] Hs'. Qed.

(** The items unsold after a call were unsold before, for the same token, or
    are new. *)
Lemma items_change_unsold m σ σ' id :
  items_change m σ σ' → unsold σ' id →
  (unsold σ id ∧ same_token (item_at σ id) (item_at σ' id)) ∨ ¬ created σ id.
Proof.
  intros (_ & _ & Hc) [Hid Hs]. destruct (Hc id Hid) as [[Hold Hch]|[Hnew _]]; [left|by right].
  by destruct (item_change_unsold _ _ _ _ _ Hch Hs).
Qed.

(** A call that creates nothing and moves nothing. *)
Lemma escrowed_still m σ σ' e e' :
  items_change m σ σ' → _itemIds σ' = _itemIds σ →
  (∀ c id, token_owner e c id = this → token_owner e' c id = this) →
  escrowed σ e → escrowed σ' e'.
Proof.
  intros Hch En Hmv [H1 H2].
  assert (Hold : ∀ id, unsold σ' id → unsold σ id ∧ same_token (item_at σ id) (item_at σ' id)).
  { intros id Hu. destruct (items_change_unsold _ _ _ _ Hch Hu) as [|Hn]; [done|].
    destruct Hu as [Hc _]. unfold created in *. by rewrite En in Hc. }
  split.
  - intros id Hu. destruct (Hold id Hu) as [Ho [<- <-]]. by apply Hmv, H1.
  - intros id id' [Ho [E1 E2]]%Hold [Ho' [E1' E2']]%Hold [Es Es']. apply H2; [done..|].
    split; congruence.
Qed.


(** A call that sells item [id]. *)
Lemma escrowed_leave m σ σ' e e' id to :
  items_change m σ σ' → _itemIds σ' = _itemIds σ → unsold σ id → sold (item_at σ' id) = true →
  (∀ c' id', token_owner e' c' id' =
     if decide (nftContract (item_at σ id) = c' ∧ tokenId (item_at σ id) = id') then to
     else token_owner e c' id') →
  escrowed σ e → escrowed σ' e'.
Proof.
  intros Hch En Hu Hs Hmv [H1 H2].
  assert (Hold : ∀ k, unsold σ' k →
    unsold σ k ∧ same_token (item_at σ k) (item_at σ' k) ∧ k ≠ id).
  { intros k Hk. destruct (items_change_unsold _ _ _ _ Hch Hk) as [[??]|Hn].
    - split_and!; [done..|]. intros ->. destruct Hk as [_ Hk]. congruence.
    - destruct Hk as [Hc _]. unfold created in *. by rewrite En in Hc. }
  split.
  - intros k Hk. destruct (Hold k Hk) as (Ho & [<- <-] & Hne). rewrite Hmv.
    rewrite decide_False; [by apply H1|]. intros Hd. apply Hne. symmetry. by apply H2.
  - intros k k' (Ho & [E1 E2] & _)%Hold (Ho' & [E1' E2'] & _)%Hold [Es Es'].
    apply H2; [done..|]. split; congruence.
Qed.

(** A call that creates the next item, for a token that came in. *)
Lemma escrowed_enter m σ σ' e e' c id from :
  items_change m σ σ' → _itemIds σ' = (_itemIds σ + 1)%Z → from ≠ this →
  nftContract (item_at σ' (_itemIds σ)) = c → tokenId (item_at σ' (_itemIds σ)) = id →
  token_owner e c id = from →
  (∀ c' id', token_owner e' c' id' =
     if decide (c = c' ∧ id = id') then this else token_owner e c' id') →
  escrowed σ e → escrowed σ' e'.
Proof.
  intros Hch En Hfrom Hc Hid Hown Hmv [H1 H2].
  assert (Hold : ∀ k, unsold σ' k →
    k = _itemIds σ ∨ unsold σ k ∧ same_token (item_at σ k) (item_at σ' k)).
  { intros k Hk. destruct (items_change_unsold _ _ _ _ Hch Hk) as [|Hn]; [by right|left].
    destruct Hk as [Hk _]. unfold created in *. rewrite En in Hk. lia. }
  assert (Hnew : ∀ k, unsold σ k → ¬ same_token (item_at σ k) (item_at σ' (_itemIds σ))).
  { intros k Hk [E1 E2]. apply Hfrom. rewrite <- Hown, <- Hc, <- Hid, <- E1, <- E2. by apply H1. }
  split.
  - intros k [->|[Ho [<- <-]]]%Hold; rewrite Hmv; [by rewrite Hc, Hid, decide_True|].
    case_decide; [done|by apply H1].
  - intros k k' [->|[Ho [E1 E2]]]%Hold [->|[Ho' [E1' E2']]]%Hold [Es Es']; [done|..].
    + destruct (Hnew k' Ho'). split; congruence.
    + destruct (Hnew k Ho). split; congruence.
    + apply H2; [done..|]. split; congruence.
Qed.

(** What a selling call finds and leaves. *)
Lemma sells_unsold m c id s s' :
  wf (a_store s) → msg_sender m ≠ 0%N → names_item s c → sells id c →
  exec this m c s = Ok (tt, s') →
  unsold (a_store s) id ∧ sold (item_at (a_store s') id) = true ∧
  _itemIds (a_store s') = _itemIds (a_store s).
Proof.
  intros W Hm Hn Hs H. destruct c; cbn in Hs, Hn, H; try done; subst.
  - apply archived_createMarketSale_Ok in H as (_ & _ & Hu & Es & _). rewrite Es.
    split_and!; [by split| |done]. unfold item_at. cbn. by rewrite mget_insert_eq.
  - apply archived_endAuction_Ok in H as (_ & Ha & _ & Hu & Es & _). rewrite Es.
    split_and!; [split; [by apply auction_created|done]| |done].
    unfold item_at. cbn. by rewrite mget_insert_eq.
  - apply archived_acceptOffer_Ok in H as (o & _ & Hsel & Hu & _ & Es & _). rewrite Es.
    split_and!; [split; [|done]| |done].
    + apply dec_stable. intros Hid. by rewrite (wf_fresh _ W id Hid) in Hsel.
    + unfold item_at. cbn. by rewrite mget_insert_eq.
Qed.

(** What the other calls do to the counter of items. *)
Lemma exec_itemIds m c s s' :
  exec this m c s = Ok (tt, s') →
  _itemIds (a_store s') = (_itemIds (a_store s) +
    match c with CCreateMarketItem _ _ _ | CCreateAuction _ _ _ => 1 | _ => 0 end)%Z.
Proof.
  intros H. destruct c; cbn in H.
  - apply archived_createMarketItem_Ok in H as (v & Es & _). by rewrite Es.
  - apply archived_createMarketSale_Ok in H as (_ & _ & _ & Es & _). rewrite Es. cbn. lia.
  - apply archived_createAuction_Ok in H as (v & Es & _). by rewrite Es.
  - apply archived_placeBid_Ok in H as (_ & _ & _ & _ & _ & σ & Es & [[_ ->]|[_ ->]]);
      rewrite Es; cbn; lia.
  - apply archived_endAuction_Ok in H as (_ & _ & _ & _ & Es & _). rewrite Es. cbn. lia.
  - apply archived_withdrawBid_Ok in H as (_ & Es & _). rewrite Es. cbn. lia.
  - apply archived_makeOffer_Ok in H as (_ & _ & _ & _ & Es & _). rewrite Es. cbn. lia.
  - apply archived_acceptOffer_Ok in H as (o & _ & _ & _ & _ & Es & _). rewrite Es. cbn. lia.
  - apply archived_transferOwnership_Ok in H as (_ & Es & _). rewrite Es. cbn. lia.
  - apply archived_renounceOwnership_Ok in H as (_ & Es & _). rewrite Es. cbn. lia.
Qed.

Lemma exec_escrowed m c s s' :
  wf (a_store s) → fresh_clean (a_store s) → msg_sender m ≠ 0%N → msg_sender m ≠ this →
  own_collection s c → exec this m c s = Ok (tt, s') →
  escrowed (a_store s) (a_env s) → escrowed (a_store s') (a_env s').
Proof.
  intros W Hf Hm Ht [Hn Hown] H.
  pose proof (exec_changes this m c s s' W Hf Hm Hn H) as Hch.
  pose proof (exec_itemIds m c s s' H) as Hids. pose proof (exec_moves m c s s' H) as Hmv.
  assert (Hsell : ∀ id, sells id c → unsold (a_store s) id ∧ sold (item_at (a_store s') id) = true ∧
    _itemIds (a_store s') = _itemIds (a_store s)) by (intros; by eapply sells_unsold).
  destruct c as [a token p|a id|a token p|id|id|id|id x|id k|o|];
    cbn [moves] in Hmv; cbn in Hsell, Hids;
    try (apply (escrowed_still m); [exact Hch|lia|by rewrite Hmv]).
  - destruct Hmv as (e & (Ho & Hmv & _)%transferFrom_moves & [Hk _]%updateCollectionStats_keeps & Ec & Ei).
    apply (escrowed_enter m _ _ _ _ a token (msg_sender m)); try done.
    intros c' id'. by rewrite Hk, Hmv.
  - destruct (Hsell id eq_refl) as (Hu & Hs & En). cbn in Hown.
    destruct Hmv as (e & (_ & Hmv & _)%transferFrom_moves & [Hk _]%updateCollectionStats_keeps).
    apply (escrowed_leave m _ _ _ _ id (msg_sender m)); try done.
    intros c' id'. by rewrite Hk, Hmv, Hown.
  - destruct Hmv as ((Ho & Hmv & _)%transferFrom_moves & Ec & Ei).
    by apply (escrowed_enter m _ _ _ _ a token (msg_sender m)).
  - destruct (Hsell id eq_refl) as (Hu & Hs & En).
    apply transferFrom_moves in Hmv as (_ & Hmv & _). by eapply (escrowed_leave m _ _ _ _ id).
  - destruct (Hsell id eq_refl) as (Hu & Hs & En).
    destruct Hmv as (offer & _ & (_ & Hmv & _)%transferFrom_moves).
    by eapply (escrowed_leave m _ _ _ _ id).
Qed.

Lemma escrow_reached_escrowed deployer factory t s :
  escrow_reached deployer factory t s → escrowed (a_store s) (a_env s).
Proof.
  induction 1 as [t e|t s m c s' Hr IH Ht Hm Hm' Hv Hn H|t s t' b e Hr [H1 H2] Ht Hb Hk].
  - split.
    + intros id [[H0 H1] _]. cbn in H1. lia.
    + intros id id' [[H0 H1] _]. cbn in H1. lia.
  - apply escrow_reached_reached in Hr.
    destruct (reached_good _ _ _ _ _ Hr) as (W & _).
    destruct (reached_histories _ _ _ _ _ Hr) as (Hf & _). by eapply exec_escrowed.
  - split; [|exact H2]. intros id Hu. by apply Hk, H1.
Qed.

(** C24: with ERC721 contracts, and buyers who name the item's own collection, the
    archived contract holds the token of every item that was created and not
    sold, and no two of them are for the same token. *)
Theorem unsold_items_escrowed deployer factory t s id :
  escrow_reached deployer factory t s → unsold (a_store s) id →
  token_owner (a_env s) (nftContract (item_at (a_store s) id)) (tokenId (item_at (a_store s) id)) = this ∧
  ∀ id', unsold (a_store s) id' →
    same_token (item_at (a_store s) id) (item_at (a_store s) id') → id' = id.
Proof.
  intros [H1 H2]%escrow_reached_escrowed Hu. split; [by apply H1|].
  intros id' Hu' Hs. symmetry. by apply H2.
Qed.

(** ** What the escrow is good for *)

(** The token of an unsold item can be delivered to anybody. *)
Lemma unsold_deliverable s id to :
  escrowed (a_store s) (a_env s) → unsold (a_store s) id → to ≠ 0%N →
  let item := item_at (a_store s) id in
  ∃ e, erc721_transferFrom (nftContract item) this to (tokenId item) (a_env s) = Ok (tt, e) ∧
    token_owner e (nftContract item) (tokenId item) = to ∧ ∀ a, receives e a = receives (a_env s) a.
Proof.
  intros [H1 _] Hu Hto item.
  destruct (transferFrom_own _ (nftContract item) to (tokenId item) (H1 id Hu) Hto) as [e He].
  exists e. split; [done|]. apply transferFrom_moves in He as (_ & Hmv & Hrec).
  split; [|done]. by rewrite Hmv, decide_True.
Qed.

(** In such a history a fixed-price item that is not sold can always be bought
    at its price, by anybody, while its seller and the contract's owner take
    ether and the factory takes note: the buyer then has the token, the seller
    the whole price and the contract's owner the listing fee, and the item is
    sold. *)
Theorem item_can_be_bought deployer factory t s m id :
  let item := item_at (a_store s) id in
  escrow_reached deployer factory t s → unsold (a_store s) id → isAuction item = false →
  msg_sender m ≠ 0%N → msg_value m = price item →
  receives (a_env s) (seller item) = true → receives (a_env s) (contract_owner (a_store s)) = true →
  (∀ e, is_ok (factory_updateCollectionStats (factoryAddress (a_store s)) (nftContract item)
                 (price item) true e) = true) →
  ∃ s', exec this m (CCreateMarketSale (nftContract item) id) s = Ok (tt, s') ∧
    token_owner (a_env s') (nftContract item) (tokenId item) = msg_sender m ∧
    sold (item_at (a_store s') id) = true ∧ owner (item_at (a_store s') id) = msg_sender m ∧
    a_paid s' = a_paid s ++ [(seller item, price item); (contract_owner (a_store s), LISTING_PRICE)].
Proof.
  intros item Hr Hu Ha Hm Hv Hrs Hro Hf. pose proof (escrow_reached_escrowed _ _ _ _ Hr) as Hesc.
  apply escrow_reached_reached, reached_good in Hr as G. destruct Hu as [Hid Hs].
  pose proof (unsold_covered t s id G Hid Hs) as Hbal. pose proof (sold_room t s id G Hid Hs) as Hmax.
  destruct G as (W & _ & He). pose proof (wf_bids _ W id).
  destruct (unsold_deliverable s id (msg_sender m) Hesc (conj Hid Hs) Hm) as (e & Ht & Ho & Hrec).
  specialize (Hf e). destruct (factory_updateCollectionStats _ _ _ _ e) as [[[] e']|] eqn:Hst; [|done].
  pose proof (updateCollectionStats_keeps _ _ _ _ _ _ _ Hst) as [Hk Hrec'].
  destruct (archived_sale_run this m (nftContract item) id s e e') as (s' & Hx & Es & Hp & Ee);
    try done; [by rewrite Hrec', Hrec|lia|].
  assert (item_at (a_store s') id = with_sale (msg_sender m) item) as Hi
    by (rewrite Es; apply mget_insert_eq).
  exists s'. rewrite Hi, Ee, Hk, Hp, Hv. by split_and!.
Qed.

(** C25: an auction ends as announced.  In any history, over ERC721 contracts,
    whose sales name created items and the item's own collection (so that no sale
    takes the token of another item), once the end time has come anybody can end
    an auction that is not sold, while its seller and the contract's owner take
    ether: with a highest bidder the token goes to that bidder and the highest bid
    to the seller, without one the token goes back to the seller; the listing fee
    goes to the contract's owner, and the auction cannot be ended again. *)
Theorem endAuction_settles deployer factory t s m id :
  let item := item_at (a_store s) id in
  escrow_reached deployer factory t s → (t ≤ block_timestamp m)%Z → msg_value m = 0%Z →
  isAuction item = true → sold item = false → (auctionEndTime item ≤ block_timestamp m)%Z →
  receives (a_env s) (seller item) = true → receives (a_env s) (contract_owner (a_store s)) = true →
  ∃ s', exec this m (CEndAuction id) s = Ok (tt, s') ∧
    token_owner (a_env s') (nftContract item) (tokenId item) =
      (if bool_decide (highestBidder item = 0%N) then seller item else highestBidder item) ∧
    sold (item_at (a_store s') id) = true ∧ owner (item_at (a_store s') id) = highestBidder item ∧
    a_paid s' = a_paid s ++
      (if bool_decide (highestBidder item = 0%N) then [] else [(seller item, highestBid item)]) ++
      [(contract_owner (a_store s), LISTING_PRICE)] ∧
    exec this m (CEndAuction id) s' = Err (Revert "Auction already ended").
Proof.
  intros item Hr Ht Hv Ha Hs Hend Hrs Hro. pose proof (escrow_reached_escrowed _ _ _ _ Hr) as Hesc.
  apply escrow_reached_reached in Hr. destruct (reached_good _ _ _ _ _ Hr) as (W & _).
  pose proof (auction_created s id W Ha) as Hid.
  set (winner := if bool_decide (highestBidder item = 0%N) then seller item else highestBidder item).
  assert (winner ≠ 0%N) as Hw.
  { unfold winner. destruct (bool_decide_reflect (highestBidder item = 0%N)); [|done].
    by apply (wf_seller _ W). }
  destruct (unsold_deliverable s id winner Hesc (conj Hid Hs) Hw) as (e & Hnft & Ho & Hrec).
  destruct (endAuction_outcome this deployer factory t s m id e Hr Ht Hv Ha Hs Hend Hnft Hrs)
    as (s' & Hx & Ee & Hrest); [by rewrite Hrec|].
  exists s'. rewrite Ee. split; [exact Hx|]. split; [exact Ho|exact Hrest].
Qed.
End escrow.

(** ** Witnesses *)
Definition demo_owner (e : demo_tokens) (c : address) (id : Z) : address := e.[(c, id)].

#[local] Instance demo_laws : ArchiveEnvLaws (ArchiveEnv0 := demo_env) 99%N demo_tokens.
Proof.
  refine {| token_owner := demo_owner |}; cbn; unfold demo_tokens, demo_owner.
  - intros e c from to id u e'. destruct (decide (e !! (c, id) = Some from)) as [Hf|Hf];
      [rewrite bool_decide_true by done|by rewrite bool_decide_false].
    intros [= _ <-]. split_and!; [unfold mget; by rewrite Hf| |done].
    intros c' id'. rewrite mget_insert. repeat case_decide; simplify_eq; try done; [tauto|].
    by destruct_and?; simplify_eq.
  - intros e c to id Ho _. unfold mget in Ho. destruct (e !! (c, id)) as [o|]; cbn in Ho; [|done].
    subst o. rewrite bool_decide_true by done. by eexists.
  - intros e factory c p b u e' [= _ <-]. done.
Defined.

Abbreviation demo_escrow_reached :=
  (escrow_reached (ArchiveEnv0 := demo_env) 99%N (ArchiveEnvLaws0 := demo_laws)).

(** Histories without a sale, sent by others than the contract. *)
Definition demo_plain (c : msg * call) : Prop :=
  msg_sender c.1 ≠ 99%N ∧ match c.2 with CCreateMarketSale _ _ => False | _ => True end.

Lemma demo_run_escrow d f l t s t' s' :
  Forall demo_plain l → demo_escrow_reached d f t s → demo_run l t s = Some (t', s') →
  demo_escrow_reached d f t' s'.
Proof.
  intros Hl. revert t s. induction Hl as [|[m c] l [Hm Hp] Hl IH]; intros t s Hr H; cbn in H;
    [by simplify_eq|].
  destruct (_ && _) eqn:Hg in H; [|done]. bool_to_prop.
  destruct (exec _ _ _ _) as [[[] s1]|] eqn:Hx in H; [|done].
  apply (IH (block_timestamp m) s1); [|done].
  apply (er_exec (ArchiveEnv0 := demo_env) _ d f t s m c s1); try done.
  destruct c; by cbn.
Qed.

Lemma demo_state_escrow : demo_escrow_reached 1%N 50%N 120%Z demo_state.
Proof.
  apply (demo_run_escrow 1 50 demo_history 0 demo_start 120 demo_state).
  - by repeat constructor.
  - apply (er_deploy (ArchiveEnv0 := demo_env)).
  - by vm_compute.
Qed.

Lemma demo_unsold_0 : unsold (a_store demo_state) 0.
Proof. split; by_eval. Qed.

Lemma unsold_items_escrowed_witness :
  demo_owner (a_env demo_state) (nftContract (item_at (a_store demo_state) 0))
    (tokenId (item_at (a_store demo_state) 0)) = 99%N.
Proof.
  exact (proj1 (unsold_items_escrowed (ArchiveEnv0 := demo_env) 99 1 50 120 demo_state 0
    demo_state_escrow demo_unsold_0)).
Defined.

Lemma item_can_be_bought_witness :
  ∃ s', exec (ArchiveEnv0 := demo_env) 99%N (demo_msg 14 (10 ^ 17) 130)
      (CCreateMarketSale (nftContract (item_at (a_store demo_state) 0)) 0) demo_state = Ok (tt, s') ∧
    owner (item_at (a_store s') 0) = 14%N.
Proof.
  assert (A0 : isAuction (item_at (a_store demo_state) 0) = false) by by_eval.
  assert (P0 : (10 ^ 17)%Z = price (item_at (a_store demo_state) 0)) by by_eval.
  destruct (item_can_be_bought (ArchiveEnv0 := demo_env) 99 1 50 120 demo_state
    (demo_msg 14 (10 ^ 17) 130) 0 demo_state_escrow demo_unsold_0 A0 ltac:(done) P0
    eq_refl eq_refl (λ _, eq_refl)) as (s' & H & _ & _ & Ho & _).
  exists s'. split; [exact H|exact Ho].
Defined.

Lemma endAuction_settles_witness :
  ∃ s', exec (ArchiveEnv0 := demo_env) 99%N (demo_msg 13 0 1000000) (CEndAuction 1) demo_state
          = Ok (tt, s') ∧ owner (item_at (a_store s') 1) = 12%N.
Proof.
  assert (A1 : isAuction (item_at (a_store demo_state) 1) = true) by by_eval.
  assert (S1 : sold (item_at (a_store demo_state) 1) = false) by by_eval.
  assert (T1 : (auctionEndTime (item_at (a_store demo_state) 1) ≤ 1000000)%Z) by by_eval.
  assert (B1 : highestBidder (item_at (a_store demo_state) 1) = 12%N) by by_eval.
  destruct (endAuction_settles (ArchiveEnv0 := demo_env) 99 1 50 120 demo_state
    (demo_msg 13 0 1000000) 1 demo_state_escrow ltac:(done) eq_refl A1 S1 T1 eq_refl eq_refl)
    as (s' & H & _ & _ & Ho & _).
  exists s'. split; [exact H|]. exact (eq_trans Ho B1).
Defined.
