(* ===== verification/House.v ===== *)
(** * The auction house the archived marketplace promises

    An abstract specification of the contract of [Archive]: lots with a fixed
    price or under the hammer, offers, credits of outbid bidders, and what each
    action pays to whom.  There is no price history, no counter of sold items,
    no guard and no escrow.  HouseRefine shows that the contract implements
    this house; the consequences proved here then hold of the contract. *)

From stdpp Require Import base list gmap numbers.
From Stdlib Require Import ZArith Lia.
From S2P Require Import Prelude Evm Archive.

(** ** States *)
Record terms := {
  t_seller : address;
  t_contract : address;
  t_token : Z;
  t_price : Z
}.

(** The bidder and the amount of a standing bid. *)
Definition standing_bid := option (address * Z).

Inductive lot :=
| Vacant
| Priced (t : terms) (offers : list Offer)
| Auctioned (t : terms) (ends : Z) (best : standing_bid)
| Sold (t : terms) (buyer : address)
| Hammered (t : terms) (ends : Z) (best : standing_bid).

Record House := {
  lot_at : Z → lot;
  lots : Z;                        (* lots are numbered from 0 *)
  credit : Z → address → Z;        (* what outbid bidders may take back, lot by lot *)
  boss : address                   (* who gets the fees *)
}.

#[export] Instance terms_eq_dec : EqDecision terms.
Proof. solve_decision. Defined.
#[export] Instance Offer_eq_dec : EqDecision Offer.
Proof. solve_decision. Defined.
#[export] Instance lot_eq_dec : EqDecision lot.
Proof. solve_decision. Defined.

(** Two houses are the same when they hold the same lots and owe the same. *)
#[export] Instance House_equiv : Equiv House := λ h k,
  (∀ id, lot_at h id = lot_at k id) ∧ lots h = lots k ∧
  (∀ id a, credit h id a = credit k id a) ∧ boss h = boss k.

#[export] Instance House_equivalence : Equivalence (≡@{House}).
Proof.
  split.
  - done.
  - intros h k (H1 & H2 & H3 & H4). by repeat split.
  - intros h k j (H1 & H2 & H3 & H4) (K1 & K2 & K3 & K4).
    split_and!; [intros id; by rewrite H1|congruence|intros id a; by rewrite H3|congruence].
Qed.

Definition put_lot (id : Z) (l : lot) (h : House) : House :=
  {| lot_at := λ id', if decide (id = id') then l else lot_at h id';
     lots := lots h; credit := credit h; boss := boss h |}.
Definition put_credit (id : Z) (a : address) (v : Z) (h : House) : House :=
  {| lot_at := lot_at h; lots := lots h;
     credit := λ id' a', if decide (id = id' ∧ a = a') then v else credit h id' a';
     boss := boss h |}.
Definition new_lot (l : lot) (h : House) : House :=
  {| lot_at := λ id', if decide (lots h = id') then l else lot_at h id';
     lots := lots h + 1; credit := credit h; boss := boss h |}.
Definition put_boss (a : address) (h : House) : House :=
  {| lot_at := lot_at h; lots := lots h; credit := credit h; boss := a |}.

#[export] Instance put_lot_proper id l : Proper ((≡) ==> (≡)) (put_lot id l).
Proof. intros h k (H1 & H2 & H3 & H4). split_and!; try done. intros id'. cbn. by rewrite H1. Qed.
#[export] Instance put_credit_proper id a v : Proper ((≡) ==> (≡)) (put_credit id a v).
Proof. intros h k (H1 & H2 & H3 & H4). split_and!; try done. intros id' a'. cbn. by rewrite H3. Qed.
#[export] Instance new_lot_proper l : Proper ((≡) ==> (≡)) (new_lot l).
Proof.
  intros h k (H1 & H2 & H3 & H4). split_and!; try done; cbn; [intros id'; by rewrite H1, H2|by rewrite H2].
Qed.
#[export] Instance put_boss_proper a : Proper ((≡) ==> (≡)) (put_boss a).
Proof. by intros h k (H1 & H2 & H3 & H4). Qed.

(** An empty house. *)
Definition opening (b : address) : House :=
  {| lot_at := λ _, Vacant; lots := 0; credit := λ _ _, 0%Z; boss := b |}.

(** ** Actions *)
Inductive action :=
| NewBoss (by_ a : address)
| OpenLot (who c : address) (token price : Z)
| OpenAuction (who c : address) (token price ends : Z)
| Buy (who : address) (id : Z) (t : terms)
| Bid (who : address) (id amount now : Z)
| Hammer (id : Z) (t : terms) (best : standing_bid) (now : Z)
| Withdraw (who : address) (id amount : Z)
| MakeOffer (id : Z) (o : Offer) (now : Z)
| Accept (who : address) (id : Z) (t : terms) (offers : list Offer) (k : nat) (o : Offer) (now : Z).

(** The offers that go back to those who made them when offer [k] is accepted:
    all the others that have not expired. *)
Definition back (now : Z) (k : nat) (offers : list Offer) : list (address * Z) :=
  concat (imap (λ i o, if bool_decide (i ≠ k) && (now <=? expirationTime o)%Z
                       then [(offer_buyer o, offer_price o)] else []) offers).

Definition bid_due (t : terms) (best : standing_bid) : list (address * Z) :=
  match best with Some (_, v) => [(t_seller t, v)] | None => [] end.

(** What an action pays, in this order. *)
Definition pays (b : address) (x : action) : list (address * Z) :=
  match x with
  | Buy _ _ t => [(t_seller t, t_price t); (b, LISTING_PRICE)]
  | Hammer _ t best _ => bid_due t best ++ [(b, LISTING_PRICE)]
  | Withdraw who _ amount => [(who, amount)]
  | Accept _ _ t offers k o now =>
      (t_seller t, offer_price o) :: (b, LISTING_PRICE) :: back now k offers
  | _ => []
  end.

(** The bid that is replaced becomes a credit. *)
Definition outbid (id : Z) (best : standing_bid) (h : House) : House :=
  match best with
  | Some (a, v) => put_credit id a (credit h id a + v) h
  | None => h
  end.

(** What can happen, and when; [None] when the house does not allow it. *)
Definition house_exec (x : action) (h : House) : option House :=
  match x with
  | NewBoss by_ a => guard (boss h = by_);; Some (put_boss a h)
  | OpenLot who c token price =>
      guard (0 < price)%Z;;
      Some (new_lot (Priced {| t_seller := who; t_contract := c; t_token := token;
                               t_price := price |} []) h)
  | OpenAuction who c token price ends =>
      guard (0 < price)%Z;;
      Some (new_lot (Auctioned {| t_seller := who; t_contract := c; t_token := token;
                                  t_price := price |} ends None) h)
  | Buy who id t =>
      match lot_at h id with
      | Priced t' _ => guard (t' = t);; Some (put_lot id (Sold t who) h)
      | _ => None
      end
  | Bid who id amount now =>
      match lot_at h id with
      | Auctioned t ends best =>
          guard (now < ends ∧ t_price t + MIN_AUCTION_INCREMENT ≤ amount)%Z;;
          Some (put_lot id (Auctioned t ends (Some (who, amount))) (outbid id best h))
      | _ => None
      end
  | Hammer id t best now =>
      match lot_at h id with
      | Auctioned t' ends best' =>
          guard (t' = t ∧ best' = best ∧ (ends ≤ now)%Z);;
          Some (put_lot id (Hammered t ends best) h)
      | _ => None
      end
  | Withdraw who id amount =>
      guard (0 < amount ∧ credit h id who = amount)%Z;; Some (put_credit id who 0 h)
  | MakeOffer id o now =>
      match lot_at h id with
      | Priced t offers =>
          guard (0 < offer_price o ∧ now < expirationTime o)%Z;;
          Some (put_lot id (Priced t (offers ++ [o])) h)
      | _ => None
      end
  | Accept who id t offers k o now =>
      guard (lot_at h id = Priced t offers ∧ t_seller t = who ∧ offers !! k = Some o ∧
             (now ≤ expirationTime o)%Z);;
      Some (put_lot id (Sold t (offer_buyer o)) h)
  end.

(** A run of actions, with all it paid. *)
Fixpoint house_run (xs : list action) (h : House) : option (House * list (address * Z)) :=
  match xs with
  | [] => Some (h, [])
  | x :: xs =>
      h' ← house_exec x h;
      '(h'', paid) ← house_run xs h';
      Some (h'', pays (boss h) x ++ paid)
  end.

#[export] Instance house_exec_proper x : Proper ((≡) ==> (≡)) (house_exec x).
Proof.
  intros h k E. pose proof E as (El & En & Ec & Eb).
  destruct x as [by_ a|who c tok p|who c tok p e|who id t|who id v now|id t b now|who id v
    |id o now|who id t os j o now];
    cbn; rewrite ?(El id), ?(Ec id who), ?Eb;
    repeat case_match; repeat case_guard; cbn; try done; try (constructor; by rewrite E).
  constructor. apply put_lot_proper. unfold outbid. repeat case_match; [|done].
  rewrite Ec. by apply put_credit_proper.
Qed.

Lemma house_run_app xs ys h :
  house_run (xs ++ ys) h =
    '(h1, p) ← house_run xs h; '(h2, q) ← house_run ys h1; Some (h2, p ++ q).
Proof.
  revert h. induction xs as [|x xs IH]; intros h; cbn.
  - by destruct (house_run ys h) as [[??]|].
  - destruct (house_exec x h) as [h1|]; cbn; [|done]. rewrite IH.
    destruct (house_run xs h1) as [[h2 p]|]; cbn; [|done].
    destruct (house_run ys h2) as [[h3 q]|]; cbn; [|done]. by rewrite app_assoc.
Qed.

Lemma house_run_cons x xs h k p :
  house_run (x :: xs) h = Some (k, p) ↔
  ∃ h' q, house_exec x h = Some h' ∧ house_run xs h' = Some (k, q) ∧ p = pays (boss h) x ++ q.
Proof.
  cbn. destruct (house_exec x h) as [h'|]; cbn; [|by split; [|intros (? & ? & ? & _)]].
  destruct (house_run xs h') as [[k' q]|] eqn:E; cbn.
  - split; [intros [= <- <-]; by exists h', q|].
    intros (h1 & q1 & [= <-] & H & ->). rewrite E in H. by simplify_eq.
  - split; [done|]. intros (h1 & q1 & [= <-] & H & _). congruence.
Qed.

(** Runs from the same house end in the same house and pay the same. *)
Lemma house_run_equiv xs h h' k p :
  h ≡ h' → house_run xs h = Some (k, p) →
  ∃ k', house_run xs h' = Some (k', p) ∧ k ≡ k'.
Proof.
  revert h h' p. induction xs as [|x xs IH]; intros h h' p E.
  - cbn. intros [= <- <-]. by exists h'.
  - rewrite house_run_cons. intros (h1 & q & Hx & Hr & ->).
    pose proof (house_exec_proper x h h' E) as Ex. rewrite Hx in Ex.
    inversion Ex as [? h1' E1 e1 e2|]; subst.
    destruct (IH h1 h1' q E1 Hr) as (k' & Hk & Ek).
    exists k'. split; [|done]. rewrite house_run_cons. exists h1', q.
    split_and!; [done..|]. destruct E as (_ & _ & _ & ->). done.
Qed.

(** Facts of one action hold along a run. *)
Lemma house_run_ind (R : House → list action → House → Prop) :
  (∀ h, R h [] h) →
  (∀ h x h' xs k, house_exec x h = Some h' → R h' xs k → R h (x :: xs) k) →
  ∀ xs h k p, house_run xs h = Some (k, p) → R h xs k.
Proof.
  intros H0 Hs xs. induction xs as [|x xs IH]; intros h k p; [by intros [= <- _]|].
  rewrite house_run_cons. intros (h' & q & Hx & Hr & _). eauto.
Qed.

(** Opens the hypothesis that an action was allowed: its lot and its guard. *)
Ltac open_action H :=
  cbn in H; repeat case_match; simplify_eq; repeat case_guard; simplify_eq/=; destruct_and?;
  simplify_eq.

(** ** What becomes of bids *)

(** Lots beyond the last are vacant, and nobody has credit there. *)
Record house_ok (h : House) : Prop := {
  ok_lots : (0 ≤ lots h)%Z;
  ok_vacant id : ¬ (0 ≤ id < lots h)%Z → lot_at h id = Vacant;
  ok_credit id a : ¬ (0 ≤ id < lots h)%Z → credit h id a = 0%Z
}.

Lemma opening_ok b : house_ok (opening b).
Proof. by split. Qed.

(** The standing bid of a lot, if it is [a]'s; it stands for ever once the
    hammer has fallen. *)
Definition standing (a : address) (l : lot) : Z :=
  match l with
  | Auctioned _ _ (Some (b, v)) | Hammered _ _ (Some (b, v)) => if decide (b = a) then v else 0
  | _ => 0
  end.
Definition bid_in (a : address) (h : House) (id : Z) : Z := credit h id a + standing a (lot_at h id).

(** The bids of [a] the house has: the standing ones and the credits. *)
Definition in_house (a : address) (h : House) : Z := sum_Z (bid_in a h) (seqZ 0 (lots h)).

(** What [a] bids, and takes back, with an action. *)
Definition bid_of (a : address) (x : action) : Z :=
  match x with Bid who _ amount _ => if decide (who = a) then amount else 0 | _ => 0 end.
Definition withdrawn_of (a : address) (x : action) : Z :=
  match x with Withdraw who _ amount => if decide (who = a) then amount else 0 | _ => 0 end.

Lemma in_house_same a h h' :
  lots h' = lots h → (∀ id, bid_in a h' id = bid_in a h id) → in_house a h' = in_house a h.
Proof. intros En E. unfold in_house. rewrite En. apply sum_Z_ext. auto. Qed.

Lemma in_house_one a h h' id :
  lots h' = lots h → (0 ≤ id < lots h)%Z → (∀ k, k ≠ id → bid_in a h k = bid_in a h' k) →
  in_house a h' = (in_house a h + bid_in a h' id - bid_in a h id)%Z.
Proof. intros En Hid E. unfold in_house. rewrite En. by apply sum_seqZ_change. Qed.

Lemma in_house_new a l h :
  house_ok h → standing a l = 0%Z → in_house a (new_lot l h) = in_house a h.
Proof.
  intros [Hn Hv Hc] Hl. unfold in_house. cbn. rewrite seqZ_snoc, sum_Z_snoc by done.
  unfold bid_in at 2. cbn. rewrite decide_True, Hl, Hc by lia.
  rewrite (sum_Z_ext _ (bid_in a h)); [lia|].
  intros id Hid%elem_of_seqZ. unfold bid_in. cbn. by rewrite decide_False by lia.
Qed.

Lemma lot_in_range h id : house_ok h → lot_at h id ≠ Vacant → (0 ≤ id < lots h)%Z.
Proof.
  intros W Hl. destruct (decide (0 ≤ id < lots h)%Z) as [|Hn]; [done|].
  by destruct Hl; apply (ok_vacant _ W).
Qed.

Lemma credit_in_range h id a : house_ok h → credit h id a ≠ 0%Z → (0 ≤ id < lots h)%Z.
Proof.
  intros W Hl. destruct (decide (0 ≤ id < lots h)%Z) as [|Hn]; [done|].
  by destruct Hl; apply (ok_credit _ W).
Qed.

Lemma put_lot_ok id l h : house_ok h → (0 ≤ id < lots h)%Z → house_ok (put_lot id l h).
Proof.
  intros [Hn Hv Hc] Hid. split; cbn; [done| |done].
  intros k Hk. rewrite decide_False; [by apply Hv|by intros ->].
Qed.
Lemma put_credit_ok id a v h : house_ok h → (0 ≤ id < lots h)%Z → house_ok (put_credit id a v h).
Proof.
  intros [Hn Hv Hc] Hid. split; cbn; [done|done|].
  intros k b Hk. rewrite decide_False; [by apply Hc|by intros [-> _]].
Qed.
Lemma new_lot_ok l h : house_ok h → house_ok (new_lot l h).
Proof.
  intros [Hn Hv Hc]. split; cbn; [lia|..].
  - intros id Hid. rewrite decide_False by lia. apply Hv. lia.
  - intros id a Hid. apply Hc. lia.
Qed.
Lemma outbid_lots id best h : lots (outbid id best h) = lots h.
Proof. by destruct best as [[]|]. Qed.
Lemma outbid_ok id best h : house_ok h → (0 ≤ id < lots h)%Z → house_ok (outbid id best h).
Proof. intros W Hid. unfold outbid. repeat case_match; [by apply put_credit_ok|done]. Qed.

(** Giving a lot another state in which the same bid stands. *)
Lemma put_lot_bids a id l h n :
  house_ok h → lot_at h id ≠ Vacant → standing a l = standing a (lot_at h id) → n = 0%Z →
  house_ok (put_lot id l h) ∧ (in_house a (put_lot id l h) + n = in_house a h + n)%Z.
Proof.
  intros W Hl E ->. split; [by apply put_lot_ok, lot_in_range|].
  rewrite (in_house_same a h); [done|done|]. intros k. unfold bid_in. cbn.
  case_decide; [by subst; rewrite E|done].
Qed.

Lemma bid_in_outbid a id t ends best h who v k :
  lot_at h id = Auctioned t ends best →
  bid_in a (put_lot id (Auctioned t ends (Some (who, v))) (outbid id best h)) k =
    (bid_in a h k + if decide (id = k) then (if decide (who = a) then v else 0) else 0)%Z.
Proof.
  intros Hl. unfold bid_in, outbid. destruct best as [[b w]|]; cbn;
    destruct (decide (id = k)) as [<-|Hk]; rewrite ?Hl; cbn;
    repeat case_decide; destruct_and?; simplify_eq; tauto || lia.
Qed.

(** One action: the bids that are in the house and those taken back are the
    bids that were there and those that came in. *)
Lemma house_exec_bids x h h' a :
  house_ok h → house_exec x h = Some h' →
  house_ok h' ∧ (in_house a h' + withdrawn_of a x = in_house a h + bid_of a x)%Z.
Proof.
  intros W H.
  destruct x as [by_ b|who c tok p|who c tok p e|who id t|who id v now|id t b now|who id v
    |id o now|who id t os j o now];
    open_action H; cbn [withdrawn_of bid_of];
    try (apply put_lot_bids; [done|congruence| |done];
         by match goal with Hl : lot_at h id = _ |- _ => rewrite Hl end).
  - split; [by destruct W|]. by rewrite (in_house_same _ h).
  - split; [by apply new_lot_ok|]. by rewrite in_house_new.
  - split; [by apply new_lot_ok|]. by rewrite in_house_new.
  - assert (0 ≤ id < lots h)%Z by (apply lot_in_range; congruence).
    split; [apply put_lot_ok; [by apply outbid_ok|by rewrite outbid_lots]|].
    rewrite (in_house_one _ h _ id); [|apply outbid_lots|done|].
    + erewrite bid_in_outbid by done. rewrite decide_True by done. lia.
    + intros k Hk. erewrite bid_in_outbid by done. rewrite decide_False by done. lia.
  - assert (0 ≤ id < lots h)%Z by (apply (credit_in_range h id who); [done|lia]).
    split; [by apply put_credit_ok|].
    rewrite (in_house_one _ h _ id) by
      (done || (intros k Hk; unfold bid_in; cbn; rewrite decide_False; [done|by intros [-> _]])).
    unfold bid_in. cbn. repeat case_decide; destruct_and?; simplify_eq; tauto || lia.
Qed.

(** Along a run, for everybody. *)
Lemma house_bids xs h k p a :
  house_ok h → house_run xs h = Some (k, p) →
  house_ok k ∧
  (in_house a k + sum_Z (withdrawn_of a) xs = in_house a h + sum_Z (bid_of a) xs)%Z.
Proof.
  intros W H. revert W. revert xs h k p H. refine (house_run_ind _ _ _); [done|].
  intros h x h' xs k Hx IH W. destruct (house_exec_bids x h h' a W Hx) as [W' E].
  destruct (IH W') as [Wk Ek]. split; [done|]. rewrite !sum_Z_cons. lia.
Qed.

(** ** What becomes of lots *)

(** The last bid on a lot, [best] when there was none. *)
Definition last_bid (id : Z) (best : standing_bid) (xs : list action) : standing_bid :=
  foldl (λ b x, match x with
                | Bid who id' amount _ => if decide (id' = id) then Some (who, amount) else b
                | _ => b
                end) best xs.

Lemma outbid_lot_at id best h k : lot_at (outbid id best h) k = lot_at h k.
Proof. by destruct best as [[]|]. Qed.

(** The lot asked about is the one the action is about, or another. *)
Ltac same_lot :=
  cbn [lot_at put_lot new_lot put_credit put_boss]; rewrite ?outbid_lot_at;
  repeat case_decide; congruence || lia.

(** The cases of an action that was allowed. *)
Ltac each_action x H :=
  destruct x as [by_ b|who c tok p|who c tok p e|who k t'|who k v now|k t' b now|who k v
    |k o now|who k t' os j o now]; open_action H.

(** Two readings of the same lot. *)
Ltac same_terms_of id :=
  match goal with H1 : lot_at _ id = _, H2 : lot_at _ id = _ |- _ => rewrite H1 in H2; simplify_eq end.

(** What one action does to a lot under the hammer. *)
Lemma house_exec_auction x h h' id t ends best :
  house_ok h → house_exec x h = Some h' → lot_at h id = Auctioned t ends best →
  lot_at h' id = Auctioned t ends (last_bid id best [x]) ∨
  (∃ now, x = Hammer id t best now ∧ (ends ≤ now)%Z ∧ lot_at h' id = Hammered t ends best).
Proof.
  intros W H Hl. assert (0 ≤ id < lots h)%Z by (apply lot_in_range; congruence).
  each_action x H; cbn [last_bid foldl];
    try (left; same_lot).
  destruct (decide (k = id)) as [->|Hk]; [right|left; same_lot].
  same_terms_of id. eexists. split_and!; [done..|same_lot].
Qed.

(** After the hammer has fallen nothing happens to a lot. *)
Lemma house_exec_hammered x h h' id t ends best :
  house_ok h → house_exec x h = Some h' → lot_at h id = Hammered t ends best →
  lot_at h' id = Hammered t ends (last_bid id best [x]) ∧ last_bid id best [x] = best.
Proof.
  intros W H Hl. assert (0 ≤ id < lots h)%Z by (apply lot_in_range; congruence).
  each_action x H; cbn [last_bid foldl];
    try (split; [same_lot|done]).
  split; same_lot.
Qed.

Lemma last_bid_cons id best x xs :
  last_bid id best (x :: xs) = last_bid id (last_bid id best [x]) xs.
Proof. reflexivity. Qed.

Lemma house_hammered xs h k p id t ends best :
  house_ok h → house_run xs h = Some (k, p) → lot_at h id = Hammered t ends best →
  lot_at k id = Hammered t ends (last_bid id best xs) ∧ last_bid id best xs = best.
Proof.
  intros W H. revert W. revert xs h k p H. refine (house_run_ind _ _ _); [done|].
  intros h x h' xs k Hx IH W Hl.
  destruct (house_exec_hammered _ _ _ _ _ _ _ W Hx Hl) as [Hl' E]. rewrite E in Hl'.
  rewrite last_bid_cons, E. apply IH; [|done]. by eapply (house_exec_bids x h h' 0).
Qed.

(** An auction ends under the hammer, when its time has come, and goes to the
    last bid; until then the last bid stands. *)
Lemma house_auction xs h k p id t ends best :
  house_ok h → house_run xs h = Some (k, p) → lot_at h id = Auctioned t ends best →
  lot_at k id = Auctioned t ends (last_bid id best xs) ∨
  (∃ now, Hammer id t (last_bid id best xs) now ∈ xs ∧ (ends ≤ now)%Z ∧
     lot_at k id = Hammered t ends (last_bid id best xs)).
Proof.
  revert best h p. induction xs as [|x xs IH]; intros best h p W H Hl.
  - injection H as <- _. by left.
  - apply house_run_cons in H as (h' & q & Hx & Hr & _).
    pose proof (proj1 (house_exec_bids x h h' 0 W Hx)) as W'.
    rewrite last_bid_cons.
    destruct (house_exec_auction _ _ _ _ _ _ _ W Hx Hl) as [Hl'|(now & -> & Hn & Hl')].
    + destruct (IH _ _ _ W' Hr Hl') as [?|(now & ? & ?)]; [by left|right].
      exists now. split; [by right|done].
    + right. exists now. cbn [last_bid foldl].
      destruct (house_hammered _ _ _ _ _ _ _ _ W' Hr Hl') as [Hk ->].
      split_and!; [by left|done|]. destruct (house_hammered _ _ _ _ _ _ _ _ W' Hr Hl') as [? E].
      by rewrite E in Hk.
Qed.

(** The offers a run makes on a lot. *)
Definition offers_on (id : Z) (xs : list action) : list Offer :=
  xs ≫= λ x, match x with
             | MakeOffer id' o _ => if decide (id' = id) then [o] else []
             | _ => []
             end.

Lemma house_exec_priced x h h' id t offers :
  house_ok h → house_exec x h = Some h' → lot_at h id = Priced t offers →
  lot_at h' id = Priced t (offers ++ offers_on id [x]) ∨
  (∃ who, x = Buy who id t ∧ lot_at h' id = Sold t who) ∨
  (∃ k o now, x = Accept (t_seller t) id t offers k o now ∧ offers !! k = Some o ∧
     (now ≤ expirationTime o)%Z ∧ lot_at h' id = Sold t (offer_buyer o)).
Proof.
  intros W H Hl. assert (0 ≤ id < lots h)%Z by (apply lot_in_range; congruence).
  each_action x H; cbn [offers_on mbind list_bind app]; rewrite ?app_nil_r;
    try (left; same_lot).
  - destruct (decide (k = id)) as [->|Hk]; [right; left|left; same_lot].
    same_terms_of id. exists who. split; [done|same_lot].
  - destruct (decide (k = id)) as [->|Hk]; [|left; rewrite app_nil_r; same_lot].
    same_terms_of id. left. same_lot.
  - destruct (decide (k = id)) as [->|Hk]; [right; right|left; same_lot].
    same_terms_of id. exists j, o, now. split_and!; [done..|same_lot].
Qed.

Lemma house_exec_sold x h h' id t buyer :
  house_ok h → house_exec x h = Some h' → lot_at h id = Sold t buyer → lot_at h' id = Sold t buyer.
Proof.
  intros W H Hl. assert (0 ≤ id < lots h)%Z by (apply lot_in_range; congruence).
  each_action x H; same_lot.
Qed.

Lemma house_sold xs h k p id t buyer :
  house_ok h → house_run xs h = Some (k, p) → lot_at h id = Sold t buyer → lot_at k id = Sold t buyer.
Proof.
  intros W H. revert W. revert xs h k p H. refine (house_run_ind _ _ _); [done|].
  intros h x h' xs k Hx IH W Hl. apply IH; [by eapply (house_exec_bids x h h' 0)|].
  by eapply house_exec_sold.
Qed.

(** A lot with a price stays, with the offers made for it, until somebody buys
    it at that price or its seller accepts an offer; it then is the buyer's, or
    the offerer's, for ever. *)
Lemma house_priced xs h k p id t offers :
  house_ok h → house_run xs h = Some (k, p) → lot_at h id = Priced t offers →
  lot_at k id = Priced t (offers ++ offers_on id xs) ∨
  (∃ who, Buy who id t ∈ xs ∧ lot_at k id = Sold t who) ∨
  (∃ os j o now, Accept (t_seller t) id t os j o now ∈ xs ∧ os !! j = Some o ∧
     (now ≤ expirationTime o)%Z ∧ lot_at k id = Sold t (offer_buyer o)).
Proof.
  revert offers h p. induction xs as [|x xs IH]; intros offers h p W H Hl.
  - injection H as <- _. left. cbn. by rewrite app_nil_r.
  - apply house_run_cons in H as (h' & q & Hx & Hr & _).
    pose proof (proj1 (house_exec_bids x h h' 0 W Hx)) as W'.
    destruct (house_exec_priced _ _ _ _ _ _ W Hx Hl)
      as [Hl'|[(who & -> & Hl')|(j & o & now & -> & Hj & Hn & Hl')]].
    + destruct (IH _ _ _ W' Hr Hl') as [E|[(who & ? & ?)|(os & j & o & now & ? & ?)]].
      * left. rewrite E, <- app_assoc. cbn. by rewrite app_nil_r.
      * right. left. exists who. split; [by right|done].
      * right. right. exists os, j, o, now. split; [by right|done].
    + right. left. exists who. split; [by left|by eapply house_sold].
    + right. right. exists offers, j, o, now. split_and!; [by left|done|done|by eapply house_sold].
Qed.
