(* ===== verification/HouseRefine.v ===== *)
(** * The archived marketplace implements the auction house

    [house_of]: the house of [House] a storage stands for.  Every call is one
    action of the house, which it allows, with the same payments in the same
    order and the tokens handed over as the action says ([exec_acts]); so every
    orderly history is a run of the house, and what House proves holds of the
    contract: who gets a lot, and what becomes of every bid. *)

From stdpp Require Import base list gmap numbers.
From Stdlib Require Import ZArith Lia.
From S2P Require Import Prelude Evm Archive ArchiveFacts ArchiveSafety ArchiveHistory ArchiveEscrow House.

(** ** The house a storage stands for *)
Definition terms_of (i : MarketItem) : terms :=
  {| t_seller := seller i; t_contract := nftContract i; t_token := tokenId i; t_price := price i |}.
Definition best_of (i : MarketItem) : standing_bid :=
  if bool_decide (highestBidder i ≠ 0%N) then Some (highestBidder i, highestBid i) else None.

Definition item_lot (i : MarketItem) (offers : list Offer) : lot :=
  match isAuction i, sold i with
  | true, true => Hammered (terms_of i) (auctionEndTime i) (best_of i)
  | true, false => Auctioned (terms_of i) (auctionEndTime i) (best_of i)
  | false, true => Sold (terms_of i) (owner i)
  | false, false => Priced (terms_of i) offers
  end.

Definition lot_of (σ : Storage) (id : Z) : lot :=
  if decide (0 ≤ id < _itemIds σ)%Z then item_lot (item_at σ id) (_itemOffers σ).[id] else Vacant.

Definition house_of (σ : Storage) : House :=
  {| lot_at := lot_of σ; lots := _itemIds σ;
     credit := λ id a, (_auctionPendingReturns σ).[(id, a)]; boss := contract_owner σ |}.

(** The action a call is. *)
Definition action_of (m : msg) (c : call) (σ : Storage) : action :=
  let item id := item_at σ id in
  match c with
  | CCreateMarketItem a token p => OpenLot (msg_sender m) a token p
  | CCreateMarketSale _ id => Buy (msg_sender m) id (terms_of (item id))
  | CCreateAuction a token p =>
      OpenAuction (msg_sender m) a token p (block_timestamp m + AUCTION_DURATION)
  | CPlaceBid id => Bid (msg_sender m) id (msg_value m) (block_timestamp m)
  | CEndAuction id => Hammer id (terms_of (item id)) (best_of (item id)) (block_timestamp m)
  | CWithdrawBid id => Withdraw (msg_sender m) id (_auctionPendingReturns σ).[(id, msg_sender m)]
  | CMakeOffer id expiration =>
      MakeOffer id {| offer_buyer := msg_sender m; offer_price := msg_value m;
                      expirationTime := expiration |} (block_timestamp m)
  | CAcceptOffer id k =>
      let offers := (_itemOffers σ).[id] in
      Accept (msg_sender m) id (terms_of (item id)) offers k
        (default {| offer_buyer := 0; offer_price := 0; expirationTime := 0 |} (offers !! k))
        (block_timestamp m)
  | CTransferOwnership o => NewBoss (msg_sender m) o
  | CRenounceOwnership => NewBoss (msg_sender m) 0
  end.

(** The token an action hands over, and to whom; [this] holds the tokens of the
    open lots. *)
Definition hands_over (this : address) (x : action) : option (address * Z * address) :=
  match x with
  | OpenLot _ c token _ | OpenAuction _ c token _ _ => Some (c, token, this)
  | Buy who _ t => Some (t_contract t, t_token t, who)
  | Hammer _ t best _ =>
      Some (t_contract t, t_token t, match best with Some (b, _) => b | None => t_seller t end)
  | Accept _ _ t _ _ o _ => Some (t_contract t, t_token t, offer_buyer o)
  | _ => None
  end.
Definition given (g : option (address * Z * address)) (o : address → Z → address)
    (c : address) (id : Z) : address :=
  match g with
  | Some (c', id', to) => if decide (c' = c ∧ id' = id) then to else o c id
  | None => o c id
  end.

(** ** What holds of a storage between two calls *)
Record orderly_store (t : Z) (σ : Storage) : Prop := {
  os_wf : wf σ;
  os_offers id : ¬ created σ id ∨ isAuction (item_at σ id) = true → (_itemOffers σ).[id] = [];
  os_credit id a : ¬ created σ id → (_auctionPendingReturns σ).[(id, a)] = 0%Z;
  os_buyers id o : o ∈ (_itemOffers σ).[id] → offer_buyer o ≠ 0%N;
  os_hammered id : isAuction (item_at σ id) = true → sold (item_at σ id) = true →
    (auctionEndTime (item_at σ id) ≤ t)%Z ∧ owner (item_at σ id) = highestBidder (item_at σ id)
}.

Lemma house_of_ok t σ : orderly_store t σ → house_ok (house_of σ).
Proof.
  intros W. split; cbn.
  - apply (wf_ids _ (os_wf _ _ W)).
  - intros id Hid. unfold lot_of. by rewrite decide_False.
  - intros id a Hid. by apply (os_credit _ _ W).
Qed.

(** Storages that stand for the same house. *)
Lemma house_of_lot σ σ' id l :
  created σ id → _itemIds σ' = _itemIds σ → _auctionPendingReturns σ' = _auctionPendingReturns σ →
  contract_owner σ' = contract_owner σ → lot_of σ' id = l →
  (∀ k, k ≠ id → item_at σ' k = item_at σ k ∧ (_itemOffers σ').[k] = (_itemOffers σ).[k]) →
  put_lot id l (house_of σ) ≡ house_of σ'.
Proof.
  intros Hid En Ep Eb El Hne. split_and!; cbn; [|done|by rewrite Ep|done].
  intros k. case_decide as Hk; [by subst|]. unfold lot_of. destruct (Hne k) as [-> ->]; [congruence|].
  by rewrite En.
Qed.

Lemma house_of_new σ σ' l :
  (0 ≤ _itemIds σ)%Z → _itemIds σ' = (_itemIds σ + 1)%Z →
  _auctionPendingReturns σ' = _auctionPendingReturns σ →
  contract_owner σ' = contract_owner σ → _itemOffers σ' = _itemOffers σ →
  lot_of σ' (_itemIds σ) = l → (∀ k, k ≠ _itemIds σ → item_at σ' k = item_at σ k) →
  new_lot l (house_of σ) ≡ house_of σ'.
Proof.
  intros H0 En Ep Eb Eo El Hne. split_and!; cbn; [|done|by rewrite Ep|done].
  intros k. case_decide as Hk; [by subst|]. unfold lot_of. rewrite En, Eo, Hne by congruence.
  destruct (decide (0 ≤ k < _itemIds σ)%Z), (decide (0 ≤ k < _itemIds σ + 1)%Z); (done || lia).
Qed.

Section refine.
Context {E : Type} `{!ArchiveEnv E} (this : address) `{!ArchiveEnvLaws this E}.
Implicit Types (s : AState E) (m : msg) (e : E).

(** Buyers name the item's own collection, and offers are for items that were
    created: [createMarketSale] and [makeOffer] do not ask. *)
Definition orderly_call s (c : call) : Prop :=
  own_collection s c ∧ match c with CMakeOffer id _ => created (a_store s) id | _ => True end.

(** The house allows the action a call is, and is then the one the new storage
    stands for. *)
Definition allows m (c : call) s s' : Prop :=
  ∃ h, house_exec (action_of m c (a_store s)) (house_of (a_store s)) = Some h ∧
    h ≡ house_of (a_store s').

(** Reading items, offers and lots after the writes of a call. *)
Ltac read_lot :=
  intros; unfold lot_of, settle, create_item, item_at in *; cbn;
  rewrite ?mget_insert_ne, ?mget_insert_eq by done; try done.

Lemma lot_of_created σ id :
  created σ id → lot_of σ id = item_lot (item_at σ id) (_itemOffers σ).[id].
Proof. intros. unfold lot_of. by rewrite decide_True. Qed.

Lemma createMarketItem_allowed t m a token p s s' :
  orderly_store t (a_store s) → exec this m (CCreateMarketItem a token p) s = Ok (tt, s') →
  allows m (CCreateMarketItem a token p) s s'.
Proof.
  intros W H. pose proof (wf_ids _ (os_wf _ _ W)) as [H0 _]. cbn in H.
  apply archived_createMarketItem_Ok in H
    as (v & Es & _ & _ & Hs & Ha & _ & _ & Hu & _ & _ & Hc & Ht & Hp & Hpos).
  unfold allows. cbn. rewrite option_guard_True by done. eexists. split; [done|].
  rewrite Es. apply house_of_new; try done; [|read_lot].
  read_lot. rewrite decide_True by lia. unfold item_lot, terms_of.
  rewrite Ha, Hu, Hs, Hc, Ht, Hp, (os_offers _ _ W); [done|]. left. unfold created. lia.
Qed.

Lemma createAuction_allowed t m a token p s s' :
  orderly_store t (a_store s) → exec this m (CCreateAuction a token p) s = Ok (tt, s') →
  allows m (CCreateAuction a token p) s s'.
Proof.
  intros W H. pose proof (wf_ids _ (os_wf _ _ W)) as [H0 _]. cbn in H.
  apply archived_createAuction_Ok in H
    as (v & Es & _ & _ & Hs & Ha & Hb & _ & Hu & _ & _ & Hc & Ht & Hp & Hpos & He).
  unfold allows. cbn. rewrite option_guard_True by done. eexists. split; [done|].
  rewrite Es. apply house_of_new; try done; [|read_lot].
  read_lot. rewrite decide_True by lia. unfold item_lot, terms_of, best_of.
  by rewrite Ha, Hu, Hs, Hc, Ht, Hp, He, Hb.
Qed.

Lemma createMarketSale_allowed m a id s s' :
  created (a_store s) id → exec this m (CCreateMarketSale a id) s = Ok (tt, s') →
  allows m (CCreateMarketSale a id) s s'.
Proof.
  intros Hid H. cbn in H.
  apply archived_createMarketSale_Ok in H as (Ha & _ & Hu & Es & _).
  unfold allows. cbn. rewrite lot_of_created by done. unfold item_lot at 1. rewrite Ha, Hu.
  rewrite option_guard_True by done. eexists. split; [done|].
  rewrite Es. apply house_of_lot; try done; [|read_lot].
  read_lot. rewrite decide_True by done. unfold item_lot. cbn. by rewrite Ha.
Qed.

Lemma endAuction_allowed t m id s s' :
  orderly_store t (a_store s) → exec this m (CEndAuction id) s = Ok (tt, s') →
  allows m (CEndAuction id) s s'.
Proof.
  intros W H. cbn in H. apply archived_endAuction_Ok in H as (_ & Ha & Hend & Hu & Es & _).
  pose proof (auction_created s id (os_wf _ _ W) Ha) as Hid.
  unfold allows. cbn. rewrite lot_of_created by done. unfold item_lot at 1. rewrite Ha, Hu.
  rewrite option_guard_True by done. eexists. split; [done|].
  rewrite Es. apply house_of_lot; try done; [|read_lot].
  read_lot. rewrite decide_True by done. unfold item_lot. cbn. by rewrite Ha.
Qed.

Lemma withdrawBid_allowed m id s s' :
  exec this m (CWithdrawBid id) s = Ok (tt, s') → allows m (CWithdrawBid id) s s'.
Proof.
  intros H. cbn in H. apply archived_withdrawBid_Ok in H as (Hp & Es & _).
  unfold allows. cbn. rewrite option_guard_True by done. eexists. split; [done|].
  rewrite Es. split_and!; try done. intros id' a'. cbn. rewrite mget_insert.
  repeat case_decide; destruct_and?; simplify_eq; done || tauto.
Qed.

Lemma makeOffer_allowed m id expiration s s' :
  created (a_store s) id → exec this m (CMakeOffer id expiration) s = Ok (tt, s') →
  allows m (CMakeOffer id expiration) s s'.
Proof.
  intros Hid H. cbn in H. apply archived_makeOffer_Ok in H as (Hv & Ht & Hu & Ha & Es & _).
  unfold allows. cbn. rewrite lot_of_created by done. unfold item_lot at 1. rewrite Ha, Hu.
  rewrite option_guard_True by done. eexists. split; [done|].
  rewrite Es. apply house_of_lot; try done; [|read_lot].
  read_lot. rewrite decide_True by done. unfold item_lot. by rewrite Ha, Hu.
Qed.

Lemma placeBid_allowed t m id s s' :
  orderly_store t (a_store s) → (t ≤ block_timestamp m)%Z → msg_sender m ≠ 0%N →
  exec this m (CPlaceBid id) s = Ok (tt, s') → allows m (CPlaceBid id) s s'.
Proof.
  intros W Hnow Hm H. cbn in H.
  apply archived_placeBid_Ok in H as (Ha & Hend & Hbid & _ & _ & σ & Es & Hσ).
  pose proof (auction_created s id (os_wf _ _ W) Ha) as Hid.
  assert (sold (item_at (a_store s) id) = false) as Hu.
  { apply not_true_iff_false. intros Hs. destruct (os_hammered _ _ W id Ha Hs). lia. }
  unfold allows. cbn. rewrite lot_of_created by done. unfold item_lot at 1. rewrite Ha, Hu.
  rewrite option_guard_True by done. eexists. split; [done|]. rewrite Es.
  split_and!; cbn; rewrite ?outbid_lots.
  - intros k. rewrite outbid_lot_at. cbn. case_decide as Hk.
    + subst k. destruct Hσ as [[_ ->]|[_ ->]]; read_lot; rewrite decide_True by done;
        unfold item_lot, best_of; cbn; by rewrite Ha, Hu, bool_decide_true.
    + destruct Hσ as [[_ ->]|[_ ->]]; read_lot.
  - by destruct Hσ as [[_ ->]|[_ ->]].
  - intros k b. unfold best_of. destruct Hσ as [[Hb ->]|[Hb ->]].
    + by rewrite bool_decide_false by auto.
    + rewrite bool_decide_true by done. cbn. rewrite mget_insert.
      repeat case_decide; destruct_and?; simplify_eq; done || tauto.
  - unfold outbid. destruct Hσ as [[_ ->]|[_ ->]]; by repeat case_match.
Qed.

Lemma acceptOffer_allowed t m id k s s' :
  orderly_store t (a_store s) → msg_sender m ≠ 0%N →
  exec this m (CAcceptOffer id k) s = Ok (tt, s') → allows m (CAcceptOffer id k) s s'.
Proof.
  intros W Hm H. cbn in H.
  apply archived_acceptOffer_Ok in H as (o & Hk & Hsel & Hu & Hexp & Es & _).
  assert (isAuction (item_at (a_store s) id) = false) as Ha.
  { apply not_true_iff_false. intros Ha. by rewrite (os_offers _ _ W) in Hk by by right. }
  assert (created (a_store s) id) as Hid.
  { apply dec_stable. intros Hn. by rewrite (os_offers _ _ W) in Hk by by left. }
  unfold allows. cbn. rewrite Hk, lot_of_created by done. cbn.
  rewrite option_guard_True by (split_and!; [unfold item_lot; by rewrite Ha, Hu|done..]).
  eexists. split; [done|].
  rewrite Es. apply house_of_lot; try done; [|read_lot].
  read_lot. rewrite decide_True by done. unfold item_lot. cbn. by rewrite Ha.
Qed.

Lemma exec_allowed t m c s s' :
  orderly_store t (a_store s) → (t ≤ block_timestamp m)%Z → msg_sender m ≠ 0%N →
  orderly_call s c → exec this m c s = Ok (tt, s') → allows m c s s'.
Proof.
  intros W Ht Hm [[Hn _] Hc] H. destruct c.
  - by eapply createMarketItem_allowed.
  - by eapply createMarketSale_allowed.
  - by eapply createAuction_allowed.
  - by eapply placeBid_allowed.
  - by eapply endAuction_allowed.
  - by eapply withdrawBid_allowed.
  - by eapply makeOffer_allowed.
  - by eapply acceptOffer_allowed.
  - cbn in H. apply archived_transferOwnership_Ok in H as (_ & Es & _ & _ & Ho).
    unfold allows. cbn. rewrite option_guard_True by done. eexists. split; [done|].
    rewrite Es. by split_and!.
  - cbn in H. apply archived_renounceOwnership_Ok in H as (_ & Es & _ & _ & Ho).
    unfold allows. cbn. rewrite option_guard_True by done. eexists. split; [done|].
    rewrite Es. by split_and!.
Qed.

(** *** What a call pays, and which token it hands over *)
Lemma bid_due_of i :
  bid_due (terms_of i) (best_of i) =
    if bool_decide (highestBidder i ≠ 0%N) then [(seller i, highestBid i)] else [].
Proof. unfold bid_due, best_of. by destruct (bool_decide _). Qed.

Lemma refunds_imap now k i offers :
  refunds now k i offers =
    concat (imap (λ j o, if bool_decide (i + j ≠ k) && (now <=? expirationTime o)%Z
                         then [(offer_buyer o, offer_price o)] else []) offers).
Proof.
  revert i. induction offers as [|o offers IH]; intros i; [done|]. cbn. rewrite IH, Nat.add_0_r.
  do 2 f_equal. apply imap_ext. intros j o' _. cbn. by rewrite Nat.add_succ_r.
Qed.

Lemma back_refunds now k offers : refunds now k 0 offers = back now k offers.
Proof. apply refunds_imap. Qed.

Lemma exec_paid m c s s' :
  exec this m c s = Ok (tt, s') →
  a_paid s' = a_paid s ++ pays (contract_owner (a_store s)) (action_of m c (a_store s)).
Proof.
  intros H. destruct c; cbn in H |- *; rewrite ?app_nil_r.
  - by apply archived_createMarketItem_Ok in H as (v & _ & _ & _ & _ & _ & _ & _ & _ & _ & ? & _).
  - apply archived_createMarketSale_Ok in H as (_ & Hv & _ & _ & _ & Hp). by rewrite Hp, Hv.
  - by apply archived_createAuction_Ok in H as (v & _ & _ & _ & _ & _ & _ & _ & _ & _ & ? & _).
  - by apply archived_placeBid_Ok in H as (_ & _ & _ & _ & ? & _).
  - apply archived_endAuction_Ok in H as (_ & _ & _ & _ & _ & Hp). rewrite bid_due_of.
    destruct Hp as [(Hb & _ & Hp & _)|(Hb & _ & Hp & _)]; rewrite Hp.
    + by rewrite bool_decide_false by auto.
    + by rewrite bool_decide_true.
  - by apply archived_withdrawBid_Ok in H as (_ & _ & _ & ?).
  - by apply archived_makeOffer_Ok in H as (_ & _ & _ & _ & _ & _ & ?).
  - apply archived_acceptOffer_Ok in H as (o & Hk & _ & _ & _ & _ & _ & Hp).
    by rewrite Hp, Hk, back_refunds.
  - by apply archived_transferOwnership_Ok in H as (_ & _ & _ & ? & _).
  - by apply archived_renounceOwnership_Ok in H as (_ & _ & _ & ? & _).
Qed.

Lemma exec_given m c s s' c' id' :
  own_collection s c → exec this m c s = Ok (tt, s') →
  token_owner (a_env s') c' id' =
    given (hands_over this (action_of m c (a_store s))) (token_owner (a_env s)) c' id'.
Proof.
  intros [_ Hown] H%exec_moves. destruct c; cbn in H, Hown |- *; try by rewrite H.
  - destruct H as (e & (_ & Hmv & _)%transferFrom_moves & [Hk _]%updateCollectionStats_keeps & _).
    by rewrite Hk, Hmv.
  - destruct H as (e & (_ & Hmv & _)%transferFrom_moves & [Hk _]%updateCollectionStats_keeps).
    by rewrite Hk, Hmv, Hown.
  - by destruct H as ((_ & Hmv & _)%transferFrom_moves & _).
  - apply transferFrom_moves in H as (_ & Hmv & _). rewrite Hmv. unfold best_of.
    by destruct (bool_decide _).
  - destruct H as (o & Hk & (_ & Hmv & _)%transferFrom_moves). by rewrite Hmv, Hk.
Qed.

(** *** The storage stays orderly *)
Lemma orderly_later t t' σ : (t ≤ t')%Z → orderly_store t σ → orderly_store t' σ.
Proof.
  intros Ht [W Ho Hc Hy Hh]. split; [done..|]. intros id Ha Hs.
  destruct (Hh id Ha Hs). split; [lia|done].
Qed.

(** One item is written, or none. *)
Lemma orderly_one t σ σ' id i :
  orderly_store t σ → wf σ' → _itemIds σ' = _itemIds σ →
  (∀ k, item_at σ' k = if decide (id = k) then i else item_at σ k) →
  isAuction i = isAuction (item_at σ id) → _itemOffers σ' = _itemOffers σ →
  (∀ k a, ¬ created σ k → (_auctionPendingReturns σ').[(k, a)] = 0%Z) →
  (isAuction i = true → sold i = true →
     (auctionEndTime i ≤ t)%Z ∧ owner i = highestBidder i) →
  orderly_store t σ'.
Proof.
  intros [W Ho Hc Hy Hh] W' En Hi Hai Eo Hc' Hs. unfold created in *.
  split; unfold created; rewrite ?En, ?Eo; [done| |done|done|].
  - intros k [Hk|Ha]; apply Ho; [by left|right]. rewrite Hi in Ha. case_decide; congruence.
  - intros k. rewrite Hi. case_decide; [done|]. apply Hh.
Qed.

Lemma orderly_same t σ σ' :
  orderly_store t σ → wf σ' → _itemIds σ' = _itemIds σ →
  _idToMarketItem σ' = _idToMarketItem σ → _itemOffers σ' = _itemOffers σ →
  (∀ k a, ¬ created σ k → (_auctionPendingReturns σ').[(k, a)] = 0%Z) →
  orderly_store t σ'.
Proof.
  intros W W' En Ei Eo Hc. apply (orderly_one t σ σ' 0 (item_at σ 0)); try done.
  - intros k. unfold item_at. rewrite Ei. case_decide; by subst.
  - apply (os_hammered _ _ W).
Qed.

Lemma orderly_new t σ σ' :
  orderly_store t σ → wf σ' → _itemIds σ' = (_itemIds σ + 1)%Z →
  (∀ k, k ≠ _itemIds σ → item_at σ' k = item_at σ k) → sold (item_at σ' (_itemIds σ)) = false →
  _itemOffers σ' = _itemOffers σ → _auctionPendingReturns σ' = _auctionPendingReturns σ →
  orderly_store t σ'.
Proof.
  intros [W Ho Hc Hy Hh] W' En Hi Hs Eo Ep. pose proof (wf_ids _ W) as [H0 _].
  split; unfold created in *; rewrite ?En, ?Eo, ?Ep; [done|..].
  - intros k Hk. apply Ho. destruct (decide (k = _itemIds σ)) as [->|Hne]; [left; lia|].
    rewrite Hi in Hk by done. destruct Hk; [left; lia|by right].
  - intros k a Hk. apply Hc. lia.
  - exact Hy.
  - intros k. destruct (decide (k = _itemIds σ)) as [->|Hne]; [congruence|].
    rewrite Hi by done. apply Hh.
Qed.

Lemma exec_orderly t m c s s' :
  orderly_store t (a_store s) → (t ≤ block_timestamp m)%Z → msg_sender m ≠ 0%N →
  wf (a_store s') → orderly_call s c → exec this m c s = Ok (tt, s') →
  orderly_store (block_timestamp m) (a_store s').
Proof.
  intros W Ht Hm W' [[Hn _] Hc] H. apply (orderly_later _ _ _ Ht) in W. clear Ht.
  pose proof (os_credit _ _ W) as Hcr. destruct c as [a token p|a id|a token p|id|id|id|id x|id k|o|]; cbn in H.
  - apply archived_createMarketItem_Ok in H as (v & Es & _ & _ & _ & _ & _ & _ & Hu & _).
    rewrite Es in *. by apply (orderly_new _ _ _ W); read_lot.
  - apply archived_createMarketSale_Ok in H as (Ha & _ & _ & Es & _). rewrite Es in *.
    apply (orderly_one _ _ _ id (with_sale (msg_sender m) (item_at (a_store s) id)) W); try done.
    + intros k. apply mget_insert.
    + cbn. congruence.
  - apply archived_createAuction_Ok in H as (v & Es & _ & _ & _ & _ & _ & _ & Hu & _).
    rewrite Es in *. by apply (orderly_new _ _ _ W); read_lot.
  - apply archived_placeBid_Ok in H as (Ha & Hend & _ & _ & _ & σ & Es & Hσ). rewrite Es in *.
    pose proof (auction_created s id (os_wf _ _ W) Ha) as Hid.
    apply (orderly_one _ _ _ id (with_bid (msg_sender m) (msg_value m) (item_at (a_store s) id)) W);
      try (by destruct Hσ as [[_ ->]|[_ ->]]).
    + intros k. destruct Hσ as [[_ ->]|[_ ->]]; apply mget_insert.
    + intros k b Hk. destruct Hσ as [[_ ->]|[_ ->]]; cbn; [by apply Hcr|].
      rewrite mget_insert_ne; [by apply Hcr|]. intros [= -> _]. done.
    + intros _ Hs. destruct (os_hammered _ _ W id Ha Hs). lia.
  - apply archived_endAuction_Ok in H as (_ & Ha & Hend & _ & Es & _). rewrite Es in *.
    by apply (orderly_one _ _ _ id
      (with_sale (highestBidder (item_at (a_store s) id)) (item_at (a_store s) id)) W);
      try (intros k; apply mget_insert).
  - apply archived_withdrawBid_Ok in H as (_ & Es & _). rewrite Es in *.
    apply (orderly_same _ _ _ W); try done. intros k b Hk. cbn. rewrite mget_insert.
    case_decide; [done|by apply Hcr].
  - apply archived_makeOffer_Ok in H as (_ & _ & _ & Ha & Es & _). rewrite Es in *.
    destruct W as [W Ho _ Hy Hh]. split; [done| |done| |done].
    2: { intros k o. cbn. rewrite mget_insert. case_decide as Hk; [|apply Hy].
         intros [Hin| ->]%elem_of_snoc; [by eapply Hy|done]. }
    intros k Hk. cbn. rewrite mget_insert_ne; [by apply Ho|]. intros <-.
    destruct Hk as [Hk|Hk]; [done|].
    change (isAuction (item_at (a_store s) id) = true) in Hk. congruence.
  - apply archived_acceptOffer_Ok in H as (o & Hk & _ & _ & _ & Es & _). rewrite Es in *.
    assert (isAuction (item_at (a_store s) id) = false) as Ha.
    { apply not_true_iff_false. intros Ha. by rewrite (os_offers _ _ W) in Hk by by right. }
    apply (orderly_one _ _ _ id (with_sale (offer_buyer o) (item_at (a_store s) id)) W); try done.
    + intros j. apply mget_insert.
    + cbn. congruence.
  - apply archived_transferOwnership_Ok in H as (_ & Es & _). rewrite Es in *.
    by apply (orderly_same _ _ _ W).
  - apply archived_renounceOwnership_Ok in H as (_ & Es & _). rewrite Es in *.
    by apply (orderly_same _ _ _ W).
Qed.

(** ** Histories with their calls *)

(** One successful call, with the states around it. *)
Record entry := Entry {
  e_msg : msg;
  e_call : call;
  e_before : AState E;
  e_after : AState E
}.

(** What a call paid, in order. *)
Definition paid_in (e : entry) : list (address * Z) :=
  drop (length (a_paid (e_before e))) (a_paid (e_after e)).

(** [played t0 s0 l t s]: with the orderly calls [l], in order, the contract
    came from state [s0] at time [t0] to state [s] at time [t].  Between the
    calls the rest of the chain does what it likes, save take a token the
    contract holds. *)
Inductive played (t0 : Z) (s0 : AState E) : list entry → Z → AState E → Prop :=
| played_none : played t0 s0 [] t0 s0
| played_call l t s m c s' :
    played t0 s0 l t s →
    (t ≤ block_timestamp m)%Z → msg_sender m ≠ 0%N → msg_sender m ≠ this → (0 ≤ msg_value m)%Z →
    orderly_call s c → exec this m c s = Ok (tt, s') →
    played t0 s0 (l ++ [Entry m c s s']) (block_timestamp m) s'
| played_wait l t s t' b e :
    played t0 s0 l t s → (t ≤ t')%Z → (a_balance s ≤ b)%Z →
    (∀ c id, token_owner (a_env s) c id = this → token_owner e c id = this) →
    played t0 s0 l t' (Build_AState (a_store s) b (a_paid s) e (a_logs s)).

(** The states orderly calls lead to from the deployment. *)
Definition orderly (deployer factory : address) (t : Z) s : Prop :=
  ∃ t0 e l, played t0 (Build_AState (init deployer factory) 0 [] e []) l t s.

Lemma played_app t0 s0 l1 t1 s1 l2 t2 s2 :
  played t0 s0 l1 t1 s1 → played t1 s1 l2 t2 s2 → played t0 s0 (l1 ++ l2) t2 s2.
Proof.
  intros H1 H2. induction H2 as [|l t s m c s' H IH|l t s t' b e H IH]; [by rewrite app_nil_r| |].
  - rewrite app_assoc. by apply (played_call t0 s0 _ t).
  - by apply (played_wait t0 s0 _ t).
Qed.

Lemma orderly_played deployer factory t0 s0 l t s :
  orderly deployer factory t0 s0 → played t0 s0 l t s → orderly deployer factory t s.
Proof. intros (t1 & e & l1 & H1) H. exists t1, e, (l1 ++ l). by eapply played_app. Qed.

Lemma orderly_escrow deployer factory t s :
  orderly deployer factory t s → escrow_reached this deployer factory t s.
Proof.
  intros (t0 & e0 & l & H). induction H as [|l t s m c s' H IH Ht Hm Hm' Hv [Hc _] Hx|l t s t' b e H IH].
  - apply er_deploy.
  - by eapply er_exec.
  - by apply (er_wait this deployer factory t s).
Qed.

Lemma orderly_wf deployer factory t s : orderly deployer factory t s → wf (a_store s).
Proof. intros H%orderly_escrow%escrow_reached_reached. by apply reached_good in H as [W _]. Qed.

Lemma orderly_kept deployer factory t s :
  orderly deployer factory t s → orderly_store t (a_store s).
Proof.
  intros H. pose proof (orderly_wf _ _ _ _ H) as W. destruct H as (t0 & e0 & l & H). revert W.
  induction H as [|l t s m c s' H IH Ht Hm Hm' Hv Hc Hx|l t s t' b e H IH Ht]; intros W.
  - split; [done..|by intros id o Ho%elem_of_nil|]. intros id. by cbn.
  - eapply (exec_orderly t m c s s'); try done. apply IH.
    apply (orderly_wf deployer factory t). by exists t0, e0, l.
  - eapply orderly_later; [done|]. by apply IH.
Qed.

(** *** Every call is an action *)

(** [acted e x]: the call [e] was the action [x]; it paid what the action pays,
    and the one token that changed hands, if any, went where the action says. *)
Record acted (e : entry) (x : action) : Prop := {
  acted_action : x = action_of (e_msg e) (e_call e) (a_store (e_before e));
  acted_paid : paid_in e = pays (contract_owner (a_store (e_before e))) x;
  acted_given c id : token_owner (a_env (e_after e)) c id =
    given (hands_over this x) (token_owner (a_env (e_before e))) c id;
  acted_ran : exec this (e_msg e) (e_call e) (e_before e) = Ok (tt, e_after e)
}.

Lemma exec_acted m c s s' :
  own_collection s c → exec this m c s = Ok (tt, s') →
  acted (Entry m c s s') (action_of m c (a_store s)).
Proof.
  intros Hc H. split; cbn; [done| |by intros; apply exec_given|done].
  unfold paid_in. cbn. rewrite (exec_paid _ _ _ _ H). by rewrite drop_app_length.
Qed.

Lemma played_runs deployer factory t0 s0 l t s :
  orderly deployer factory t0 s0 → played t0 s0 l t s →
  ∃ xs h paid, house_run xs (house_of (a_store s0)) = Some (h, paid) ∧
    h ≡ house_of (a_store s) ∧ a_paid s = a_paid s0 ++ paid ∧ Forall2 acted l xs.
Proof.
  intros H0 H. induction H as [|l t s m c s' H IH Ht Hm Hm' Hv Hc Hx|l t s t' b e H IH].
  - exists [], (house_of (a_store s0)), []. cbn. by rewrite app_nil_r.
  - destruct IH as (xs & h & paid & Hr & Eh & Ep & Ha).
    pose proof (orderly_kept _ _ _ _ (orderly_played _ _ _ _ _ _ _ H0 H)) as W.
    destruct (exec_allowed t m c s s' W Ht Hm Hc Hx) as (k & Hk & Ek).
    pose proof (house_exec_proper (action_of m c (a_store s)) _ _ Eh) as E'. rewrite Hk in E'.
    inversion E' as [k' ? Ek' E1 E2|]; subst.
    exists (xs ++ [action_of m c (a_store s)]), k', (paid ++ pays (boss h) (action_of m c (a_store s))).
    split_and!.
    + rewrite house_run_app, Hr. cbn. rewrite <- E1. cbn. by rewrite app_nil_r.
    + by rewrite Ek'.
    + destruct Eh as (_ & _ & _ & ->). rewrite (exec_paid _ _ _ _ Hx), Ep. by rewrite app_assoc.
    + apply Forall2_app; [done|]. constructor; [|constructor].
      apply exec_acted; [by destruct Hc|done].
  - exact IH.
Qed.

(** C20: the archived contract implements the auction house of House: an orderly
    history is a run of it, call by call, between the houses the two states
    stand for; each call is an action the house allows, pays what that action
    pays, to the same accounts in the same order, and hands over the token that
    action hands over, to the account it says, and no other token. *)
Theorem archive_refines_house deployer factory t0 s0 l t s :
  orderly deployer factory t0 s0 → played t0 s0 l t s →
  ∃ xs h paid, house_run xs (house_of (a_store s0)) = Some (h, paid) ∧
    h ≡ house_of (a_store s) ∧ a_paid s = a_paid s0 ++ paid ∧ Forall2 acted l xs.
Proof. apply played_runs. Qed.

(** ** What becomes of bids *)

(** The bids of account [a] the contract holds: what it may take back, and the
    bids that stand, on auctions still running and on those it won. *)
Definition bids_held (a : address) (σ : Storage) : Z :=
  sum_Z (λ id, (_auctionPendingReturns σ).[(id, a)] +
               if decide (highestBidder (item_at σ id) = a) then highestBid (item_at σ id) else 0)%Z
    (seqZ 0 (_itemIds σ)).

(** What [a] sends with its bids, and what its withdrawals pay. *)
Definition bid_by (a : address) (e : entry) : Z :=
  match e_call e with
  | CPlaceBid _ => if decide (msg_sender (e_msg e) = a) then msg_value (e_msg e) else 0
  | _ => 0
  end.
Definition withdrawn_by (a : address) (e : entry) : Z :=
  match e_call e with
  | CWithdrawBid _ => if decide (msg_sender (e_msg e) = a) then sum_Z snd (paid_in e) else 0
  | _ => 0
  end.

Lemma acted_bid a (y : entry) x :
  acted y x → bid_of a x = bid_by a y ∧ withdrawn_of a x = withdrawn_by a y.
Proof.
  intros [-> Hp _ _]. unfold bid_by, withdrawn_by. rewrite Hp.
  destruct (e_call y); cbn; try done. case_decide; [|done]. by rewrite Z.add_0_r.
Qed.

Lemma acted_bids a l xs :
  Forall2 acted l xs →
  sum_Z (bid_of a) xs = sum_Z (bid_by a) l ∧ sum_Z (withdrawn_of a) xs = sum_Z (withdrawn_by a) l.
Proof.
  induction 1 as [|y x l xs Hx _ [IH1 IH2]]; [done|]. rewrite !sum_Z_cons.
  destruct (acted_bid a y x Hx) as [-> ->]. by rewrite IH1, IH2.
Qed.

Lemma in_house_of a σ : wf σ → a ≠ 0%N → in_house a (house_of σ) = bids_held a σ.
Proof.
  intros W Ha. apply sum_Z_ext. intros id Hid%elem_of_seqZ. unfold bid_in. cbn. f_equal.
  unfold lot_of. rewrite decide_True by lia. unfold item_lot, best_of.
  pose proof (wf_fixed _ W id) as Hf.
  destruct (isAuction (item_at σ id)), (sold (item_at σ id)); cbn;
    try (rewrite Hf by done; by case_decide);
    destruct (bool_decide_reflect (highestBidder (item_at σ id) ≠ 0%N)) as [|Hn]; try done;
    rewrite decide_False; [done|intros <-; by apply Hn|done|intros <-; by apply Hn].
Qed.

Lemma in_house_equiv a h k : h ≡ k → in_house a h = in_house a k.
Proof.
  intros (El & En & Ec & _). unfold in_house. rewrite En. apply sum_Z_ext.
  intros id _. unfold bid_in. by rewrite El, Ec.
Qed.

(** C23: no bid is ever lost.  In an orderly history, for every account, what the
    contract holds of its bids afterwards (refunds it may take, and the bids
    that stand, on running auctions and on those it won) and what its
    withdrawals paid it make up exactly what it held before and what the
    account bid since. *)
Theorem bids_accounted deployer factory t0 s0 l t s a :
  orderly deployer factory t0 s0 → played t0 s0 l t s → a ≠ 0%N →
  (bids_held a (a_store s) + sum_Z (withdrawn_by a) l =
   bids_held a (a_store s0) + sum_Z (bid_by a) l)%Z.
Proof.
  intros H0 H Ha. destruct (played_runs _ _ _ _ _ _ _ H0 H) as (xs & h & paid & Hr & Eh & _ & Hl).
  destruct (acted_bids a l xs Hl) as [<- <-].
  pose proof (orderly_wf _ _ _ _ H0) as W0.
  pose proof (orderly_wf _ _ _ _ (orderly_played _ _ _ _ _ _ _ H0 H)) as W.
  rewrite <- (in_house_of a (a_store s)), <- (in_house_of a (a_store s0)), <- (in_house_equiv a h) by done.
  eapply (house_bids xs _ h paid); [|done]. by eapply house_of_ok, orderly_kept.
Qed.

(** ** Who gets an item *)

(** The last bid on an item in a history, [b] when there is none. *)
Definition last_bid_in (id : Z) (b : standing_bid) (l : list entry) : standing_bid :=
  foldl (λ b y, match e_call y with
                | CPlaceBid id' =>
                    if decide (id' = id) then Some (msg_sender (e_msg y), msg_value (e_msg y)) else b
                | _ => b
                end) b l.

Lemma acted_last_bid id b l xs : Forall2 acted l xs → last_bid id b xs = last_bid_in id b l.
Proof.
  intros H. revert b. induction H as [|y x l xs Hx _ IH]; intros b; [done|].
  change (last_bid id (last_bid id b [x]) xs = last_bid_in id (last_bid_in id b [y]) l).
  rewrite IH. f_equal. destruct Hx as [-> _ _ _]. cbn. by destruct (e_call y).
Qed.

Lemma acted_elem l xs x : Forall2 acted l xs → x ∈ xs → ∃ y, y ∈ l ∧ acted y x.
Proof.
  intros H Hx. apply list_elem_of_lookup_1 in Hx as [i Hi].
  destruct (Forall2_lookup_r _ _ _ _ _ H Hi) as (y & Hy & Ha).
  exists y. split; [by eapply list_elem_of_lookup_2|done].
Qed.

(** The lot an item is, read backwards. *)
Lemma lot_of_spec σ id :
  match lot_of σ id with
  | Vacant => ¬ created σ id
  | Priced t offers =>
      isAuction (item_at σ id) = false ∧ sold (item_at σ id) = false ∧
      t = terms_of (item_at σ id) ∧ offers = (_itemOffers σ).[id]
  | Auctioned t ends best =>
      isAuction (item_at σ id) = true ∧ sold (item_at σ id) = false ∧
      t = terms_of (item_at σ id) ∧ ends = auctionEndTime (item_at σ id) ∧
      best = best_of (item_at σ id)
  | Sold t buyer =>
      isAuction (item_at σ id) = false ∧ sold (item_at σ id) = true ∧
      t = terms_of (item_at σ id) ∧ buyer = owner (item_at σ id)
  | Hammered t ends best =>
      isAuction (item_at σ id) = true ∧ sold (item_at σ id) = true ∧
      t = terms_of (item_at σ id) ∧ ends = auctionEndTime (item_at σ id) ∧
      best = best_of (item_at σ id)
  end.
Proof.
  unfold lot_of, item_lot. destruct (decide _); [|done].
  by destruct (isAuction _) eqn:?, (sold _) eqn:?.
Qed.

(** C22: an auction goes to the last bid.  However an orderly history goes on, the
    bid that stands on an auction is the last one placed on it; and when it is
    over, somebody ended it, not before its end time, and that call paid the
    last bid to the seller and the fee to the contract's owner, and gave the
    token to the last bidder, or back to the seller when nobody had bid. *)
Theorem auction_goes_to_last_bid deployer factory t0 s0 l t s id :
  let item := item_at (a_store s0) id in
  let item' := item_at (a_store s) id in
  let best := last_bid_in id (best_of item) l in
  orderly deployer factory t0 s0 → played t0 s0 l t s →
  isAuction item = true → sold item = false →
  best_of item' = best ∧
  (sold item' = true →
     owner item' = highestBidder item' ∧
     ∃ y, y ∈ l ∧ e_call y = CEndAuction id ∧
       (auctionEndTime item ≤ block_timestamp (e_msg y))%Z ∧
       paid_in y = bid_due (terms_of item) best ++
                     [(contract_owner (a_store (e_before y)), LISTING_PRICE)] ∧
       token_owner (a_env (e_after y)) (nftContract item) (tokenId item) =
         match best with Some (bidder, _) => bidder | None => seller item end).
Proof.
  intros item item' best H0 H Ha Hu.
  destruct (played_runs _ _ _ _ _ _ _ H0 H) as (xs & h & paid & Hr & (El & _) & _ & Hl).
  pose proof (orderly_kept _ _ _ _ H0) as W0.
  pose proof (orderly_kept _ _ _ _ (orderly_played _ _ _ _ _ _ _ H0 H)) as W.
  assert (lot_at (house_of (a_store s0)) id =
    Auctioned (terms_of item) (auctionEndTime item) (best_of item)) as Hlot.
  { cbn. rewrite lot_of_created by (by apply auction_created; [apply W0|]).
    unfold item_lot. fold item. by rewrite Ha, Hu. }
  specialize (El id). cbn in El. pose proof (lot_of_spec (a_store s) id) as Hs.
  pose proof (acted_last_bid id (best_of item) l xs Hl) as Hb. fold best in Hb.
  destruct (house_auction _ _ _ _ _ _ _ _ (house_of_ok _ _ W0) Hr Hlot) as [Ek|(now & Hin & Hn & Ek)];
    rewrite El, ?Hb in *; rewrite Ek in Hs; destruct Hs as (Ha' & Hu' & _ & _ & Hbest);
    (split; [done|]); intros Hsold; [unfold item' in *; congruence|].
  split; [by apply W|]. destruct (acted_elem _ _ _ Hl Hin) as (y & Hy & [Hx Hp Hg _]).
  assert (e_call y = CEndAuction id ∧ now = block_timestamp (e_msg y)) as [Hc ->]
    by (destruct (e_call y); cbn in Hx; try done; split; congruence).
  exists y. split_and!; [done..|]. rewrite Hg. cbn. by rewrite decide_True.
Qed.

(** A fixed-price item that was sold went to somebody who paid its price, or to
    somebody whose offer its seller accepted in time; that call handed over the
    token. *)
Theorem priced_item_goes_to deployer factory t0 s0 l t s id :
  let item := item_at (a_store s0) id in
  let item' := item_at (a_store s) id in
  orderly deployer factory t0 s0 → played t0 s0 l t s →
  created (a_store s0) id → isAuction item = false → sold item = false → sold item' = true →
  ∃ y, y ∈ l ∧
    token_owner (a_env (e_after y)) (nftContract item) (tokenId item) = owner item' ∧
    ((∃ c, e_call y = CCreateMarketSale c id ∧ msg_sender (e_msg y) = owner item' ∧
       msg_value (e_msg y) = price item) ∨
     (∃ k o, e_call y = CAcceptOffer id k ∧ msg_sender (e_msg y) = seller item ∧
       (_itemOffers (a_store (e_before y))).[id] !! k = Some o ∧ offer_buyer o = owner item' ∧
       (block_timestamp (e_msg y) ≤ expirationTime o)%Z)).
Proof.
  intros item item' H0 H Hid Ha Hu Hsold.
  destruct (played_runs _ _ _ _ _ _ _ H0 H) as (xs & h & paid & Hr & (El & _) & _ & Hl).
  pose proof (orderly_kept _ _ _ _ H0) as W0.
  assert (lot_at (house_of (a_store s0)) id =
    Priced (terms_of item) (_itemOffers (a_store s0)).[id]) as Hlot.
  { cbn. rewrite lot_of_created by done. unfold item_lot. fold item. by rewrite Ha, Hu. }
  specialize (El id). cbn in El. pose proof (lot_of_spec (a_store s) id) as Hs.
  fold item' in Hs.
  destruct (house_priced _ _ _ _ _ _ _ (house_of_ok _ _ W0) Hr Hlot)
    as [Ek|[(who & Hin & Ek)|(os & k & o & now & Hin & Hk & Hn & Ek)]];
    rewrite El in Ek; rewrite Ek in Hs; destruct Hs as (_ & Hs & _ & Ho); [congruence|..];
    destruct (acted_elem _ _ _ Hl Hin) as (y & Hy & [Hx Hp Hg Hrun]);
    exists y; (split; [done|]);
    (split; [rewrite Hg; cbn; by rewrite decide_True|]).
  - left. destruct y as [m c s1 s2]. destruct c as [|c id'| | | | | | | |]; cbn in Hx |- *; try done.
    exists c. cbn in Hrun. apply archived_createMarketSale_Ok in Hrun as (_ & Hv & _).
    assert (id' = id) as -> by congruence.
    assert (terms_of item = terms_of (item_at (a_store s1) id)) as Ht by congruence.
    split_and!; [done|congruence|]. rewrite Hv. by injection Ht.
  - right. destruct y as [m c s1 s2]. destruct c as [| | | | | | |id' k'| |]; cbn in Hx |- *; try done.
    assert (id' = id) as -> by congruence. assert (k' = k) as -> by congruence.
    assert (os = (_itemOffers (a_store s1)).[id]) as -> by congruence.
    exists k, o. split_and!; try done; congruence.
Qed.
End refine.

(** ** Witnesses *)
#[local] Existing Instance demo_env.
#[local] Existing Instance demo_laws.

(** The entries of a run of calls. *)
Fixpoint demo_entries (l : list (msg * call)) (s : AState demo_tokens) : list (@entry demo_tokens) :=
  match l with
  | [] => []
  | (m, c) :: l =>
      match exec 99%N m c s with
      | Ok (tt, s') => Entry m c s s' :: demo_entries l s'
      | Err _ => []
      end
  end.

(** Calls that are neither sales nor offers, sent by others than the contract. *)
Definition demo_simple (c : msg * call) : Prop :=
  demo_plain c ∧ match c.2 with CMakeOffer _ _ => False | _ => True end.

Lemma demo_run_played t0 s0 log l t s t' s' :
  Forall demo_simple l → played 99%N t0 s0 log t s → demo_run l t s = Some (t', s') →
  played 99%N t0 s0 (log ++ demo_entries l s) t' s'.
Proof.
  intros Hl. revert log t s. induction Hl as [|[m c] l [[Hm Hp] Ho] Hl IH]; intros log t s Hr H;
    cbn in H |- *; [simplify_eq; by rewrite app_nil_r|].
  destruct (_ && _) eqn:Hg in H; [|done]. bool_to_prop.
  destruct (exec _ _ _ _) as [[[] s1]|] eqn:Hx in H |- *; [|done].
  rewrite cons_middle, app_assoc. apply (IH _ (block_timestamp m) s1); [|done].
  apply (played_call _ t0 s0 log t); try done. by destruct c.
Qed.

Lemma demo_orderly : orderly 99%N 1%N 50%N 120%Z demo_state.
Proof.
  exists 0%Z, (a_env demo_start), (demo_entries demo_history demo_start).
  apply (demo_run_played 0 demo_start [] demo_history 0 demo_start).
  - by repeat constructor.
  - apply played_none.
  - by vm_compute.
Qed.

(** Account 11 takes its refund, and account 13 ends the auction. *)
Definition demo_ending : list (msg * call) :=
  [(demo_msg 11 0 130, CWithdrawBid 1); (demo_msg 13 0 1000000, CEndAuction 1)].
Definition demo_ended : AState demo_tokens :=
  match demo_run demo_ending 120 demo_state with Some (_, s) => s | None => demo_state end.

Lemma demo_ended_played :
  played 99%N 120%Z demo_state (demo_entries demo_ending demo_state) 1000000%Z demo_ended.
Proof.
  apply (demo_run_played 120 demo_state [] demo_ending 120 demo_state).
  - by repeat constructor.
  - apply played_none.
  - by vm_compute.
Qed.

Lemma archive_refines_house_witness :
  ∃ xs h paid, house_run xs (house_of (a_store demo_state)) = Some (h, paid) ∧
    length xs = 2 ∧ lot_at h 1 = lot_of (a_store demo_ended) 1.
Proof.
  destruct (archive_refines_house 99 1 50 120 demo_state _ 1000000 demo_ended demo_orderly
    demo_ended_played) as (xs & h & paid & H & [E _] & _ & Hl).
  exists xs, h, paid. split; [exact H|].
  split; [exact (eq_sym (Forall2_length Hl))|exact (E 1%Z)].
Defined.

Lemma bids_accounted_witness :
  (bids_held 11 (a_store demo_ended) +
     sum_Z (withdrawn_by 11) (demo_entries demo_ending demo_state) = 5 * 10 ^ 17)%Z ∧
  bids_held 11 (a_store demo_ended) = 0%Z.
Proof.
  assert (H0 : (bids_held 11 (a_store demo_state) +
    sum_Z (bid_by 11) (demo_entries demo_ending demo_state) = 5 * 10 ^ 17)%Z) by by_eval.
  assert (H1 : bids_held 11 (a_store demo_ended) = 0%Z) by by_eval.
  split; [|exact H1].
  exact (eq_trans (bids_accounted 99 1 50 120 demo_state _ 1000000 demo_ended 11 demo_orderly
    demo_ended_played ltac:(discriminate)) H0).
Defined.

Lemma auction_goes_to_last_bid_witness :
  best_of (item_at (a_store demo_ended) 1) = Some (12%N, 6 * 10 ^ 17)%Z ∧
  owner (item_at (a_store demo_ended) 1) = 12%N.
Proof.
  assert (A1 : isAuction (item_at (a_store demo_state) 1) = true) by by_eval.
  assert (S1 : sold (item_at (a_store demo_state) 1) = false) by by_eval.
  assert (S2 : sold (item_at (a_store demo_ended) 1) = true) by by_eval.
  assert (B1 : last_bid_in 1 (best_of (item_at (a_store demo_state) 1))
    (demo_entries demo_ending demo_state) = Some (12%N, 6 * 10 ^ 17)%Z) by by_eval.
  assert (W1 : highestBidder (item_at (a_store demo_ended) 1) = 12%N) by by_eval.
  destruct (auction_goes_to_last_bid 99 1 50 120 demo_state _ 1000000 demo_ended 1 demo_orderly
    demo_ended_played A1 S1) as [H Hs].
  destruct (Hs S2) as [Ho _]. split; [exact (eq_trans H B1)|exact (eq_trans Ho W1)].
Defined.
