(* ===== verification/ArchiveOffers.v ===== *)
(** * Offers of the archived marketplace

    When the acceptance of an offer goes through: in an orderly history the ether
    and the token are there, so it depends only on who takes ether.  The refunds of the other offers are
    pushed in the same call, so one offerer that refuses ether stops the seller
    from accepting any other offer. *)

From stdpp Require Import base list gmap numbers.
From Stdlib Require Import ZArith Lia.
From S2P Require Import Prelude Evm Archive ArchiveFacts ArchiveSafety ArchiveHistory ArchiveEscrow.
From S2P Require Import House HouseRefine.

Section offers.
Context {E : Type} `{!ArchiveEnv E} (this : address) `{!ArchiveEnvLaws this E}.
Implicit Types (s : AState E) (m : msg) (e : E).

(** ** The loop of refunds *)

(** Every offer but [k] that has not expired comes from an account that takes
    ether. *)
Definition others_receive (e : E) (now : Z) (k : nat) (offers : list Offer) : Prop :=
  ∀ j o, offers !! j = Some o → j ≠ k → (now ≤ expirationTime o)%Z →
    receives e (offer_buyer o) = true.

Lemma refunds_nonneg now k i offers :
  (∀ o, o ∈ offers → 0 ≤ offer_price o)%Z → (0 ≤ sum_Z snd (refunds now k i offers))%Z.
Proof.
  revert i. induction offers as [|o offers IH]; intros i Ho; [done|]. cbn [refunds].
  rewrite sum_Z_app. assert (0 ≤ offer_price o)%Z by (apply Ho; by left).
  assert (0 ≤ sum_Z snd (refunds now k (S i) offers))%Z by (apply IH; intros; apply Ho; by right).
  destruct (_ && _); rewrite ?sum_Z_cons, ?sum_Z_nil; cbn [snd]; lia.
Qed.

Lemma lookup_cons_all {A} (P : nat → A → Prop) (a : A) l :
  (∀ j b, (a :: l) !! j = Some b → P j b) ↔ P 0 a ∧ ∀ j b, l !! j = Some b → P (S j) b.
Proof.
  split; [intros H; split; [by apply H|intros j b; apply (H (S j))]|].
  intros [H0 H] [|j] b Hj; cbn in Hj; [by simplify_eq|by apply H].
Qed.

(** With the ether there, the loop runs to its end exactly when all whom it
    pays take ether. *)
Lemma refund_others_run now k i offers s :
  (∀ o, o ∈ offers → 0 ≤ offer_price o)%Z →
  (sum_Z snd (refunds now k i offers) ≤ a_balance s)%Z →
  is_ok (refund_others now k i offers s) = true ↔
  (∀ j o, offers !! j = Some o → i + j ≠ k → (now ≤ expirationTime o)%Z →
     receives (a_env s) (offer_buyer o) = true).
Proof.
  revert i s. induction offers as [|o offers IH]; intros i s Ho Hb; [by split|].
  assert (∀ o', o' ∈ offers → 0 ≤ offer_price o')%Z as Ho' by (intros; apply Ho; by right).
  assert (0 ≤ offer_price o)%Z as H0 by (apply Ho; by left).
  pose proof (refunds_nonneg now k (S i) offers Ho') as Hn.
  rewrite (lookup_cons_all (λ j o, i + j ≠ k → (now ≤ expirationTime o)%Z →
     receives (a_env s) (offer_buyer o) = true)).
  cbn [refunds refund_others] in *. rewrite sum_Z_app, Nat.add_0_r in *.
  destruct (_ && _) eqn:Hc.
  - bool_to_prop. rewrite sum_Z_cons, sum_Z_nil in Hb. cbn [snd] in Hb.
    unfold mbind, M_bind, transfer. rewrite (proj2 (Z.leb_le _ _)) by lia.
    destruct (receives (a_env s) (offer_buyer o)) eqn:Hr; cbn.
    + rewrite IH by (done || (cbn; lia)). cbn. setoid_rewrite Nat.add_succ_r. tauto.
    + split; [done|]. intros [Hx _]. by discriminate Hx.
  - cbn in Hb. unfold mbind, M_bind, mret, M_ret. rewrite IH by done. setoid_rewrite Nat.add_succ_r. split; [|by intros [_ ?]].
    intros Hrest. split; [|done]. intros Hik Hle. rewrite bool_decide_true in Hc by done.
    apply Z.leb_le in Hle. cbn in Hc. congruence.
Qed.

(** ** Accepting an offer *)

Lemma accept_iff deployer factory t s m id k offer :
  let item := item_at (a_store s) id in
  let offers := (_itemOffers (a_store s)).[id] in
  orderly this deployer factory t s → unsold (a_store s) id →
  msg_value m = 0%Z → msg_sender m = seller item →
  offers !! k = Some offer → (block_timestamp m <= expirationTime offer)%Z →
  is_ok (exec this m (CAcceptOffer id k) s) = true ↔
    receives (a_env s) (seller item) = true ∧
    receives (a_env s) (contract_owner (a_store s)) = true ∧
    others_receive (a_env s) (block_timestamp m) k offers.
Proof.
  intros item offers Ho [Hid Hs] Hv Hm Hk Hexp.
  pose proof (orderly_escrow _ _ _ _ _ Ho) as Hesc%escrow_reached_escrowed.
  pose proof (orderly_kept _ _ _ _ _ Ho) as Hst.
  pose proof (orderly_escrow _ _ _ _ _ Ho) as G%escrow_reached_reached%reached_good.
  pose proof (unsold_owed t s id G Hid Hs) as Hbal. pose proof (sold_room t s id G Hid Hs) as Hmax.
  destruct G as (W & _ & He). pose proof (wf_bids _ W id) as Hbid.
  pose proof (refunds_spare (block_timestamp m) k 0 offers offer (wf_offers _ W id) Hk) as Hsp.
  cbn [Nat.add] in Hsp. pose proof (refunds_nonneg (block_timestamp m) k 0 offers (wf_offers _ W id)).
  assert (offer_buyer offer ≠ 0%N) as Hbuyer
    by (eapply (os_buyers _ _ Hst id), list_elem_of_lookup_2; exact Hk).
  destruct (unsold_deliverable this s id (offer_buyer offer) Hesc (conj Hid Hs) Hbuyer)
    as (e & Ht & _ & Hrec). fold item in Hbid, Hs, Ht, Hbal. fold offers in Hbal.
  cbn [exec]. unfold acceptOffer, nonpayable, nonReentrant, count_sold, store, update, emit, external.
  rewrite Hv. run_block. rewrite He. cbn.
  change (item_at (set_entered true (a_store s)) id) with item.
  rewrite Hs, (bool_decide_true _ Hm). cbn. fold offers. unfold array_get. rewrite Hk. cbn.
  rewrite (proj2 (Z.leb_le _ _) Hexp). cbn. unfold checked_add.
  rewrite (proj2 (Z.leb_le _ uint256_max) Hmax). cbn. rewrite Ht. cbn. 
  unfold transfer at 1 2. cbn. pose proof (eq_refl : LISTING_PRICE = 5 * 10 ^ 14)%Z as Hfee.
  rewrite (proj2 (Z.leb_le (offer_price offer) _)), Hrec by lia.
  destruct (receives (a_env s) (seller item)); cbn; [|by split; [|intros [? _]]].
  rewrite (proj2 (Z.leb_le LISTING_PRICE _)), Hrec by lia.
  destruct (receives (a_env s) (contract_owner _)); cbn; [|by split; [|intros (_ & ? & _)]].
  match goal with |- context [refund_others _ _ _ _ ?s1] =>
    pose proof (refund_others_run (block_timestamp m) k 0 offers s1 (wf_offers _ W id)) as Hrun end.
  destruct (refund_others _ _ _ _ _) as [[[] s2]|]; cbn in Hrun |- *;
    (rewrite Hrun by lia); unfold others_receive; setoid_rewrite Hrec; tauto.
Qed.

(** C26: in an orderly history (over ERC721 contracts, sales name created items and
    the item's own collection, and offers are for created items) the seller of an
    item that is not sold can accept an offer that has not expired exactly when
    all whom the call pays take ether: the seller, the contract's owner, and
    everybody else whose offer on the item has not expired.  The ether and the
    token are there in every such history; but one offerer that refuses ether
    stops the seller from accepting any other offer. *)
Theorem acceptance_needs_everyone deployer factory t s m id k offer :
  let item := item_at (a_store s) id in
  let offers := (_itemOffers (a_store s)).[id] in
  orderly this deployer factory t s → unsold (a_store s) id →
  msg_value m = 0%Z → msg_sender m = seller item →
  offers !! k = Some offer → (block_timestamp m <= expirationTime offer)%Z →
  is_ok (exec this m (CAcceptOffer id k) s) = true ↔
    receives (a_env s) (seller item) = true ∧
    receives (a_env s) (contract_owner (a_store s)) = true ∧
    others_receive (a_env s) (block_timestamp m) k offers.
Proof. apply accept_iff. Qed.
End offers.

(** ** Witness *)
#[local] Existing Instance demo_env.
#[local] Existing Instance demo_laws.

(** A call keeps a history orderly. *)
Lemma demo_call t s m c s' :
  orderly 99%N 1%N 50%N t s → (t ≤ block_timestamp m)%Z → msg_sender m ≠ 0%N →
  msg_sender m ≠ 99%N → (0 ≤ msg_value m)%Z → orderly_call s c → exec 99%N m c s = Ok (tt, s') →
  orderly 99%N 1%N 50%N (block_timestamp m) s'.
Proof.
  intros Ho Ht Hm Hm' Hv Hc Hx.
  exact (orderly_played _ _ _ _ _ _ _ _ Ho (played_call _ _ _ _ _ _ _ _ _
    (played_none _ _ _) Ht Hm Hm' Hv Hc Hx)).
Qed.

(** Account 14 offers a fifth of the price for item 0. *)
Definition demo_offer : msg := demo_msg 14 (2 * 10 ^ 16) 140.
Definition demo_offered : AState demo_tokens :=
  match exec 99%N demo_offer (CMakeOffer 0 500) demo_state with
  | Ok (_, s) => s | Err _ => demo_state
  end.

Lemma demo_offered_orderly : orderly 99%N 1%N 50%N 140%Z demo_offered.
Proof.
  assert (C0 : created (a_store demo_state) 0) by by_eval.
  assert (X0 : exec 99%N demo_offer (CMakeOffer 0 500) demo_state = Ok (tt, demo_offered))
    by by_eval.
  exact (demo_call 120 demo_state demo_offer (CMakeOffer 0 500) demo_offered demo_orderly
    ltac:(done) ltac:(done) ltac:(done) ltac:(done) (conj (conj I I) C0) X0).
Qed.

Lemma acceptance_needs_everyone_witness :
  is_ok (exec 99%N (demo_msg 10 0 200) (CAcceptOffer 0 0) demo_offered) = true.
Proof.
  assert (U : unsold (a_store demo_offered) 0) by (split; by_eval).
  assert (S1 : 10%N = seller (item_at (a_store demo_offered) 0)) by by_eval.
  assert (K0 : (_itemOffers (a_store demo_offered)).[0%Z] !! 0 = Some
    {| offer_buyer := 14; offer_price := 2 * 10 ^ 16; expirationTime := 500 |}) by by_eval.
  apply (acceptance_needs_everyone 99 1 50 140 demo_offered (demo_msg 10 0 200) 0 0 _
    demo_offered_orderly U eq_refl S1 K0 ltac:(done)).
  exact (conj eq_refl (conj eq_refl (λ _ _ _ _ _, eq_refl))).
Defined.
