(* ===== verification/HouseRealise.v ===== *)
(** * What the auction house allows, the archived contract does

    The converse of HouseRefine: whenever the house allows the action a call
    is, and all whom the action pays take ether, the call goes through, under
    the conditions the house does not speak of ([ready]), and leads to the house
    the action leads to. *)

From stdpp Require Import base list gmap numbers.
From Stdlib Require Import ZArith Lia.
From S2P Require Import Prelude Evm Archive ArchiveFacts ArchiveSafety ArchiveHistory ArchiveEscrow.
From S2P Require Import House HouseRefine ArchiveOffers.

Section realise.
Context {E : Type} `{!ArchiveEnv E} (this : address) `{!ArchiveEnvLaws this E}.
Implicit Types (s : AState E) (m : msg) (e : E).

(** What the house leaves out: the right value is sent; a token that is listed
    can be moved and its collection is known; the factory takes note; the next
    number, time or amount fits in a word. *)
Definition ready m (c : call) s : Prop :=
  match c with
  | CCreateMarketItem a token p =>
      msg_value m = LISTING_PRICE ∧ (_itemIds (a_store s) + 1 ≤ uint256_max)%Z ∧
      ∃ contract e e', factory_collections (a_env s) (factoryAddress (a_store s)) a = Ok contract ∧
        contract ≠ 0%N ∧
        erc721_transferFrom a (msg_sender m) this token (a_env s) = Ok (tt, e) ∧
        factory_updateCollectionStats (factoryAddress (a_store s)) a p false e = Ok (tt, e')
  | CCreateAuction a token _ =>
      msg_value m = LISTING_PRICE ∧ (_itemIds (a_store s) + 1 ≤ uint256_max)%Z ∧
      (block_timestamp m + AUCTION_DURATION ≤ uint256_max)%Z ∧
      ∃ e, erc721_transferFrom a (msg_sender m) this token (a_env s) = Ok (tt, e)
  | CCreateMarketSale a id =>
      let item := item_at (a_store s) id in
      msg_value m = price item ∧ a = nftContract item ∧
      ∀ e, is_ok (factory_updateCollectionStats (factoryAddress (a_store s)) a (price item) true e) = true
  | CPlaceBid _ => (a_balance s + msg_value m ≤ uint256_max)%Z
  | CMakeOffer _ _ => True
  | CTransferOwnership o => msg_value m = 0%Z ∧ o ≠ 0%N
  | CEndAuction _ | CWithdrawBid _ | CAcceptOffer _ _ | CRenounceOwnership => msg_value m = 0%Z
  end.

Definition goes_through m (c : call) s : Prop := ∃ s', exec this m c s = Ok (tt, s').

Lemma createMarketItem_goes m a token p s :
  entered (a_store s) = false → (0 < p)%Z → ready m (CCreateMarketItem a token p) s →
  goes_through m (CCreateMarketItem a token p) s.
Proof.
  intros He Hp (Hv & Hn & contract & e & e' & Hf & Hc & Ht & Hst).
  unfold goes_through. cbn [exec].
  unfold createMarketItem, payable, nonReentrant, next_itemId, _addPriceHistory, store, update,
    emit, external, external_view, checked_add. run_block. rewrite He. cbn.
  rewrite (proj2 (Z.ltb_lt 0 p) Hp), Hv, Z.eqb_refl. cbn. rewrite Hf. cbn.
  rewrite bool_decide_true by done. cbn. rewrite (proj2 (Z.leb_le _ uint256_max) Hn). cbn.
  rewrite Ht. cbn. rewrite Hst. by eexists.
Qed.

Lemma createAuction_goes m a token p s :
  entered (a_store s) = false → (0 < p)%Z → ready m (CCreateAuction a token p) s →
  goes_through m (CCreateAuction a token p) s.
Proof.
  intros He Hp (Hv & Hn & Hend & e & Ht). unfold goes_through. cbn [exec].
  unfold createAuction, payable, nonReentrant, next_itemId, store, update, emit, external,
    checked_add. run_block. rewrite He. cbn.
  rewrite (proj2 (Z.ltb_lt 0 p) Hp), Hv, Z.eqb_refl. cbn.
  rewrite (proj2 (Z.leb_le _ uint256_max) Hn). cbn.
  rewrite (proj2 (Z.leb_le _ uint256_max) Hend). cbn. rewrite Ht. by eexists.
Qed.

Lemma makeOffer_goes m id expiration s :
  entered (a_store s) = false → (0 < msg_value m)%Z → (block_timestamp m < expiration)%Z →
  sold (item_at (a_store s) id) = false → isAuction (item_at (a_store s) id) = false →
  goes_through m (CMakeOffer id expiration) s.
Proof.
  intros He Hv Ht Hs Ha. unfold goes_through. cbn [exec].
  unfold makeOffer, payable, nonReentrant, store, update, emit. run_block. rewrite He. cbn.
  rewrite (proj2 (Z.ltb_lt _ _) Hv), (proj2 (Z.ltb_lt _ _) Ht). cbn.
  change (item_at (set_entered true (a_store s)) id) with (item_at (a_store s) id).
  rewrite Hs, Ha. by eexists.
Qed.

(** The bid that stands and the credit of its bidder are in the contract. *)
Lemma bid_covered t s id a :
  good t s → created (a_store s) id → sold (item_at (a_store s) id) = false →
  ((_auctionPendingReturns (a_store s)).[(id, a)] + highestBid (item_at (a_store s) id)
   ≤ a_balance s)%Z.
Proof.
  intros (W & Ho & _) Hid Hs. pose proof (owed_parts t _ W) as (_ & _ & Hk).
  pose proof (locked_covered t _ id W Hid) as Hl. unfold locked at 1 in Hl. rewrite Hs in Hl. cbn in Hl.
  assert ((_auctionPendingReturns (a_store s)).[(id, a)] ≤
    map_sum Datatypes.id (_auctionPendingReturns (a_store s)))%Z
    by (apply (map_sum_mget Datatypes.id); [done|by apply pending_nonneg]).
  unfold owed, LISTING_PRICE in *. lia.
Qed.

Lemma placeBid_goes m id s :
  let item := item_at (a_store s) id in
  entered (a_store s) = false → isAuction item = true →
  (block_timestamp m < auctionEndTime item)%Z →
  (price item + MIN_AUCTION_INCREMENT ≤ msg_value m)%Z → (msg_value m ≤ uint256_max)%Z →
  ((_auctionPendingReturns (a_store s)).[(id, highestBidder item)] + highestBid item ≤ uint256_max)%Z →
  goes_through m (CPlaceBid id) s.
Proof.
  intros item He Ha Ht Hv Hmax Hc. unfold goes_through. cbn [exec].
  unfold placeBid, payable, nonReentrant, refund_previous, _addPriceHistory, store, update, emit,
    checked_add. run_block. rewrite He. cbn.
  change (item_at (set_entered true (a_store s)) id) with item.
  rewrite Ha, (proj2 (Z.ltb_lt _ _) Ht). cbn.
  rewrite (proj2 (Z.leb_le (price item + _) uint256_max)) by lia. cbn.
  rewrite (proj2 (Z.leb_le _ _) Hv). cbn.
  destruct (bool_decide _); cbn; [rewrite (proj2 (Z.leb_le _ uint256_max) Hc)|]; by eexists.
Qed.

(** All whom an action pays take ether. *)
Definition payees_receive (e : E) (b : address) (x : action) : Prop :=
  ∀ a v, (a, v) ∈ pays b x → receives e a = true.

Lemma endAuction_goes t m id s :
  let item := item_at (a_store s) id in
  good t s → escrowed this (a_store s) (a_env s) → isAuction item = true → sold item = false →
  (auctionEndTime item ≤ block_timestamp m)%Z → msg_value m = 0%Z →
  payees_receive (a_env s) (contract_owner (a_store s))
    (Hammer id (terms_of item) (best_of item) (block_timestamp m)) →
  goes_through m (CEndAuction id) s.
Proof.
  intros item G Hesc Ha Hs Hend Hv Hp. pose proof G as (W & _ & He).
  pose proof (auction_created s id W Ha) as Hid.
  set (winner := if bool_decide (highestBidder item = 0%N) then seller item else highestBidder item).
  assert (winner ≠ 0%N) as Hw.
  { unfold winner. destruct (bool_decide_reflect (highestBidder item = 0%N)); [|done].
    by apply (wf_seller _ W). }
  destruct (unsold_deliverable this s id winner Hesc (conj Hid Hs) Hw) as (e & Hnft & _ & Hrec).
  destruct (endAuction_run this m id s e) as (s' & Hx & _); try done.
  - by apply (sold_room t s id G).
  - apply (wf_bids _ W).
  - by apply (unsold_covered t s id G).
  - intros Hb. apply (Hp _ (highestBid item)). cbn. rewrite bid_due_of. fold item.
    rewrite bool_decide_true by done. by left.
  - rewrite Hrec. apply (Hp _ LISTING_PRICE). cbn. apply elem_of_app. right. by left.
  - by exists s'.
Qed.

Lemma createMarketSale_goes t m a id s :
  let item := item_at (a_store s) id in
  good t s → escrowed this (a_store s) (a_env s) → created (a_store s) id →
  isAuction item = false → sold item = false → msg_sender m ≠ 0%N →
  ready m (CCreateMarketSale a id) s →
  payees_receive (a_env s) (contract_owner (a_store s)) (Buy (msg_sender m) id (terms_of item)) →
  goes_through m (CCreateMarketSale a id) s.
Proof.
  intros item G Hesc Hid Ha Hs Hm (Hv & -> & Hf) Hp. pose proof G as (W & _ & He).
  pose proof (unsold_covered t s id G Hid Hs) as Hbal. pose proof (wf_bids _ W id).
  destruct (unsold_deliverable this s id (msg_sender m) Hesc (conj Hid Hs) Hm) as (e & Ht & _ & Hrec).
  specialize (Hf e). destruct (factory_updateCollectionStats _ _ _ _ e) as [[[] e']|] eqn:Hst; [|done].
  pose proof (updateCollectionStats_keeps _ _ _ _ _ _ _ Hst) as [_ Hrec'].
  destruct (archived_sale_run this m (nftContract item) id s e e') as (s' & Hx & _); try done.
  - by apply (sold_room t s id G).
  - apply (Hp _ (price item)). by left.
  - rewrite Hrec', Hrec. apply (Hp _ LISTING_PRICE). right. by left.
  - lia.
  - by exists s'.
Qed.

(** An offer other than [k] that has not expired is among those sent back. *)
Lemma back_elem now k offers j o :
  offers !! j = Some o → j ≠ k → (now ≤ expirationTime o)%Z →
  (offer_buyer o, offer_price o) ∈ back now k offers.
Proof.
  intros Hj Hk Hn. unfold back. apply list_elem_of_In, List.in_concat.
  exists [(offer_buyer o, offer_price o)]. split; [|by left].
  apply list_elem_of_In, elem_of_lookup_imap. exists j, o. split; [|done].
  by rewrite bool_decide_true, (proj2 (Z.leb_le _ _) Hn).
Qed.

Lemma lot_created σ id : lot_of σ id ≠ Vacant → created σ id.
Proof. intros Hl. pose proof (lot_of_spec σ id). unfold lot_of in *. by destruct (decide _). Qed.

(** Reads the guard of the action, and the item behind its lot. *)
Ltac open_lot Hx id :=
  let Hl := fresh "Hl" in let Hid := fresh "Hid" in
  match type of Hx with context [lot_of ?σ id] =>
    pose proof (lot_of_spec σ id) as Hl; pose proof (lot_created σ id) as Hid;
    destruct (lot_of σ id); try discriminate Hx; specialize (Hid ltac:(done));
    case_guard; [|discriminate Hx]; clear Hx; destruct_and?; subst
  end.

(** The call of an action the house allows is orderly and goes through. *)
Lemma allowed_goes deployer factory t s m c h :
  orderly this deployer factory t s → msg_sender m ≠ 0%N → (0 ≤ msg_value m)%Z →
  house_exec (action_of m c (a_store s)) (house_of (a_store s)) = Some h →
  payees_receive (a_env s) (contract_owner (a_store s)) (action_of m c (a_store s)) →
  ready m c s → orderly_call s c ∧ goes_through m c s.
Proof.
  intros Ho Hm H0 Hx Hp Hr.
  pose proof (orderly_escrow _ _ _ _ _ Ho) as Hesc%escrow_reached_escrowed.
  pose proof (orderly_escrow _ _ _ _ _ Ho) as G%escrow_reached_reached%reached_good.
  pose proof G as (W & Hbal & He). pose proof (owed_parts t _ W) as (? & ? & ?).
  destruct c as [a token p|a id|a token p|id|id|id|id x|id k|o|]; cbn [action_of] in Hx, Hp;
    cbn [house_exec lot_at house_of] in Hx.
  - case_guard; [|done]. split; [done|]. by apply createMarketItem_goes.
  - open_lot Hx id. split; [split; [|done]; split; [done|apply Hr]|].
    by apply (createMarketSale_goes t).
  - case_guard; [|done]. split; [done|]. by apply createAuction_goes.
  - open_lot Hx id. split; [done|].
    pose proof (bid_covered t s id (highestBidder (item_at (a_store s) id)) G Hid ltac:(done)) as Hc.
    cbn in Hr. unfold owed in Hbal.
    apply placeBid_goes; try done; lia.
  - open_lot Hx id. split; [done|]. by apply (endAuction_goes t).
  - case_guard as Hg; [clear Hx|done]. destruct Hg as [Hpos _]. split; [done|].
    pose proof (pending_covered t s (id, msg_sender m) G).
    destruct (withdrawBid_run this m id s) as (s' & Hrun & _); try done.
    + apply (Hp _ (_auctionPendingReturns (a_store s)).[(id, msg_sender m)]). by left.
    + by exists s'.
  - open_lot Hx id. split; [done|]. by apply makeOffer_goes.
  - case_guard as Hg; [clear Hx|done]. destruct Hg as (Hl & Hsel & Hk & Hn).
    destruct ((_itemOffers (a_store s)).[id] !! k) as [o|] eqn:Ek; [|done]. cbn in Hn, Hp.
    pose proof (lot_of_spec (a_store s) id) as Hs. rewrite Hl in Hs. destruct Hs as (Ha & Hs & _).
    assert (created (a_store s) id) as Hid by (apply lot_created; congruence).
    split; [done|]. assert (is_ok (exec this m (CAcceptOffer id k) s) = true) as Hok.
    { apply (accept_iff this deployer factory t s m id k o); try done. split_and!.
      - apply (Hp _ (offer_price o)). by left.
      - apply (Hp _ LISTING_PRICE). right. by left.
      - intros j o' Hj Hjk Hn'. apply (Hp _ (offer_price o')). right. right. by eapply back_elem. }
    unfold goes_through. destruct (exec _ _ _ _) as [[[] s']|]; [by exists s'|done].
  - case_guard as Hg; [clear Hx|done]. cbn in Hg. destruct Hr as [Hv Hn]. split; [done|].
    unfold goes_through. cbn [exec]. unfold transferOwnership, nonpayable, onlyOwner, store, update.
    rewrite Hv. run_block. rewrite !bool_decide_true by done. by eexists.
  - case_guard as Hg; [clear Hx|done]. cbn in Hg, Hr. split; [done|].
    unfold goes_through. cbn [exec]. unfold renounceOwnership, nonpayable, onlyOwner, store, update.
    rewrite Hr. run_block. rewrite bool_decide_true by done. by eexists.
Qed.

(** C21: the archived contract offers the whole auction house.  In every orderly
    history, when the house allows the action a call is (a lot, a purchase, a
    bid, the hammer, a withdrawal, an offer, its acceptance, a new owner) and all
    whom the action pays take ether, the call goes through, and leads to the
    house the action leads to.  What the house does not speak of is asked for:
    the right value, a token that can be moved, numbers that fit in a word. *)
Theorem house_actions_realised deployer factory t s m c h :
  orderly this deployer factory t s →
  (t ≤ block_timestamp m)%Z → msg_sender m ≠ 0%N → (0 ≤ msg_value m)%Z →
  house_exec (action_of m c (a_store s)) (house_of (a_store s)) = Some h →
  payees_receive (a_env s) (contract_owner (a_store s)) (action_of m c (a_store s)) →
  ready m c s →
  ∃ s', exec this m c s = Ok (tt, s') ∧ h ≡ house_of (a_store s').
Proof.
  intros Ho Ht Hm Hv Hx Hp Hr.
  destruct (allowed_goes _ _ _ _ _ _ _ Ho Hm Hv Hx Hp Hr) as [Hc [s' Hs']]. exists s'. split; [done|].
  destruct (exec_allowed this t m c s s') as (h' & Hh' & E'); try done.
  - by eapply orderly_kept.
  - by simplify_eq.
Qed.
End realise.

(** ** Witness *)
#[local] Existing Instance demo_env.
#[local] Existing Instance demo_laws.

(** Account 13 outbids account 12. *)
Lemma house_actions_realised_witness :
  ∃ s', exec 99%N (demo_msg 13 (7 * 10 ^ 17) 130) (CPlaceBid 1) demo_state = Ok (tt, s') ∧
    lot_of (a_store s') 1 =
      Auctioned {| t_seller := 10; t_contract := 7; t_token := 3; t_price := 10 ^ 17 |}
        (100 + AUCTION_DURATION) (Some (13%N, 7 * 10 ^ 17)%Z).
Proof.
  set (m := demo_msg 13 (7 * 10 ^ 17) 130).
  assert (B : match house_exec (action_of m (CPlaceBid 1) (a_store demo_state))
                      (house_of (a_store demo_state)) with
              | Some h => lot_at h 1 = Auctioned
                  {| t_seller := 10; t_contract := 7; t_token := 3; t_price := 10 ^ 17 |}
                  (100 + AUCTION_DURATION) (Some (13%N, 7 * 10 ^ 17)%Z)
              | None => False
              end) by by_eval.
  assert (R : ready 99 m (CPlaceBid 1) demo_state) by by_eval.
  destruct (house_exec _ _) as [h|] eqn:Hx; [|destruct B].
  destruct (house_actions_realised 99 1 50 120 demo_state m (CPlaceBid 1) h demo_orderly
    ltac:(done) ltac:(done) ltac:(done) Hx (λ _ _ _, eq_refl) R) as (s' & Hs & [E _]).
  exists s'. split; [exact Hs|]. exact (eq_trans (eq_sym (E 1%Z)) B).
Defined.
